(* ===== verification/_CoqProject ===== *)
-Q . S2P
Prelude.v
Utf8.v
RpcMethods.v
RpcProtocol.v
Wire.v
RpcCodec.v
DelayQueue.v
HashSetDelay.v
RpcHandler.v
RpcFrames.v
RpcShutdown.v
RpcPending.v
RpcExchange.v
RpcDelivery.v
Env.v
Client.v
PeerInfo.v
PeerDB.v
UnitTests.v
EnrExt.v
Keys.v
Config.v
Discovery.v
Globals.v
PeerManager.v
RpcBehaviour.v
Behaviour.v
ProtocolsHandler.v
Delegate.v
ConnHandler.v
Service.v
Bans.v
Mothra.v
NodeLoop.v
Executor.v
Startup.v
Ffi.v
