(* ===== verification/Prelude.v ===== *)
(** * Mothra: a verification development

    Mothra (src/) is a peer-to-peer networking service: an application gossips
    messages and exchanges status requests with the peers libp2p and discv5
    connect it to.  The development models the program's own logic, one file
    per component, and proves what makes each correct; where the code does
    something else than it means to, a theorem says what it does.

    ** The program and the files

    From the application down to the wire (paths are under
    src/core/network/src/ unless they start with src/):

    - [Ffi] (src/core/ffi/src/lib.rs): the functions an application calls from
      C, the [Subscriber] that calls its C functions back, and what happens to
      the task of the network service when such a call panics.
    - [Startup] (service.rs, behaviour/mod.rs, peer_manager/mod.rs,
      discovery/mod.rs, src/core/src/mothra.rs): [Mothra::new] and the
      constructors under it, from the key file to the addresses dialed.
    - [Mothra] (src/core/src/mothra.rs): the table of incoming requests, the
      messages of the application ([on_message]) and the events of the service
      ([on_libp2p_event]), the two arms of the loop of [spawn_mothra].
    - [NodeLoop] (src/core/src/mothra.rs): that loop; one turn is [loop_step],
      with the connections of the swarm followed beside it.  [Executor]
      (executor.rs) spawns it and the other tasks, and ends them.
    - [Service] (service.rs): the loop [next_event] over the swarm and the two
      ban timers; one turn is [service_arm], the swarm's own events are
      [on_swarm_event].  [Bans] follows the bans of a run of it.
    - [Behaviour] (behaviour/mod.rs): joins gossipsub, RPC, identify and the
      peer manager; [poll], [custom_poll], [on_rpc_event] and the others keep
      their names.
    - [RpcBehaviour] (rpc/mod.rs): the queue between the behaviour and the
      connection handlers.
    - [ConnHandler], [Delegate] (behaviour/handler/mod.rs, delegate.rs): the
      handler of a connection, which joins those of gossipsub, RPC and identify
      and winds the connection down.  [ProtocolsHandler] is libp2p's trait of
      handlers: a record of a state and its methods, of which both are
      instances.
    - [PeerManager] (peer_manager/mod.rs): timers, discovery and the event
      queue; [poll_next] and its four loops.  [Globals] (types/globals.rs) is
      the shared state; the peer database in it is written through the manager.
    - [PeerDB], [PeerInfo], [Client] (peer_manager/peerdb.rs, peer_info.rs,
      client.rs): the database of peers, the connection-status state machine
      and the parsing of agent strings.
    - [UnitTests]: the unit tests of peerdb.rs and hashset_delay.rs as runs on
      the model.  (Those of enr_ext.rs and rpc/codec/base.rs evaluate one
      constant through the libraries and are not modelled.)
    - [Discovery], [EnrExt], [Keys] (discovery/mod.rs, enr.rs, enr_ext.rs,
      service.rs): the query queue, the node records, the conversions between
      the keys of libp2p and of records, and the key file.
    - [Config] (src/core/src/config.rs, cli.rs, network/src/config.rs): the
      defaults and the command line; [apply_cli_args] is a method that assigns
      as it goes and stops at the first error.
    - [HashSetDelay] (hashset_delay.rs): a set whose entries expire, used for
      the ping and status timers, over tokio's delay queue ([DelayQueue]).
    - [RpcHandler] (rpc/handler.rs): the substreams of one connection; every
      method of the handler and all phases of its [poll].  [RpcFrames] says
      which fields each phase leaves alone; [RpcShutdown] that a handler that
      is shut down is never active again.
    - [RpcPending], [RpcDelivery] (rpc/handler.rs): polling a handler until it
      is pending, what is left then, and that no response is lost on the way.
    - [RpcExchange]: two handlers at the ends of a connection and the codecs
      between them, run against tokio's framed sockets ([Framed]).
    - [RpcCodec], [RpcProtocol], [RpcMethods] (rpc/codec/, protocol.rs,
      methods.rs): messages, their encodings, the incremental decoders and the
      upgrades.  [Wire] is the interface of the length prefix and the snappy
      frames, [Utf8] the validity check of Rust strings.

    A method [T::m] of the source is a definition [m] (or [T_m], or a name that
    says its owner where two would clash) from the state before to the state
    after, in the order of the source's statements; a struct is a record with
    the source's field names and setters [set_f]; log lines are left out.

    ** Conventions

    [Outcome] (below) has the normal return, the panic and the exhausted fuel.
    Integers keep their width: the unchecked [+] of a build with overflow
    checks panics and otherwise wraps ([BuildProfile]); [wrapping] atomics wrap.
    Time is an argument [now] of the operations that read a clock, one instant
    for one operation; in [PeerManager] and [Behaviour] one instant for one
    poll.  A poll that is [Pending] answers [None] (or [Pending] where the
    code passes on a [Poll]).  The order of a [HashMap] is a parameter of which
    only the permutation law is known ([HashOrder]), so theorems hold for every
    order; tokio's [select!] is any sequence of arms.

    Libraries are classes, with their documented behaviour as classes of laws:
    [Libp2p] (identifiers and addresses), [DelayQueue], [Wire], [Streams] (a
    framed substream), [Framed] (its codec and its buffers), [Enrs], [Discv5Lib], [IntervalLib], [SubProtocols]
    (gossipsub, identify), [SubHandlers] (their connection handlers),
    [SwarmTypes] (the order of [KeepAlive]), [SwarmLib], [KeyLib] and
    [PeerIdLib] (the curves and peer ids, with [KeyLaws] and [RecordLaws] on
    what a record and a peer id hold of a key), [StartLib] (the constructors),
    [Texts], [Clap], [ConfigLibs], [Platform], [CLibs] (the C functions and
    env_logger).
    Each has a concrete instance with its laws proved, on which the witnesses of
    the theorems are evaluated.
    [DelayQueueAlive] says that tokio's timer is running: with a timer that is
    shut down the polling loops of the peer manager would spin.  A delay queue
    panics when it is given a duration too far in the future, as it documents:
    [dq_limit] is the longest duration it takes, of which only that it is a day
    at least is assumed, more than all the constants of the program.

    ** What is proved

    - Invariants of all reachable states: the database counts its disconnected
      peers exactly and keeps at most 30 ([PeerDB.reachable_wf]); timers and
      entries of a [HashSetDelay] correspond; discovery runs at most one query
      ([Discovery.discovery_single_query]); no connection is ever recorded as
      ingoing and no peer as banned
      ([Behaviour.never_ingoing_never_banned]); a process starts at most one
      network ([Ffi.one_network]).
    - The start: [Mothra::new] returns, and a node that starts is in one of the
      reachable states the other theorems speak of ([Startup.node_starts],
      [Startup.service_starts]), under one peer id which it keeps across
      restarts in the same data directory ([Startup.restart_keeps_peer_id]); what it dials
      ([Startup.dialed_at_start]).
    - The whole node: in every state a node can reach from its start, the next
      turn of its loop ends, except for a gossip message without a topic; and a
      peer recorded as connected is backed by a connection of the swarm
      ([NodeLoop.node_runs]).
    - Typing: the sides of the nested protocols, infos and errors of a
      connection always agree, so that no [unreachable!] is reached
      ([ConnHandler.connection_calls_return]).
    - Termination and absence of panics: every call of the connection handler,
      of the peer manager and of the database returns, and so does polling the
      behaviour ([RpcHandler.run_call_returns],
      [PeerManager.manager_calls_return], [Behaviour.behaviour_poll_returns],
      [PeerDB.shrink_to_fit_spec]).
    - Refinements and functional specifications: the combined connection
      handler as three independent runs, with which of them each poll reaches
      ([Delegate.delegation_history]); the
      bans of a run as the ledger of their timers ([Bans.ban_ledger]);
      [HashSetDelay] as a map from keys to deadlines; the RPC behaviour and the manager's events as queues;
      eviction, reputation, connection counting, dialing, metadata, the choice
      of the node record, the addresses dialed, the settings a command line
      gives ([Config.cli_settings]).
    - Round trips: what the codecs encode they decode, however the bytes are
      cut into reads, and the decoders never pass the size limit; the node id
      of a peer id is the one of its record ([Keys.node_id_of_peer_id]).
    - The exchange of a request and its response between two nodes: a response
      that is reported is the one the other node's application gave for that
      substream, whatever either node did before and however the bytes were cut
      and delayed ([RpcExchange.response_is_the_answer]); a request is read by
      the other node as it was made, and reported under a substream of its own
      ([RpcExchange.request_arrives]).
    - The answer of a node: on each substream a peer opened, the bytes sent are
      none or those of one response, given for it, and no later one is ever
      added ([RpcExchange.one_response_per_substream]).
    - Liveness of the connection handler: polled until it is pending it answers
      a bounded number of events and leaves nothing undone but the errors its
      last poll found, unless it closes the connection because a socket refused
      to be written ([RpcPending.polling_settles]); a response that arrives in
      time is among these events, or its own socket failed or held bytes back,
      or the connection was closed ([RpcDelivery.response_is_delivered]).
    - The unit tests of the repository, for all peers drawn, all clocks and all
      iteration orders ([UnitTests.peerdb_tests_pass]).
    - Request routing: which requests are answered by the node, which reach the
      application, and where the application's answers go; the request table
      serves requests that do not overlap and loses answers when they do
      ([Mothra]); what the application's C functions are told, and which gossip
      messages end the network service ([Ffi.gossip_delivery],
      [Ffi.rpc_delivery]).

    ** Fuel

    Loops the source writes as [loop] or [while] take fuel.  Where a number of
    iterations is known, the definition computes it: the excess of
    disconnected peers ([shrink_to_fit]), the queue length ([process_queue]),
    the running queries, the events waiting in a channel, the timers due, the
    messages queued; theorems show it is enough.  The loop of the behaviour
    over the peer manager takes the fuel as an argument: there is an amount
    from which on the answer is the same, by a lexicographic measure ([lex]).
    The swarm's loop over the poll of a connection handler ([poll_all]), which
    ends when the handler is pending or closes the connection, takes the
    handler's [work] and one more.

    ** What is not modelled

    Sockets below the framed ones, and what the swarm does with the addresses
    it is given; the read timer inside a substream, of which only the elapsed
    upgrade shows; the
    cryptography of keys and of the transport, which is a description of its
    layers; the file system but for the two files of a node in each data
    directory (a directory is its path as configured, a file what opening and
    reading it gives, a write may fail before or after the file is emptied); the
    record file a running node rewrites when its address changes; tokio's scheduling (any
    order of events); logging and the texts made only for it; the language
    bindings above the C interface.

    This file holds what the components share: outcomes, results, machine
    integers, time, hash-map order, selection by key, lexicographic measures
    and their lemmas. *)

From stdpp Require Export base tactics option list gmap fin_maps sorting strings.
From Stdlib Require Export ZArith Lia.

(** ** Outcomes of Rust code

    [Ret] is a normal return, [Panic] an unwinding panic ([unwrap] on [None],
    [unreachable!], an overflow in a build with overflow checks), [OutOfFuel]
    the exhaustion of the fuel given to a loop: theorems show that the fuel
    the definitions use is never exhausted. *)
Inductive Outcome (A : Type) : Type :=
| Ret (a : A)
| Panic (msg : string)
| OutOfFuel.
Arguments Ret {A} a.
Arguments Panic {A} msg.
Arguments OutOfFuel {A}.

#[export] Instance Outcome_ret : MRet Outcome := fun A a => Ret a.
#[export] Instance Outcome_bind : MBind Outcome := fun A B f m =>
  match m with
  | Ret a => f a
  | Panic msg => Panic msg
  | OutOfFuel => OutOfFuel
  end.
#[export] Instance Outcome_fmap : FMap Outcome := fun A B f m =>
  match m with
  | Ret a => Ret (f a)
  | Panic msg => Panic msg
  | OutOfFuel => OutOfFuel
  end.

(** [no_panic m] says that [m] returns normally. *)
Definition returns {A} (m : Outcome A) : Prop := exists a, m = Ret a.

(** [Option::unwrap] and [Option::expect]. *)
Definition unwrap {A} (o : option A) (msg : string) : Outcome A :=
  match o with Some a => Ret a | None => Panic msg end.

(** ** Poll results of futures, streams and sinks *)
Inductive Poll (A : Type) : Type :=
| Ready (a : A)
| Pending.
Arguments Ready {A} a.
Arguments Pending {A}.

(** Rust's [Result]. *)
Inductive Result (A E : Type) : Type :=
| Ok (a : A)
| Err (e : E).
Arguments Ok {A E} a.
Arguments Err {A E} e.

(** ** Machine integers

    A [w]-bit unsigned integer is a [Z] between 0 and [2^w - 1]. The operators
    [+] and [-] of Rust panic on overflow in a build with overflow checks
    (debug) and wrap around in a build without (release): the build profile is
    a parameter of the model. *)
Class BuildProfile := overflow_checks : bool.

Definition in_width (w x : Z) : Prop := (0 <= x < 2 ^ w)%Z.

Definition add_w `{BuildProfile} (w x y : Z) : Outcome Z :=
  if decide (x + y < 2 ^ w)%Z then Ret (x + y)%Z
  else if overflow_checks then Panic "attempt to add with overflow"
  else Ret ((x + y) mod 2 ^ w)%Z.

Definition sub_w `{BuildProfile} (w x y : Z) : Outcome Z :=
  if decide (y <= x)%Z then Ret (x - y)%Z
  else if overflow_checks then Panic "attempt to subtract with overflow"
  else Ret ((x - y) mod 2 ^ w)%Z.

Definition saturating_add (w x y : Z) : Z := Z.min (x + y) (2 ^ w - 1).
Definition saturating_sub (x y : Z) : Z := Z.max 0 (x - y).

(** ** Time

    [Instant] and [Duration] count nanoseconds; [Instant::now()] is an
    argument of the operations that read the clock. *)
Definition Instant := N.
Definition Duration := N.
Definition from_secs (s : N) : Duration := (s * 1000000000)%N.
Definition from_millis (ms : N) : Duration := (ms * 1000000)%N.
Definition as_secs (d : Duration) : N := (d / 1000000000)%N.
(** [later.checked_duration_since(earlier)] *)
Definition checked_duration_since (later earlier : Instant) : option Duration :=
  if decide (earlier <= later)%N then Some (later - earlier)%N else None.

(** ** Iteration order of hash maps

    The order in which a [HashMap] is traversed is unspecified. It is a
    parameter, constrained to enumerate each entry exactly once; theorems hold
    for every such order. *)
Class HashOrder := {
  hm_iter : forall {K : Type} `{Countable K} {V : Type}, gmap K V -> list (K * V);
  hm_iter_perm : forall {K : Type} `{Countable K} {V : Type} (m : gmap K V),
    hm_iter m ≡ₚ map_to_list m;
}.

Definition hm_keys `{HashOrder} {K : Type} `{Countable K} {V : Type} (m : gmap K V) : list K :=
  (hm_iter m).*1.

(** ** Selection by key, as [Iterator::min_by_key] (the first minimum),
    [Iterator::max_by_key] (the last maximum) and the stable
    [slice::sort_by_key]. *)
Section ByKey.
Context {A : Type} (key : A -> Z).

Fixpoint min_by_key (l : list A) : option A :=
  match l with
  | [] => None
  | x :: l' =>
    match min_by_key l' with
    | Some y => if decide (key y < key x)%Z then Some y else Some x
    | None => Some x
    end
  end.

Fixpoint max_by_key (l : list A) : option A :=
  match l with
  | [] => None
  | x :: l' =>
    match max_by_key l' with
    | Some y => if decide (key y < key x)%Z then Some x else Some y
    | None => Some x
    end
  end.

Fixpoint insert_by_key (x : A) (l : list A) : list A :=
  match l with
  | [] => [x]
  | y :: l' => if decide (key x <= key y)%Z then x :: y :: l' else y :: insert_by_key x l'
  end.

Fixpoint sort_by_key (l : list A) : list A :=
  match l with
  | [] => []
  | x :: l' => insert_by_key x (sort_by_key l')
  end.
End ByKey.

(** The number of entries of a map whose value satisfies a test. *)
Definition count_values {K : Type} `{Countable K} {V : Type} (f : V -> bool) (m : gmap K V) : nat :=
  size (filter (fun kv => f kv.2 = true) m).

(** ** Notations and tactics of the development *)
Declare Scope mothra_scope.
Delimit Scope mothra_scope with mothra.
(** [m ⇓ a]: the run [m] returns [a]. *)
Notation "m ⇓ a" := (m = Ret a) (at level 70, no associativity) : mothra_scope.

(** [outcome_simpl] exposes the steps of a monadic definition. *)
Ltac outcome_simpl :=
  repeat (unfold mbind, Outcome_bind, mret, Outcome_ret, fmap, Outcome_fmap in *; cbn in *).

(** [invert_ret] inverts a run that returned: every case split on the way is
    performed and the equations are simplified. *)
Ltac invert_ret :=
  repeat match goal with
  | H : Ret _ = Ret _ |- _ => injection H as H; subst
  | H : Panic _ = Ret _ |- _ => discriminate H
  | H : OutOfFuel = Ret _ |- _ => discriminate H
  | H : Ret _ = Panic _ |- _ => discriminate H
  | H : Ret _ = OutOfFuel |- _ => discriminate H
  | H : context [ match ?x with _ => _ end ] |- _ =>
    lazymatch type of H with _ = Ret _ => destruct x eqn:?; cbn in H end
  end.

Ltac destruct_ifs :=
  repeat match goal with
  | |- context [ if decide ?P then _ else _ ] => destruct (decide P)
  | |- context [ if ?b then _ else _ ] => destruct b eqn:?
  end.

(** ** Shared lemmas *)
Section ByKeyLemmas.
Context {A : Type} (key : A -> Z).

Lemma min_by_key_None (l : list A) : min_by_key key l = None <-> l = [].
Proof.
  destruct l as [|x l]; cbn; [done|].
  split; [|done]. destruct (min_by_key key l); destruct_ifs; done.
Qed.

Lemma min_by_key_spec (l : list A) x :
  min_by_key key l = Some x -> x ∈ l /\ forall y, y ∈ l -> (key x <= key y)%Z.
Proof.
  revert x; induction l as [|a l IH]; intros x; cbn; [done|].
  destruct (min_by_key key l) as [y|] eqn:E.
  - specialize (IH y eq_refl) as [Hin Hmin].
    case_decide; intros [= <-]; (split; [set_solver|]); intros z [->|Hz]%elem_of_cons;
      try (specialize (Hmin z Hz)); lia.
  - rewrite min_by_key_None in E; subst l. clear IH. intros [= <-].
    split; [set_solver|]. intros z; rewrite list_elem_of_singleton; intros ->; lia.
Qed.

Lemma max_by_key_None (l : list A) : max_by_key key l = None <-> l = [].
Proof.
  destruct l as [|x l]; cbn; [done|].
  split; [|done]. destruct (max_by_key key l); destruct_ifs; done.
Qed.

Lemma max_by_key_spec (l : list A) x :
  max_by_key key l = Some x -> x ∈ l /\ forall y, y ∈ l -> (key y <= key x)%Z.
Proof.
  revert x; induction l as [|a l IH]; intros x; cbn; [done|].
  destruct (max_by_key key l) as [y|] eqn:E.
  - specialize (IH y eq_refl) as [Hin Hmax].
    case_decide; intros [= <-]; (split; [set_solver|]); intros z [->|Hz]%elem_of_cons;
      try (specialize (Hmax z Hz)); lia.
  - rewrite max_by_key_None in E; subst l. clear IH. intros [= <-].
    split; [set_solver|]. intros z; rewrite list_elem_of_singleton; intros ->; lia.
Qed.

Lemma insert_by_key_perm x (l : list A) : insert_by_key key x l ≡ₚ x :: l.
Proof.
  induction l as [|y l IH]; cbn; [done|].
  case_decide; [done|]. rewrite IH. apply Permutation_swap.
Qed.

Lemma sort_by_key_perm (l : list A) : sort_by_key key l ≡ₚ l.
Proof. induction l as [|x l IH]; cbn; [done|]. by rewrite insert_by_key_perm, IH. Qed.

Lemma insert_by_key_sorted x (l : list A) :
  Sorted (fun a b => (key a <= key b)%Z) l ->
  Sorted (fun a b => (key a <= key b)%Z) (insert_by_key key x l).
Proof.
  induction 1 as [|y l Hl IH Hhd]; cbn; [by repeat constructor|].
  case_decide; [by repeat constructor|].
  constructor; [done|]. destruct Hhd; cbn; [constructor; lia|].
  case_decide; constructor; lia.
Qed.

Lemma sort_by_key_sorted (l : list A) :
  Sorted (fun a b => (key a <= key b)%Z) (sort_by_key key l).
Proof. induction l; cbn; [constructor|]. by apply insert_by_key_sorted. Qed.

(** Equal keys keep their order: the sort is stable. *)
Lemma insert_by_key_filter x (l : list A) k :
  Sorted (fun a b => (key a <= key b)%Z) l ->
  filter (fun a => key a = k) (insert_by_key key x l) = filter (fun a => key a = k) (x :: l).
Proof.
  induction 1 as [|y l Hl IH Hhd]; cbn; [done|].
  case_decide as Hle; [done|].
  rewrite !filter_cons in *. rewrite IH.
  repeat case_decide; try done; lia.
Qed.

Lemma sort_by_key_stable (l : list A) k :
  filter (fun a => key a = k) (sort_by_key key l) = filter (fun a => key a = k) l.
Proof.
  induction l as [|x l IH]; cbn; [done|].
  rewrite insert_by_key_filter by apply sort_by_key_sorted.
  rewrite !filter_cons. by rewrite IH.
Qed.
End ByKeyLemmas.

Section CountValues.
Context {K : Type} `{Countable K} {V : Type} (f : V -> bool).

Lemma count_values_empty : count_values f (∅ : gmap K V) = 0%nat.
Proof. unfold count_values. by rewrite map_filter_empty, map_size_empty. Qed.

(** Replacing the entry of a key changes the count by the old and new entries. *)
Lemma count_values_insert (m : gmap K V) k v :
  (count_values f (<[k := v]> m) + (if default false (f <$> m !! k) then 1 else 0) =
   count_values f m + (if f v then 1 else 0))%nat.
Proof.
  unfold count_values.
  assert (Hdel : forall m' : gmap K V, size (filter (fun kv => f kv.2 = true) m') =
    (size (filter (fun kv => f kv.2 = true) (delete k m')) +
     (if default false (f <$> m' !! k) then 1 else 0))%nat).
  { intros m'. destruct (m' !! k) as [w|] eqn:Hw; cbn.
    - rewrite <-(insert_delete_id m' k w Hw) at 1.
      rewrite map_filter_insert; cbn.
      destruct (f w); case_decide; try done; cbn.
      + rewrite map_size_insert_None; [lia|].
        apply map_lookup_filter_None. left. apply lookup_delete_eq.
      + rewrite delete_delete_eq. lia.
    - rewrite delete_id by done. lia. }
  rewrite (Hdel (<[k:=v]> m)), (Hdel m).
  rewrite lookup_insert_eq, delete_insert_eq. cbn. lia.
Qed.

Lemma count_values_delete (m : gmap K V) k v :
  m !! k = Some v ->
  count_values f m = (count_values f (delete k m) + (if f v then 1 else 0))%nat.
Proof.
  intros Hk.
  pose proof (count_values_insert (delete k m) k v) as Hc.
  rewrite insert_delete_id, lookup_delete_eq in Hc by done. cbn in Hc. lia.
Qed.

Lemma count_values_pos (m : gmap K V) :
  (0 < count_values f m)%nat -> exists k v, m !! k = Some v /\ f v = true.
Proof.
  unfold count_values. intros Hs.
  destruct (map_choose (filter (fun kv => f kv.2 = true) m)) as (k & v & Hkv).
  { intros He. rewrite He, map_size_empty in Hs. lia. }
  apply map_lookup_filter_Some in Hkv. eauto.
Qed.
End CountValues.

Section HashOrderLemmas.
Context `{HashOrder} {K : Type} `{Countable K} {V : Type}.

Lemma elem_of_hm_iter (m : gmap K V) k v : (k, v) ∈ hm_iter m <-> m !! k = Some v.
Proof. rewrite hm_iter_perm. apply elem_of_map_to_list. Qed.

Lemma elem_of_hm_keys (m : gmap K V) k : k ∈ hm_keys m <-> is_Some (m !! k).
Proof.
  unfold hm_keys, is_Some. rewrite list_elem_of_fmap. split.
  - intros ([k' v] & -> & Hin). exists v. by apply elem_of_hm_iter.
  - intros [v Hv]. exists (k, v). split; [done|]. by apply elem_of_hm_iter.
Qed.

Lemma NoDup_hm_iter (m : gmap K V) : NoDup (hm_iter m).*1.
Proof. rewrite hm_iter_perm. apply NoDup_fst_map_to_list. Qed.

Lemma NoDup_hm_keys (m : gmap K V) : NoDup (hm_keys m).
Proof. apply NoDup_hm_iter. Qed.

Lemma length_filter_hm_iter (f : V -> bool) (m : gmap K V) :
  length (filter (fun kv => f kv.2 = true) (hm_iter m)) = count_values f m.
Proof.
  rewrite hm_iter_perm.
  induction m as [|k v m Hk IH] using map_ind.
  - by rewrite map_to_list_empty, count_values_empty.
  - rewrite map_to_list_insert, filter_cons by done.
    pose proof (count_values_insert f m k v) as Hc. rewrite Hk in Hc. cbn in *.
    case_decide as Hf; [rewrite Hf in Hc|apply not_true_is_false in Hf; rewrite Hf in Hc];
      cbn; lia.
Qed.
End HashOrderLemmas.

(** ** Automation

    [mothra] holds the facts on iteration orders and sorting that the
    components use without naming them. *)
Create HintDb mothra.
#[export] Hint Resolve NoDup_hm_iter NoDup_hm_keys sort_by_key_perm sort_by_key_sorted : mothra.
#[export] Hint Rewrite @min_by_key_None @max_by_key_None : mothra.

(** ** Lexicographic measures

    [lex ms y x]: the first of the measures [ms] on which [y] and [x] differ
    is smaller for [y].  Induction along [lex] is induction on a loop whose
    steps each lower one measure and may raise the later ones. *)
Fixpoint lex {A : Type} (ms : list (A -> nat)) (y x : A) : Prop :=
  match ms with
  | [] => False
  | f :: ms => (f y < f x)%nat \/ (f y = f x /\ lex ms y x)
  end.

Lemma lex_wf {A : Type} (ms : list (A -> nat)) : well_founded (lex ms).
Proof.
  induction ms as [|f ms IH]; intros x; [by constructor|].
  remember (f x) as n eqn:Hn. revert x Hn.
  induction n as [n IHn] using (well_founded_induction Nat.lt_wf_0). intros x.
  induction x as [x IHx] using (well_founded_induction IH). intros ->.
  constructor. intros y [Hlt|[Heq Hlex]]; [by apply (IHn (f y) Hlt)|by apply IHx].
Qed.

(** The traversal in key order of stdpp's maps, an instance used by the
    concrete witnesses. *)
Definition map_to_list_order : HashOrder := {|
  hm_iter := fun K _ _ V m => map_to_list m;
  hm_iter_perm := fun K _ _ V m => Permutation_refl (map_to_list m);
|}.
