(* ===== verification/Utf8.v ===== *)
(** * UTF-8: the standard library's [str::from_utf8] and [String::from_utf8_lossy]

    The codec (src/core/network/src/rpc/codec/snappy.rs) turns the payload of
    an error response into a [String] with [from_utf8_lossy], and
    [ErrorType::to_string] (src/core/network/src/rpc/methods.rs) tests a byte
    vector with [from_utf8].  Both functions of the standard library are
    modelled on lists of bytes; a Rust [String] is a [string] whose bytes they
    accept. *)
From Stdlib Require Import NArith Wf_nat.
From Stdlib Require Import Strings.String Strings.Byte.
From S2P Require Import Prelude.

Open Scope list_scope.

(** [in_range lo hi b] is the Rust pattern [lo..=hi] on a byte. *)
Definition in_range (lo hi : N) (b : byte) : bool :=
  (N.leb lo (Byte.to_N b) && N.leb (Byte.to_N b) hi)%bool.

Definition cont (b : byte) : bool := in_range 128 191 b.

(** The range the second byte must be in, by the first byte of a sequence of
    three or four bytes (Unicode, table 3-7). *)
Definition second_ok (b0 b1 : byte) : bool :=
  let n := Byte.to_N b0 in
  if N.eqb n 224 then in_range 160 191 b1
  else if N.eqb n 237 then in_range 128 159 b1
  else if N.eqb n 240 then in_range 144 191 b1
  else if N.eqb n 244 then in_range 128 143 b1
  else cont b1.

(** [utf8_step b0 bs] reads the sequence that starts with [b0]: whether it is
    well formed, and how many bytes of [bs] it takes beside [b0].  An ill-formed
    sequence takes its maximal well-formed prefix. *)
Definition utf8_step (b0 : byte) (bs : list byte) : bool * nat :=
  if in_range 0 127 b0 then (true, 0)
  else if in_range 194 223 b0 then
    match bs with
    | b1 :: _ => if cont b1 then (true, 1) else (false, 0)
    | [] => (false, 0)
    end
  else if in_range 224 239 b0 then
    match bs with
    | b1 :: bs1 =>
      if second_ok b0 b1 then
        match bs1 with
        | b2 :: _ => if cont b2 then (true, 2) else (false, 1)
        | [] => (false, 1)
        end
      else (false, 0)
    | [] => (false, 0)
    end
  else if in_range 240 244 b0 then
    match bs with
    | b1 :: bs1 =>
      if second_ok b0 b1 then
        match bs1 with
        | b2 :: bs2 =>
          if cont b2 then
            match bs2 with
            | b3 :: _ => if cont b3 then (true, 3) else (false, 2)
            | [] => (false, 2)
            end
          else (false, 1)
        | [] => (false, 1)
        end
      else (false, 0)
    | [] => (false, 0)
    end
  else (false, 0).

(** The bytes of U+FFFD, the replacement character. *)
Definition REPLACEMENT : list byte := ["239"; "191"; "189"]%byte.

Fixpoint from_utf8_go (fuel : nat) (bs : list byte) : bool :=
  match fuel, bs with
  | _, [] => true
  | O, _ :: _ => false
  | S fuel, b0 :: bs' =>
    let '(ok, n) := utf8_step b0 bs' in
    (ok && from_utf8_go fuel (drop n bs'))%bool
  end.

(** [std::str::from_utf8(bs).is_ok()] *)
Definition from_utf8 (bs : list byte) : bool := from_utf8_go (length bs) bs.

Fixpoint lossy_go (fuel : nat) (bs : list byte) : list byte :=
  match fuel, bs with
  | _, [] => []
  | O, _ :: _ => []
  | S fuel, b0 :: bs' =>
    let '(ok, n) := utf8_step b0 bs' in
    (if ok then b0 :: take n bs' else REPLACEMENT) ++ lossy_go fuel (drop n bs')
  end.

(** [String::from_utf8_lossy(bs)] *)
Definition from_utf8_lossy (bs : list byte) : list byte := lossy_go (length bs) bs.

#[global] Arguments from_utf8 : simpl never.
#[global] Arguments from_utf8_lossy : simpl never.

(** ** Lemmas *)

Lemma utf8_step_le b0 bs : (utf8_step b0 bs).2 <= length bs.
Proof.
  unfold utf8_step.
  repeat (case_match; cbn in *; simplify_eq; try lia).
Qed.

(** A well-formed sequence is read the same whatever follows it. *)
Lemma utf8_step_app b0 bs rest n :
  utf8_step b0 bs = (true, n) -> utf8_step b0 (take n bs ++ rest) = (true, n).
Proof.
  unfold utf8_step. intros Hs.
  repeat (case_match; simplify_eq; cbn in *; try done; try congruence).
Qed.

Lemma from_utf8_go_fuel fuel fuel' bs :
  length bs <= fuel -> length bs <= fuel' -> from_utf8_go fuel bs = from_utf8_go fuel' bs.
Proof.
  revert fuel' bs; induction fuel as [|fuel IH]; intros [|fuel'] [|b0 bs]; cbn; try done; try lia.
  intros H1 H2. pose proof (utf8_step_le b0 bs) as Hle.
  destruct (utf8_step b0 bs) as [[] n]; cbn in *; [|done].
  apply IH; rewrite length_drop; lia.
Qed.

Lemma lossy_go_fuel fuel fuel' bs :
  length bs <= fuel -> length bs <= fuel' -> lossy_go fuel bs = lossy_go fuel' bs.
Proof.
  revert fuel' bs; induction fuel as [|fuel IH]; intros [|fuel'] [|b0 bs]; cbn; try done; try lia.
  intros H1 H2. pose proof (utf8_step_le b0 bs) as Hle.
  destruct (utf8_step b0 bs) as [ok n]; cbn in *.
  f_equal. apply IH; rewrite length_drop; lia.
Qed.

Lemma from_utf8_cons b0 bs :
  from_utf8 (b0 :: bs) =
  ((utf8_step b0 bs).1 && from_utf8 (drop (utf8_step b0 bs).2 bs))%bool.
Proof.
  unfold from_utf8. cbn. pose proof (utf8_step_le b0 bs) as Hle.
  destruct (utf8_step b0 bs) as [[] n]; cbn in *; [|done].
  apply from_utf8_go_fuel; rewrite length_drop; lia.
Qed.

Lemma from_utf8_lossy_cons b0 bs :
  from_utf8_lossy (b0 :: bs) =
  (if (utf8_step b0 bs).1 then b0 :: take (utf8_step b0 bs).2 bs else REPLACEMENT) ++
  from_utf8_lossy (drop (utf8_step b0 bs).2 bs).
Proof.
  unfold from_utf8_lossy. cbn. pose proof (utf8_step_le b0 bs) as Hle.
  destruct (utf8_step b0 bs) as [ok n]; cbn in *. f_equal.
  apply lossy_go_fuel; rewrite length_drop; lia.
Qed.

(** Induction on the sequences of a byte list. *)
Lemma utf8_ind (P : list byte -> Prop) :
  P [] -> (forall b0 bs, P (drop (utf8_step b0 bs).2 bs) -> P (b0 :: bs)) -> forall bs, P bs.
Proof.
  intros Hnil Hcons bs.
  induction bs as [bs IH] using (induction_ltof1 _ length). unfold ltof in IH.
  destruct bs as [|b0 bs]; [done|]. apply Hcons, IH. cbn. rewrite length_drop. lia.
Qed.

(** Valid UTF-8 is unchanged by the lossy conversion ... *)
Lemma from_utf8_lossy_valid bs : from_utf8 bs = true -> from_utf8_lossy bs = bs.
Proof.
  induction bs as [|b0 bs IH] using utf8_ind; [done|].
  rewrite from_utf8_cons, from_utf8_lossy_cons.
  intros [Hok Hrest]%andb_true_iff. rewrite Hok, (IH Hrest). cbn.
  by rewrite take_drop.
Qed.

(** ... whose result is always valid. *)
Lemma from_utf8_lossy_is_utf8 bs : from_utf8 (from_utf8_lossy bs) = true.
Proof.
  induction bs as [|b0 bs IH] using utf8_ind; [done|].
  rewrite from_utf8_lossy_cons.
  destruct (utf8_step b0 bs) as [[] n] eqn:Hs; cbn in *.
  - rewrite from_utf8_cons, (utf8_step_app b0 bs _ n Hs). cbn.
    rewrite drop_app_length'; [done|].
    rewrite length_take. pose proof (utf8_step_le b0 bs). rewrite Hs in *. cbn in *. lia.
  - rewrite from_utf8_cons. cbn. done.
Qed.
