(* ===== verification/RpcMethods.v ===== *)
(** * RPC methods (src/core/network/src/rpc/methods.rs)

    The request and response data of the RPC protocol, the response codes and
    their conversions, and the texts these types print. *)
From Stdlib Require Import NArith.
From Stdlib Require Import Strings.String Strings.Byte.
From stdpp Require Import pretty.
From S2P Require Import Prelude Utf8.

Open Scope list_scope.

(** [u8] and [u64] values that only travel. *)
Definition MAX_REQUEST_BLOCKS : N := 1024.

(** [format!("{:?}", bytes)] of a byte vector. *)
Definition debug_bytes (bs : list byte) : string :=
  ("[" +:+ String.concat ", " (map (fun b => pretty (Byte.to_N b)) bs) +:+ "]")%string.

(** A Rust [String] as bytes ([as_bytes().to_vec()]) and back. *)
Definition as_bytes (s : string) : list byte := list_byte_of_string s.
Definition of_bytes (bs : list byte) : string := string_of_list_byte bs.

#[global] Arguments as_bytes : simpl never.
#[global] Arguments of_bytes : simpl never.

Lemma of_bytes_as_bytes s : of_bytes (as_bytes s) = s.
Proof. apply string_of_list_byte_of_string. Qed.

Lemma as_bytes_of_bytes bs : as_bytes (of_bytes bs) = bs.
Proof. apply list_byte_of_string_of_list_byte. Qed.

(** ** Data *)

(** [struct ErrorType(Vec<u8>)] *)
Record ErrorType := mkErrorType { error_bytes : list byte }.

(** [impl From<String> for ErrorType], also [From<&str>]. *)
Definition ErrorType_from (s : string) : ErrorType := mkErrorType (as_bytes s).

(** [impl ToString for ErrorType] *)
Definition ErrorType_to_string (e : ErrorType) : string :=
  if from_utf8 (error_bytes e) then of_bytes (error_bytes e)
  else debug_bytes (error_bytes e).

Inductive RequestId :=
| RequestId_Router
| RequestId_Sync (n : N)
| RequestId_Behaviour.

#[export] Instance RequestId_eq_dec : EqDecision RequestId.
Proof. solve_decision. Defined.

(** [EnrBitfield] is [Vec<u8>]. *)
Definition EnrBitfield := list byte.

Record StatusMessage := mkStatusMessage {
  fork_digest : list byte;
  finalized_root : list byte;
  finalized_epoch : N;
  head_root : list byte;
  head_slot : N;
}.

Record MetaData := mkMetaData {
  seq_number : N;
  attnets : EnrBitfield;
}.

Inductive GoodbyeReason :=
| ClientShutdown
| IrrelevantNetwork
| Fault
| UnknownReason.

(** [impl From<u64> for GoodbyeReason] *)
Definition GoodbyeReason_from (id : N) : GoodbyeReason :=
  match id with
  | 1%N => ClientShutdown
  | 2%N => IrrelevantNetwork
  | 3%N => Fault
  | _ => UnknownReason
  end.

(** [impl Into<u64> for GoodbyeReason]: the enum's discriminants. *)
Definition GoodbyeReason_into (r : GoodbyeReason) : N :=
  match r with
  | ClientShutdown => 1
  | IrrelevantNetwork => 2
  | Fault => 3
  | UnknownReason => 0
  end.

Inductive RPCResponse :=
| RPCResponse_Status (data : list byte)
| RPCResponse_Pong (data : list byte)
| RPCResponse_MetaData (data : list byte).

Inductive RPCCodedResponse :=
| Success (resp : RPCResponse)
| InvalidRequest (err : ErrorType)
| ServerError (err : ErrorType)
| Unknown (err : ErrorType).

Inductive RPCResponseErrorCode :=
| Code_InvalidRequest
| Code_ServerError
| Code_Unknown.

(** ** [impl RPCCodedResponse] *)

(** The response code byte; never [None]. *)
Definition as_u8 (r : RPCCodedResponse) : option byte :=
  match r with
  | Success _ => Some x00
  | InvalidRequest _ => Some x01
  | ServerError _ => Some x02
  | Unknown _ => Some xff
  end.

Definition is_response (response_code : byte) : bool :=
  match response_code with
  | x00 => true
  | _ => false
  end.

Definition from_error (response_code : byte) (err : string) : RPCCodedResponse :=
  match response_code with
  | x01 => InvalidRequest (ErrorType_from err)
  | x02 => ServerError (ErrorType_from err)
  | _ => Unknown (ErrorType_from err)
  end.

Definition from_error_code (response_code : RPCResponseErrorCode) (err : string)
    : RPCCodedResponse :=
  match response_code with
  | Code_InvalidRequest => InvalidRequest (ErrorType_from err)
  | Code_ServerError => ServerError (ErrorType_from err)
  | Code_Unknown => Unknown (ErrorType_from err)
  end.

Definition multiple_responses (r : RPCCodedResponse) : bool :=
  match r with
  | Success resp =>
    match resp with
    | RPCResponse_Status _ => false
    | RPCResponse_Pong _ => false
    | RPCResponse_MetaData _ => false
    end
  | InvalidRequest _ => true
  | ServerError _ => true
  | Unknown _ => true
  end.

Definition is_error (r : RPCCodedResponse) : bool :=
  match r with
  | Success _ => false
  | _ => true
  end.

Definition error_code (r : RPCCodedResponse) : option RPCResponseErrorCode :=
  match r with
  | Success _ => None
  | InvalidRequest _ => Some Code_InvalidRequest
  | ServerError _ => Some Code_ServerError
  | Unknown _ => Some Code_Unknown
  end.

(** ** [Display] *)

Definition RPCResponseErrorCode_fmt (c : RPCResponseErrorCode) : string :=
  match c with
  | Code_InvalidRequest => "The request was invalid"
  | Code_ServerError => "Server error occurred"
  | Code_Unknown => "Unknown error occurred"
  end.

Definition StatusMessage_fmt (m : StatusMessage) : string :=
  ("Status Message: Fork Digest: " +:+ debug_bytes (fork_digest m) +:+
   ", Finalized Root: " +:+ debug_bytes (finalized_root m) +:+
   ", Finalized Epoch: " +:+ pretty (finalized_epoch m) +:+
   ", Head Root: " +:+ debug_bytes (head_root m) +:+
   ", Head Slot: " +:+ pretty (head_slot m))%string.

Definition RPCResponse_fmt (r : RPCResponse) : string :=
  match r with
  | RPCResponse_Status status => debug_bytes status
  | RPCResponse_Pong ping => ("Pong: " +:+ debug_bytes ping)%string
  | RPCResponse_MetaData metadata => ("Metadata: " +:+ debug_bytes metadata)%string
  end.

(** The derived [Debug] of [ErrorType]. *)
Definition ErrorType_debug (e : ErrorType) : string :=
  ("ErrorType(" +:+ debug_bytes (error_bytes e) +:+ ")")%string.

Definition RPCCodedResponse_fmt (r : RPCCodedResponse) : string :=
  match r with
  | Success res => RPCResponse_fmt res
  | InvalidRequest err => ("Invalid Request: " +:+ ErrorType_debug err)%string
  | ServerError err => ("Server Error: " +:+ ErrorType_debug err)%string
  | Unknown err => ("Unknown Error: " +:+ ErrorType_debug err)%string
  end.

Definition GoodbyeReason_fmt (r : GoodbyeReason) : string :=
  match r with
  | ClientShutdown => "Client Shutdown"
  | IrrelevantNetwork => "Irrelevant Network"
  | Fault => "Fault"
  | UnknownReason => "Unknown Reason"
  end.

(** ** Lemmas *)

Lemma as_u8_is_Some r : is_Some (as_u8 r).
Proof. destruct r; eauto. Qed.

(** The code byte says whether the response is an error. *)
Lemma is_response_as_u8 r c : as_u8 r = Some c -> is_response c = negb (is_error r).
Proof. destruct r; cbn; intros [= <-]; done. Qed.

(** An error response is rebuilt from its code byte and its message. *)
Lemma from_error_as_u8 r c :
  as_u8 r = Some c -> is_error r = true ->
  exists e, from_error c (of_bytes (error_bytes e)) = r /\
    (r = InvalidRequest e \/ r = ServerError e \/ r = Unknown e).
Proof.
  destruct r as [resp|[e]|[e]|[e]]; cbn; intros [= <-] ?; try done; eexists (mkErrorType e);
    cbn; unfold ErrorType_from; rewrite as_bytes_of_bytes; eauto.
Qed.

Lemma error_code_from_error_code c err : error_code (from_error_code c err) = Some c.
Proof. by destruct c. Qed.

Lemma GoodbyeReason_from_into r : GoodbyeReason_from (GoodbyeReason_into r) = r.
Proof. by destruct r. Qed.

Lemma GoodbyeReason_into_from n :
  GoodbyeReason_into (GoodbyeReason_from n) = if decide (n <= 3)%N then n else 0%N.
Proof. destruct n as [|[[p|p|]|[p|p|]|]]; cbn; try done; case_decide; try done; lia. Qed.
