(* ===== verification/RpcProtocol.v ===== *)
(** * RPC protocol (src/core/network/src/rpc/protocol.rs)

    Protocol identifiers, the request type with what the handler asks of it,
    the RPC error type, and the two upgrades as functions of what the framed
    socket delivers. *)
From Stdlib Require Import NArith.
From Stdlib Require Import Strings.String Strings.Byte.
From S2P Require Import Prelude Utf8 RpcMethods.

Open Scope list_scope.

Definition MAX_RPC_SIZE : N := 1048576.
Definition PROTOCOL_PREFIX : string := "/eth2/beacon_chain/req".
Definition TTFB_TIMEOUT : N := 5.
Definition REQUEST_TIMEOUT : N := 15.

Inductive Protocol :=
| Protocol_Status
| Protocol_Goodbye
| Protocol_Ping
| Protocol_MetaData.

Inductive Version := V1.
Inductive Encoding := Snappy.

#[export] Instance Protocol_eq_dec : EqDecision Protocol.
Proof. solve_decision. Defined.

Definition Protocol_fmt (p : Protocol) : string :=
  match p with
  | Protocol_Status => "status"
  | Protocol_Goodbye => "goodbye"
  | Protocol_Ping => "ping"
  | Protocol_MetaData => "metadata"
  end.

Definition Encoding_fmt (e : Encoding) : string := match e with Snappy => "ssz_snappy" end.
Definition Version_fmt (v : Version) : string := match v with V1 => "1" end.

Record ProtocolId := mkProtocolId {
  message_name : Protocol;
  version : Version;
  encoding : Encoding;
  protocol_id : string;
}.

(** [ProtocolId::new] *)
Definition ProtocolId_new (m : Protocol) (v : Version) (e : Encoding) : ProtocolId :=
  mkProtocolId m v e
    (PROTOCOL_PREFIX +:+ "/" +:+ Protocol_fmt m +:+ "/" +:+ Version_fmt v +:+ "/" +:+
     Encoding_fmt e)%string.

(** [ProtocolName::protocol_name]: what is sent on the wire. *)
Definition protocol_name (p : ProtocolId) : list byte := as_bytes (protocol_id p).

(** [RPCProtocol::protocol_info] *)
Definition RPCProtocol_protocol_info : list ProtocolId :=
  [ ProtocolId_new Protocol_Status V1 Snappy;
    ProtocolId_new Protocol_Goodbye V1 Snappy;
    ProtocolId_new Protocol_Ping V1 Snappy;
    ProtocolId_new Protocol_MetaData V1 Snappy ].

Inductive RPCRequest :=
| RPCRequest_Status (data : list byte)
| RPCRequest_Goodbye (data : list byte)
| RPCRequest_Ping (data : list byte)
| RPCRequest_MetaData.

Definition supported_protocols (r : RPCRequest) : list ProtocolId :=
  match r with
  | RPCRequest_Status _ => [ProtocolId_new Protocol_Status V1 Snappy]
  | RPCRequest_Goodbye _ => [ProtocolId_new Protocol_Goodbye V1 Snappy]
  | RPCRequest_Ping _ => [ProtocolId_new Protocol_Ping V1 Snappy]
  | RPCRequest_MetaData => [ProtocolId_new Protocol_MetaData V1 Snappy]
  end.

Definition expected_responses (r : RPCRequest) : N :=
  match r with
  | RPCRequest_Status _ => 1
  | RPCRequest_Goodbye _ => 0
  | RPCRequest_Ping _ => 1
  | RPCRequest_MetaData => 1
  end.

(** [RPCRequest::protocol] *)
Definition request_protocol (r : RPCRequest) : Protocol :=
  match r with
  | RPCRequest_Status _ => Protocol_Status
  | RPCRequest_Goodbye _ => Protocol_Goodbye
  | RPCRequest_Ping _ => Protocol_Ping
  | RPCRequest_MetaData => Protocol_MetaData
  end.

Inductive RPCError :=
| DecodeError
| IoError (err : string)
| ErrorResponse (code : RPCResponseErrorCode) (reason : string)
| StreamTimeout
| UnsupportedProtocol
| IncompleteStream
| InvalidData
| InternalError (err : string)
| NegotiationTimeout
| HandlerRejected.

(** [impl From<tokio::time::Elapsed> for RPCError] *)
Definition RPCError_from_Elapsed : RPCError := StreamTimeout.
(** [impl From<io::Error> for RPCError], on the text of the error. *)
Definition RPCError_from_io (err : string) : RPCError := IoError err.

Definition RPCError_fmt (e : RPCError) : string :=
  match e with
  | DecodeError => "Error while decoding RPC"
  | InvalidData => "Peer sent unexpected data"
  | IoError err => ("IO Error: " +:+ err)%string
  | ErrorResponse code reason =>
    ("RPC response was an error: " +:+ RPCResponseErrorCode_fmt code +:+ " with reason: " +:+
     reason)%string
  | StreamTimeout => "Stream Timeout"
  | UnsupportedProtocol => "Peer does not support the protocol"
  | IncompleteStream => "Stream ended unexpectedly"
  | InternalError err => ("Internal error: " +:+ err)%string
  | NegotiationTimeout => "Negotiation timeout"
  | HandlerRejected => "Handler rejected the request"
  end.

(** [impl std::error::Error for RPCError]: no error has a source. *)
Definition RPCError_source (e : RPCError) : option RPCError :=
  match e with
  | DecodeError => None
  | IoError _ => None
  | StreamTimeout => None
  | UnsupportedProtocol => None
  | IncompleteStream => None
  | InvalidData => None
  | InternalError _ => None
  | ErrorResponse _ _ => None
  | NegotiationTimeout => None
  | HandlerRejected => None
  end.

Definition RPCRequest_fmt (r : RPCRequest) : string :=
  match r with
  | RPCRequest_Status status => ("Status Message: " +:+ debug_bytes status)%string
  | RPCRequest_Goodbye reason => ("Goodbye: " +:+ debug_bytes reason)%string
  | RPCRequest_Ping ping => ("Ping: " +:+ debug_bytes ping)%string
  | RPCRequest_MetaData => "MetaData request"
  end.

(** ** Upgrades

    [socket.into_future()] under [tokio::time::timeout] yields the first item
    of the framed socket, or [Elapsed]. *)
Inductive FirstItem :=
| Elapsed
| Item (req : option (Result RPCRequest RPCError)).

(** [RPCProtocol::upgrade_inbound]: a [MetaData] request has no payload and is
    not awaited. *)
Definition upgrade_inbound (protocol : ProtocolId) (first : FirstItem)
    : Result RPCRequest RPCError :=
  match message_name protocol with
  | Protocol_MetaData => Ok RPCRequest_MetaData
  | _ =>
    match first with
    | Elapsed => Err RPCError_from_Elapsed
    | Item (Some (Ok request)) => Ok request
    | Item (Some (Err _)) | Item None => Err IncompleteStream
    end
  end.

(** [RPCRequest::upgrade_outbound]: sends the request, then closes the write
    half; [sent] and [closed] are what the framed socket answers. *)
Definition upgrade_outbound {Socket : Type} (sent closed : Result unit RPCError) (socket : Socket)
    : Result Socket RPCError :=
  match sent with
  | Err e => Err e
  | Ok _ => match closed with Err e => Err e | Ok _ => Ok socket end
  end.

(** ** Lemmas *)

Lemma expected_responses_le_1 r : (expected_responses r <= 1)%N.
Proof. destruct r; cbn; lia. Qed.

Lemma ProtocolId_new_inj p q :
  protocol_name (ProtocolId_new p V1 Snappy) = protocol_name (ProtocolId_new q V1 Snappy) -> p = q.
Proof. destruct p, q; vm_compute; congruence. Qed.
