(* ===== verification/Wire.v ===== *)
(** * The wire encodings of the RPC codecs

    The unsigned varint codec ([unsigned_varint::codec::Uvi<usize>]) and the
    snappy frame format ([snap::write::FrameEncoder], [snap::read::FrameDecoder])
    are libraries: their operations are the class [Wire] and what the codecs
    rely on is [WireLaws].  [leb128_wire] is a concrete instance, with the
    varint format itself and frames of a one-byte header and the bytes themselves. *)
From Stdlib Require Import NArith Strings.Byte.
From S2P Require Import Prelude.

Open Scope list_scope.

(** [Read::read_exact] on a frame decoder over a cursor: the bytes and the
    position of the cursor, [ErrorKind::UnexpectedEof], or another error. *)
Inductive ReadExact :=
| ReadOk (data : list byte) (position : nat)
| ReadEof
| ReadErr (err : string).

Class Wire := {
  (** [Encoder::encode]: the bytes appended to the buffer. *)
  uvi_encode : N -> Result (list byte) string;
  (** [Decoder::decode]: the number and the buffer after it; the buffer is
      left as it is when it holds no complete number. *)
  uvi_decode : list byte -> Result (option (N * list byte)) string;
  (** [FrameEncoder::new], [write_all], [flush], [get_ref]. *)
  frame_encode : list byte -> Result (list byte) string;
  (** [FrameDecoder::new], [read_exact] into a buffer of the given length. *)
  frame_read_exact : nat -> list byte -> ReadExact;
}.

(** [f] recognises the encoding [enc] at the front of a buffer and asks for
    more bytes on each of its strict prefixes. *)
Definition self_delimiting {R} (f : list byte -> R) (more : R) (found : list byte -> R)
    (enc : list byte) : Prop :=
  (forall rest, f (enc ++ rest) = found rest) /\
  (forall p q, enc = p ++ q -> q <> [] -> f p = more).

Class WireLaws `{Wire} := {
  uvi_roundtrip : forall n, (n < 2 ^ 64)%N ->
    exists enc, uvi_encode n = Ok enc /\ enc <> [] /\
      self_delimiting uvi_decode (Ok None) (fun rest => Ok (Some (n, rest))) enc;
  (** A chunk starts with a header of four bytes. *)
  frame_roundtrip : forall data, data <> [] ->
    exists enc, frame_encode data = Ok enc /\ (2 <= length enc)%nat /\
      self_delimiting (frame_read_exact (length data)) ReadEof
        (fun _ => ReadOk data (length enc)) enc;
  frame_read_exact_length : forall n src data position,
    frame_read_exact n src = ReadOk data position -> length data = n /\ (position <= length src)%nat;
}.

(** ** A concrete instance *)
Definition byte_of (n : N) : byte := default Byte.x00 (Byte.of_N n).

(** Seven bits per byte, the low ones first; the high bit of a byte says that
    more follow.  Ten bytes hold 64 bits. *)
Fixpoint leb128_encode (fuel : nat) (n : N) : list byte :=
  match fuel with
  | O => []
  | S fuel =>
    if decide (n < 128)%N then [byte_of n]
    else byte_of (128 + n mod 128) :: leb128_encode fuel (n / 128)
  end.

Fixpoint leb128_decode (fuel : nat) (src : list byte) : Result (option (N * list byte)) string :=
  match fuel, src with
  | O, _ => Err "varint overflow"%string
  | S _, [] => Ok None
  | S fuel, b :: src =>
    let v := Byte.to_N b in
    if decide (v < 128)%N then Ok (Some (v, src))
    else
      match leb128_decode fuel src with
      | Ok (Some (m, rest)) => Ok (Some (v - 128 + 128 * m, rest)%N)
      | r => r
      end
  end.

Definition leb128_wire : Wire := {|
  uvi_encode := fun n => Ok (leb128_encode 10 n);
  uvi_decode := leb128_decode 10;
  frame_encode := fun data => Ok (Byte.x00 :: data);
  frame_read_exact := fun n src =>
    match src with
    | [] => ReadEof
    | _ :: src => if decide (n <= length src)%nat then ReadOk (take n src) (S n) else ReadEof
    end;
|}.

Lemma to_N_byte_of n : (n < 256)%N -> Byte.to_N (byte_of n) = n.
Proof.
  intros Hn. unfold byte_of. destruct (Byte.of_N n) as [b|] eqn:E; cbn.
  - by apply Byte.to_of_N in E.
  - apply Byte.of_N_None_iff in E. lia.
Qed.

Lemma leb128_encode_ne fuel n : leb128_encode (S fuel) n <> [].
Proof. cbn. by case_decide. Qed.

Lemma leb128_roundtrip fuel n rest :
  (n < 128 * 128 ^ N.of_nat fuel)%N ->
  leb128_decode (S fuel) (leb128_encode (S fuel) n ++ rest) = Ok (Some (n, rest)).
Proof.
  revert n; induction fuel as [|fuel IH]; intros n Hn.
  - change (128 ^ N.of_nat 0)%N with 1%N in Hn. cbn. rewrite decide_True by lia. cbn.
    rewrite to_N_byte_of by lia. by rewrite decide_True by lia.
  - rewrite Nat2N.inj_succ, N.pow_succ_r' in Hn.
    remember (S fuel) as f eqn:Hf. cbn [leb128_encode].
    case_decide as Hlt; cbn [leb128_decode app]; cbv zeta.
    + rewrite to_N_byte_of by lia. by rewrite decide_True.
    + pose proof (N.mod_lt n 128 ltac:(lia)) as Hm.
      rewrite to_N_byte_of by lia. pose proof (N.le_0_l (n mod 128)).
      case_decide as Hc; [lia|].
      rewrite IH by (by apply N.Div0.div_lt_upper_bound).
      pose proof (N.div_mod n 128 ltac:(lia)). repeat f_equal. lia.
Qed.

Lemma leb128_prefix fuel n p q :
  leb128_encode fuel n = p ++ q -> q <> [] -> leb128_decode fuel p = Ok None.
Proof.
  revert n p; induction fuel as [|fuel IH]; intros n p Heq Hq.
  - cbn in Heq. symmetry in Heq. apply app_nil in Heq as [_ ->]. done.
  - cbn in Heq. destruct p as [|b p]; [done|]. case_decide as Hlt.
    + injection Heq as <- Heq. symmetry in Heq. apply app_nil in Heq as [_ ->]. done.
    + injection Heq as <- Heq. cbn. pose proof (N.mod_lt n 128 ltac:(lia)) as Hm.
      pose proof (N.le_0_l (n mod 128)).
      rewrite to_N_byte_of by lia. case_decide; [lia|]. by rewrite (IH _ _ Heq Hq).
Qed.

Lemma leb128_laws : @WireLaws leb128_wire.
Proof.
  split; cbn -[leb128_encode leb128_decode].
  - intros n Hn. exists (leb128_encode 10 n). split; [done|]. split; [apply leb128_encode_ne|].
    split.
    + intros rest. apply leb128_roundtrip.
      change (128 * 128 ^ N.of_nat 9)%N with (2 ^ 70)%N. lia.
    + intros p q. apply leb128_prefix.
  - intros data Hd. exists (Byte.x00 :: data). split; [done|].
    split; [destruct data; [done|cbn; lia]|]. split.
    + intros rest. cbn. rewrite decide_True by (rewrite length_app; lia). by rewrite take_app_length.
    + intros [|b p] q Heq Hq; [done|]. injection Heq as <- ->.
      rewrite decide_False; [done|]. rewrite length_app. destruct q; [done|]. cbn. lia.
  - intros n [|b src] data position; [done|]. case_decide; intros [= <- <-].
    cbn. rewrite length_take. lia.
Qed.
