(* ===== verification/RpcCodec.v ===== *)
(** * RPC codecs (src/core/network/src/rpc/codec/)

    The snappy codecs of requests and responses (snappy.rs), the base codecs
    that add the response code (base.rs) and the codec enumerations (mod.rs).
    A decoder maps its state and the buffer to a result, its next state and
    what is left of the buffer; an encoder appends to the buffer. *)
From Stdlib Require Import NArith Strings.String Strings.Byte.
From S2P Require Import Prelude Utf8 RpcMethods RpcProtocol Wire.

Open Scope list_scope.

(** [BytesMut::split_to]: panics out of bounds. *)
Definition split_to (n : nat) (src : list byte) : Outcome (list byte * list byte) :=
  if decide (n <= length src)%nat then Ret (take n src, drop n src)
  else Panic "split_to out of bounds".

Section Codec.
Context `{Wire}.

(** ** The parts the snappy codecs share (written out in each of them) *)

(** The checks and writes of both [encode] functions after the payload is
    chosen. *)
Definition encode_payload (max_packet_size : N) (bytes dst : list byte)
    : Result unit RPCError * list byte :=
  if decide (max_packet_size < N.of_nat (length bytes))%N then
    (Err (InternalError "attempting to encode data > max_packet_size"), dst)
  else
    match uvi_encode (N.of_nat (length bytes)) with
    | Err e => (Err (RPCError_from_io e), dst)
    | Ok prefix =>
      let dst := dst ++ prefix in
      match frame_encode bytes with
      | Err e => (Err (RPCError_from_io e), dst)
      | Ok compressed => (Ok tt, dst ++ compressed)
      end
    end.

(** The three [decode] functions up to the decoded buffer; [len] is the length
    prefix when it has been read already. *)
Definition read_chunk (max_packet_size : N) (len : option N) (src : list byte)
    : Outcome (Result (option (list byte)) RPCError * option N * list byte) :=
  let prefix :=
    match len with
    | Some length => Ok (Some (length, src))
    | None => uvi_decode src
    end in
  match prefix with
  | Err e => mret (Err (RPCError_from_io e), len, src)
  | Ok None => mret (Ok None, len, src)
  | Ok (Some (length, src)) =>
    if decide (max_packet_size < length)%N then mret (Err InvalidData, Some length, src)
    else
      match frame_read_exact (N.to_nat length) src with
      | ReadOk decoded_buffer n =>
        '(_, src) ← split_to n src;
        mret (Ok (Some decoded_buffer), None, src)
      | ReadEof => mret (Ok None, Some length, src)
      | ReadErr e => mret (Err (RPCError_from_io e), Some length, src)
      end
  end.

(** ** [SnappyInboundCodec]

    The [debug_assert_eq!] of both [new] holds: [Snappy] is the only
    [Encoding]. *)
Record SnappyInboundCodec := mkSnappyInboundCodec {
  in_protocol : ProtocolId;
  in_len : option N;
  in_max_packet_size : N;
}.

Definition SnappyInboundCodec_new (protocol : ProtocolId) (max_packet_size : N)
    : SnappyInboundCodec := mkSnappyInboundCodec protocol None max_packet_size.

(** The payload of a response. *)
Definition response_payload (item : RPCCodedResponse) : list byte :=
  match item with
  | Success resp =>
    match resp with
    | RPCResponse_Status res => res
    | RPCResponse_Pong res => res
    | RPCResponse_MetaData res => res
    end
  | InvalidRequest err => error_bytes err
  | ServerError err => error_bytes err
  | Unknown err => error_bytes err
  end.

Definition SnappyInboundCodec_encode (c : SnappyInboundCodec) (item : RPCCodedResponse)
    (dst : list byte) : Result unit RPCError * list byte :=
  encode_payload (in_max_packet_size c) (response_payload item) dst.

(** The request the decoded buffer makes under the negotiated protocol. *)
Definition request_of_buffer (protocol : ProtocolId) (decoded_buffer : list byte)
    : Result (option RPCRequest) RPCError :=
  match message_name protocol, version protocol with
  | Protocol_Status, V1 =>
    if decide (0 < length decoded_buffer)%nat then Ok (Some (RPCRequest_Status decoded_buffer))
    else Err InvalidData
  | Protocol_Goodbye, V1 =>
    if decide (0 < length decoded_buffer)%nat then Ok (Some (RPCRequest_Goodbye decoded_buffer))
    else Err InvalidData
  | Protocol_Ping, V1 =>
    if decide (0 < length decoded_buffer)%nat then Ok (Some (RPCRequest_Ping decoded_buffer))
    else Err InvalidData
  | Protocol_MetaData, V1 =>
    if decide (0 < length decoded_buffer)%nat then Err InvalidData
    else Ok (Some RPCRequest_MetaData)
  end.

Definition SnappyInboundCodec_decode (c : SnappyInboundCodec) (src : list byte)
    : Outcome (Result (option RPCRequest) RPCError * SnappyInboundCodec * list byte) :=
  '(r, len, src) ← read_chunk (in_max_packet_size c) (in_len c) src;
  let c' := mkSnappyInboundCodec (in_protocol c) len (in_max_packet_size c) in
  match r with
  | Ok (Some decoded_buffer) => mret (request_of_buffer (in_protocol c) decoded_buffer, c', src)
  | Ok None => mret (Ok None, c', src)
  | Err e => mret (Err e, c', src)
  end.

(** ** [SnappyOutboundCodec] *)
Record SnappyOutboundCodec := mkSnappyOutboundCodec {
  out_len : option N;
  out_protocol : ProtocolId;
  out_max_packet_size : N;
}.

Definition SnappyOutboundCodec_new (protocol : ProtocolId) (max_packet_size : N)
    : SnappyOutboundCodec := mkSnappyOutboundCodec None protocol max_packet_size.

Definition SnappyOutboundCodec_encode (c : SnappyOutboundCodec) (item : RPCRequest)
    (dst : list byte) : Result unit RPCError * list byte :=
  match item with
  | RPCRequest_Status req => encode_payload (out_max_packet_size c) req dst
  | RPCRequest_Goodbye req => encode_payload (out_max_packet_size c) req dst
  | RPCRequest_Ping req => encode_payload (out_max_packet_size c) req dst
  | RPCRequest_MetaData => (Ok tt, dst)
  end.

Definition response_of_buffer (protocol : ProtocolId) (decoded_buffer : list byte)
    : Result (option RPCResponse) RPCError :=
  match message_name protocol with
  | Protocol_Status =>
    match version protocol with
    | V1 =>
      if decide (0 < length decoded_buffer)%nat then Ok (Some (RPCResponse_Status decoded_buffer))
      else Err InvalidData
    end
  | Protocol_Goodbye => Err InvalidData
  | Protocol_Ping =>
    match version protocol with
    | V1 =>
      if decide (0 < length decoded_buffer)%nat then Ok (Some (RPCResponse_Pong decoded_buffer))
      else Err InvalidData
    end
  | Protocol_MetaData =>
    match version protocol with
    | V1 =>
      if decide (0 < length decoded_buffer)%nat then Ok (Some (RPCResponse_MetaData decoded_buffer))
      else Err InvalidData
    end
  end.

Definition SnappyOutboundCodec_decode (c : SnappyOutboundCodec) (src : list byte)
    : Outcome (Result (option RPCResponse) RPCError * SnappyOutboundCodec * list byte) :=
  '(r, len, src) ← read_chunk (out_max_packet_size c) (out_len c) src;
  let c' := mkSnappyOutboundCodec len (out_protocol c) (out_max_packet_size c) in
  match r with
  | Ok (Some decoded_buffer) => mret (response_of_buffer (out_protocol c) decoded_buffer, c', src)
  | Ok None => mret (Ok None, c', src)
  | Err e => mret (Err e, c', src)
  end.

(** [OutboundCodec::decode_error]: the message, decoded lossily. *)
Definition SnappyOutboundCodec_decode_error (c : SnappyOutboundCodec) (src : list byte)
    : Outcome (Result (option string) RPCError * SnappyOutboundCodec * list byte) :=
  '(r, len, src) ← read_chunk (out_max_packet_size c) (out_len c) src;
  let c' := mkSnappyOutboundCodec len (out_protocol c) (out_max_packet_size c) in
  match r with
  | Ok (Some decoded_buffer) =>
    mret (Ok (Some (of_bytes (from_utf8_lossy decoded_buffer))), c', src)
  | Ok None => mret (Ok None, c', src)
  | Err e => mret (Err e, c', src)
  end.

(** ** Base codecs *)

(** [BaseInboundCodec] holds its inner codec alone, and [InboundCodec] has the
    one variant [Snappy]. *)
Inductive InboundCodec := InboundCodec_Snappy (inner : SnappyInboundCodec).

(** [BaseInboundCodec::encode]: the buffer is cleared first, and the response
    code precedes the payload. *)
Definition BaseInboundCodec_encode (inner : SnappyInboundCodec) (item : RPCCodedResponse)
    (dst : list byte) : Outcome (Result unit RPCError * list byte) :=
  code ← unwrap (as_u8 item) "Should never encode a stream termination";
  mret (SnappyInboundCodec_encode inner item [code]).

Definition InboundCodec_encode (c : InboundCodec) (item : RPCCodedResponse) (dst : list byte)
    : Outcome (Result unit RPCError * list byte) :=
  match c with InboundCodec_Snappy inner => BaseInboundCodec_encode inner item dst end.

Definition BaseInboundCodec_decode (inner : SnappyInboundCodec) (src : list byte)
    : Outcome (Result (option RPCRequest) RPCError * SnappyInboundCodec * list byte) :=
  SnappyInboundCodec_decode inner src.

Definition InboundCodec_decode (c : InboundCodec) (src : list byte)
    : Outcome (Result (option RPCRequest) RPCError * InboundCodec * list byte) :=
  match c with
  | InboundCodec_Snappy inner =>
    '(r, inner, src) ← BaseInboundCodec_decode inner src;
    mret (r, InboundCodec_Snappy inner, src)
  end.

Record BaseOutboundCodec := mkBaseOutboundCodec {
  inner : SnappyOutboundCodec;
  current_response_code : option byte;
}.

Definition BaseOutboundCodec_new (codec : SnappyOutboundCodec) : BaseOutboundCodec :=
  mkBaseOutboundCodec codec None.

Inductive OutboundCodec := OutboundCodec_Snappy (base : BaseOutboundCodec).

Definition BaseOutboundCodec_encode (c : BaseOutboundCodec) (item : RPCRequest) (dst : list byte)
    : Result unit RPCError * list byte := SnappyOutboundCodec_encode (inner c) item dst.

Definition OutboundCodec_encode (c : OutboundCodec) (item : RPCRequest) (dst : list byte)
    : Result unit RPCError * list byte :=
  match c with OutboundCodec_Snappy base => BaseOutboundCodec_encode base item dst end.

(** [BaseOutboundCodec::decode], once the response code is known. *)
Definition decode_payload (inner : SnappyOutboundCodec) (response_code : byte) (src : list byte)
    : Outcome (Result (option RPCCodedResponse) RPCError * BaseOutboundCodec * list byte) :=
  '(inner_result, inner', src) ←
    (if is_response response_code then
       '(r, i, src) ← SnappyOutboundCodec_decode inner src;
       mret (match r with
             | Ok o => Ok (Success <$> o)
             | Err e => Err e
             end, i, src)
     else
       '(r, i, src) ← SnappyOutboundCodec_decode_error inner src;
       mret (match r with
             | Ok o => Ok (from_error response_code <$> o)
             | Err e => Err e
             end, i, src));
  let code' :=
    match inner_result with Ok (Some _) => None | _ => Some response_code end in
  mret (inner_result, mkBaseOutboundCodec inner' code', src).

(** [self.current_response_code.unwrap_or_else(..)]: the code is split off the
    buffer when it is not known yet. *)
Definition take_response_code (current : option byte) (src : list byte)
    : Outcome (byte * list byte) :=
  match current with
  | Some resp_code => mret (resp_code, src)
  | None =>
    '(first, src) ← split_to 1 src;
    resp_code ← unwrap (head first) "index out of bounds";
    mret (resp_code, src)
  end.

(** [BaseOutboundCodec::decode] *)
Definition BaseOutboundCodec_decode (c : BaseOutboundCodec) (src : list byte)
    : Outcome (Result (option RPCCodedResponse) RPCError * BaseOutboundCodec * list byte) :=
  if decide (length src <= 1)%nat then mret (Ok None, c, src)
  else
    '(response_code, src) ← take_response_code (current_response_code c) src;
    decode_payload (inner c) response_code src.

Definition OutboundCodec_decode (c : OutboundCodec) (src : list byte)
    : Outcome (Result (option RPCCodedResponse) RPCError * OutboundCodec * list byte) :=
  match c with
  | OutboundCodec_Snappy base =>
    '(r, base, src) ← BaseOutboundCodec_decode base src;
    mret (r, OutboundCodec_Snappy base, src)
  end.

(** ** Feeding a decoder

    A framed socket appends what it receives to the buffer and calls [decode];
    [Ok(None)] asks for more.  [feed] gives a decoder the chunks of a stream in
    turn until it answers an item or an error, and leaves the rest of the
    stream in the buffer. *)
Section Feed.
Context {C I : Type}
  (decode : C -> list byte -> Outcome (Result (option I) RPCError * C * list byte)).

Fixpoint feed (c : C) (buf : list byte) (chunks : list (list byte))
    : Outcome (option (Result I RPCError) * C * list byte) :=
  match chunks with
  | [] => mret (None, c, buf)
  | chunk :: chunks =>
    '(r, c, buf) ← decode c (buf ++ chunk);
    match r with
    | Ok None => feed c buf chunks
    | Ok (Some item) => mret (Some (Ok item), c, buf ++ concat chunks)
    | Err e => mret (Some (Err e), c, buf ++ concat chunks)
    end
  end.

(** A decoder in a state of [Inv c msg] has the message [msg] still to read,
    and asks for more as long as the buffer holds a strict prefix of it. *)
Definition reads (Inv : C -> list byte -> Prop) (item : I) (c_end : C) : Prop :=
  forall c msg b t rest, Inv c msg -> b ++ t = msg ++ rest ->
  (exists b1, decode c b = Ret (Ok (Some item), c_end, b1) /\ b1 ++ t = rest) \/
  (exists c1 b1 msg1, decode c b = Ret (Ok None, c1, b1) /\ Inv c1 msg1 /\
     b1 ++ t = msg1 ++ rest /\ length b1 < length msg1)%nat.

Lemma feed_reads Inv item c_end c msg buf chunks rest :
  reads Inv item c_end -> Inv c msg -> buf ++ concat chunks = msg ++ rest ->
  (length buf < length msg)%nat ->
  feed c buf chunks = Ret (Some (Ok item), c_end, rest).
Proof.
  intros Hreads. revert c msg buf; induction chunks as [|chunk chunks IH]; intros c msg buf Hinv Heq Hlt.
  - cbn in Heq. rewrite app_nil_r in Heq. apply (f_equal length) in Heq.
    rewrite length_app in Heq. lia.
  - cbn in *. rewrite app_assoc in Heq.
    destruct (Hreads c msg _ _ rest Hinv Heq) as [(b1 & -> & Hb)|(c1 & b1 & msg1 & -> & Hinv1 & Heq1 & Hlt1)];
      cbn.
    + by rewrite Hb.
    + by eapply IH.
Qed.
End Feed.

(** ** Reading one chunk *)

Context `{!WireLaws}.

Lemma split_prefix (b t msg rest : list byte) :
  b ++ t = msg ++ rest ->
  (exists b1, b = msg ++ b1 /\ b1 ++ t = rest) \/
  (exists q, msg = b ++ q /\ q <> [] /\ t = q ++ rest).
Proof.
  intros [(k & -> & ->)|(k & -> & ->)]%app_eq_inv; [left; eauto|].
  destruct k as [|x k]; [left; exists []; by rewrite !app_nil_r|right; eauto].
Qed.

(** The two encodings a payload is sent as. *)
Record encoded (max_packet_size : N) (data u f : list byte) : Prop := {
  encoded_max : (N.of_nat (length data) <= max_packet_size)%N;
  encoded_u : self_delimiting uvi_decode (Ok None)
                (fun rest => Ok (Some (N.of_nat (length data), rest))) u;
  encoded_u_ne : u <> [];
  encoded_f : self_delimiting (frame_read_exact (length data)) ReadEof
                (fun _ => ReadOk data (length f)) f;
  encoded_f_len : (2 <= length f)%nat;
}.

Lemma encode_payload_ok max_packet_size data dst :
  data <> [] -> (N.of_nat (length data) <= max_packet_size)%N ->
  (max_packet_size < 2 ^ 64)%N ->
  exists u f, encoded max_packet_size data u f /\
    encode_payload max_packet_size data dst = (Ok tt, dst ++ u ++ f).
Proof.
  intros Hne Hmax H64.
  destruct (uvi_roundtrip (N.of_nat (length data)) ltac:(lia)) as (u & Hu & Hune & Hud).
  destruct (frame_roundtrip data Hne) as (f & Hf & Hfne & Hfd).
  exists u, f. split; [by split|].
  unfold encode_payload. rewrite decide_False by lia. rewrite Hu, Hf. by rewrite app_assoc.
Qed.

Section ReadChunk.
Context (max_packet_size : N) (data u f : list byte) (Henc : encoded max_packet_size data u f).

(** What is left of the chunk, by what has been read of it. *)
Definition chunk_inv (len : option N) (msg : list byte) : Prop :=
  match len with
  | None => msg = u ++ f
  | Some n => n = N.of_nat (length data) /\ msg = f
  end.

Lemma read_frame b t rest :
  b ++ t = f ++ rest ->
  (exists b1, read_chunk max_packet_size (Some (N.of_nat (length data))) b =
     Ret (Ok (Some data), None, b1) /\ b1 ++ t = rest) \/
  (read_chunk max_packet_size (Some (N.of_nat (length data))) b =
     Ret (Ok None, Some (N.of_nat (length data)), b) /\ (length b < length f)%nat).
Proof.
  intros Heq. unfold read_chunk. rewrite decide_False by (pose proof (encoded_max _ _ _ _ Henc); lia).
  rewrite Nat2N.id.
  destruct (split_prefix _ _ _ _ Heq) as [(b1 & -> & Hb)|(q & Hf & Hq & ->)].
  - left. exists b1. split; [|done].
    rewrite (proj1 (encoded_f _ _ _ _ Henc)). unfold split_to.
    rewrite decide_True by (rewrite length_app; lia). cbn.
    by rewrite drop_app_length.
  - right. rewrite (proj2 (encoded_f _ _ _ _ Henc) b q Hf Hq). split; [done|].
    rewrite Hf, length_app. destruct q; [done|cbn; lia].
Qed.

Lemma read_chunk_reads len msg b t rest :
  chunk_inv len msg -> b ++ t = msg ++ rest ->
  (exists b1, read_chunk max_packet_size len b = Ret (Ok (Some data), None, b1) /\ b1 ++ t = rest) \/
  (exists len1 b1 msg1, read_chunk max_packet_size len b = Ret (Ok None, len1, b1) /\
     chunk_inv len1 msg1 /\ b1 ++ t = msg1 ++ rest /\ (length b1 < length msg1)%nat).
Proof.
  destruct len as [n|]; cbn.
  - intros [-> ->] Heq. destruct (read_frame _ _ _ Heq) as [Hd|[Hd Hlt]]; [by left|].
    right. exists (Some (N.of_nat (length data))), b, f. by split_and!.
  - intros -> Heq. rewrite <-app_assoc in Heq.
    destruct (split_prefix _ _ _ _ Heq) as [(b1 & -> & Hb)|(q & Hu & Hq & ->)].
    + assert (Hsame : read_chunk max_packet_size None (u ++ b1) =
        read_chunk max_packet_size (Some (N.of_nat (length data))) b1).
      { unfold read_chunk. by rewrite (proj1 (encoded_u _ _ _ _ Henc)). }
      rewrite Hsame.
      destruct (read_frame _ _ _ Hb) as [Hd|[Hd Hlt]]; [by left|].
      right. exists (Some (N.of_nat (length data))), b1, f. by split_and!.
    + right. exists None, b, (u ++ f). unfold read_chunk.
      rewrite (proj2 (encoded_u _ _ _ _ Henc) b q Hu Hq). split; [done|]. split; [done|]. split.
      * by rewrite Hu, <-!app_assoc.
      * rewrite Hu, !length_app. destruct q; [done|cbn; lia].
Qed.
End ReadChunk.

(** ** The decoders of a stream *)

Definition fresh_inbound (protocol : ProtocolId) (max_packet_size : N) : InboundCodec :=
  InboundCodec_Snappy (SnappyInboundCodec_new protocol max_packet_size).

Definition fresh_outbound (protocol : ProtocolId) (max_packet_size : N) : OutboundCodec :=
  OutboundCodec_Snappy (BaseOutboundCodec_new (SnappyOutboundCodec_new protocol max_packet_size)).

Section Decoders.
Context (protocol : ProtocolId) (max_packet_size : N) (data u f : list byte).
Context (Henc : encoded max_packet_size data u f).

Definition inbound_inv (c : InboundCodec) (msg : list byte) : Prop :=
  exists len, c = InboundCodec_Snappy (mkSnappyInboundCodec protocol len max_packet_size) /\
    chunk_inv data u f len msg.

Lemma inbound_reads req :
  request_of_buffer protocol data = Ok (Some req) ->
  reads InboundCodec_decode inbound_inv req (fresh_inbound protocol max_packet_size).
Proof.
  intros Hreq c msg b t rest (len & -> & Hinv) Heq. cbn.
  unfold BaseInboundCodec_decode, SnappyInboundCodec_decode. cbn [in_max_packet_size in_len].
  destruct (read_chunk_reads _ _ _ _ Henc len msg b t rest Hinv Heq)
    as [(b1 & -> & Hb)|(len1 & b1 & msg1 & -> & Hinv1 & Heq1 & Hlt)]; cbn.
  - left. exists b1. by rewrite Hreq.
  - right. eexists _, b1, msg1. split; [done|]. split; [by eexists|done].
Qed.

Definition outbound_inv (code : byte) (c : OutboundCodec) (msg : list byte) : Prop :=
  exists len current, c = OutboundCodec_Snappy (mkBaseOutboundCodec
      (mkSnappyOutboundCodec len protocol max_packet_size) current) /\
    match current with
    | None => len = None /\ msg = code :: u ++ f
    | Some code' => code' = code /\ chunk_inv data u f len msg
    end.

(** What the decoders answer once the payload is complete. *)
Definition coded_of_payload (code : byte) : Result (option RPCCodedResponse) RPCError :=
  if is_response code then
    match response_of_buffer protocol data with
    | Ok o => Ok (Success <$> o)
    | Err e => Err e
    end
  else Ok (Some (from_error code (of_bytes (from_utf8_lossy data)))).

Lemma chunk_inv_length len msg : chunk_inv data u f len msg -> (2 <= length msg)%nat.
Proof.
  pose proof (encoded_f_len _ _ _ _ Henc) as Hf.
  destruct len; cbn; [intros [_ ->]; done|intros ->]. rewrite length_app. lia.
Qed.

(** [BaseOutboundCodec::decode] once the code is known. *)
Lemma outbound_decode_code code resp len msg b t rest :
  coded_of_payload code = Ok (Some resp) ->
  chunk_inv data u f len msg -> b ++ t = msg ++ rest ->
  (exists b1, decode_payload (mkSnappyOutboundCodec len protocol max_packet_size) code b = Ret (Ok (Some resp),
     BaseOutboundCodec_new (SnappyOutboundCodec_new protocol max_packet_size), b1) /\ b1 ++ t = rest) \/
  (exists len1 b1 msg1, decode_payload (mkSnappyOutboundCodec len protocol max_packet_size) code b = Ret (Ok None, mkBaseOutboundCodec
     (mkSnappyOutboundCodec len1 protocol max_packet_size) (Some code), b1) /\
     chunk_inv data u f len1 msg1 /\ b1 ++ t = msg1 ++ rest /\ (length b1 < length msg1)%nat).
Proof.
  unfold coded_of_payload, decode_payload, SnappyOutboundCodec_decode, SnappyOutboundCodec_decode_error.
  intros Hresp Hinv Heq. cbn [out_max_packet_size out_len].
  destruct (read_chunk_reads _ _ _ _ Henc len msg b t rest Hinv Heq)
    as [(b1 & -> & Hb)|(len1 & b1 & msg1 & -> & Hinv1 & Heq1 & Hlt)]; cbn.
  - left. exists b1. split; [|done]. destruct (is_response code); cbn.
    + by rewrite Hresp.
    + by injection Hresp as <-.
  - right. exists len1, b1, msg1. split; [|done]. by destruct (is_response code).
Qed.

Lemma outbound_reads code resp :
  coded_of_payload code = Ok (Some resp) ->
  reads OutboundCodec_decode (outbound_inv code) resp (fresh_outbound protocol max_packet_size).
Proof.
  intros Hresp c msg b t rest (len & current & -> & Hinv) Heq.
  assert (Hlen : (2 <= length msg)%nat).
  { destruct current as [code'|]; destruct Hinv as [_ Hinv]; [by eapply chunk_inv_length|].
    rewrite Hinv. pose proof (encoded_f_len _ _ _ _ Henc). cbn. rewrite length_app. lia. }
  cbn -[decode_payload BaseOutboundCodec_decode].
  unfold BaseOutboundCodec_decode. case_decide as Hb1.
  { right. eexists _, b, msg. split; [done|]. split; [by eexists _, _|]. split; [done|lia]. }
  destruct current as [code'|]; destruct Hinv as [-> Hinv]; cbn -[decode_payload].
  - destruct (outbound_decode_code code resp len msg b t rest Hresp Hinv Heq)
      as [(b1 & Hr & Hb)|(len1 & b1 & msg1 & Hr & Hinv1 & Hrest)]; rewrite Hr; cbn.
    + left. by exists b1.
    + right. eexists _, b1, msg1. split; [done|]. split; [by eexists _, _|done].
  - destruct b as [|x b]; [cbn in Hb1; lia|]. subst msg. injection Heq as -> Heq.
    unfold take_response_code, split_to. rewrite decide_True by (cbn; lia).
    cbn -[decode_payload]. rewrite drop_0.
    destruct (outbound_decode_code code resp None (u ++ f) b t rest Hresp eq_refl Heq)
      as [(b1 & Hr & Hb)|(len1 & b1 & msg1 & Hr & Hinv1 & Hrest)]; rewrite Hr; cbn.
    + left. by exists b1.
    + right. eexists _, b1, msg1. split; [done|]. split; [by eexists _, _|done].
Qed.
End Decoders.

(** ** What a decoder makes of a response and of a request *)

Definition response_protocol (resp : RPCResponse) : Protocol :=
  match resp with
  | RPCResponse_Status _ => Protocol_Status
  | RPCResponse_Pong _ => Protocol_Ping
  | RPCResponse_MetaData _ => Protocol_MetaData
  end.

(** A success is received as it was sent; of an error the message is read as
    UTF-8, lossily. *)
Definition received (r : RPCCodedResponse) : RPCCodedResponse :=
  let lossy e := mkErrorType (from_utf8_lossy (error_bytes e)) in
  match r with
  | Success resp => Success resp
  | InvalidRequest err => InvalidRequest (lossy err)
  | ServerError err => ServerError (lossy err)
  | Unknown err => Unknown (lossy err)
  end.

Lemma coded_of_payload_received protocol r code :
  as_u8 r = Some code -> response_payload r <> [] ->
  (forall resp, r = Success resp -> message_name protocol = response_protocol resp) ->
  coded_of_payload protocol (response_payload r) code = Ok (Some (received r)).
Proof.
  intros Hcode Hne Hp. unfold coded_of_payload, response_of_buffer.
  destruct r as [resp|[e]|[e]|[e]]; injection Hcode as <-; cbn in *;
    try (unfold ErrorType_from; by rewrite as_bytes_of_bytes).
  specialize (Hp resp eq_refl). rewrite Hp. destruct (version protocol).
  destruct resp as [res|res|res]; cbn in *; rewrite decide_True;
    try done; destruct res; try done; cbn; lia.
Qed.

(** The payload of the requests that are written to the stream. *)
Definition request_payload (r : RPCRequest) : list byte :=
  match r with
  | RPCRequest_Status req => req
  | RPCRequest_Goodbye req => req
  | RPCRequest_Ping req => req
  | RPCRequest_MetaData => []
  end.

Lemma request_of_buffer_payload protocol req :
  message_name protocol = request_protocol req -> request_payload req <> [] ->
  request_of_buffer protocol (request_payload req) = Ok (Some req).
Proof.
  intros Hp Hne. unfold request_of_buffer. rewrite Hp. destruct (version protocol).
  destruct req as [data|data|data|]; cbn in *; try done; rewrite decide_True;
    try done; destruct data; try done; cbn; lia.
Qed.

(** ** Any bytes *)

Lemma read_chunk_total max_packet_size len src :
  exists r len' src', read_chunk max_packet_size len src = Ret (r, len', src') /\
    forall data, r = Ok (Some data) -> (N.of_nat (length data) <= max_packet_size)%N.
Proof.
  unfold read_chunk. destruct (match len with Some _ => _ | None => _ end) as [[[length s]|]|e];
    [|by eexists _, _, _..].
  case_decide; [by eexists _, _, _|].
  destruct (frame_read_exact (N.to_nat length) s) as [data position| |e] eqn:E;
    [|by eexists _, _, _..].
  apply frame_read_exact_length in E as [Hl Hpos]. unfold split_to. rewrite decide_True by done.
  eexists _, _, _. split; [done|]. intros ? [= <-]. lia.
Qed.

Lemma request_of_buffer_Some protocol data req max_packet_size :
  (N.of_nat (length data) <= max_packet_size)%N ->
  request_of_buffer protocol data = Ok (Some req) ->
  request_protocol req = message_name protocol /\
  (N.of_nat (length (request_payload req)) <= max_packet_size)%N /\
  (request_payload req = [] <-> req = RPCRequest_MetaData).
Proof.
  unfold request_of_buffer. intros Hmax.
  destruct (message_name protocol), (version protocol); case_decide as Hd; try done;
    intros [= <-]; cbn; split_and!; try done; try lia;
    destruct data; cbn in *; try lia; done.
Qed.

Lemma response_of_buffer_Some protocol data resp max_packet_size :
  (N.of_nat (length data) <= max_packet_size)%N ->
  response_of_buffer protocol data = Ok (Some resp) ->
  response_protocol resp = message_name protocol /\
  (N.of_nat (length (response_payload (Success resp))) <= max_packet_size)%N /\
  response_payload (Success resp) <> [].
Proof.
  unfold response_of_buffer. intros Hmax.
  destruct (message_name protocol), (version protocol); try case_decide as Hd; try done;
    intros [= <-]; cbn; split_and!; try done; try lia;
    destruct data; cbn in *; try lia; done.
Qed.

Lemma response_code_total (current : option byte) (src : list byte) :
  (1 < length src)%nat ->
  exists code src1, take_response_code current src = Ret (code, src1).
Proof.
  intros Hlen. destruct current as [code|]; [by eexists _, _|].
  destruct src as [|b src]; [cbn in Hlen; lia|].
  unfold take_response_code, split_to. rewrite decide_True by (cbn; lia). by eexists _, _.
Qed.

Lemma decode_payload_total c code src :
  exists r c' src', decode_payload c code src = Ret (r, c', src') /\
    forall resp, r = Ok (Some (Success resp)) ->
      response_protocol resp = message_name (out_protocol c) /\
      (N.of_nat (length (response_payload (Success resp))) <= out_max_packet_size c)%N /\
      response_payload (Success resp) <> [].
Proof.
  unfold decode_payload, SnappyOutboundCodec_decode, SnappyOutboundCodec_decode_error.
  destruct (read_chunk_total (out_max_packet_size c) (out_len c) src) as (r & len' & src' & -> & Hr).
  destruct (is_response code), r as [[data|]|e]; cbn; eexists _, _, _; (split; [done|]); try done.
  - intros resp Hresp. specialize (Hr data eq_refl).
    destruct (response_of_buffer (out_protocol c) data) as [[x|]|] eqn:E; cbn in Hresp; try done.
    injection Hresp as <-. by eapply response_of_buffer_Some.
  - intros resp. cbn. unfold from_error. by destruct code.
Qed.

(** ** Properties *)

(** C14: a response the server encodes is decoded by the client exactly once,
    as it was sent up to invalid UTF-8 in an error message, however the stream
    cuts the bytes into chunks and whatever follows; the client's decoder ends
    in its initial state with the following bytes untouched. *)
Theorem response_roundtrip (protocol : ProtocolId) (max_packet_size : N) (r : RPCCodedResponse)
    (dst : list byte) :
  response_payload r <> [] -> (N.of_nat (length (response_payload r)) <= max_packet_size)%N ->
  (max_packet_size < 2 ^ 64)%N ->
  (forall resp, r = Success resp -> message_name protocol = response_protocol resp) ->
  exists bytes,
    InboundCodec_encode (fresh_inbound protocol max_packet_size) r dst = Ret (Ok tt, bytes) /\
    forall chunks rest, concat chunks = bytes ++ rest ->
      feed OutboundCodec_decode (fresh_outbound protocol max_packet_size) [] chunks =
        Ret (Some (Ok (received r)), fresh_outbound protocol max_packet_size, rest).
Proof.
  intros Hne Hmax H64 Hp. destruct (as_u8_is_Some r) as [code Hcode].
  destruct (encode_payload_ok _ _ [code] Hne Hmax H64) as (u & f & Henc & Hrun).
  exists (code :: u ++ f). split.
  - cbn. unfold BaseInboundCodec_encode. rewrite Hcode. cbn. f_equal. exact Hrun.
  - intros chunks rest Heq. eapply feed_reads.
    + eapply outbound_reads; [exact Henc|]. by apply coded_of_payload_received.
    + by eexists _, _.
    + exact Heq.
    + cbn. lia.
Qed.

(** A request with a payload that the client encodes is decoded by the
    server exactly once and unchanged under the request's protocol, however
    the stream is cut; a metadata request writes nothing. *)
Theorem request_roundtrip (protocol : ProtocolId) (max_packet_size : N) (req : RPCRequest)
    (dst : list byte) :
  message_name protocol = request_protocol req ->
  (N.of_nat (length (request_payload req)) <= max_packet_size)%N ->
  (max_packet_size < 2 ^ 64)%N ->
  (req = RPCRequest_MetaData \/ request_payload req <> []) ->
  exists bytes,
    OutboundCodec_encode (fresh_outbound protocol max_packet_size) req dst = (Ok tt, dst ++ bytes) /\
    match req with
    | RPCRequest_MetaData => bytes = []
    | _ => forall chunks rest, concat chunks = bytes ++ rest ->
        feed InboundCodec_decode (fresh_inbound protocol max_packet_size) [] chunks =
          Ret (Some (Ok req), fresh_inbound protocol max_packet_size, rest)
    end.
Proof.
  intros Hp Hmax H64 Hne.
  destruct (decide (request_payload req = [])) as [He|Hne'].
  { destruct Hne as [->|]; [|done]. exists []. by rewrite app_nil_r. }
  destruct (encode_payload_ok _ _ dst Hne' Hmax H64) as (u & f & Henc & Hrun).
  assert (Hfeed : forall chunks rest, concat chunks = (u ++ f) ++ rest ->
    feed InboundCodec_decode (fresh_inbound protocol max_packet_size) [] chunks =
      Ret (Some (Ok req), fresh_inbound protocol max_packet_size, rest)).
  { intros chunks rest Heq. eapply feed_reads.
    - eapply inbound_reads; [exact Henc|]. by apply request_of_buffer_payload.
    - by eexists.
    - exact Heq.
    - pose proof (encoded_f_len _ _ _ _ Henc). cbn. rewrite length_app. lia. }
  exists (u ++ f). destruct req; done.
Qed.

(** C29: on any bytes and in any decoder state, both decoders return (no
    [split_to] is out of bounds), and what they accept has the negotiated
    protocol and a payload that is not empty and within the packet limit; a
    client accepts no response to a goodbye. *)
Theorem decode_bounded (max_packet_size : N) (protocol : ProtocolId) (src : list byte) :
  (forall len, exists r c' src',
    InboundCodec_decode
      (InboundCodec_Snappy (mkSnappyInboundCodec protocol len max_packet_size)) src =
      Ret (r, c', src') /\
    forall req, r = Ok (Some req) ->
      request_protocol req = message_name protocol /\
      (N.of_nat (length (request_payload req)) <= max_packet_size)%N /\
      (request_payload req = [] <-> req = RPCRequest_MetaData)) /\
  (forall len current, exists r c' src',
    OutboundCodec_decode (OutboundCodec_Snappy (mkBaseOutboundCodec
      (mkSnappyOutboundCodec len protocol max_packet_size) current)) src = Ret (r, c', src') /\
    forall resp, r = Ok (Some (Success resp)) ->
      response_protocol resp = message_name protocol /\
      (N.of_nat (length (response_payload (Success resp))) <= max_packet_size)%N /\
      response_payload (Success resp) <> []).
Proof.
  split.
  - intros len. cbn. unfold BaseInboundCodec_decode, SnappyInboundCodec_decode. cbn.
    destruct (read_chunk_total max_packet_size len src) as (r & len' & src' & -> & Hr). cbn.
    destruct r as [[data|]|e]; cbn; eexists _, _, _; (split; [done|]); try done.
    intros req Hreq. specialize (Hr data eq_refl). by eapply request_of_buffer_Some.
  - intros len current. unfold OutboundCodec_decode, BaseOutboundCodec_decode.
    case_decide as Hlen; [eexists _, _, _; split; [done|done]|].
    cbn [current_response_code inner].
    destruct (response_code_total current src) as (code & src1 & ->); [lia|].
    cbn -[decode_payload].
    destruct (decode_payload_total (mkSnappyOutboundCodec len protocol max_packet_size) code src1)
      as (r & c' & src' & -> & Hr).
    eexists r, _, src'. split; [done|]. intros resp ->. by apply (Hr resp).
Qed.
End Codec.

(** ** Witnesses, on the concrete varint and a concrete frame format *)
Section Witnesses.
#[local] Existing Instance leb128_wire.
#[local] Existing Instance leb128_laws.

Definition demo_ping : RPCCodedResponse := Success (RPCResponse_Pong [x01; x02; x03]).
Definition ping_protocol : ProtocolId := ProtocolId_new Protocol_Ping V1 Snappy.

Lemma response_roundtrip_witness :
  exists bytes,
    InboundCodec_encode (fresh_inbound ping_protocol MAX_RPC_SIZE) demo_ping [] =
      Ret (Ok tt, bytes) /\
    forall chunks rest, concat chunks = bytes ++ rest ->
      feed OutboundCodec_decode (fresh_outbound ping_protocol MAX_RPC_SIZE) [] chunks =
        Ret (Some (Ok demo_ping), fresh_outbound ping_protocol MAX_RPC_SIZE, rest).
Proof.
  apply (response_roundtrip ping_protocol MAX_RPC_SIZE demo_ping []);
    [discriminate|vm_compute; discriminate|reflexivity|intros resp [= <-]; reflexivity].
Defined.

Lemma request_roundtrip_witness :
  exists bytes,
    OutboundCodec_encode (fresh_outbound ping_protocol MAX_RPC_SIZE) (RPCRequest_Ping [x05]) [] =
      (Ok tt, bytes).
Proof.
  destruct (request_roundtrip ping_protocol MAX_RPC_SIZE (RPCRequest_Ping [x05]) [])
    as (bytes & Hrun & _);
    [reflexivity|vm_compute; discriminate|reflexivity|right; discriminate|].
  exists bytes. exact Hrun.
Defined.

(** The bytes of a response, and their decoding in three pieces. *)
Example demo_bytes :
  InboundCodec_encode (fresh_inbound ping_protocol MAX_RPC_SIZE) demo_ping [] =
    Ret (Ok tt, [x00; x03; x00; x01; x02; x03]).
Proof. reflexivity. Qed.

Lemma decode_bounded_witness :
  exists r c' src',
    InboundCodec_decode (InboundCodec_Snappy (mkSnappyInboundCodec ping_protocol None 4)) [x05; x00]
      = Ret (r, c', src').
Proof.
  destruct (decode_bounded 4 ping_protocol [x05; x00]) as [Hin _].
  destruct (Hin None) as (r & c' & src' & Hrun & _). exists r, c', src'. exact Hrun.
Defined.
End Witnesses.
