(* ===== verification/DelayQueue.v ===== *)
(** * tokio's delay queue

    [tokio::time::DelayQueue] is a library: the class [DelayQueue] lists the
    operations the program calls and [DelayQueueLaws] what it relies on, in
    terms of the live entries of the queue (key, value and deadline).  A key
    may be reused once it is no longer live.  A duration too far in the future is
    documented to panic: [dq_limit] is the longest one accepted, [dq_insert] and
    [dq_reset] are the checked operations the program calls.  [table_queue] is a
    concrete instance. *)
From Stdlib Require Import NArith Strings.String.
From S2P Require Import Prelude.

(** [Poll<Option<Result<Expired<K>, Error>>>] *)
Inductive Expiry (K : Type) :=
| Expired (k : K)
| ExpiryError (e : string)
| ExpiryNone
| ExpiryPending.
Arguments Expired {K} k.
Arguments ExpiryError {K} e.
Arguments ExpiryNone {K}.
Arguments ExpiryPending {K}.

Class DelayQueue := {
  (** [delay_queue::Key] *)
  Key : Type;
  Key_eq_dec :: EqDecision Key;
  Key_countable :: Countable Key;
  DQ : Type -> Type;
  dq_new : forall {K}, DQ K;
  (** The longest duration that is not too far in the future. *)
  dq_limit : Duration;
  (** [insert] and [reset] of a duration that is accepted. *)
  dq_put : forall {K}, Instant -> K -> Duration -> DQ K -> Key * DQ K;
  dq_move : forall {K}, Instant -> Key -> Duration -> DQ K -> Outcome (DQ K);
  dq_remove : forall {K}, Key -> DQ K -> Outcome (DQ K);
  dq_clear : forall {K}, DQ K -> DQ K;
  dq_poll : forall {K}, Instant -> DQ K -> Expiry K * DQ K;
  (** The live entries. *)
  live : forall {K}, DQ K -> gmap Key (K * Instant);
}.

Definition TOO_FAR : string := "invalid deadline".

(** [DelayQueue::insert] *)
Definition dq_insert `{DelayQueue} {K} (now : Instant) (k : K) (d : Duration) (q : DQ K) : Outcome (Key * DQ K) :=
  if decide (d <= dq_limit)%N then mret (dq_put now k d q) else Panic TOO_FAR.

(** [DelayQueue::reset] *)
Definition dq_reset `{DelayQueue} {K} (now : Instant) (key : Key) (d : Duration) (q : DQ K) : Outcome (DQ K) :=
  if decide (d <= dq_limit)%N then dq_move now key d q else Panic TOO_FAR.

(** A day is accepted: tokio's wheel of timers spans two years. *)
Definition DAY : Duration := from_secs 86400.

Class DelayQueueLaws `{DelayQueue} := {
  dq_limit_day : (DAY <= dq_limit)%N;
  dq_new_live : forall K, live (dq_new (K := K)) = ∅;
  dq_put_live : forall K now (k : K) d q key q', dq_put now k d q = (key, q') ->
    live q !! key = None /\ live q' = <[key := (k, now + d)%N]> (live q);
  dq_remove_live : forall K key (q : DQ K), is_Some (live q !! key) ->
    exists q', dq_remove key q = Ret q' /\ live q' = delete key (live q);
  dq_move_live : forall K now key d (q : DQ K) k t, live q !! key = Some (k, t) ->
    exists q', dq_move now key d q = Ret q' /\ live q' = <[key := (k, now + d)%N]> (live q);
  dq_clear_live : forall K (q : DQ K), live (dq_clear q) = ∅;
  dq_poll_live : forall K now (q : DQ K) r q', dq_poll now q = (r, q') ->
    match r with
    | Expired k => exists key t, live q !! key = Some (k, t) /\ (t <= now)%N /\
        live q' = delete key (live q)
    | ExpiryNone => live q = ∅ /\ live q' = live q
    | ExpiryError _ | ExpiryPending => live q' = live q
    end;
}.

Section Checked.
Context `{DelayQueueLaws} {K : Type}.
Implicit Types (k : K) (q : DQ K).

Lemma within_day d : (d <= DAY)%N -> (d <= dq_limit)%N.
Proof. intros Hd. etrans; [exact Hd|apply dq_limit_day]. Qed.

Lemma dq_insert_ret now k d q : (d <= dq_limit)%N -> dq_insert now k d q = Ret (dq_put now k d q).
Proof. intros Hd. unfold dq_insert. by rewrite decide_True. Qed.

Lemma dq_insert_far now k d q : (dq_limit < d)%N -> dq_insert now k d q = Panic TOO_FAR.
Proof. intros Hd. unfold dq_insert. by rewrite decide_False by (by apply N.lt_nge). Qed.

Lemma dq_reset_far now key d q : (dq_limit < d)%N -> dq_reset now key d q = Panic TOO_FAR.
Proof. intros Hd. unfold dq_reset. by rewrite decide_False by (by apply N.lt_nge). Qed.

Lemma dq_insert_live now k d q key q' :
  dq_insert now k d q = Ret (key, q') -> live q !! key = None /\ live q' = <[key := (k, now + d)%N]> (live q).
Proof. unfold dq_insert. case_decide; [|done]. intros [= Hp]. by apply dq_put_live in Hp. Qed.

Lemma dq_insert_ok now k d q :
  (d <= dq_limit)%N -> exists key q', dq_insert now k d q = Ret (key, q') /\
    live q !! key = None /\ live q' = <[key := (k, now + d)%N]> (live q).
Proof.
  intros Hd. rewrite dq_insert_ret by done. destruct (dq_put now k d q) as [key q'] eqn:E.
  exists key, q'. split; [done|]. by apply dq_put_live in E.
Qed.

Lemma dq_reset_live now key d q k t :
  (d <= dq_limit)%N -> live q !! key = Some (k, t) ->
  exists q', dq_reset now key d q = Ret q' /\ live q' = <[key := (k, now + d)%N]> (live q).
Proof. intros Hd Hl. unfold dq_reset. rewrite decide_True by done. by eapply dq_move_live. Qed.
End Checked.

(** While the runtime's timer is running, a delay queue gives no error (its
    errors are a timer that is shut down or at capacity). *)
Class DelayQueueAlive `{DelayQueue} := {
  dq_poll_alive : forall K now (q q' : DQ K) e, dq_poll now q <> (ExpiryError e, q');
}.

(** ** A concrete instance: a table indexed by numbers, polled in key order *)
Definition table_due {K} (now : Instant) (q : gmap N (K * Instant)) : option (N * K) :=
  match filter (fun e => (e.2.2 <= now)%N) (map_to_list q) with
  | [] => None
  | (key, (k, _)) :: _ => Some (key, k)
  end.

Definition table_queue : DelayQueue := {|
  Key := N;
  DQ := fun K => gmap N (K * Instant);
  dq_new := fun K => ∅;
  dq_limit := from_secs 63072000;
  dq_put := fun K now k d q =>
    let key := fresh (dom q) in (key, <[key := (k, now + d)%N]> q);
  dq_remove := fun K key q =>
    match q !! key with
    | Some _ => Ret (delete key q)
    | None => Panic "invalid key"
    end;
  dq_move := fun K now key d q =>
    match q !! key with
    | Some (k, _) => Ret (<[key := (k, now + d)%N]> q)
    | None => Panic "invalid key"
    end;
  dq_clear := fun K q => ∅;
  dq_poll := fun K now q =>
    match table_due now q with
    | Some (key, k) => (Expired k, delete key q)
    | None => if decide (size q = 0) then (ExpiryNone, q) else (ExpiryPending, q)
    end;
  live := fun K q => q;
|}.

Lemma table_due_Some {K} now (q : gmap N (K * Instant)) key k :
  table_due now q = Some (key, k) -> exists t, q !! key = Some (k, t) /\ (t <= now)%N.
Proof.
  unfold table_due. destruct (filter _ _) as [|[key' [k' t]] l] eqn:E; [done|]. intros [= <- <-].
  assert (Hin : (key', (k', t)) ∈ filter (fun e => (e.2.2 <= now)%N) (map_to_list q))
    by (rewrite E; left).
  apply list_elem_of_filter in Hin as [Ht Hin]. apply elem_of_map_to_list in Hin. eauto.
Qed.

Lemma table_queue_laws : @DelayQueueLaws table_queue.
Proof.
  split; cbn.
  - by vm_compute.
  - done.
  - intros K now k d q key q' [= <- <-]. split; [|done].
    apply not_elem_of_dom, is_fresh.
  - intros K key q [x Hx]. rewrite Hx. eauto.
  - intros K now key d q k t Hk. rewrite Hk. eauto.
  - done.
  - intros K now q r q'. destruct (table_due now q) as [[key k]|] eqn:E.
    + intros [= <- <-]. apply table_due_Some in E as (t & Hk & Ht). eauto.
    + case_decide as Hs; intros [= <- <-]; [|done]. split; [|done].
      by apply map_size_empty_inv.
Qed.

Lemma table_queue_alive : @DelayQueueAlive table_queue.
Proof.
  split; cbn. intros K now q q' e. destruct (table_due now q) as [[key k]|]; [done|].
  by case_decide.
Qed.
