(* ===== verification/HashSetDelay.v ===== *)
(** * Set with expiring entries (src/core/network/src/hashset_delay.rs)

    [HashSetDelay] keeps, for each entry, the key of its timer in a delay
    queue and an [Instant].  The operations that read the clock take [now]. *)
From Stdlib Require Import NArith.
From S2P Require Import Prelude DelayQueue.

Open Scope list_scope.

Definition DEFAULT_DELAY : N := 30.

Section HashSetDelay.
Context {K : Type} `{Countable K} `{DelayQueue} `{HashOrder}.

(** [struct MapEntry] *)
Record MapEntry := mkMapEntry { entry_key : Key; value : Instant }.

Record HashSetDelay := mkHashSetDelay {
  entries : gmap K MapEntry;
  expirations : DQ K;
  default_entry_timeout : Duration;
}.

Definition new (timeout : Duration) : HashSetDelay := mkHashSetDelay ∅ dq_new timeout.

Definition HashSetDelay_default : HashSetDelay := new (from_secs DEFAULT_DELAY).

Definition contains (key : K) (s : HashSetDelay) : bool := bool_decide (is_Some (entries s !! key)).

Definition get (key : K) (s : HashSetDelay) : option Instant := value <$> entries s !! key.

Definition len (s : HashSetDelay) : nat := size (entries s).

Definition keys (s : HashSetDelay) : list K := hm_keys (entries s).

Definition update_timeout (now : Instant) (key : K) (timeout : Duration) (s : HashSetDelay)
    : Outcome (bool * HashSetDelay) :=
  match entries s !! key with
  | Some entry =>
    q ← dq_reset now (entry_key entry) timeout (expirations s);
    mret (true, mkHashSetDelay (entries s) q (default_entry_timeout s))
  | None => mret (false, s)
  end.

Definition insert_at (now : Instant) (key : K) (entry_duration : Duration) (s : HashSetDelay)
    : Outcome HashSetDelay :=
  if contains key s then snd <$> update_timeout now key entry_duration s
  else
    '(delay_key, q) ← dq_insert now key entry_duration (expirations s);
    let entry := mkMapEntry delay_key (now + entry_duration)%N in
    mret (mkHashSetDelay (<[key := entry]> (entries s)) q (default_entry_timeout s)).

Definition insert (now : Instant) (key : K) (s : HashSetDelay) : Outcome HashSetDelay :=
  insert_at now key (default_entry_timeout s) s.

Definition remove (key : K) (s : HashSetDelay) : Outcome (bool * HashSetDelay) :=
  match entries s !! key with
  | Some entry =>
    q ← dq_remove (entry_key entry) (expirations s);
    mret (true, mkHashSetDelay (delete key (entries s)) q (default_entry_timeout s))
  | None => mret (false, s)
  end.

(** [retain] visits the entries in iteration order. *)
Fixpoint retain_loop (f : K -> bool) (todo : list (K * MapEntry)) (s : HashSetDelay)
    : Outcome HashSetDelay :=
  match todo with
  | [] => mret s
  | (key, entry) :: todo =>
    if f key then retain_loop f todo s
    else
      q ← dq_remove (entry_key entry) (expirations s);
      retain_loop f todo (mkHashSetDelay (delete key (entries s)) q (default_entry_timeout s))
  end.

Definition retain (f : K -> bool) (s : HashSetDelay) : Outcome HashSetDelay :=
  retain_loop f (hm_iter (entries s)) s.

Definition clear (s : HashSetDelay) : HashSetDelay :=
  mkHashSetDelay ∅ (dq_clear (expirations s)) (default_entry_timeout s).

(** [impl Stream for HashSetDelay]: [None] is [Poll::Pending], [Some None] the
    end of the stream. *)
Definition poll_next (now : Instant) (s : HashSetDelay)
    : option (option (Result K string)) * HashSetDelay :=
  let '(r, q) := dq_poll now (expirations s) in
  match r with
  | Expired key =>
    let s' := mkHashSetDelay (delete key (entries s)) q (default_entry_timeout s) in
    match entries s !! key with
    | Some _ => (Some (Some (Ok key)), s')
    | None => (Some (Some (Err "Value no longer exists in expirations"%string)), s')
    end
  | ExpiryError e =>
    (Some (Some (Err ("delay queue error: " +:+ e)%string)),
     mkHashSetDelay (entries s) q (default_entry_timeout s))
  | ExpiryNone => (Some None, mkHashSetDelay (entries s) q (default_entry_timeout s))
  | ExpiryPending => (None, mkHashSetDelay (entries s) q (default_entry_timeout s))
  end.

(** ** Invariant: the timers are exactly those of the entries *)
Record wf (s : HashSetDelay) : Prop := {
  wf_entry : forall k e, entries s !! k = Some e ->
    exists t, live (expirations s) !! entry_key e = Some (k, t);
  wf_live : forall key k t, live (expirations s) !! key = Some (k, t) ->
    exists e, entries s !! k = Some e /\ entry_key e = key;
}.

(** The abstract content: each key with the instant its timer fires. *)
Definition deadline (s : HashSetDelay) (k : K) : option Instant :=
  e ← entries s !! k; snd <$> live (expirations s) !! entry_key e.

Context `{!DelayQueueLaws}.

Lemma set_wf_new timeout : wf (new timeout).
Proof.
  split; cbn; [intros k e; by rewrite lookup_empty|].
  intros key k t. rewrite dq_new_live. by rewrite lookup_empty.
Qed.

Lemma deadline_Some s k t :
  wf s -> deadline s k = Some t <->
  exists e, entries s !! k = Some e /\ live (expirations s) !! entry_key e = Some (k, t).
Proof.
  intros Hwf. unfold deadline. split.
  - destruct (entries s !! k) as [e|] eqn:E; cbn; [|done].
    destruct (wf_entry _ Hwf k e E) as [t' Ht']. rewrite Ht'. cbn. intros [= <-]. eauto.
  - intros (e & -> & He). cbn. by rewrite He.
Qed.

Lemma deadline_is_Some s k : wf s -> is_Some (deadline s k) <-> is_Some (entries s !! k).
Proof.
  intros Hwf. split.
  - intros [t Ht]. apply deadline_Some in Ht as (e & He & _); eauto.
  - intros [e He]. destruct (wf_entry _ Hwf k e He) as [t Ht].
    exists t. apply deadline_Some; eauto.
Qed.

(** Two keys never share a timer. *)
Lemma entry_key_inj s k1 k2 e1 e2 :
  wf s -> entries s !! k1 = Some e1 -> entries s !! k2 = Some e2 ->
  entry_key e1 = entry_key e2 -> k1 = k2.
Proof.
  intros Hwf H1' H2' Heq. destruct (wf_entry _ Hwf _ _ H1') as [t1 Ht1].
  destruct (wf_entry _ Hwf _ _ H2') as [t2 Ht2]. rewrite Heq in Ht1. congruence.
Qed.

(** Dropping an entry together with its timer. *)
Lemma drop_entry s k e q :
  wf s -> entries s !! k = Some e -> live q = delete (entry_key e) (live (expirations s)) ->
  let s' := mkHashSetDelay (delete k (entries s)) q (default_entry_timeout s) in
  wf s' /\ forall k', deadline s' k' = if decide (k' = k) then None else deadline s k'.
Proof.
  intros Hwf He Hq s'. split; [split|]; cbn.
  - intros k' e' [Hne He']%lookup_delete_Some. rewrite Hq.
    rewrite lookup_delete_ne; [by apply (wf_entry _ Hwf)|].
    intros Heq. apply Hne. by eapply entry_key_inj.
  - intros key k' t. rewrite Hq. intros [Hne Hl]%lookup_delete_Some.
    destruct (wf_live _ Hwf _ _ _ Hl) as (e' & He' & <-). exists e'. split; [|done].
    rewrite lookup_delete_ne; [done|]. intros <-. congruence.
  - intros k'. unfold deadline. cbn. case_decide as Hk; [subst; by rewrite lookup_delete_eq|].
    rewrite lookup_delete_ne by done. destruct (entries s !! k') as [e'|] eqn:E; cbn; [|done].
    rewrite Hq, lookup_delete_ne; [done|]. intros Heq. apply Hk. by eapply entry_key_inj.
Qed.

Lemma update_timeout_spec now k d s :
  wf s -> (d <= dq_limit)%N -> exists s', update_timeout now k d s = Ret (bool_decide (is_Some (entries s !! k)), s') /\
    wf s' /\ entries s' = entries s /\ default_entry_timeout s' = default_entry_timeout s /\
    forall k', deadline s' k' =
      if decide (k' = k) then (fun _ => now + d)%N <$> deadline s k else deadline s k'.
Proof.
  intros Hwf Hlim. unfold update_timeout.
  destruct (entries s !! k) as [e|] eqn:He.
  - destruct (wf_entry _ Hwf k e He) as [t Ht].
    destruct (dq_reset_live now (entry_key e) d _ k t Hlim Ht) as (q & -> & Hq). cbn.
    eexists. split; [done|]. split; [split|split; [done|split; [done|]]]; cbn.
    + intros k' e' He'. rewrite Hq. destruct (decide (entry_key e' = entry_key e)) as [Heq|Hne].
      * assert (k' = k) as -> by (by eapply entry_key_inj).
        rewrite Heq. exists (now + d)%N. by rewrite lookup_insert_eq.
      * rewrite lookup_insert_ne by congruence. by apply (wf_entry _ Hwf).
    + intros key k' t'. rewrite Hq. intros [[<- [= <- <-]]|[Hne Hl]]%lookup_insert_Some; [eauto|].
      by apply (wf_live _ Hwf) in Hl.
    + intros k'. unfold deadline. cbn. case_decide as Hk.
      * subst k'. rewrite He. cbn. rewrite Hq, Ht, lookup_insert_eq. done.
      * destruct (entries s !! k') as [e'|] eqn:E; cbn; [|done].
        rewrite Hq, lookup_insert_ne; [done|]. intros Heq. apply Hk. by eapply entry_key_inj.
  - exists s. split; [done|]. split; [done|]. split; [done|]. split; [done|].
    intros k'. case_decide; [|done]. subst. unfold deadline. by rewrite He.
Qed.

Lemma insert_at_spec now k d s :
  wf s -> (d <= dq_limit)%N -> exists s', insert_at now k d s = Ret s' /\ wf s' /\
    default_entry_timeout s' = default_entry_timeout s /\
    forall k', deadline s' k' = if decide (k' = k) then Some (now + d)%N else deadline s k'.
Proof.
  intros Hwf Hlim. unfold insert_at, contains. case_bool_decide as Hc.
  - destruct (update_timeout_spec now k d s Hwf Hlim) as (s' & -> & Hwf' & _ & Hd & Hdl). cbn.
    exists s'. split; [done|]. split; [done|]. split; [done|]. intros k'. rewrite Hdl.
    case_decide; [|done]. apply deadline_is_Some in Hc as [t ->]; done.
  - destruct (dq_insert_ok now k d (expirations s) Hlim) as (key & q & -> & Hfresh & Hq). cbn.
    apply eq_None_not_Some in Hc.
    eexists. split; [done|]. split; [split|split; [done|]]; cbn.
    + intros k' e'. rewrite lookup_insert_Some, Hq. intros [[<- <-]|[Hne He']]; cbn.
      * exists (now + d)%N. by rewrite lookup_insert_eq.
      * destruct (wf_entry _ Hwf _ _ He') as [t Ht]. exists t.
        rewrite lookup_insert_ne; [done|]. intros ->. congruence.
    + intros key' k' t. rewrite Hq. intros [[<- [= <- <-]]|[Hne Hl]]%lookup_insert_Some.
      * eexists. by rewrite lookup_insert_eq.
      * destruct (wf_live _ Hwf _ _ _ Hl) as (e & He & <-). exists e. split; [|done].
        rewrite lookup_insert_ne; [done|]. intros <-. congruence.
    + intros k'. unfold deadline. cbn. case_decide as Hk.
      * subst. rewrite lookup_insert_eq. cbn. by rewrite Hq, lookup_insert_eq.
      * rewrite lookup_insert_ne by done. destruct (entries s !! k') as [e|] eqn:He; cbn; [|done].
        destruct (wf_entry _ Hwf _ _ He) as [t Ht].
        rewrite Hq, lookup_insert_ne; [done|]. intros ->. congruence.
Qed.

(** Too far in the future: only an entry that is not touched is spared. *)
Lemma too_far now k d s :
  (dq_limit < d)%N ->
  update_timeout now k d s =
    (if decide (is_Some (entries s !! k)) then Panic TOO_FAR else Ret (false, s)) /\
  insert_at now k d s = Panic TOO_FAR.
Proof.
  intros Hd.
  assert (Hu : update_timeout now k d s =
    (if decide (is_Some (entries s !! k)) then Panic TOO_FAR else Ret (false, s))).
  { unfold update_timeout. destruct (entries s !! k) as [e|].
    - rewrite decide_True by eauto. by rewrite dq_reset_far.
    - by rewrite decide_False by (by intros [? [=]]). }
  split; [exact Hu|]. unfold insert_at, contains. case_bool_decide as Hc.
  - by rewrite Hu, decide_True.
  - by rewrite dq_insert_far.
Qed.

Lemma remove_spec k s :
  wf s -> exists s', remove k s = Ret (bool_decide (is_Some (entries s !! k)), s') /\ wf s' /\
    default_entry_timeout s' = default_entry_timeout s /\
    forall k', deadline s' k' = if decide (k' = k) then None else deadline s k'.
Proof.
  intros Hwf. unfold remove. destruct (entries s !! k) as [e|] eqn:He.
  - destruct (wf_entry _ Hwf k e He) as [t Ht].
    destruct (dq_remove_live K (entry_key e) (expirations s)) as (q & -> & Hq); [eauto|]. cbn.
    destruct (drop_entry s k e q Hwf He Hq) as [Hwf' Hd]. eauto.
  - exists s. split; [done|]. split; [done|]. split; [done|]. intros k'.
    case_decide; [|done]. subst. unfold deadline. by rewrite He.
Qed.

Lemma decide_ext_cons_true (f : K -> bool) k k' (l : list K) (x : option Instant) :
  f k = true ->
  (if decide (k' ∈ l /\ f k' = false) then None else x) =
  if decide (k' ∈ k :: l /\ f k' = false) then None else x.
Proof.
  intros Hf. assert (k' ∈ l /\ f k' = false <-> k' ∈ k :: l /\ f k' = false) as Hiff.
  { rewrite elem_of_cons. intuition congruence. }
  destruct (decide (k' ∈ l /\ _)), (decide (k' ∈ k :: l /\ _)); tauto.
Qed.

Lemma decide_ext_cons_false (f : K -> bool) k k' (l : list K) (x : option Instant) :
  f k = false ->
  (if decide (k' ∈ l /\ f k' = false) then None else if decide (k' = k) then None else x) =
  if decide (k' ∈ k :: l /\ f k' = false) then None else x.
Proof.
  intros Hf.
  assert ((k' ∈ l /\ f k' = false) \/ k' = k <-> k' ∈ k :: l /\ f k' = false) as Hiff.
  { rewrite elem_of_cons. intuition congruence. }
  destruct (decide (k' ∈ l /\ _)), (decide (k' = k)), (decide (k' ∈ k :: l /\ _)); tauto.
Qed.

Lemma retain_loop_spec f todo s :
  wf s -> NoDup todo.*1 -> (forall k e, (k, e) ∈ todo -> entries s !! k = Some e) ->
  exists s', retain_loop f todo s = Ret s' /\ wf s' /\
    default_entry_timeout s' = default_entry_timeout s /\
    forall k, deadline s' k =
      if decide (k ∈ todo.*1 /\ f k = false) then None else deadline s k.
Proof.
  revert s; induction todo as [|[k e] todo IH]; intros s Hwf Hnd Htodo.
  - exists s. split; [done|]. split; [done|]. split; [done|]. intros k.
    rewrite decide_False; [done|]. cbn. intros [Hin _]. by apply not_elem_of_nil in Hin.
  - cbn in *. apply NoDup_cons in Hnd as [Hk Hnd]. destruct (f k) eqn:Hf.
    + destruct (IH s Hwf Hnd) as (s' & -> & Hwf' & Hdt & Hd);
        [intros k' e' Hin; apply Htodo; by right|].
      exists s'. split; [done|]. split; [done|]. split; [done|]. intros k'. rewrite Hd.
      by apply decide_ext_cons_true.
    + assert (He : entries s !! k = Some e) by (apply Htodo; left).
      destruct (wf_entry _ Hwf k e He) as [t Ht].
      destruct (dq_remove_live K (entry_key e) (expirations s)) as (q & -> & Hq); [eauto|]. cbn.
      destruct (drop_entry s k e q Hwf He Hq) as [Hwf1 Hd1].
      destruct (IH _ Hwf1 Hnd) as (s' & Hr & Hwf' & Hdt & Hd).
      { intros k' e' Hin. cbn. rewrite lookup_delete_ne; [apply Htodo; by right|].
        intros <-. apply Hk. apply list_elem_of_fmap. by exists (k, e'). }
      exists s'. split; [exact Hr|]. split; [done|]. split; [done|]. intros k'. rewrite Hd, Hd1.
      by apply decide_ext_cons_false.
Qed.

Lemma wf_clear s : wf (clear s) /\ forall k, deadline (clear s) k = None.
Proof.
  split; [split|]; cbn.
  - intros k e. by rewrite lookup_empty.
  - intros key k t. rewrite dq_clear_live. by rewrite lookup_empty.
  - intros k. unfold deadline. cbn. by rewrite lookup_empty.
Qed.

Lemma wf_same_live s q :
  wf s -> live q = live (expirations s) ->
  wf (mkHashSetDelay (entries s) q (default_entry_timeout s)) /\
  forall k, deadline (mkHashSetDelay (entries s) q (default_entry_timeout s)) k = deadline s k.
Proof.
  intros [He Hl] Hq. split; [split; cbn; rewrite Hq; done|].
  intros k. unfold deadline. cbn. by rewrite Hq.
Qed.

(** What polling does, on every answer of the queue. *)
Lemma poll_next_ok (now : Instant) (s s' : HashSetDelay) r :
  wf s -> poll_next now s = (r, s') ->
  wf s' /\ default_entry_timeout s' = default_entry_timeout s /\
  match r with
  | Some (Some (Ok k)) =>
    (exists t, deadline s k = Some t /\ (t <= now)%N) /\ entries s' !! k = None /\
    forall k', deadline s' k' = if decide (k' = k) then None else deadline s k'
  | Some (Some (Err e)) =>
    e <> "Value no longer exists in expirations"%string /\ forall k, deadline s' k = deadline s k
  | Some None => len s' = 0 /\ forall k, deadline s k = None /\ deadline s' k = None
  | None => forall k, deadline s' k = deadline s k
  end.
Proof.
  intros Hwf. unfold poll_next. destruct (dq_poll now (expirations s)) as [e q] eqn:E.
  apply dq_poll_live in E. destruct e as [k|e| |].
  - destruct E as (key & t & Hl & Ht & Hq).
    destruct (wf_live _ Hwf _ _ _ Hl) as (e & He & <-).
    rewrite He. intros [= <- <-].
    destruct (drop_entry s k e q Hwf He Hq) as [Hwf' Hd]. split_and!; try done; cbn.
    + exists t. split; [|done]. apply deadline_Some; eauto.
    + apply lookup_delete_eq.
  - intros [= <- <-]. by destruct (wf_same_live s q Hwf E) as [? ?].
  - destruct E as [Hemp Hq]. intros [= <- <-]. destruct (wf_same_live s q Hwf Hq) as [? ?].
    assert (Hno : forall k, entries s !! k = None).
    { intros k. destruct (entries s !! k) as [e|] eqn:He; [|done].
      destruct (wf_entry _ Hwf k e He) as [t Ht]. rewrite Hemp, lookup_empty in Ht. done. }
    split_and!; try done.
    + unfold len. cbn. apply map_size_empty_iff, map_empty. done.
    + intros k. unfold deadline. cbn. by rewrite Hno.
  - intros [= <- <-]. by destruct (wf_same_live s q Hwf E) as [? ?].
Qed.

(** The number of timers that have expired: what bounds a polling loop. *)
Definition due (now : Instant) (s : HashSetDelay) : nat :=
  count_values (fun kt => bool_decide (kt.2 <= now)%N) (live (expirations s)).

Lemma poll_next_due now s s' k :
  poll_next now s = (Some (Some (Ok k)), s') -> due now s = S (due now s').
Proof.
  unfold poll_next, due. destruct (dq_poll now (expirations s)) as [e q] eqn:E.
  apply dq_poll_live in E. destruct e as [k'|e| |]; try done.
  destruct E as (key & t & Hl & Ht & Hq).
  destruct (entries s !! k'); intros [= _ <-]. cbn. rewrite Hq, (count_values_delete _ _ _ _ Hl).
  cbn. rewrite bool_decide_true by done. apply Nat.add_1_r.
Qed.

(** A new timer that fires later is not due. *)
Lemma insert_due now k s s' :
  entries s !! k = None -> (0 < default_entry_timeout s)%N -> insert now k s = Ret s' ->
  due now s' = due now s.
Proof.
  unfold insert, insert_at, contains, due. intros Hk Hd.
  rewrite bool_decide_false by (rewrite Hk; by intros [? [=]]).
  destruct (dq_insert now k _ _) as [[key q]| |] eqn:E; [|done..]. intros [= <-]. cbn.
  apply dq_insert_live in E as [Hnew Hq]. rewrite Hq.
  pose proof (count_values_insert (fun kt : K * Instant => bool_decide (kt.2 <= now)%N)
    (live (expirations s)) key (k, now + default_entry_timeout s)%N) as Hc.
  rewrite Hnew in Hc. cbn in Hc. rewrite bool_decide_false in Hc.
  - rewrite !Nat.add_0_r in Hc. exact Hc.
  - apply N.lt_nge. unfold Duration, Instant in *. apply N.lt_add_pos_r. exact Hd.
Qed.

(** The loop a client runs over its expired entries, putting each back: the
    keys reported and the set afterwards. *)
Fixpoint refresh_loop (fuel : nat) (now : Instant) (s : HashSetDelay)
    : Outcome (list K * HashSetDelay) :=
  match fuel with
  | O => OutOfFuel
  | S fuel =>
    let '(r, s) := poll_next now s in
    match r with
    | Some (Some (Ok k)) =>
      s ← insert now k s;
      '(ks, s) ← refresh_loop fuel now s;
      mret (k :: ks, s)
    | Some (Some (Err _)) => refresh_loop fuel now s
    | Some None | None => mret ([], s)
    end
  end.

Lemma poll_next_alive `{!DelayQueueAlive} now s s' e :
  wf s -> poll_next now s <> (Some (Some (Err e)), s').
Proof.
  intros Hwf Hp. pose proof (poll_next_ok now s s' _ Hwf Hp) as (_ & _ & He & _).
  unfold poll_next in Hp. destruct (dq_poll now (expirations s)) as [[k|e'| |] q] eqn:E; try done.
  - destruct (entries s !! k); [done|]. injection Hp as <- _. done.
  - by apply dq_poll_alive in E.
Qed.

Lemma poll_next_not_due now s s' r :
  poll_next now s = (r, s') -> (forall k, r <> Some (Some (Ok k))) ->
  (forall e, r <> Some (Some (Err e))) -> due now s' = due now s.
Proof.
  unfold poll_next, due. destruct (dq_poll now (expirations s)) as [e q] eqn:E.
  apply dq_poll_live in E. destruct e as [k'|e| |].
  - destruct (entries s !! k'); intros [= <- <-] Hk He; [by destruct (Hk k')|by destruct (He "Value no longer exists in expirations"%string)].
  - intros [= <- <-] _ He. by destruct (He ("delay queue error: " +:+ e)%string).
  - destruct E as [_ E]. intros [= <- <-] _ _. cbn. by rewrite E.
  - intros [= <- <-] _ _. cbn. by rewrite E.
Qed.

(** Every key reported used up one expired timer. *)
Lemma refresh_loop_due `{!DelayQueueAlive} fuel now s ks s' :
  wf s -> (0 < default_entry_timeout s)%N -> (default_entry_timeout s <= dq_limit)%N ->
  refresh_loop fuel now s = Ret (ks, s') ->
  (due now s' + length ks)%nat = due now s.
Proof.
  revert s ks; induction fuel as [|fuel IH]; intros s ks Hwf Hpos Hlim; cbn [refresh_loop]; [done|].
  destruct (poll_next now s) as [r s1] eqn:E.
  pose proof (poll_next_ok now s s1 r Hwf E) as (Hwf1 & Hd1 & Hr).
  destruct r as [[[k|e]|]|].
  - destruct Hr as (_ & Hk & _).
    rewrite <-Hd1 in Hlim.
    destruct (insert_at_spec now k (default_entry_timeout s1) s1 Hwf1 Hlim) as (s2 & Hi & Hwf2 & Hd2 & _).
    fold (insert now k s1) in Hi. rewrite Hi. cbn.
    pose proof (poll_next_due _ _ _ _ E) as Hdue.
    rewrite <-Hd1 in Hpos. pose proof (insert_due now k s1 s2 Hk Hpos Hi) as Hdue2.
    destruct (refresh_loop fuel now s2) as [[ks' s3]| |] eqn:Er; cbn; [|done..]. intros [= <- <-].
    apply IH in Er; [|done|congruence|congruence]. rewrite Hdue, <-Hdue2, <-Er. cbn. apply Nat.add_succ_r.
  - by apply (poll_next_alive now s s1 e Hwf) in E.
  - intros [= <- <-]. cbn. rewrite Nat.add_0_r. by apply (poll_next_not_due _ _ _ _ E).
  - intros [= <- <-]. cbn. rewrite Nat.add_0_r. by apply (poll_next_not_due _ _ _ _ E).
Qed.

Lemma refresh_loop_ok `{!DelayQueueAlive} fuel now s :
  wf s -> (0 < default_entry_timeout s)%N -> (default_entry_timeout s <= dq_limit)%N ->
  (due now s < fuel)%nat ->
  exists ks s', refresh_loop fuel now s = Ret (ks, s') /\ wf s' /\
    default_entry_timeout s' = default_entry_timeout s /\ NoDup ks /\
    (forall k, k ∈ ks -> exists t, deadline s k = Some t /\ (t <= now)%N) /\
    forall k, deadline s' k =
      if decide (k ∈ ks) then Some (now + default_entry_timeout s)%N else deadline s k.
Proof.
  revert s; induction fuel as [|fuel IH]; intros s Hwf Hpos Hlim Hfuel; [lia|]. cbn [refresh_loop].
  destruct (poll_next now s) as [r s1] eqn:E.
  pose proof (poll_next_ok now s s1 r Hwf E) as (Hwf1 & Hd1 & Hr).
  destruct r as [[[k|e]|]|].
  - destruct Hr as ((t & Ht & Htn) & Hk & Hdl).
    rewrite <-Hd1 in Hlim.
    destruct (insert_at_spec now k (default_entry_timeout s1) s1 Hwf1 Hlim) as (s2 & Hi & Hwf2 & Hd2 & Hdl2).
    fold (insert now k s1) in Hi. rewrite Hi. cbn.
    pose proof (poll_next_due _ _ _ _ E) as Hdue.
    rewrite <-Hd1 in Hpos. pose proof (insert_due now k s1 s2 Hk Hpos Hi) as Hdue2.
    destruct (IH s2) as (ks & s3 & Hr3 & Hwf3 & Hd3 & Hnd & Hin & Hdl3); [done|congruence|congruence| |].
    { rewrite Hdue2. apply Nat.succ_lt_mono. by rewrite <-Hdue. }
    assert (Hks : k ∉ ks).
    { intros (t' & Ht' & Hle)%Hin. rewrite Hdl2, decide_True in Ht' by done. injection Ht' as <-.
      apply N.le_ngt in Hle. apply Hle. by apply N.lt_add_pos_r. }
    exists (k :: ks), s3. rewrite Hr3. cbn. split_and!; [done|done|congruence|by constructor| |].
    + intros k' [->|Hk']%elem_of_cons; [eauto|]. destruct (Hin k' Hk') as (t' & Ht' & Hle).
      rewrite Hdl2, Hdl in Ht'. destruct (decide (k' = k)) as [->|]; [done|]. eauto.
    + intros k'. rewrite Hdl3, Hdl2, Hdl, Hd2, Hd1.
      destruct (decide (k' ∈ ks)), (decide (k' = k)), (decide (k' ∈ k :: ks)) as [Hc|Hc];
        rewrite elem_of_cons in Hc; try done; tauto.
  - by apply (poll_next_alive now s s1 e Hwf) in E.
  - destruct Hr as [_ Hr]. exists [], s1. split; [done|]. split; [done|]. split; [done|].
    split; [by apply NoDup_nil_2|]. split; [by intros k ?%not_elem_of_nil|].
    intros k. rewrite decide_False by apply not_elem_of_nil. by destruct (Hr k) as [-> ->].
  - exists [], s1. split; [done|]. split; [done|]. split; [done|].
    split; [by apply NoDup_nil_2|]. split; [by intros k ?%not_elem_of_nil|].
    intros k. by rewrite decide_False by apply not_elem_of_nil.
Qed.

(** ** Properties *)

(** C18: as a map from keys to the instants their timers fire, the set behaves
    as its operations promise, from every state the operations can reach, and
    none of the delay queue's keys is ever stale. Insertion sets the deadline of
    a new and of a known key alike, [update_timeout] that of a known key only,
    for every duration the delay queue accepts; for one too far in the future
    they panic, as documented, except that [update_timeout] of an unknown key
    answers [false] whatever the duration. [remove], [retain] and [clear] drop
    the timers with the entries and never panic. *)
Theorem operations_refine_deadlines (s : HashSetDelay) :
  wf s ->
  (forall now k d, (d <= dq_limit)%N -> exists s', insert_at now k d s = Ret s' /\ wf s' /\
     forall k', deadline s' k' = if decide (k' = k) then Some (now + d)%N else deadline s k') /\
  (forall now k d, (dq_limit < d)%N -> insert_at now k d s = Panic TOO_FAR) /\
  (forall now k d, (d <= dq_limit)%N \/ deadline s k = None -> exists s',
     update_timeout now k d s = Ret (bool_decide (is_Some (deadline s k)), s') /\ wf s' /\
     forall k', deadline s' k' =
       if decide (k' = k) then (fun _ => now + d)%N <$> deadline s k else deadline s k') /\
  (forall now k d, (dq_limit < d)%N -> is_Some (deadline s k) -> update_timeout now k d s = Panic TOO_FAR) /\
  (forall k, exists s', remove k s = Ret (bool_decide (is_Some (deadline s k)), s') /\ wf s' /\
     forall k', deadline s' k' = if decide (k' = k) then None else deadline s k') /\
  (forall f, exists s', retain f s = Ret s' /\ wf s' /\
     forall k, deadline s' k = if f k then deadline s k else None) /\
  wf (clear s) /\ (forall k, deadline (clear s) k = None).
Proof.
  intros Hwf.
  assert (Hsome : forall k, bool_decide (is_Some (entries s !! k)) = bool_decide (is_Some (deadline s k))).
  { intros k. apply bool_decide_ext. by rewrite deadline_is_Some. }
  split_and!.
  - intros now k d Hlim. destruct (insert_at_spec now k d s Hwf Hlim) as (s' & ? & ? & _ & ?). eauto.
  - intros now k d Hfar. by apply too_far.
  - intros now k d Hlim. destruct (decide (d <= dq_limit)%N) as [Hle|Hgt].
    + destruct (update_timeout_spec now k d s Hwf Hle) as (s' & Hr & ? & _ & _ & ?).
      rewrite Hsome in Hr. eauto.
    + destruct Hlim as [|Hk]; [done|]. destruct (too_far now k d s) as [Hr _]; [by apply N.nle_gt|].
      rewrite Hk. rewrite decide_False in Hr by (by rewrite <-deadline_is_Some, Hk by done; intros [? [=]]).
      exists s. split; [exact Hr|]. split; [done|]. intros k'. case_decide; [by subst|done].
  - intros now k d Hfar Hk. destruct (too_far now k d s Hfar) as [-> _].
    by rewrite decide_True by (by apply deadline_is_Some).
  - intros k. destruct (remove_spec k s Hwf) as (s' & Hr & ? & _ & ?). rewrite Hsome in Hr. eauto.
  - intros f. unfold retain.
    destruct (retain_loop_spec f (hm_iter (entries s)) s Hwf) as (s' & Hr & Hwf' & _ & Hd).
    + auto with mothra.
    + intros k e. apply elem_of_hm_iter.
    + exists s'. split; [done|]. split; [done|]. intros k. rewrite Hd.
      destruct (f k) eqn:Hf; case_decide as Hin; try done; try (destruct Hin; congruence).
      destruct (deadline s k) as [t|] eqn:Hk; [|done]. exfalso. apply Hin. split; [|done].
      apply elem_of_hm_keys. apply deadline_is_Some; [done|]. by rewrite Hk.
  - apply wf_clear.
  - apply wf_clear.
Qed.

(** Polling reports an entry only when its deadline has passed, drops it
    with its timer, never reports an entry that does not exist, and ends the
    stream only when the set is empty. *)
Theorem poll_next_spec (now : Instant) (s s' : HashSetDelay) r :
  wf s -> poll_next now s = (r, s') ->
  wf s' /\
  match r with
  | Some (Some (Ok k)) =>
    (exists t, deadline s k = Some t /\ (t <= now)%N) /\
    forall k', deadline s' k' = if decide (k' = k) then None else deadline s k'
  | Some (Some (Err e)) =>
    e <> "Value no longer exists in expirations"%string /\ forall k, deadline s' k = deadline s k
  | Some None => len s' = 0 /\ forall k, deadline s k = None
  | None => forall k, deadline s' k = deadline s k
  end.
Proof.
  intros Hwf Hr. destruct (poll_next_ok now s s' r Hwf Hr) as (Hwf' & _ & Hspec).
  split; [done|]. destruct r as [[[k|e]|]|]; try done.
  - by destruct Hspec as (? & _ & ?).
  - destruct Hspec as [? Hno]. split; [done|]. intros k. apply Hno.
Qed.

(** [insert_at] on a key that is present moves its timer but not the
    [Instant] that [get] answers, which stays that of the first insertion. *)
Theorem insert_at_get_stale (now : Instant) (k : K) (d : Duration) (v : Instant)
    (s s' : HashSetDelay) :
  wf s -> get k s = Some v -> insert_at now k d s = Ret s' ->
  deadline s' k = Some (now + d)%N /\ get k s' = Some v.
Proof.
  intros Hwf Hget Hr.
  assert (Hlim : (d <= dq_limit)%N).
  { apply N.nlt_ge. intros Hfar. by rewrite (proj2 (too_far now k d s Hfar)) in Hr. }
  destruct (insert_at_spec now k d s Hwf Hlim) as (s1 & Hr1 & _ & _ & Hd).
  assert (s' = s1) as -> by congruence. split; [by rewrite Hd, decide_True|].
  unfold get in *. apply fmap_Some in Hget as (e & He & ->).
  unfold insert_at, contains in Hr. rewrite bool_decide_true in Hr by (rewrite He; eauto).
  destruct (update_timeout_spec now k d s Hwf Hlim) as (s2 & Hu & _ & Hent & _).
  rewrite Hu in Hr. cbn in Hr. injection Hr as <-. by rewrite Hent, He.
Qed.
End HashSetDelay.

(** ** Witnesses, on the concrete queue *)
Section Witnesses.
#[local] Existing Instance table_queue.
#[local] Existing Instance table_queue_laws.
#[local] Existing Instance map_to_list_order.

Definition demo_set : HashSetDelay (K := N) :=
  match insert 10%N 7%N (new 30%N) with Ret s => s | _ => new 30%N end.

Lemma demo_set_wf : wf demo_set.
Proof.
  destruct (insert_at_spec 10%N 7%N 30%N (new 30%N) (set_wf_new (K := N) 30%N)
    (within_day 30%N ltac:(by vm_compute))) as (s & Hr & Hwf & _).
  unfold demo_set, insert. cbn [new default_entry_timeout]. by rewrite Hr.
Qed.

(** A timer moved to 50; and one of three years, which panics. *)
Lemma operations_refine_deadlines_witness :
  (exists s', insert_at 20%N 7%N 30%N demo_set = Ret s' /\ deadline s' 7%N = Some 50%N) /\
  insert_at 20%N 7%N (from_secs 94608000) demo_set = Panic TOO_FAR.
Proof.
  destruct (operations_refine_deadlines demo_set demo_set_wf) as (Hins & Hfar & _). split.
  - destruct (Hins 20%N 7%N 30%N) as (s' & Hr & _ & Hd); [by vm_compute|].
    exists s'. split; [exact Hr|]. rewrite Hd. reflexivity.
  - apply Hfar. by vm_compute.
Defined.

Lemma poll_next_spec_witness : wf (poll_next 41%N demo_set).2 /\ (poll_next 41%N demo_set).1 = Some (Some (Ok 7%N)).
Proof.
  split; [|reflexivity].
  apply (poll_next_spec 41%N demo_set _ (poll_next 41%N demo_set).1 demo_set_wf).
  reflexivity.
Defined.

Lemma insert_at_get_stale_witness :
  exists s', deadline s' 7%N = Some 50%N /\ get 7%N s' = Some 40%N.
Proof.
  destruct (insert_at 20%N 7%N 30%N demo_set) as [s'| |] eqn:E; [|discriminate E..].
  exists s'. apply (insert_at_get_stale 20%N 7%N 30%N 40%N demo_set s' demo_set_wf);
    [reflexivity|exact E].
Defined.
End Witnesses.
