(* ===== verification/RpcHandler.v ===== *)
(** * RPC connection handler (src/core/network/src/rpc/handler.rs)

    [RPCHandler] drives the inbound and outbound substreams of one connection.
    Each method is a definition on the handler record; [poll] is the sequence
    of its phases, a phase that returns early answering [Some] event.  Where
    the code takes a substream out with [mem::replace(.., Poisoned)], so does
    the model. *)
From Stdlib Require Import NArith.
From S2P Require Import Prelude RpcMethods RpcProtocol DelayQueue.

Open Scope Z_scope.
Open Scope list_scope.

Definition RESPONSE_TIMEOUT : N := 10.
Definition IO_ERROR_RETRIES : Z := 3.
Definition SHUTDOWN_TIMEOUT_SECS : N := 15.

(** [struct SubstreamId(usize)] *)
Definition SubstreamId := Z.

Inductive HandlerErr :=
| Inbound_err (id : SubstreamId) (proto : Protocol) (error : RPCError)
| Outbound_err (id : RequestId) (proto : Protocol) (error : RPCError).

(** [enum RPCReceived] and [enum RPCSend] (rpc/mod.rs). *)
Inductive RPCReceived :=
| Received_Request (id : SubstreamId) (req : RPCRequest)
| Received_Response (id : RequestId) (resp : RPCResponse).

Inductive RPCSend :=
| Send_Request (id : RequestId) (req : RPCRequest)
| Send_Response (id : SubstreamId) (resp : RPCCodedResponse).

(** libp2p's [KeepAlive]. *)
Inductive KeepAlive := KeepAlive_Yes | KeepAlive_Until (t : Instant) | KeepAlive_No.

(** libp2p's [ProtocolsHandlerUpgrErr<RPCError>], its nested enumerations
    flattened; an I/O error is its text. *)
Inductive UpgrErr :=
| Upgr_Timer
| Upgr_Timeout
| Upgr_Apply (e : RPCError)
| Upgr_Select_Failed
| Upgr_Select_IoError (io_err : string)
| Upgr_Select_InvalidProtocol
| Upgr_Select_InvalidMessage
| Upgr_Select_TooManyProtocols.

(** libp2p's [ProtocolsHandlerEvent], as [poll] returns it. *)
Inductive HandlerEvent :=
| Custom (out : Result RPCReceived HandlerErr)
| Close (error : RPCError)
| OutboundSubstreamRequest (protocol : RPCRequest) (info : RequestId * RPCRequest).

(** The framed substreams (tokio's [Framed] over the negotiated socket) and
    tokio's [Delay]: a value of [Inbound] or [Outbound] holds whatever the
    socket is going to do. *)
Class Streams := {
  Inbound : Type;
  in_poll_ready : Inbound -> Poll (Result unit RPCError) * Inbound;
  in_start_send : RPCCodedResponse -> Inbound -> Result unit RPCError * Inbound;
  in_poll_flush : Inbound -> Poll (Result unit RPCError) * Inbound;
  in_poll_close : Inbound -> Poll (Result unit RPCError) * Inbound;
  Outbound : Type;
  out_poll_next : Outbound -> Poll (option (Result RPCCodedResponse RPCError)) * Outbound;
  out_poll_close : Outbound -> Poll (Result unit RPCError) * Outbound;
  Delay : Type;
  delay_until : Instant -> Delay;
  is_elapsed : Instant -> Delay -> bool;
}.

Section Handler.
Context `{Streams} `{DelayQueue} `{HashOrder} `{BuildProfile}.

Inductive HandlerState :=
| Active
| ShuttingDown (delay : Delay)
| Deactivated.

Inductive InboundSubstreamState :=
| ResponsePendingSend (substream : Inbound) (message : RPCCodedResponse) (closing : bool)
| ResponsePendingFlush (substream : Inbound) (closing : bool)
| ResponseIdle (substream : Inbound)
| InClosing (substream : Inbound)
| InPoisoned.

Inductive OutboundSubstreamState :=
| RequestPendingResponse (substream : Outbound) (request : RPCRequest)
| OutClosing (substream : Outbound)
| OutPoisoned.

Record OutboundInfo := mkOutboundInfo {
  out_state : OutboundSubstreamState;
  delay_key : Key;
  proto : Protocol;
  remaining_chunks : option N;
  req_id : RequestId;
}.

#[local] Abbreviation InboundEntry := (InboundSubstreamState * option Key * Protocol)%type.

Record RPCHandler := mkRPCHandler {
  pending_errors : list HandlerErr;
  events_out : list RPCReceived;
  dial_queue : list (RequestId * RPCRequest);
  dial_negotiated : Z;
  inbound_substreams : gmap SubstreamId InboundEntry;
  inbound_substreams_delay : DQ SubstreamId;
  outbound_substreams : gmap SubstreamId OutboundInfo;
  outbound_substreams_delay : DQ SubstreamId;
  queued_outbound_items : gmap SubstreamId (list RPCCodedResponse);
  current_inbound_substream_id : SubstreamId;
  current_outbound_substream_id : SubstreamId;
  max_dial_negotiated : Z;
  keep_alive : KeepAlive;
  state : HandlerState;
  inactive_timeout : Duration;
  outbound_io_error_retries : Z;
}.

(** Field assignments [self.f = v]. *)
Definition set_pending_errors (v : list HandlerErr) (h : RPCHandler) : RPCHandler :=
  mkRPCHandler v (events_out h) (dial_queue h) (dial_negotiated h) (inbound_substreams h)
    (inbound_substreams_delay h) (outbound_substreams h) (outbound_substreams_delay h)
    (queued_outbound_items h) (current_inbound_substream_id h) (current_outbound_substream_id h)
    (max_dial_negotiated h) (keep_alive h) (state h) (inactive_timeout h)
    (outbound_io_error_retries h).
Definition set_events_out (v : list RPCReceived) (h : RPCHandler) : RPCHandler :=
  mkRPCHandler (pending_errors h) v (dial_queue h) (dial_negotiated h) (inbound_substreams h)
    (inbound_substreams_delay h) (outbound_substreams h) (outbound_substreams_delay h)
    (queued_outbound_items h) (current_inbound_substream_id h) (current_outbound_substream_id h)
    (max_dial_negotiated h) (keep_alive h) (state h) (inactive_timeout h)
    (outbound_io_error_retries h).
Definition set_dial_queue (v : list (RequestId * RPCRequest)) (h : RPCHandler) : RPCHandler :=
  mkRPCHandler (pending_errors h) (events_out h) v (dial_negotiated h) (inbound_substreams h)
    (inbound_substreams_delay h) (outbound_substreams h) (outbound_substreams_delay h)
    (queued_outbound_items h) (current_inbound_substream_id h) (current_outbound_substream_id h)
    (max_dial_negotiated h) (keep_alive h) (state h) (inactive_timeout h)
    (outbound_io_error_retries h).
Definition set_dial_negotiated (v : Z) (h : RPCHandler) : RPCHandler :=
  mkRPCHandler (pending_errors h) (events_out h) (dial_queue h) v (inbound_substreams h)
    (inbound_substreams_delay h) (outbound_substreams h) (outbound_substreams_delay h)
    (queued_outbound_items h) (current_inbound_substream_id h) (current_outbound_substream_id h)
    (max_dial_negotiated h) (keep_alive h) (state h) (inactive_timeout h)
    (outbound_io_error_retries h).
Definition set_inbound_substreams (v : gmap SubstreamId InboundEntry) (h : RPCHandler) : RPCHandler :=
  mkRPCHandler (pending_errors h) (events_out h) (dial_queue h) (dial_negotiated h) v
    (inbound_substreams_delay h) (outbound_substreams h) (outbound_substreams_delay h)
    (queued_outbound_items h) (current_inbound_substream_id h) (current_outbound_substream_id h)
    (max_dial_negotiated h) (keep_alive h) (state h) (inactive_timeout h)
    (outbound_io_error_retries h).
Definition set_inbound_substreams_delay (v : DQ SubstreamId) (h : RPCHandler) : RPCHandler :=
  mkRPCHandler (pending_errors h) (events_out h) (dial_queue h) (dial_negotiated h)
    (inbound_substreams h) v (outbound_substreams h) (outbound_substreams_delay h)
    (queued_outbound_items h) (current_inbound_substream_id h) (current_outbound_substream_id h)
    (max_dial_negotiated h) (keep_alive h) (state h) (inactive_timeout h)
    (outbound_io_error_retries h).
Definition set_outbound_substreams (v : gmap SubstreamId OutboundInfo) (h : RPCHandler) : RPCHandler :=
  mkRPCHandler (pending_errors h) (events_out h) (dial_queue h) (dial_negotiated h)
    (inbound_substreams h) (inbound_substreams_delay h) v (outbound_substreams_delay h)
    (queued_outbound_items h) (current_inbound_substream_id h) (current_outbound_substream_id h)
    (max_dial_negotiated h) (keep_alive h) (state h) (inactive_timeout h)
    (outbound_io_error_retries h).
Definition set_outbound_substreams_delay (v : DQ SubstreamId) (h : RPCHandler) : RPCHandler :=
  mkRPCHandler (pending_errors h) (events_out h) (dial_queue h) (dial_negotiated h)
    (inbound_substreams h) (inbound_substreams_delay h) (outbound_substreams h) v
    (queued_outbound_items h) (current_inbound_substream_id h) (current_outbound_substream_id h)
    (max_dial_negotiated h) (keep_alive h) (state h) (inactive_timeout h)
    (outbound_io_error_retries h).
Definition set_queued_outbound_items (v : gmap SubstreamId (list RPCCodedResponse)) (h : RPCHandler) : RPCHandler :=
  mkRPCHandler (pending_errors h) (events_out h) (dial_queue h) (dial_negotiated h)
    (inbound_substreams h) (inbound_substreams_delay h) (outbound_substreams h)
    (outbound_substreams_delay h) v (current_inbound_substream_id h)
    (current_outbound_substream_id h) (max_dial_negotiated h) (keep_alive h) (state h)
    (inactive_timeout h) (outbound_io_error_retries h).
Definition set_current_inbound_substream_id (v : SubstreamId) (h : RPCHandler) : RPCHandler :=
  mkRPCHandler (pending_errors h) (events_out h) (dial_queue h) (dial_negotiated h)
    (inbound_substreams h) (inbound_substreams_delay h) (outbound_substreams h)
    (outbound_substreams_delay h) (queued_outbound_items h) v (current_outbound_substream_id h)
    (max_dial_negotiated h) (keep_alive h) (state h) (inactive_timeout h)
    (outbound_io_error_retries h).
Definition set_current_outbound_substream_id (v : SubstreamId) (h : RPCHandler) : RPCHandler :=
  mkRPCHandler (pending_errors h) (events_out h) (dial_queue h) (dial_negotiated h)
    (inbound_substreams h) (inbound_substreams_delay h) (outbound_substreams h)
    (outbound_substreams_delay h) (queued_outbound_items h) (current_inbound_substream_id h) v
    (max_dial_negotiated h) (keep_alive h) (state h) (inactive_timeout h)
    (outbound_io_error_retries h).
Definition set_keep_alive (v : KeepAlive) (h : RPCHandler) : RPCHandler :=
  mkRPCHandler (pending_errors h) (events_out h) (dial_queue h) (dial_negotiated h)
    (inbound_substreams h) (inbound_substreams_delay h) (outbound_substreams h)
    (outbound_substreams_delay h) (queued_outbound_items h) (current_inbound_substream_id h)
    (current_outbound_substream_id h) (max_dial_negotiated h) v (state h) (inactive_timeout h)
    (outbound_io_error_retries h).
Definition set_state (v : HandlerState) (h : RPCHandler) : RPCHandler :=
  mkRPCHandler (pending_errors h) (events_out h) (dial_queue h) (dial_negotiated h)
    (inbound_substreams h) (inbound_substreams_delay h) (outbound_substreams h)
    (outbound_substreams_delay h) (queued_outbound_items h) (current_inbound_substream_id h)
    (current_outbound_substream_id h) (max_dial_negotiated h) (keep_alive h) v
    (inactive_timeout h) (outbound_io_error_retries h).
Definition set_outbound_io_error_retries (v : Z) (h : RPCHandler) : RPCHandler :=
  mkRPCHandler (pending_errors h) (events_out h) (dial_queue h) (dial_negotiated h)
    (inbound_substreams h) (inbound_substreams_delay h) (outbound_substreams h)
    (outbound_substreams_delay h) (queued_outbound_items h) (current_inbound_substream_id h)
    (current_outbound_substream_id h) (max_dial_negotiated h) (keep_alive h) (state h)
    (inactive_timeout h) v.

Definition push_error (e : HandlerErr) (h : RPCHandler) : RPCHandler :=
  set_pending_errors (pending_errors h ++ [e]) h.

Definition with_inbound_state (st : InboundSubstreamState) (e : InboundEntry) : InboundEntry :=
  (st, e.1.2, e.2).

Definition set_inbound_state (id : SubstreamId) (st : InboundSubstreamState) (h : RPCHandler)
    : RPCHandler :=
  set_inbound_substreams
    (alter (with_inbound_state st) id (inbound_substreams h)) h.

Definition set_outbound_state (id : SubstreamId) (st : OutboundSubstreamState) (h : RPCHandler)
    : RPCHandler :=
  set_outbound_substreams
    (alter (fun i => mkOutboundInfo st (delay_key i) (proto i) (remaining_chunks i) (req_id i)) id
       (outbound_substreams h)) h.

(** [InboundSubstreamState::close], on the state and the queue. *)
Definition timed_out_response : RPCCodedResponse := ServerError (ErrorType_from "Request timed out").

Definition close (st : InboundSubstreamState) (outbound_queue : list RPCCodedResponse)
    : Outcome (InboundSubstreamState * list RPCCodedResponse) :=
  let error := timed_out_response in
  match st with
  | ResponsePendingSend substream message closing =>
    let outbound_queue := if closing then outbound_queue else outbound_queue ++ [error] in
    mret (ResponsePendingSend substream message closing, outbound_queue)
  | ResponsePendingFlush substream closing =>
    let outbound_queue := if closing then outbound_queue else outbound_queue ++ [error] in
    mret (ResponsePendingFlush substream closing, outbound_queue)
  | ResponseIdle substream =>
    mret (ResponsePendingSend substream error true, outbound_queue)
  | InClosing substream => mret (InClosing substream, outbound_queue)
  | InPoisoned => Panic "Coding error: Timeout poisoned substream"
  end.

(** [RPCHandler::new] *)
Definition new (timeout : Duration) : RPCHandler :=
  mkRPCHandler [] [] [] 0 ∅ dq_new ∅ dq_new ∅ 0 0 8 KeepAlive_Yes Active timeout 0.

Definition update_keep_alive (now : Instant) (h : RPCHandler) : RPCHandler :=
  let should_shutdown :=
    bool_decide (dial_queue h = []) && bool_decide (outbound_substreams h = ∅) &&
    bool_decide (inbound_substreams h = ∅) && bool_decide (pending_errors h = []) &&
    bool_decide (events_out h = []) && bool_decide (dial_negotiated h = 0) in
  match keep_alive h with
  | KeepAlive_Yes =>
    if should_shutdown then set_keep_alive (KeepAlive_Until (now + inactive_timeout h)%N) h else h
  | KeepAlive_Until _ => if should_shutdown then h else set_keep_alive KeepAlive_Yes h
  | KeepAlive_No => h
  end.

Definition is_active (s : HandlerState) : bool := match s with Active => true | _ => false end.
Definition is_deactivated (s : HandlerState) : bool :=
  match s with Deactivated => true | _ => false end.

Definition rejected (r : RequestId * RPCRequest) : HandlerErr :=
  Outbound_err r.1 (request_protocol r.2) HandlerRejected.

(** [RPCHandler::shutdown]: [SmallVec::pop] takes the queue from its end. *)
Definition shutdown (now : Instant) (final_msg : option (RequestId * RPCRequest)) (h : RPCHandler)
    : RPCHandler :=
  let h :=
    if is_active (state h) then
      let h := set_pending_errors (pending_errors h ++ map rejected (rev (dial_queue h))) h in
      let h := set_dial_queue [] h in
      let h :=
        match final_msg with
        | Some (id, req) => set_dial_queue (dial_queue h ++ [(id, req)]) h
        | None => h
        end in
      set_state (ShuttingDown (delay_until (now + from_secs SHUTDOWN_TIMEOUT_SECS)%N)) h
    else h in
  update_keep_alive now h.

Definition send_request (now : Instant) (id : RequestId) (req : RPCRequest) (h : RPCHandler)
    : RPCHandler :=
  match state h with
  | Active => update_keep_alive now (set_dial_queue (dial_queue h ++ [(id, req)]) h)
  | _ => push_error (Outbound_err id (request_protocol req) HandlerRejected) h
  end.

(** The error report of a response that is an error. *)
Definition report_error_response (inbound_id : SubstreamId) (protocol : Protocol)
    (response : RPCCodedResponse) (h : RPCHandler) : Outcome RPCHandler :=
  match response with
  | InvalidRequest reason | ServerError reason | Unknown reason =>
    code ← unwrap (error_code response) "Error response should map to an error code";
    mret (push_error (Inbound_err inbound_id protocol
                        (ErrorResponse code (ErrorType_to_string reason))) h)
  | Success _ => mret h
  end.

Definition queue_response (inbound_id : SubstreamId) (response : RPCCodedResponse)
    (h : RPCHandler) : RPCHandler :=
  set_queued_outbound_items
    (<[inbound_id := default [] (queued_outbound_items h !! inbound_id) ++ [response]]>
       (queued_outbound_items h)) h.

Definition send_response (inbound_id : SubstreamId) (response : RPCCodedResponse) (h : RPCHandler)
    : Outcome RPCHandler :=
  let res_is_error := is_error response in
  let res_is_multiple := multiple_responses response in
  match inbound_substreams h !! inbound_id with
  | None => mret h
  | Some (substream_state, _, protocol) =>
    h ← report_error_response inbound_id protocol response h;
    if is_deactivated (state h) then mret h
    else
      let h := set_inbound_state inbound_id InPoisoned h in
      match substream_state with
      | ResponseIdle substream =>
        mret (set_inbound_state inbound_id
                (ResponsePendingSend substream response (negb res_is_multiple || res_is_error)) h)
      | ResponsePendingSend substream message closing =>
        if res_is_multiple then
          mret (set_inbound_state inbound_id (ResponsePendingSend substream message closing)
                  (queue_response inbound_id response h))
        else
          mret (set_inbound_state inbound_id (ResponsePendingSend substream message true) h)
      | ResponsePendingFlush substream closing =>
        if res_is_multiple then
          mret (set_inbound_state inbound_id (ResponsePendingFlush substream closing)
                  (queue_response inbound_id response h))
        else
          mret (set_inbound_state inbound_id (ResponsePendingFlush substream true) h)
      | InClosing substream => mret (set_inbound_state inbound_id (InClosing substream) h)
      | InPoisoned => Panic "Coding error: Poisoned substream"
      end
  end.

(** ** [impl ProtocolsHandler for RPCHandler] *)

Definition inject_fully_negotiated_inbound (now : Instant) (req : RPCRequest) (substream : Inbound)
    (h : RPCHandler) : Outcome RPCHandler :=
  if is_active (state h) then
    let id := current_inbound_substream_id h in
    h ←
      (if decide (0 < expected_responses req)%N then
         '(key, q) ← dq_insert now id (from_secs RESPONSE_TIMEOUT) (inbound_substreams_delay h);
         let h := set_inbound_substreams_delay q h in
         mret (set_inbound_substreams
           (<[id := (ResponseIdle substream, Some key, request_protocol req)]>
              (inbound_substreams h)) h)
       else mret h);
    let h := set_events_out (events_out h ++ [Received_Request id req]) h in
    id' ← add_w 64 id 1;
    mret (update_keep_alive now (set_current_inbound_substream_id id' h))
  else mret h.

Definition inject_fully_negotiated_outbound (now : Instant) (out : Outbound)
    (request_info : RequestId * RPCRequest) (h : RPCHandler) : Outcome RPCHandler :=
  negotiated ← sub_w 32 (dial_negotiated h) 1;
  let h := set_dial_negotiated negotiated h in
  let '(id, request) := request_info in
  let proto := request_protocol request in
  if is_deactivated (state h) then mret (push_error (Outbound_err id proto HandlerRejected) h)
  else
    let expected := expected_responses request in
    h ←
      (if decide (0 < expected)%N then
         let sid := current_outbound_substream_id h in
         '(key, q) ← dq_insert now sid (from_secs RESPONSE_TIMEOUT) (outbound_substreams_delay h);
         let h := set_outbound_substreams_delay q h in
         let awaiting_stream := RequestPendingResponse out request in
         let expected := if decide (1 < expected)%N then Some expected else None in
         let h :=
           set_outbound_substreams
             (<[sid := mkOutboundInfo awaiting_stream key proto expected id]>
                (outbound_substreams h)) h in
         sid' ← add_w 64 sid 1;
         mret (set_current_outbound_substream_id sid' h)
       else mret h);
    mret (update_keep_alive now h).

Definition inject_event (now : Instant) (rpc_event : RPCSend) (h : RPCHandler) : Outcome RPCHandler :=
  match rpc_event with
  | Send_Request id req => mret (send_request now id req h)
  | Send_Response inbound_id response => send_response inbound_id response h
  end.

(** The [RPCError] reported for a failed upgrade. *)
Definition map_upgrade_error (error : UpgrErr) : RPCError :=
  match error with
  | Upgr_Timer => InternalError "Timer failed"
  | Upgr_Timeout => NegotiationTimeout
  | Upgr_Apply e => e
  | Upgr_Select_Failed => UnsupportedProtocol
  | Upgr_Select_IoError io_err => IoError io_err
  | Upgr_Select_InvalidProtocol => InternalError "Protocol was deemed invalid"
  | Upgr_Select_InvalidMessage | Upgr_Select_TooManyProtocols => InvalidData
  end.

Definition is_io_error (error : UpgrErr) : bool :=
  match error with Upgr_Apply (IoError _) => true | _ => false end.

(** The failed branch of [inject_dial_upgrade_error]. *)
Definition dial_failed (now : Instant) (request_info : RequestId * RPCRequest) (error : UpgrErr)
    (h : RPCHandler) : Outcome RPCHandler :=
  negotiated ← sub_w 32 (dial_negotiated h) 1;
  let h := update_keep_alive now (set_dial_negotiated negotiated h) in
  let h := set_outbound_io_error_retries 0 h in
  mret (push_error (Outbound_err request_info.1 (request_protocol request_info.2)
                      (map_upgrade_error error)) h).

Definition inject_dial_upgrade_error (now : Instant) (request_info : RequestId * RPCRequest)
    (error : UpgrErr) (h : RPCHandler) : Outcome RPCHandler :=
  if is_io_error error then
    retries ← add_w 8 (outbound_io_error_retries h) 1;
    let h := set_outbound_io_error_retries retries h in
    if decide (retries < IO_ERROR_RETRIES) then
      mret (send_request now request_info.1 request_info.2 h)
    else dial_failed now request_info error h
  else dial_failed now request_info error h.

(** ** [poll]

    A phase answers [Some event] when [poll] returns there. *)
Definition Phase : Type := Outcome (option HandlerEvent * RPCHandler).

Definition report_errors (h : RPCHandler) : option HandlerEvent * RPCHandler :=
  match pending_errors h with
  | err_info :: rest => (Some (Custom (Err err_info)), set_pending_errors rest h)
  | [] => (None, h)
  end.

Definition report_events (h : RPCHandler) : option HandlerEvent * RPCHandler :=
  match events_out h with
  | event :: rest => (Some (Custom (Ok event)), set_events_out rest h)
  | [] => (None, h)
  end.

(** The shutdown timer; [drain] empties the queue of responses. *)
Definition check_shutdown (now : Instant) (h : RPCHandler) : RPCHandler :=
  match state h with
  | ShuttingDown delay =>
    if is_elapsed now delay then set_queued_outbound_items ∅ (set_state Deactivated h) else h
  | _ => h
  end.

(** One expired inbound substream. *)
Definition expire_inbound (id : SubstreamId) (h : RPCHandler) : Outcome RPCHandler :=
  match inbound_substreams h !! id with
  | Some (substream_state, _, protocol) =>
    let h := push_error (Inbound_err id protocol StreamTimeout) h in
    let outbound_queue := default [] (queued_outbound_items h !! id) in
    '(st, outbound_queue) ← close substream_state outbound_queue;
    let h := set_inbound_substreams (<[id := (st, None, protocol)]> (inbound_substreams h)) h in
    mret (set_queued_outbound_items (<[id := outbound_queue]> (queued_outbound_items h)) h)
  | None => mret h
  end.

Fixpoint purge_inbound (fuel : nat) (now : Instant) (h : RPCHandler) : Phase :=
  match fuel with
  | O => OutOfFuel
  | S fuel =>
    let '(r, q) := dq_poll now (inbound_substreams_delay h) in
    let h := set_inbound_substreams_delay q h in
    match r with
    | Expired inbound_id => h ← expire_inbound inbound_id h; purge_inbound fuel now h
    | ExpiryError _ => mret (Some (Close (InternalError "Could not poll inbound stream timer")), h)
    | ExpiryNone | ExpiryPending => mret (None, h)
    end
  end.

Fixpoint purge_outbound (fuel : nat) (now : Instant) (h : RPCHandler) : Phase :=
  match fuel with
  | O => OutOfFuel
  | S fuel =>
    let '(r, q) := dq_poll now (outbound_substreams_delay h) in
    let h := set_outbound_substreams_delay q h in
    match r with
    | Expired outbound_id =>
      match outbound_substreams h !! outbound_id with
      | Some info =>
        let h := set_outbound_substreams (delete outbound_id (outbound_substreams h)) h in
        let h := update_keep_alive now h in
        mret (Some (Custom (Err (Outbound_err (req_id info) (proto info) StreamTimeout))), h)
      | None => purge_outbound fuel now h
      end
    | ExpiryError _ => mret (Some (Close (InternalError "Could not poll outbound stream timer")), h)
    | ExpiryNone | ExpiryPending => mret (None, h)
    end
  end.

(** [apply_queued_responses], on the queue of the substream: the next state,
    and whether there is something to send. *)
Definition apply_queued_responses (id : SubstreamId) (substream : Inbound) (h : RPCHandler)
    : bool * RPCHandler :=
  match queued_outbound_items h !! id with
  | Some (chunk :: queue) =>
    (true,
     set_inbound_state id (ResponsePendingSend substream chunk false)
       (set_queued_outbound_items (<[id := queue]> (queued_outbound_items h)) h))
  | _ => (false, set_inbound_state id (ResponseIdle substream) h)
  end.

(** A substream that is dropped: its timer, its queue and its entry go. *)
Definition drop_inbound (now : Instant) (id : SubstreamId) (delay_key : option Key) (h : RPCHandler)
    : Outcome RPCHandler :=
  h ←
    match delay_key with
    | Some key =>
      q ← dq_remove key (inbound_substreams_delay h);
      mret (set_inbound_substreams_delay q h)
    | None => mret h
    end;
  let h := set_queued_outbound_items (delete id (queued_outbound_items h)) h in
  let h := set_inbound_substreams (delete id (inbound_substreams h)) h in
  mret (update_keep_alive now h).

(** One turn of the loop that drives an inbound substream: whether to drive it
    further, and the event [poll] returns there. *)
Definition Turn : Type := Outcome (bool * option HandlerEvent * RPCHandler).

Definition drive_pending_send (now : Instant) (id : SubstreamId) (substream : Inbound)
    (message : RPCCodedResponse) (closing : bool) (protocol : Protocol) (h : RPCHandler) : Turn :=
  if is_deactivated (state h) then
    let h := if closing then h else push_error (Inbound_err id protocol HandlerRejected) h in
    mret (true, None, set_inbound_state id (InClosing substream) h)
  else
    let '(ready, substream) := in_poll_ready substream in
    match ready with
    | Ready (Ok _) =>
      let '(sent, substream) := in_start_send message substream in
      match sent with
      | Ok _ => mret (true, None, set_inbound_state id (ResponsePendingFlush substream closing) h)
      | Err _ =>
        if closing then mret (true, None, set_inbound_state id (InClosing substream) h)
        else let '(further, h) := apply_queued_responses id substream h in mret (further, None, h)
      end
    | Ready (Err e) =>
      let h := set_inbound_substreams (delete id (inbound_substreams h)) h in
      mret (false, Some (Close e), update_keep_alive now h)
    | Pending =>
      mret (false, None, set_inbound_state id (ResponsePendingSend substream message closing) h)
    end.

Definition drive_pending_flush (now : Instant) (id : SubstreamId) (substream : Inbound)
    (closing : bool) (delay_key : option Key) (protocol : Protocol) (h : RPCHandler) : Turn :=
  let '(flushed, substream) := in_poll_flush substream in
  match flushed with
  | Ready (Ok _) =>
    if (closing || is_deactivated (state h))%bool then
      let h := if closing then h else push_error (Inbound_err id protocol HandlerRejected) h in
      mret (true, None, set_inbound_state id (InClosing substream) h)
    else let '(further, h) := apply_queued_responses id substream h in mret (further, None, h)
  | Ready (Err _) => h ← drop_inbound now id delay_key h; mret (false, None, h)
  | Pending => mret (false, None, set_inbound_state id (ResponsePendingFlush substream closing) h)
  end.

Definition drive_inbound_turn (now : Instant) (id : SubstreamId) (h : RPCHandler) : Turn :=
  match inbound_substreams h !! id with
  | None => Panic "internal error: entered unreachable code"
  | Some (st, delay_key, protocol) =>
    let h := set_inbound_state id InPoisoned h in
    match st with
    | ResponsePendingSend substream message closing =>
      drive_pending_send now id substream message closing protocol h
    | ResponsePendingFlush substream closing =>
      drive_pending_flush now id substream closing delay_key protocol h
    | ResponseIdle substream =>
      if is_deactivated (state h) then
        mret (true, None, set_inbound_state id (InClosing substream) h)
      else let '(further, h) := apply_queued_responses id substream h in mret (further, None, h)
    | InClosing substream =>
      let '(closed, substream) := in_poll_close substream in
      match closed with
      | Ready _ => h ← drop_inbound now id delay_key h; mret (false, None, h)
      | Pending => mret (false, None, set_inbound_state id (InClosing substream) h)
      end
    | InPoisoned => Panic "Coding Error: Inbound Substream is poisoned"
    end
  end.

(** [while drive_stream_further] *)
Fixpoint drive_inbound (fuel : nat) (now : Instant) (id : SubstreamId) (h : RPCHandler) : Phase :=
  match fuel with
  | O => OutOfFuel
  | S fuel =>
    '(further, event, h) ← drive_inbound_turn now id h;
    match event with
    | Some _ => mret (event, h)
    | None => if further : bool then drive_inbound fuel now id h else mret (None, h)
    end
  end.

(** Each queued response is sent in at most two turns, and two more close the
    substream. *)
Definition drive_fuel (id : SubstreamId) (h : RPCHandler) : nat :=
  3 * length (default [] (queued_outbound_items h !! id)) + 4.

Fixpoint drive_all_inbound (now : Instant) (ids : list SubstreamId) (h : RPCHandler) : Phase :=
  match ids with
  | [] => mret (None, h)
  | request_id :: ids =>
    '(event, h) ← drive_inbound (drive_fuel request_id h) now request_id h;
    match event with
    | Some _ => mret (event, h)
    | None => drive_all_inbound now ids h
    end
  end.

(** Dropping an outbound substream with its timer. *)
Definition drop_outbound (now : Instant) (id : SubstreamId) (info : OutboundInfo) (h : RPCHandler)
    : Outcome RPCHandler :=
  q ← dq_remove (delay_key info) (outbound_substreams_delay h);
  let h := set_outbound_substreams_delay q h in
  let h := set_outbound_substreams (delete id (outbound_substreams h)) h in
  mret (update_keep_alive now h).

(** What is reported of a response. *)
Definition received_response (info : OutboundInfo) (response : RPCCodedResponse)
    : Outcome (Result RPCReceived HandlerErr) :=
  match response with
  | Success resp => mret (Ok (Received_Response (req_id info) resp))
  | InvalidRequest r | ServerError r | Unknown r =>
    code ← unwrap (error_code response) "Response indicating and error should map to an error code";
    mret (Err (Outbound_err (req_id info) (proto info) (ErrorResponse code (ErrorType_to_string r))))
  end.

(** A response chunk: the substream stays open only while more chunks are
    expected. *)
Definition outbound_chunk (now : Instant) (id : SubstreamId) (info : OutboundInfo)
    (substream : Outbound) (request : RPCRequest) (response : RPCCodedResponse) (h : RPCHandler)
    : Outcome RPCHandler :=
  if (bool_decide (1 < expected_responses request)%N && negb (is_error response))%bool then
    let remaining :=
      match remaining_chunks info with Some count => N.pred count | None => 0%N end in
    if decide (remaining = 0)%N then mret (set_outbound_state id (OutClosing substream) h)
    else
      let h :=
        set_outbound_substreams
          (<[id := mkOutboundInfo (RequestPendingResponse substream request) (delay_key info)
                     (proto info) (Some remaining) (req_id info)]> (outbound_substreams h)) h in
      q ← dq_reset now (delay_key info) (from_secs RESPONSE_TIMEOUT) (outbound_substreams_delay h);
      mret (set_outbound_substreams_delay q h)
  else mret (set_outbound_state id (OutClosing substream) h).

Definition drive_pending_response (now : Instant) (id : SubstreamId) (info : OutboundInfo)
    (substream : Outbound) (request : RPCRequest) (h : RPCHandler) : Phase :=
  let '(r, substream) := out_poll_next substream in
  match r with
  | Ready (Some (Ok response)) =>
    h ← outbound_chunk now id info substream request response h;
    received ← received_response info response;
    mret (Some (Custom received), h)
  | Ready None =>
    h ← drop_outbound now id info h;
    mret (Some (Custom (Err (Outbound_err (req_id info) (request_protocol request)
                               IncompleteStream))), h)
  | Pending => mret (None, set_outbound_state id (RequestPendingResponse substream request) h)
  | Ready (Some (Err e)) =>
    h ← drop_outbound now id info h;
    mret (Some (Custom (Err (Outbound_err (req_id info) (proto info) e))), h)
  end.

Definition drive_outbound (now : Instant) (id : SubstreamId) (h : RPCHandler) : Phase :=
  match outbound_substreams h !! id with
  | None => Panic "internal error: entered unreachable code"
  | Some info =>
    let h := set_outbound_state id OutPoisoned h in
    match out_state info with
    | RequestPendingResponse substream request =>
      if is_deactivated (state h) then
        let h := set_outbound_state id (OutClosing substream) h in
        mret (None, push_error (Outbound_err (req_id info) (proto info) HandlerRejected) h)
      else drive_pending_response now id info substream request h
    | OutClosing substream =>
      let '(closed, substream) := out_poll_close substream in
      match closed with
      | Ready _ => h ← drop_outbound now id info h; mret (None, h)
      | Pending => mret (None, set_outbound_state id (OutClosing substream) h)
      end
    | OutPoisoned => Panic "Coding Error: Outbound substream is poisoned"
    end
  end.

Fixpoint drive_all_outbound (now : Instant) (ids : list SubstreamId) (h : RPCHandler) : Phase :=
  match ids with
  | [] => mret (None, h)
  | outbound_id :: ids =>
    '(event, h) ← drive_outbound now outbound_id h;
    match event with
    | Some _ => mret (event, h)
    | None => drive_all_outbound now ids h
    end
  end.

(** Establishing the next outbound substream. *)
Definition dial_next (now : Instant) (h : RPCHandler) : Phase :=
  match dial_queue h with
  | (id, req) :: rest =>
    if decide (dial_negotiated h < max_dial_negotiated h) then
      negotiated ← add_w 32 (dial_negotiated h) 1;
      let h := set_dial_queue rest (set_dial_negotiated negotiated h) in
      let h := update_keep_alive now h in
      mret (Some (OutboundSubstreamRequest req (id, req)), h)
    else mret (None, h)
  | [] => mret (None, h)
  end.

(** [then_phase p k]: [k] runs when the phase [p] did not return. *)
Definition then_phase (p : Phase) (k : RPCHandler -> Phase) : Phase :=
  '(event, h) ← p;
  match event with
  | Some _ => mret (event, h)
  | None => k h
  end.

(** [RPCHandler::poll]; [None] is [Poll::Pending]. *)
Definition poll (now : Instant) (h : RPCHandler) : Phase :=
  then_phase (mret (report_errors h)) (fun h =>
  then_phase (mret (report_events h)) (fun h =>
  let h := check_shutdown now h in
  then_phase (purge_inbound (S (size (live (inbound_substreams_delay h)))) now h) (fun h =>
  then_phase (purge_outbound (S (size (live (outbound_substreams_delay h)))) now h) (fun h =>
  then_phase (drive_all_inbound now (hm_keys (inbound_substreams h)) h) (fun h =>
  then_phase (drive_all_outbound now (hm_keys (outbound_substreams h)) h) (dial_next now)))))).

(** ** Invariant *)

(** A response that is being sent is the last one of its substream, and an
    idle substream has nothing queued. *)
Definition inbound_state_ok (queue : list RPCCodedResponse) (st : InboundSubstreamState) : Prop :=
  match st with
  | ResponsePendingSend _ _ closing | ResponsePendingFlush _ closing => closing = true
  | ResponseIdle _ => queue = []
  | InClosing _ => True
  | InPoisoned => False
  end.

Definition key_ok (q : DQ SubstreamId) (id : SubstreamId) (key : Key) : Prop :=
  exists t, live q !! key = Some (id, t).

Definition inbound_entry_ok (h : RPCHandler) (id : SubstreamId) (e : InboundEntry) : Prop :=
  0 <= id < current_inbound_substream_id h /\
  inbound_state_ok (default [] (queued_outbound_items h !! id)) e.1.1 /\
  match e.1.2 with
  | Some key => key_ok (inbound_substreams_delay h) id key
  | None => True
  end.

Definition outbound_entry_ok (h : RPCHandler) (id : SubstreamId) (info : OutboundInfo) : Prop :=
  0 <= id < current_outbound_substream_id h /\ out_state info <> OutPoisoned /\
  key_ok (outbound_substreams_delay h) id (delay_key info).

Record inv (h : RPCHandler) : Prop := {
  inv_inbound : map_Forall (inbound_entry_ok h) (inbound_substreams h);
  inv_outbound : map_Forall (outbound_entry_ok h) (outbound_substreams h);
  inv_queued : forall id, is_Some (queued_outbound_items h !! id) ->
    id < current_inbound_substream_id h;
  inv_ids : 0 <= current_inbound_substream_id h /\ 0 <= current_outbound_substream_id h;
  inv_dial : 0 <= dial_negotiated h <= max_dial_negotiated h /\ max_dial_negotiated h = 8;
  inv_retries : 0 <= outbound_io_error_retries h < IO_ERROR_RETRIES;
}.

(** The part of the handler the invariant does not look at. *)
Lemma inv_ext h h' :
  inv h ->
  inbound_substreams h' = inbound_substreams h ->
  inbound_substreams_delay h' = inbound_substreams_delay h ->
  outbound_substreams h' = outbound_substreams h ->
  outbound_substreams_delay h' = outbound_substreams_delay h ->
  queued_outbound_items h' = queued_outbound_items h ->
  current_inbound_substream_id h' = current_inbound_substream_id h ->
  current_outbound_substream_id h' = current_outbound_substream_id h ->
  0 <= dial_negotiated h' <= max_dial_negotiated h' -> max_dial_negotiated h' = 8 ->
  0 <= outbound_io_error_retries h' < IO_ERROR_RETRIES -> inv h'.
Proof.
  intros [Hi Ho Hq Hid Hd Hr] E1 E2 E3 E4 E5 E6 E7 Hd' Hm' Hr'.
  split; rewrite ?E1, ?E3, ?E5, ?E6, ?E7; try done;
    intros id e He; unfold inbound_entry_ok, outbound_entry_ok;
    rewrite ?E2, ?E4, ?E5, ?E6, ?E7; first [by apply Hi | by apply Ho].
Qed.

Ltac inv_same h :=
  apply (inv_ext h);
  [assumption|reflexivity..|exact (proj1 (inv_dial h ltac:(assumption)))
  |exact (proj2 (inv_dial h ltac:(assumption)))|exact (inv_retries h ltac:(assumption))].

Lemma inv_push_error e h : inv h -> inv (push_error e h).
Proof. intros Hinv. inv_same h. Qed.

Lemma inv_set_keep_alive v h : inv h -> inv (set_keep_alive v h).
Proof. intros Hinv. inv_same h. Qed.

Lemma update_keep_alive_cases now h :
  update_keep_alive now h = h \/ exists v, update_keep_alive now h = set_keep_alive v h.
Proof.
  unfold update_keep_alive.
  destruct (keep_alive h); try match goal with |- context [ if ?b then _ else _ ] => destruct b end; eauto.
Qed.

Lemma inv_update_keep_alive now h : inv h -> inv (update_keep_alive now h).
Proof.
  intros Hinv. destruct (update_keep_alive_cases now h) as [->|[v ->]]; [done|].
  by apply inv_set_keep_alive.
Qed.

(** [update_keep_alive] only writes [keep_alive]. *)
Lemma update_keep_alive_frame {A} (f : RPCHandler -> A) now h :
  (forall v, f (set_keep_alive v h) = f h) -> f (update_keep_alive now h) = f h.
Proof. intros Hf. destruct (update_keep_alive_cases now h) as [->|[v ->]]; done. Qed.

Lemma inv_new timeout : inv (new timeout).
Proof.
  split; cbn; unfold IO_ERROR_RETRIES; try lia.
  - apply map_Forall_empty.
  - apply map_Forall_empty.
  - intros id. rewrite lookup_empty. by intros [].
Qed.

(** Rewriting the state of one substream. *)
Lemma inv_set_inbound_state id st h e :
  inv h -> inbound_substreams h !! id = Some e ->
  inbound_state_ok (default [] (queued_outbound_items h !! id)) st ->
  inv (set_inbound_state id st (set_inbound_state id InPoisoned h)).
Proof.
  intros Hinv He Hst. destruct Hinv as [Hi Ho Hq Hid Hd Hr].
  split; try assumption. cbn. intros j x. rewrite !lookup_alter.
  case_decide as Hj; [|apply Hi].
  subst j. rewrite decide_True, He by done. cbn. intros Hx. injection Hx as <-.
  destruct (Hi id e He) as (? & ? & ?).
  split; [done|]. by split.
Qed.

Lemma inbound_state_ok_pending queue (st : InboundSubstreamState) :
  match st with ResponseIdle _ => False | _ => True end ->
  inbound_state_ok queue st -> forall queue', inbound_state_ok queue' st.
Proof. by destruct st. Qed.

Lemma inv_set_outbound_state id st h info :
  inv h -> outbound_substreams h !! id = Some info -> st <> OutPoisoned ->
  inv (set_outbound_state id st (set_outbound_state id OutPoisoned h)).
Proof.
  intros Hinv He Hst. destruct Hinv as [Hi Ho Hq Hid Hd Hr].
  split; try assumption. cbn. intros j x. rewrite !lookup_alter.
  case_decide as Hj; [|apply Ho].
  subst j. rewrite decide_True, He by done. cbn. intros Hx. injection Hx as <-.
  destruct (Ho id info He) as (? & ? & ?).
  split; [done|]. by split.
Qed.

Definition is_dial (event : option HandlerEvent) : bool :=
  match event with Some (OutboundSubstreamRequest _ _) => true | _ => false end.

(** What a phase does to the count of dials: only the event that opens a
    substream adds one. *)
Definition dial_post (n : Z) (event : option HandlerEvent) (h' : RPCHandler) : Prop :=
  dial_negotiated h' = n + (if is_dial event then 1 else 0).

Lemma dial_post_update n now event h :
  dial_post n event h -> dial_post n event (update_keep_alive now h).
Proof. unfold dial_post. by rewrite (update_keep_alive_frame dial_negotiated). Qed.

Lemma dial_post_none event h h' :
  is_dial event = false -> dial_negotiated h' = dial_negotiated h ->
  dial_post (dial_negotiated h) event h'.
Proof. unfold dial_post. intros -> ->. lia. Qed.

(** Dropping an inbound substream: its timer key is live, so [dq_remove]
    returns, and no other substream uses it. *)
Context `{!DelayQueueLaws}.

Lemma key_ok_delete (q q' : DQ SubstreamId) key id j key' :
  live q' = delete key (live q) -> key_ok q id key -> key_ok q j key' -> j <> id ->
  key_ok q' j key'.
Proof.
  intros Hq [t Ht] [t' Ht'] Hne. exists t'. rewrite Hq, lookup_delete_ne; [done|].
  intros ->. congruence.
Qed.

Lemma drop_inbound_ok now id st ko p h :
  inv h -> inbound_substreams h !! id = Some (st, ko, p) ->
  exists h', drop_inbound now id ko (set_inbound_state id InPoisoned h) = Ret h' /\ inv h' /\
    (forall j, j <> id -> inbound_substreams h' !! j = inbound_substreams h !! j) /\
    inbound_substreams h' !! id = None /\ dial_negotiated h' = dial_negotiated h.
Proof.
  intros Hinv He. pose proof (inv_inbound _ Hinv id _ He) as (Hid & _ & Hkey). cbn in Hkey.
  assert (Hq : exists q, (match ko with
      | Some key =>
        q ← dq_remove key (inbound_substreams_delay (set_inbound_state id InPoisoned h));
        mret (set_inbound_substreams_delay q (set_inbound_state id InPoisoned h))
      | None => mret (set_inbound_state id InPoisoned h)
      end) = Ret (set_inbound_substreams_delay q (set_inbound_state id InPoisoned h)) /\
      forall j key, j <> id -> key_ok (inbound_substreams_delay h) j key -> key_ok q j key).
  { destruct ko as [key|].
    - destruct Hkey as [t Ht]. cbn.
      destruct (dq_remove_live _ key (inbound_substreams_delay h)) as (q & -> & Hq); [eauto|].
      exists q. split; [done|]. intros j key' Hne Hk. eapply key_ok_delete; [done| |done|done].
      by exists t.
    - exists (inbound_substreams_delay h). split; [done|]. done. }
  destruct Hq as (q & Hq & Hkeys). unfold drop_inbound. rewrite Hq. cbn -[update_keep_alive].
  eexists. split; [done|]. split; [|split; [|split]];
    [| |rewrite (update_keep_alive_frame inbound_substreams) by done; apply lookup_delete_eq
     |by rewrite (update_keep_alive_frame dial_negotiated)].
  - apply inv_update_keep_alive. destruct Hinv as [Hi Ho Hqd Hids Hd Hr]. split; try assumption.
    + cbn. intros j x Hx. apply lookup_delete_Some in Hx as [Hne Hx].
      rewrite lookup_alter_ne in Hx by done. destruct (Hi j x Hx) as (? & ? & Hk).
      split; [done|]. split.
      * cbn. by rewrite lookup_delete_ne.
      * cbn. destruct x.1.2; [|done]. by apply Hkeys.
    + cbn. intros j [x Hx]. apply lookup_delete_Some in Hx as [_ Hx]. apply Hqd. eauto.
  - intros j Hne. rewrite (update_keep_alive_frame inbound_substreams) by done. cbn.
    by rewrite lookup_delete_ne, lookup_alter_ne.
Qed.

(** ** Driving the substreams *)

(** The turns left before the loop stops. *)
Definition rank (st : InboundSubstreamState) : nat :=
  match st with
  | ResponsePendingSend _ _ _ => 3
  | ResponsePendingFlush _ _ | ResponseIdle _ => 2
  | InClosing _ => 1
  | InPoisoned => 0
  end.

(** The moves of an inbound substream in one turn. *)
Inductive inbound_next : InboundSubstreamState -> InboundSubstreamState -> Prop :=
| NextSendWait s s' m :
    inbound_next (ResponsePendingSend s m true) (ResponsePendingSend s' m true)
| NextSent s s' m : inbound_next (ResponsePendingSend s m true) (ResponsePendingFlush s' true)
| NextFlushWait s s' : inbound_next (ResponsePendingFlush s true) (ResponsePendingFlush s' true)
| NextIdle s : inbound_next (ResponseIdle s) (ResponseIdle s)
| NextClosing st s : inbound_next st (InClosing s).

Definition turn_post (id : SubstreamId) (e : InboundEntry) (h : RPCHandler) (further : bool)
    (event : option HandlerEvent) (h' : RPCHandler) : Prop :=
  inv h' /\ dial_post (dial_negotiated h) event h' /\
  (forall j, j <> id -> inbound_substreams h' !! j = inbound_substreams h !! j) /\
  (forall e', inbound_substreams h' !! id = Some e' -> inbound_next e.1.1 e'.1.1) /\
  (further = true -> event = None /\ exists st',
     inbound_substreams h' !! id = Some (st', e.1.2, e.2) /\ (rank st' < rank e.1.1)%nat).

Lemma turn_post_set id (e : InboundEntry) h st further :
  inv h -> inbound_substreams h !! id = Some e ->
  inbound_state_ok (default [] (queued_outbound_items h !! id)) st ->
  inbound_next e.1.1 st -> (further = true -> rank st < rank e.1.1)%nat ->
  turn_post id e h further None (set_inbound_state id st (set_inbound_state id InPoisoned h)).
Proof.
  intros Hinv He Hst Hnext Hrank. split; [by eapply inv_set_inbound_state|].
  split; [by apply dial_post_none|]. split; [|split].
  - intros j Hne. cbn. by rewrite !lookup_alter_ne.
  - intros e'. cbn. rewrite !lookup_alter_eq, He. cbn. intros Heq. by injection Heq as <-.
  - intros Hf. split; [done|]. exists st. cbn.
    rewrite !lookup_alter_eq. rewrite He. by split; [|apply Hrank].
Qed.

(** A pending substream that is about to close or an idle one never finds a
    queued response: [apply_queued_responses] leaves it idle. *)
Lemma apply_queued_idle id substream h :
  default [] (queued_outbound_items h !! id) = [] ->
  apply_queued_responses id substream h = (false, set_inbound_state id (ResponseIdle substream) h).
Proof.
  unfold apply_queued_responses. by destruct (queued_outbound_items h !! id) as [[]|]; cbn.
Qed.

Lemma turn_post_drop now id st ko p h :
  inv h -> inbound_substreams h !! id = Some (st, ko, p) ->
  exists h', drop_inbound now id ko (set_inbound_state id InPoisoned h) = Ret h' /\
    turn_post id (st, ko, p) h false None h'.
Proof.
  intros Hinv He. destruct (drop_inbound_ok now id st ko p h Hinv He) as (h' & Hr & Hinv' & Ho & Hn & Hd).
  exists h'. split; [done|]. split; [done|]. split; [by apply dial_post_none|].
  split; [done|]. split; [|done]. intros e'. by rewrite Hn.
Qed.

Lemma drive_pending_send_ok now id substream message ko p h :
  inv h -> inbound_substreams h !! id = Some (ResponsePendingSend substream message true, ko, p) ->
  exists further event h',
    drive_pending_send now id substream message true p (set_inbound_state id InPoisoned h) =
      Ret (further, event, h') /\
    turn_post id (ResponsePendingSend substream message true, ko, p) h further event h'.
Proof.
  intros Hinv He. unfold drive_pending_send. cbn [state set_inbound_state set_inbound_substreams].
  destruct (is_deactivated (state h)).
  { eexists _, _, _. split; [done|]. by apply turn_post_set; [..|constructor|cbn; lia]. }
  destruct (in_poll_ready substream) as [[[[]|e]|] s1].
  - destruct (in_start_send message s1) as [[[]|e] s2]; eexists _, _, _; (split; [done|]);
      by apply turn_post_set; [..|constructor|cbn; lia].
  - eexists _, _, _. split; [done|]. split; [|split; [|split; [|split; [|done]]]].
    2: by apply dial_post_update, dial_post_none.
    + apply inv_update_keep_alive. destruct Hinv as [Hi Ho Hq Hids Hd Hr]. split; try assumption.
      cbn. intros j x [Hne Hx]%lookup_delete_Some. rewrite lookup_alter_ne in Hx by done.
      by apply Hi.
    + intros j Hne. rewrite (update_keep_alive_frame inbound_substreams) by done. cbn.
      by rewrite lookup_delete_ne, lookup_alter_ne.
    + intros e'. rewrite (update_keep_alive_frame inbound_substreams) by done. cbn.
      by rewrite lookup_delete_eq.
  - eexists _, _, _. split; [done|]. by apply turn_post_set; [..|constructor|].
Qed.

Lemma drive_inbound_turn_ok now id (e : InboundEntry) h :
  inv h -> inbound_substreams h !! id = Some e ->
  exists further event h', drive_inbound_turn now id h = Ret (further, event, h') /\
    turn_post id e h further event h'.
Proof.
  intros Hinv He. pose proof (inv_inbound _ Hinv id e He) as (_ & Hst & _).
  destruct e as [[st ko] p]. unfold drive_inbound_turn. rewrite He. cbn in Hst.
  destruct st as [substream message closing|substream closing|substream|substream|]; cbn in Hst;
    [subst closing; by apply drive_pending_send_ok|subst closing| | |done].
  - unfold drive_pending_flush. destruct (in_poll_flush substream) as [[[[]|e]|] s1]; cbn [orb].
    + eexists _, _, _. split; [done|]. by apply turn_post_set; [..|constructor|cbn; lia].
    + destruct (turn_post_drop now id (ResponsePendingFlush substream true) ko p h Hinv He) as (h' & -> & Hp).
      by eexists _, _, _.
    + eexists _, _, _. split; [done|]. by apply turn_post_set; [..|constructor|].
  - cbn [state set_inbound_state set_inbound_substreams]. destruct (is_deactivated (state h)).
    + eexists _, _, _. split; [done|]. by apply turn_post_set; [..|constructor|cbn; lia].
    + rewrite apply_queued_idle by done. eexists _, _, _. split; [done|]. by apply turn_post_set; [..|constructor|].
  - destruct (in_poll_close substream) as [[r|] s1].
    + destruct (turn_post_drop now id (InClosing substream) ko p h Hinv He) as (h' & -> & Hp).
      by eexists _, _, _.
    + eexists _, _, _. split; [done|]. by apply turn_post_set; [..|constructor|].
Qed.

Lemma drive_inbound_ok fuel now id (e : InboundEntry) h :
  inv h -> inbound_substreams h !! id = Some e -> (rank e.1.1 < fuel)%nat ->
  exists event h', drive_inbound fuel now id h = Ret (event, h') /\ inv h' /\
    dial_post (dial_negotiated h) event h' /\
    forall j, j <> id -> inbound_substreams h' !! j = inbound_substreams h !! j.
Proof.
  revert e h; induction fuel as [|fuel IH]; intros e h Hinv He Hfuel; [lia|]. cbn [drive_inbound].
  destruct (drive_inbound_turn_ok now id e h Hinv He) as (further & event & h1 & -> & Hinv1 & Hd & Ho & _ & Hf).
  cbn. destruct event as [event|]; [by eexists _, _|].
  destruct further; [|by eexists _, _].
  destruct (Hf eq_refl) as (_ & st' & He' & Hrank).
  destruct (IH (st', e.1.2, e.2) h1 Hinv1 He') as (ev & h2 & Hr & Hinv2 & Hd2 & Ho2); [cbn; lia|].
  exists ev, h2. split; [done|]. split; [done|].
  split; [unfold dial_post in *; cbn in Hd; rewrite Hd2, Hd; lia|]. intros j Hne. by rewrite Ho2, Ho.
Qed.

Lemma rank_le st : (rank st <= 3)%nat.
Proof. destruct st; cbn; lia. Qed.

Lemma drive_all_inbound_ok now ids h :
  inv h -> NoDup ids -> (forall id, id ∈ ids -> is_Some (inbound_substreams h !! id)) ->
  exists event h', drive_all_inbound now ids h = Ret (event, h') /\ inv h' /\
    dial_post (dial_negotiated h) event h'.
Proof.
  revert h; induction ids as [|id ids IH]; intros h Hinv Hnd Hids;
    [eexists _, _; split; [done|]; split; [done|by apply dial_post_none]|].
  apply NoDup_cons in Hnd as [Hni Hnd]. cbn [drive_all_inbound].
  destruct (Hids id) as [e He]; [left|].
  destruct (drive_inbound_ok (drive_fuel id h) now id e h Hinv He) as (ev & h1 & -> & Hinv1 & Hd & Ho).
  { pose proof (rank_le e.1.1). unfold drive_fuel. lia. }
  cbn. destruct ev; [by eexists _, _|].
  replace (dial_negotiated h) with (dial_negotiated h1) by (unfold dial_post in Hd; cbn in Hd; lia).
  apply IH; [done|done|]. intros j Hj. rewrite Ho; [apply Hids; by right|]. by intros ->.
Qed.

(** ** Expired substreams *)

Lemma close_ok queue st :
  inbound_state_ok queue st ->
  exists st', close st queue = Ret (st', queue) /\ inbound_state_ok queue st'.
Proof.
  destruct st; cbn; intros Hst; try subst; try done; eexists; by split.
Qed.

Lemma size_poll_expired {K} now (q q' : DQ K) k :
  dq_poll now q = (Expired k, q') -> S (size (live q')) = size (live q).
Proof.
  intros Hp. apply dq_poll_live in Hp as (key & t & Hl & _ & ->).
  rewrite map_size_delete_Some by eauto.
  pose proof (map_size_non_empty_iff (live q)) as [_ Hne].
  assert (size (live q) <> 0%nat); [|lia].
  apply Hne. intros He. by rewrite He, lookup_empty in Hl.
Qed.

(** After a timer fired, the keys of the other substreams are still live. *)
Lemma key_ok_expired now (q q' : DQ SubstreamId) id j key :
  dq_poll now q = (Expired id, q') -> j <> id -> key_ok q j key -> key_ok q' j key.
Proof.
  intros Hp Hne Hk. apply dq_poll_live in Hp as (key' & t & Hl & _ & Hq).
  eapply (key_ok_delete q q' key' id); [done|by exists t|done|done].
Qed.

Lemma expire_inbound_ok now id q h :
  inv h -> dq_poll now (inbound_substreams_delay h) = (Expired id, q) ->
  exists h', expire_inbound id (set_inbound_substreams_delay q h) = Ret h' /\ inv h' /\
    inbound_substreams_delay h' = q /\ dial_negotiated h' = dial_negotiated h.
Proof.
  intros Hinv Hp. pose proof Hinv as [Hi Ho Hq Hids Hd Hr].
  assert (Hother : forall j e, inbound_substreams h !! j = Some e -> j <> id ->
    inbound_entry_ok (set_inbound_substreams_delay q h) j e).
  { intros j e He Hne. destruct (Hi j e He) as (? & ? & Hk). split; [done|]. split; [done|].
    destruct e.1.2; [|done]. cbn. by eapply key_ok_expired. }
  unfold expire_inbound. cbn [inbound_substreams set_inbound_substreams_delay].
  destruct (inbound_substreams h !! id) as [[[st ko] p]|] eqn:He.
  - destruct (Hi id _ He) as (Hid & Hst & _). cbn in Hst.
    destruct (close_ok _ st Hst) as (st' & Hclose & Hst').
    cbn -[close]. rewrite Hclose. cbn.
    eexists. split; [done|]. split; [|by split]. split; cbn; try done.
    + intros j e. rewrite lookup_insert. case_decide as Hj.
      * subst j. intros Heq. injection Heq as <-. split; [done|]. split; [|done]. cbn.
        by rewrite lookup_insert_eq.
      * intros Hje. destruct (Hother j e Hje) as (? & ? & ?); [by intros ->|].
        split; [done|]. split; [|done]. cbn. by rewrite lookup_insert_ne.
    + intros j. rewrite lookup_insert_is_Some. intros [<-|[_ Hj]]; [apply Hid|by apply Hq].
  - eexists. split; [done|]. split; [|by split]. split; cbn; try done.
    intros j e Hje. apply Hother; [done|]. intros ->. congruence.
Qed.

Lemma inv_poll_inbound_same q h :
  inv h -> live q = live (inbound_substreams_delay h) -> inv (set_inbound_substreams_delay q h).
Proof.
  intros [Hi Ho Hq Hids Hd Hr] Hl. split; try done. intros j e He.
  destruct (Hi j e He) as (? & ? & Hk). split; [done|]. split; [done|].
  destruct e.1.2; [|done]. unfold key_ok. cbn. by rewrite Hl.
Qed.

Lemma purge_inbound_ok fuel now h :
  inv h -> (size (live (inbound_substreams_delay h)) < fuel)%nat ->
  exists event h', purge_inbound fuel now h = Ret (event, h') /\ inv h' /\
    dial_post (dial_negotiated h) event h'.
Proof.
  revert h; induction fuel as [|fuel IH]; intros h Hinv Hfuel; [lia|]. cbn [purge_inbound].
  destruct (dq_poll now (inbound_substreams_delay h)) as [r q] eqn:Hp.
  pose proof (dq_poll_live _ _ _ _ _ Hp) as Hl. destruct r as [id|e| |].
  - destruct (expire_inbound_ok now id q h Hinv Hp) as (h' & -> & Hinv' & Hd & <-). cbn.
    apply IH; [done|]. rewrite Hd. apply size_poll_expired in Hp. lia.
  - eexists _, _. split; [done|]. split; [by apply inv_poll_inbound_same|by apply dial_post_none].
  - eexists _, _. split; [done|]. split; [|by apply dial_post_none].
    apply inv_poll_inbound_same; [done|apply Hl].
  - eexists _, _. split; [done|]. split; [by apply inv_poll_inbound_same|by apply dial_post_none].
Qed.

Lemma inv_poll_outbound_same q h :
  inv h -> live q = live (outbound_substreams_delay h) -> inv (set_outbound_substreams_delay q h).
Proof.
  intros [Hi Ho Hq Hids Hd Hr] Hl. split; try done. intros j info He.
  destruct (Ho j info He) as (? & ? & Hk). split; [done|]. split; [done|].
  unfold key_ok. cbn. by rewrite Hl.
Qed.

(** Once the entry of an expired timer is gone, the invariant holds again. *)
Lemma inv_expired_outbound now id q h :
  inv h -> dq_poll now (outbound_substreams_delay h) = (Expired id, q) ->
  inv (set_outbound_substreams (delete id (outbound_substreams h))
         (set_outbound_substreams_delay q h)).
Proof.
  intros [Hi Ho Hq Hids Hd Hr] Hp. split; try done. cbn.
  intros j info [Hne He]%lookup_delete_Some. destruct (Ho j info He) as (? & ? & Hk).
  split; [done|]. split; [done|]. cbn. eapply key_ok_expired; [done| |done]. by intros ->.
Qed.

Lemma purge_outbound_ok fuel now h :
  inv h -> (size (live (outbound_substreams_delay h)) < fuel)%nat ->
  exists event h', purge_outbound fuel now h = Ret (event, h') /\ inv h' /\
    dial_post (dial_negotiated h) event h'.
Proof.
  revert h; induction fuel as [|fuel IH]; intros h Hinv Hfuel; [lia|]. cbn [purge_outbound].
  destruct (dq_poll now (outbound_substreams_delay h)) as [r q] eqn:Hp.
  pose proof (dq_poll_live _ _ _ _ _ Hp) as Hl.
  destruct r as [id|e| |]; cbn [outbound_substreams set_outbound_substreams_delay].
  - pose proof (inv_expired_outbound now id q h Hinv Hp) as Hinv'.
    destruct (outbound_substreams h !! id) as [info|] eqn:He.
    + eexists _, _. split; [done|].
      split; [by apply inv_update_keep_alive|by apply dial_post_update, dial_post_none].
    + rewrite delete_id in Hinv' by done.
      change (dial_negotiated h) with (dial_negotiated (set_outbound_substreams_delay q h)).
      apply IH; [by destruct h|]. cbn. apply size_poll_expired in Hp. lia.
  - eexists _, _. split; [done|]. split; [by apply inv_poll_outbound_same|by apply dial_post_none].
  - eexists _, _. split; [done|]. split; [|by apply dial_post_none].
    apply inv_poll_outbound_same; [done|apply Hl].
  - eexists _, _. split; [done|]. split; [by apply inv_poll_outbound_same|by apply dial_post_none].
Qed.

(** ** Driving the outbound substreams *)

(** A phase that works on the outbound substream [id] alone. *)
Definition outbound_post (id : SubstreamId) (h h' : RPCHandler) : Prop :=
  inv h' /\ dial_negotiated h' = dial_negotiated h /\
  forall j, j <> id -> outbound_substreams h' !! j = outbound_substreams h !! j.

Lemma outbound_post_set id info st h :
  inv h -> outbound_substreams h !! id = Some info -> st <> OutPoisoned ->
  outbound_post id h (set_outbound_state id st (set_outbound_state id OutPoisoned h)).
Proof.
  intros Hinv He Hst. split; [by eapply inv_set_outbound_state|]. split; [done|].
  intros j Hne. cbn. by rewrite !lookup_alter_ne.
Qed.

Lemma drop_outbound_ok now id info h :
  inv h -> outbound_substreams h !! id = Some info ->
  exists h', drop_outbound now id info (set_outbound_state id OutPoisoned h) = Ret h' /\
    outbound_post id h h'.
Proof.
  intros Hinv He. destruct (inv_outbound _ Hinv id _ He) as (_ & _ & [t Ht]).
  unfold drop_outbound. cbn [outbound_substreams_delay set_outbound_state set_outbound_substreams].
  destruct (dq_remove_live _ (delay_key info) (outbound_substreams_delay h)) as (q & -> & Hq);
    [eauto|].
  cbn -[update_keep_alive]. eexists. split; [done|].
  split; [|split; [by rewrite (update_keep_alive_frame dial_negotiated)|]].
  - apply inv_update_keep_alive. destruct Hinv as [Hi Ho Hqd Hids Hd Hr]. split; try done. cbn.
    intros j x [Hne Hx]%lookup_delete_Some. rewrite lookup_alter_ne in Hx by done.
    destruct (Ho j x Hx) as (? & ? & Hk). split; [done|]. split; [done|].
    eapply key_ok_delete; [done|by exists t|done|]. by intros ->.
  - intros j Hne. rewrite (update_keep_alive_frame outbound_substreams) by done. cbn.
    by rewrite lookup_delete_ne, lookup_alter_ne.
Qed.

(** No request of the protocol expects more than one response, so a chunk
    always closes the substream. *)
Lemma outbound_chunk_closes now id info substream request response h :
  outbound_chunk now id info substream request response h =
    Ret (set_outbound_state id (OutClosing substream) h).
Proof.
  unfold outbound_chunk. pose proof (expected_responses_le_1 request).
  by rewrite bool_decide_false by lia.
Qed.

Lemma received_response_ok info response :
  exists received, received_response info response = Ret received.
Proof. destruct response; cbn; eauto. Qed.

Lemma drive_outbound_ok now id info h :
  inv h -> outbound_substreams h !! id = Some info ->
  exists event h', drive_outbound now id h = Ret (event, h') /\ is_dial event = false /\
    outbound_post id h h'.
Proof.
  intros Hinv He. destruct (inv_outbound _ Hinv id _ He) as (_ & Hst & _).
  unfold drive_outbound. rewrite He.
  destruct (out_state info) as [substream request|substream|]; [| |done].
  - cbn [state set_outbound_state set_outbound_substreams]. destruct (is_deactivated (state h)).
    + eexists _, _. split; [done|]. split; [done|].
      destruct (outbound_post_set id info (OutClosing substream) h Hinv He) as [Hinv' Ho]; [done|].
      split; [by apply inv_push_error|done].
    + unfold drive_pending_response.
      destruct (out_poll_next substream) as [[[[response|e]|]|] s1].
      * rewrite outbound_chunk_closes. cbn -[set_outbound_state received_response].
        destruct (received_response_ok info response) as [received ->].
        eexists _, _. split; [done|]. split; [done|]. by eapply outbound_post_set.
      * destruct (drop_outbound_ok now id info h Hinv He) as (h' & -> & Hp). by eexists _, _.
      * destruct (drop_outbound_ok now id info h Hinv He) as (h' & -> & Hp). by eexists _, _.
      * eexists _, _. split; [done|]. split; [done|]. by eapply outbound_post_set.
  - destruct (out_poll_close substream) as [[r|] s1].
    + destruct (drop_outbound_ok now id info h Hinv He) as (h' & -> & Hp). by eexists _, _.
    + eexists _, _. split; [done|]. split; [done|]. by eapply outbound_post_set.
Qed.

Lemma drive_all_outbound_ok now ids h :
  inv h -> NoDup ids -> (forall id, id ∈ ids -> is_Some (outbound_substreams h !! id)) ->
  exists event h', drive_all_outbound now ids h = Ret (event, h') /\ inv h' /\
    dial_post (dial_negotiated h) event h'.
Proof.
  revert h; induction ids as [|id ids IH]; intros h Hinv Hnd Hids;
    [eexists _, _; split; [done|]; split; [done|by apply dial_post_none]|].
  apply NoDup_cons in Hnd as [Hni Hnd]. cbn [drive_all_outbound].
  destruct (Hids id) as [info He]; [left|].
  destruct (drive_outbound_ok now id info h Hinv He) as (ev & h1 & -> & Hev & Hinv1 & Hd & Ho).
  cbn. destruct ev; [eexists _, _; split; [done|]; split; [done|by apply dial_post_none]|].
  rewrite <-Hd. apply IH; [done|done|].
  intros j Hj. rewrite Ho; [apply Hids; by right|]. by intros ->.
Qed.

(** ** The other calls *)

Lemma dial_next_ok now h :
  inv h -> exists event h', dial_next now h = Ret (event, h') /\ inv h' /\
    dial_post (dial_negotiated h) event h'.
Proof.
  intros Hinv. unfold dial_next.
  destruct (dial_queue h) as [|[id req] rest];
    [eexists _, _; split; [done|]; split; [done|by apply dial_post_none]|].
  pose proof (inv_dial h Hinv) as [Hd Hm].
  case_decide as Hlt;
    [|eexists _, _; split; [done|]; split; [done|by apply dial_post_none]].
  unfold add_w. rewrite decide_True by lia. cbn -[update_keep_alive].
  eexists _, _. split; [done|]. split; [|by apply dial_post_update].
  apply inv_update_keep_alive.
  apply (inv_ext h); try done; [cbn; lia|apply (inv_retries h Hinv)].
Qed.

Lemma inv_check_shutdown now h : inv h -> inv (check_shutdown now h).
Proof.
  intros Hinv. unfold check_shutdown. destruct (state h) as [|delay|]; [done| |done].
  destruct (is_elapsed now delay); [|done].
  destruct Hinv as [Hi Ho Hq Hids Hd Hr]. split; try done; cbn.
  - intros id e He. destruct (Hi id e He) as (? & Hst & ?). split; [done|]. split; [|done].
    cbn. rewrite lookup_empty. by destruct e.1.1.
  - intros id. rewrite lookup_empty. by intros [].
Qed.

Lemma check_shutdown_dial now h : dial_negotiated (check_shutdown now h) = dial_negotiated h.
Proof. unfold check_shutdown. destruct (state h); try done. by destruct (is_elapsed _ _). Qed.

(** A phase that keeps the invariant, followed by one that does. *)
Definition phase_ok (n : Z) (p : Phase) : Prop :=
  exists event h', p = Ret (event, h') /\ inv h' /\ dial_post n event h'.

Lemma then_phase_ok n p k :
  phase_ok n p -> (forall h, inv h -> dial_negotiated h = n -> phase_ok n (k h)) ->
  phase_ok n (then_phase p k).
Proof.
  intros (event & h' & -> & Hinv & Hd) Hk. unfold then_phase. cbn.
  destruct event; [by eexists _, _|]. apply Hk; [done|]. unfold dial_post in Hd. cbn in Hd. lia.
Qed.

Lemma report_errors_ok h : inv h -> phase_ok (dial_negotiated h) (mret (report_errors h)).
Proof.
  intros Hinv. unfold report_errors. destruct (pending_errors h);
    eexists _, _; (split; [done|]); (split; [|by apply dial_post_none]); [done|inv_same h].
Qed.

Lemma report_events_ok h : inv h -> phase_ok (dial_negotiated h) (mret (report_events h)).
Proof.
  intros Hinv. unfold report_events. destruct (events_out h);
    eexists _, _; (split; [done|]); (split; [|by apply dial_post_none]); [done|inv_same h].
Qed.

Lemma poll_ok now h : inv h -> phase_ok (dial_negotiated h) (poll now h).
Proof.
  intros Hinv. unfold poll.
  apply then_phase_ok; [by apply report_errors_ok|intros h1 Hi1 Hd1].
  apply then_phase_ok; [rewrite <-Hd1; by apply report_events_ok|intros h2 Hi2 Hd2].
  pose proof (inv_check_shutdown now h2 Hi2) as Hi3. cbv zeta.
  rewrite <-Hd2, <-(check_shutdown_dial now h2).
  apply then_phase_ok; [apply purge_inbound_ok; [done|lia]|intros h4 Hi4 Hd4].
  apply then_phase_ok; [rewrite <-Hd4; apply purge_outbound_ok; [done|lia]|intros h5 Hi5 Hd5].
  rewrite <-Hd5. apply then_phase_ok.
  { apply drive_all_inbound_ok; [done|apply NoDup_hm_keys|]. intros id. by rewrite elem_of_hm_keys. }
  intros h6 Hi6 Hd6. rewrite <-Hd6. apply then_phase_ok.
  { apply drive_all_outbound_ok; [done|apply NoDup_hm_keys|]. intros id. by rewrite elem_of_hm_keys. }
  intros h7 Hi7 Hd7. rewrite <-Hd7. by apply dial_next_ok.
Qed.

Lemma inv_send_request now id req h : inv h -> inv (send_request now id req h).
Proof.
  intros Hinv. unfold send_request.
  destruct (state h); [apply inv_update_keep_alive| |]; inv_same h.
Qed.

Lemma inv_shutdown now final_msg h : inv h -> inv (shutdown now final_msg h).
Proof.
  intros Hinv. unfold shutdown. apply inv_update_keep_alive.
  destruct (is_active (state h)); [|done]. destruct final_msg as [[id req]|]; inv_same h.
Qed.

Lemma report_error_response_ok id p response h :
  inv h -> exists h', report_error_response id p response h = Ret h' /\ inv h' /\
    inbound_substreams h' = inbound_substreams h /\
    queued_outbound_items h' = queued_outbound_items h /\ state h' = state h.
Proof.
  intros Hinv. destruct response; cbn; eexists; (split; [done|]); split; try done;
    by apply inv_push_error.
Qed.

(** Queueing a response on a substream that is busy. *)
Lemma inv_queue_response id response st e h :
  inv h -> inbound_substreams h !! id = Some e ->
  match st with ResponsePendingSend _ _ _ | ResponsePendingFlush _ _ => True | _ => False end ->
  inbound_state_ok [] st ->
  inv (set_inbound_state id st (queue_response id response (set_inbound_state id InPoisoned h))).
Proof.
  intros [Hi Ho Hq Hids Hd Hr] He Hbusy Hst. destruct (Hi id e He) as (Hid & _ & Hk).
  split; try done; cbn.
  - intros j x. rewrite !lookup_alter. case_decide as Hj.
    + subst j. rewrite decide_True, He by done. cbn. intros Hx. injection Hx as <-.
      split; [done|]. split; [|done]. by destruct st.
    + intros Hx. destruct (Hi j x Hx) as (? & ? & ?). split; [done|]. split; [|done].
      cbn. by rewrite lookup_insert_ne.
  - intros j. rewrite lookup_insert_is_Some. intros [<-|[_ Hj]]; [apply Hid|by apply Hq].
Qed.

Lemma send_response_ok id response h :
  inv h -> exists h', send_response id response h = Ret h' /\ inv h'.
Proof.
  intros Hinv. unfold send_response.
  destruct (inbound_substreams h !! id) as [[[st ko] p]|] eqn:He; [|by eexists].
  destruct (report_error_response_ok id p response h Hinv) as (h1 & -> & Hinv1 & Hs & Hqd & Hst1).
  cbn -[set_inbound_state multiple_responses is_error].
  destruct (is_deactivated (state h1)); [by eexists|].
  assert (He1 : inbound_substreams h1 !! id = Some (st, ko, p)) by (by rewrite Hs).
  pose proof (inv_inbound _ Hinv1 id _ He1) as (_ & Hok & _). cbn [fst] in Hok.
  destruct st as [substream message closing|substream closing|substream|substream|];
    cbn in Hok; [subst closing|subst closing| | |done].
  - destruct (multiple_responses response); eexists; (split; [done|]).
    + by eapply inv_queue_response.
    + by eapply inv_set_inbound_state.
  - destruct (multiple_responses response); eexists; (split; [done|]).
    + by eapply inv_queue_response.
    + by eapply inv_set_inbound_state.
  - eexists. split; [done|]. eapply inv_set_inbound_state; [done..|].
    destruct response as [[]| | |]; done.
  - eexists. split; [done|]. by eapply inv_set_inbound_state.
Qed.

Lemma add_w_ok w x y : x + y < 2 ^ w -> add_w w x y = Ret (x + y).
Proof. intros Hlt. unfold add_w. by rewrite decide_True. Qed.

Lemma negotiated_inbound_ok now req substream h :
  inv h -> current_inbound_substream_id h + 1 < 2 ^ 64 ->
  exists h', inject_fully_negotiated_inbound now req substream h = Ret h' /\ inv h'.
Proof.
  intros Hinv Hid. unfold inject_fully_negotiated_inbound.
  destruct (is_active (state h)); [|by eexists].
  pose proof Hinv as [Hi Ho Hq Hids Hd Hr]. set (id := current_inbound_substream_id h) in *.
  case_decide as Hexp.
  - destruct (dq_insert_ok now id (from_secs RESPONSE_TIMEOUT) (inbound_substreams_delay h))
      as (key & q & -> & Hfresh & Hlive); [by apply within_day|].
    unfold add_w. cbn -[update_keep_alive]. rewrite decide_True by lia. cbn -[update_keep_alive].
    eexists. split; [done|]. apply inv_update_keep_alive. split; cbn; try done; try lia.
    + intros j e. rewrite lookup_insert. case_decide as Hj.
      * subst j. intros Heq. injection Heq as <-. split; [cbn; lia|]. split.
        -- cbn. destruct (queued_outbound_items h !! id) as [l|] eqn:El; [|done].
           specialize (Hq id (ex_intro _ l El)). lia.
        -- cbn. eexists. by rewrite Hlive, lookup_insert_eq.
      * intros Hje. destruct (Hi j e Hje) as (? & ? & Hk). split; [cbn; lia|]. split; [done|].
        destruct e.1.2 as [key'|]; [|done]. destruct Hk as [t Ht]. exists t. cbn.
        rewrite Hlive, lookup_insert_ne; [done|]. intros ->. congruence.
    + intros j Hj. specialize (Hq j Hj). lia.
  - unfold add_w. rewrite decide_True by lia. cbn -[update_keep_alive].
    eexists. split; [done|]. apply inv_update_keep_alive. split; cbn; try done; try lia.
    + intros j e Hje. destruct (Hi j e Hje) as (? & ? & ?). split; [cbn; lia|done].
    + intros j Hj. specialize (Hq j Hj). lia.
Qed.

Lemma inv_set_dial_negotiated n h :
  inv h -> 0 <= n <= 8 -> inv (set_dial_negotiated n h).
Proof.
  intros Hinv Hn. pose proof (inv_dial h Hinv) as [_ Hm]. pose proof (inv_retries h Hinv).
  apply (inv_ext h); try done. cbn. lia.
Qed.

Lemma negotiated_outbound_ok now out info h :
  inv h -> 0 < dial_negotiated h -> current_outbound_substream_id h + 1 < 2 ^ 64 ->
  exists h', inject_fully_negotiated_outbound now out info h = Ret h' /\ inv h'.
Proof.
  intros Hinv Hdial Hid. pose proof (inv_dial h Hinv) as [Hd Hm].
  unfold inject_fully_negotiated_outbound, sub_w. rewrite decide_True by lia.
  cbn -[set_dial_negotiated update_keep_alive].
  assert (Hinv1 : inv (set_dial_negotiated (dial_negotiated h - 1) h))
    by (apply inv_set_dial_negotiated; [done|lia]).
  set (h1 := set_dial_negotiated _ h) in *. destruct info as [id request].
  destruct (is_deactivated (state h1)); [eexists; split; [done|by apply inv_push_error]|].
  case_decide as Hexp; [|cbn; eexists; split; [done|by apply inv_update_keep_alive]].
  change (current_outbound_substream_id h1) with (current_outbound_substream_id h).
  change (outbound_substreams_delay h1) with (outbound_substreams_delay h).
  set (sid := current_outbound_substream_id h) in *.
  destruct (dq_insert_ok now sid (from_secs RESPONSE_TIMEOUT) (outbound_substreams_delay h))
    as (key & q & -> & Hfresh & Hlive); [by apply within_day|]. cbn -[add_w update_keep_alive].
  rewrite (add_w_ok 64 sid 1) by lia. cbn -[update_keep_alive].
  eexists. split; [done|]. apply inv_update_keep_alive.
  pose proof Hinv1 as [Hi Ho Hq Hids Hd1 Hr]. split; try done; try (cbn in *; lia).
  - intros j x. cbn. rewrite lookup_insert. case_decide as Hj.
    + subst j. intros Heq. injection Heq as <-. split; [cbn in *; lia|]. split; [done|].
      eexists. cbn. by rewrite Hlive, lookup_insert_eq.
    + intros Hx. destruct (Ho j x Hx) as (Hr' & ? & [t Ht]). split; [cbn in *; lia|]. split; [done|].
      exists t. cbn in *. rewrite Hlive, lookup_insert_ne; [done|]. intros ->. congruence.
Qed.

Lemma dial_failed_ok now info error retries h :
  inv h -> 0 < dial_negotiated h ->
  exists h', dial_failed now info error (set_outbound_io_error_retries retries h) = Ret h' /\
    inv h' /\ dial_negotiated h' = dial_negotiated h - 1.
Proof.
  intros Hinv Hdial. pose proof (inv_dial h Hinv) as [Hd Hm].
  unfold dial_failed, sub_w. cbn [dial_negotiated set_outbound_io_error_retries].
  rewrite decide_True by lia. cbn -[update_keep_alive].
  eexists. split; [done|].
  match goal with |- context [ update_keep_alive now ?x ] => set (h1 := x) end.
  split.
  - apply inv_push_error. destruct (update_keep_alive_cases now h1) as [->|[v ->]];
      (apply (inv_ext h); try done; cbn; unfold IO_ERROR_RETRIES; lia).
  - cbn -[update_keep_alive]. by rewrite (update_keep_alive_frame dial_negotiated).
Qed.

(** An upgrade that failed with an I/O error and is tried again. *)
Definition retries_dial (error : UpgrErr) (h : RPCHandler) : bool :=
  is_io_error error && bool_decide (outbound_io_error_retries h + 1 < IO_ERROR_RETRIES).

Lemma send_request_dial_negotiated now id req h :
  dial_negotiated (send_request now id req h) = dial_negotiated h.
Proof.
  unfold send_request. destruct (state h); cbn -[update_keep_alive]; try done.
  by rewrite (update_keep_alive_frame dial_negotiated).
Qed.

Lemma dial_error_ok now info error h :
  inv h -> 0 < dial_negotiated h ->
  exists h', inject_dial_upgrade_error now info error h = Ret h' /\ inv h' /\
    dial_negotiated h' = dial_negotiated h - (if retries_dial error h then 0 else 1).
Proof.
  intros Hinv Hdial. unfold inject_dial_upgrade_error, retries_dial.
  pose proof (inv_retries h Hinv) as Hr. unfold IO_ERROR_RETRIES in *.
  destruct (is_io_error error); cbn [andb].
  - unfold add_w. rewrite decide_True by lia. cbn -[send_request dial_failed bool_decide].
    case_decide as Hlt.
    + rewrite bool_decide_true by done. eexists. split; [done|]. split.
      * apply inv_send_request. apply (inv_ext h); try done; [apply (inv_dial h Hinv)..|].
        cbn. unfold IO_ERROR_RETRIES. lia.
      * rewrite send_request_dial_negotiated. cbn. lia.
    + rewrite bool_decide_false by done. by apply dial_failed_ok.
  - replace h with (set_outbound_io_error_retries (outbound_io_error_retries h) h) at 1
      by (by destruct h).
    by apply dial_failed_ok.
Qed.

(** ** The handler and the swarm that drives it *)

(** The calls libp2p's swarm and the behaviour make on a handler. *)
Inductive HandlerCall :=
| CallShutdown (final_msg : option (RequestId * RPCRequest))
| CallNegotiatedInbound (req : RPCRequest) (substream : Inbound)
| CallNegotiatedOutbound (out : Outbound) (request_info : RequestId * RPCRequest)
| CallEvent (rpc_event : RPCSend)
| CallDialError (request_info : RequestId * RPCRequest) (error : UpgrErr)
| CallPoll.

Definition run_call (now : Instant) (c : HandlerCall) (h : RPCHandler) : Phase :=
  match c with
  | CallShutdown final_msg => mret (None, shutdown now final_msg h)
  | CallNegotiatedInbound req substream =>
    h ← inject_fully_negotiated_inbound now req substream h; mret (None, h)
  | CallNegotiatedOutbound out info =>
    h ← inject_fully_negotiated_outbound now out info h; mret (None, h)
  | CallEvent rpc_event => h ← inject_event now rpc_event h; mret (None, h)
  | CallDialError info error => h ← inject_dial_upgrade_error now info error h; mret (None, h)
  | CallPoll => poll now h
  end.

(** The handler, the number of outbound upgrades the swarm is performing for
    it, and the number of upgrades that were tried again after an I/O error. *)
Record World := mkWorld { handler : RPCHandler; opening : nat; retried : nat }.

Definition ends_upgrade (c : HandlerCall) : bool :=
  match c with CallNegotiatedOutbound _ _ | CallDialError _ _ => true | _ => false end.

Definition is_retry (c : HandlerCall) (h : RPCHandler) : bool :=
  match c with CallDialError _ error => retries_dial error h | _ => false end.

(** The swarm answers each [OutboundSubstreamRequest] by one negotiated
    substream or one upgrade error; the ids are [usize] and do not wrap. *)
Definition call_ok (c : HandlerCall) (w : World) : Prop :=
  (ends_upgrade c = true -> 0 < opening w)%nat /\
  current_inbound_substream_id (handler w) + 1 < 2 ^ 64 /\
  current_outbound_substream_id (handler w) + 1 < 2 ^ 64.

Definition after_call (c : HandlerCall) (event : option HandlerEvent) (h' : RPCHandler) (w : World)
    : World :=
  mkWorld h'
    (opening w - (if ends_upgrade c then 1 else 0) + (if is_dial event then 1 else 0))
    (retried w + (if is_retry c (handler w) then 1 else 0)).

Definition world_step (w w' : World) : Prop :=
  exists now c event h', call_ok c w /\ run_call now c (handler w) = Ret (event, h') /\
    w' = after_call c event h' w.

Definition world_reachable (w : World) : Prop :=
  exists timeout, rtc world_step (mkWorld (new timeout) 0 0) w.


(** *** Every call *)

Lemma send_request_keeps_dial now id req h : dial_negotiated (send_request now id req h) = dial_negotiated h.
Proof. apply send_request_dial_negotiated. Qed.

Lemma shutdown_dial now final_msg h : dial_negotiated (shutdown now final_msg h) = dial_negotiated h.
Proof.
  unfold shutdown. rewrite (update_keep_alive_frame dial_negotiated) by done.
  destruct (is_active (state h)); [|done]. by destruct final_msg as [[]|].
Qed.

Lemma send_response_dial id response h h' :
  send_response id response h = Ret h' -> dial_negotiated h' = dial_negotiated h.
Proof.
  unfold send_response. destruct (inbound_substreams h !! id) as [[[st ko] p]|]; [|by intros [= <-]].
  assert (Hr : exists h1, report_error_response id p response h = Ret h1 /\
    dial_negotiated h1 = dial_negotiated h) by (destruct response; cbn; eauto).
  destruct Hr as (h1 & -> & <-). cbn -[multiple_responses is_error].
  destruct (is_deactivated (state h1)); [by intros [= <-]|].
  destruct st; try done; try destruct (multiple_responses response); by intros [= <-].
Qed.

(** What becomes of a request: it is dropped, or reported, and its substream
    stored when it expects a response. *)
Lemma negotiated_inbound_cases now req substream h h' :
  inject_fully_negotiated_inbound now req substream h = Ret h' ->
  (is_active (state h) = false /\ h' = h) \/
  exists n h1, is_active (state h) = true /\ add_w 64 (current_inbound_substream_id h) 1 = Ret n /\
    h' = update_keep_alive now (set_current_inbound_substream_id n
           (set_events_out (events_out h ++ [Received_Request (current_inbound_substream_id h) req]) h1)) /\
    ((expected_responses req = 0%N /\ h1 = h) \/
     ((0 < expected_responses req)%N /\ exists key q,
       dq_insert now (current_inbound_substream_id h) (from_secs RESPONSE_TIMEOUT)
         (inbound_substreams_delay h) = Ret (key, q) /\
       h1 = set_inbound_substreams
              (<[current_inbound_substream_id h := (ResponseIdle substream, Some key, request_protocol req)]>
                 (inbound_substreams h)) (set_inbound_substreams_delay q h))).
Proof.
  unfold inject_fully_negotiated_inbound. destruct (is_active (state h)); [|intros [= <-]; by left].
  case_decide as Hexp; cbn [mbind Outcome_bind mret Outcome_ret].
  - destruct (dq_insert now _ _ _) as [[key q]| |]; cbn -[add_w update_keep_alive]; [|done..].
    destruct (add_w 64 _ 1) as [n| |]; [|done..]. intros [= <-]. right.
    eexists n, _. split_and!; [done..|]. right. split; [done|]. by exists key, q.
  - destruct (add_w 64 _ 1) as [n| |]; [|done..]. intros [= <-]. right.
    eexists n, h. split_and!; [done..|]. left. split; [lia|done].
Qed.

Lemma negotiated_inbound_dial now req substream h h' :
  inject_fully_negotiated_inbound now req substream h = Ret h' ->
  dial_negotiated h' = dial_negotiated h.
Proof.
  intros [[_ ->]|(n & h1 & _ & _ & -> & [[_ ->]|(_ & key & q & _ & ->)])]%negotiated_inbound_cases; [done|..];
    by rewrite (update_keep_alive_frame dial_negotiated).
Qed.

Lemma negotiated_outbound_dial now out info h h' :
  0 < dial_negotiated h ->
  inject_fully_negotiated_outbound now out info h = Ret h' ->
  dial_negotiated h' = dial_negotiated h - 1.
Proof.
  intros Hpos. unfold inject_fully_negotiated_outbound, sub_w. rewrite decide_True by lia.
  cbn -[update_keep_alive]. destruct info as [id request].
  destruct (is_deactivated _); [by intros [= <-]|].
  case_decide; [destruct (dq_insert now _ _ _) as [[]| |]; [cbn -[update_keep_alive]; destruct (add_w 64 _ 1)|done..]|];
    cbn -[update_keep_alive]; try done; intros [= <-];
    by rewrite (update_keep_alive_frame dial_negotiated).
Qed.

Lemma run_call_ok now c w :
  inv (handler w) -> call_ok c w -> dial_negotiated (handler w) = Z.of_nat (opening w + retried w) ->
  exists event h', run_call now c (handler w) = Ret (event, h') /\ inv h' /\
    dial_negotiated h' =
      Z.of_nat (opening (after_call c event h' w) + retried (after_call c event h' w)).
Proof.
  intros Hinv (Hopen & Hin & Hout) Hd. unfold after_call. cbn [opening retried].
  destruct c as [final_msg|req substream|out info|ev|info error|]; cbn [run_call ends_upgrade is_retry] in *.
  - eexists _, _. split; [done|]. split; [by apply inv_shutdown|]. rewrite shutdown_dial. cbn. lia.
  - destruct (negotiated_inbound_ok now req substream _ Hinv Hin) as (h' & Hr & Hinv').
    rewrite Hr. eexists _, _. split; [done|]. split; [done|].
    apply negotiated_inbound_dial in Hr. cbn. lia.
  - specialize (Hopen eq_refl).
    destruct (negotiated_outbound_ok now out info _ Hinv ltac:(lia) Hout) as (h' & Hr & Hinv').
    rewrite Hr. eexists _, _. split; [done|]. split; [done|].
    apply negotiated_outbound_dial in Hr; [cbn; lia|lia].
  - destruct ev as [id req|id response]; cbn [inject_event].
    + eexists _, _. split; [done|]. split; [by apply inv_send_request|].
      rewrite send_request_dial_negotiated. cbn. lia.
    + destruct (send_response_ok id response _ Hinv) as (h' & Hr & Hinv').
      rewrite Hr. eexists _, _. split; [done|]. split; [done|].
      apply send_response_dial in Hr. cbn. lia.
  - specialize (Hopen eq_refl).
    destruct (dial_error_ok now info error _ Hinv ltac:(lia)) as (h' & Hr & Hinv' & Hd').
    rewrite Hr. eexists _, _. split; [done|]. split; [done|]. rewrite Hd'.
    destruct (retries_dial error (handler w)); cbn; lia.
  - destruct (poll_ok now _ Hinv) as (event & h' & Hr & Hinv' & Hd').
    exists event, h'. split; [done|]. split; [done|]. unfold dial_post in Hd'.
    destruct (is_dial event); lia.
Qed.

Lemma world_reachable_inv w :
  world_reachable w ->
  inv (handler w) /\ dial_negotiated (handler w) = Z.of_nat (opening w + retried w).
Proof.
  intros [timeout Hr]. apply rtc_ind_r with
    (P := fun w => inv (handler w) /\ dial_negotiated (handler w) = Z.of_nat (opening w + retried w)) in Hr;
    [done|split; [apply inv_new|done]|].
  intros w1 w2 _ (now & c & event & h' & Hok & Hrun & ->) [Hinv Hd].
  destruct (run_call_ok now c w1 Hinv Hok Hd) as (event' & h'' & Hrun' & Hinv' & Hd').
  rewrite Hrun in Hrun'. injection Hrun' as <- <-. by split.
Qed.

(** ** Properties *)

(** C2: in every state a handler can reach, every call returns: the loops of
    [poll] stop within their fuel, no substream is found poisoned or missing,
    every timer key that is removed is live, and no counter under- or
    overflows. *)
Theorem run_call_returns (now : Instant) (c : HandlerCall) (w : World) :
  world_reachable w -> call_ok c w ->
  exists event h', run_call now c (handler w) = Ret (event, h') /\
    world_reachable (after_call c event h' w).
Proof.
  intros Hw Hok. pose proof (world_reachable_inv w Hw) as [Hinv Hd].
  destruct (run_call_ok now c w Hinv Hok Hd) as (event & h' & Hrun & _).
  exists event, h'. split; [done|]. destruct Hw as [timeout Hw]. exists timeout.
  eapply rtc_r; [exact Hw|]. by exists now, c, event, h'.
Qed.

(** C35: each upgrade that fails with an I/O error and is tried again leaves
    [dial_negotiated] one too high for the rest of the connection: the count
    is the upgrades being performed plus all such retries.  After eight of them
    [poll] never opens a substream again, however many requests wait, and the
    connection is never considered idle. *)
Theorem io_retry_leaks_dial (now : Instant) (w : World) :
  world_reachable w ->
  dial_negotiated (handler w) = Z.of_nat (opening w + retried w) /\
  (retried w <= 8)%nat /\
  (retried w = 8%nat ->
     opening w = 0%nat /\
     (forall event h', poll now (handler w) = Ret (event, h') -> is_dial event = false) /\
     forall t, keep_alive (update_keep_alive now (handler w)) <> KeepAlive_Until t).
Proof.
  intros Hw. pose proof (world_reachable_inv w Hw) as [Hinv Hd].
  pose proof (inv_dial _ Hinv) as [Hb Hm]. split; [done|]. split; [lia|]. intros H8.
  split; [lia|]. split.
  - intros event h' Hr. destruct (poll_ok now _ Hinv) as (event' & h'' & Hr' & Hinv' & Hd').
    rewrite Hr in Hr'. injection Hr' as <- <-. pose proof (inv_dial _ Hinv') as [Hb' Hm'].
    unfold dial_post in Hd'. destruct (is_dial event); [lia|done].
  - intros t. unfold update_keep_alive. rewrite (bool_decide_false (dial_negotiated _ = 0)) by lia.
    rewrite andb_false_r. destruct (keep_alive (handler w)) eqn:Hk; cbn; by rewrite ?Hk.
Qed.

(** A handler with nothing to do. *)
Definition idle (h : RPCHandler) : Prop :=
  dial_queue h = [] /\ outbound_substreams h = ∅ /\ inbound_substreams h = ∅ /\
  pending_errors h = [] /\ events_out h = [] /\ dial_negotiated h = 0.

(** [update_keep_alive] keeps the connection as long as the handler is
    not idle, gives an idle one the inactivity timeout from the moment it
    became idle, does not extend a timeout that runs, and changes nothing
    else. *)
Theorem update_keep_alive_spec (now : Instant) (h : RPCHandler) :
  keep_alive h <> KeepAlive_No ->
  update_keep_alive now h = set_keep_alive (keep_alive (update_keep_alive now h)) h /\
  (idle h -> keep_alive (update_keep_alive now h) =
     match keep_alive h with
     | KeepAlive_Until t => KeepAlive_Until t
     | _ => KeepAlive_Until (now + inactive_timeout h)%N
     end) /\
  (~ idle h -> keep_alive (update_keep_alive now h) = KeepAlive_Yes).
Proof.
  intros Hno. unfold update_keep_alive.
  match goal with |- context [ if ?b then set_keep_alive (KeepAlive_Until _) _ else _ ] =>
    assert (Hb : b = true <-> idle h)
      by (rewrite !andb_true_iff, !bool_decide_eq_true; unfold idle; tauto);
    destruct b
  end.
  - pose proof (proj1 Hb eq_refl). destruct h; cbn in *. by destruct keep_alive0.
  - assert (~ idle h) by (intros Hi%Hb; done). destruct h; cbn in *. by destruct keep_alive0.
Qed.

(** Shutting an active handler down reports every request that was still
    queued as rejected, last first, after the errors already pending; only the
    final message remains to be dialed, later requests are rejected in turn
    and new inbound substreams are dropped; a second shutdown changes none of
    this. *)
Theorem shutdown_spec (now : Instant) (final_msg : option (RequestId * RPCRequest))
    (h : RPCHandler) :
  state h = Active ->
  let h' := shutdown now final_msg h in
  dial_queue h' = option_list final_msg /\
  pending_errors h' = pending_errors h ++ map rejected (rev (dial_queue h)) /\
  state h' = ShuttingDown (delay_until (now + from_secs SHUTDOWN_TIMEOUT_SECS)%N) /\
  (forall now' final_msg', dial_queue (shutdown now' final_msg' h') = dial_queue h' /\
     pending_errors (shutdown now' final_msg' h') = pending_errors h') /\
  (forall now' id req, send_request now' id req h' = push_error (rejected (id, req)) h') /\
  (forall now' req substream, inject_fully_negotiated_inbound now' req substream h' = Ret h').
Proof.
  intros Hact h'.
  assert (Hd : dial_queue h' = option_list final_msg).
  { unfold h', shutdown. rewrite (update_keep_alive_frame dial_queue), Hact by done. cbn.
    by destruct final_msg as [[]|]. }
  assert (Hp : pending_errors h' = pending_errors h ++ map rejected (rev (dial_queue h))).
  { unfold h', shutdown. rewrite (update_keep_alive_frame pending_errors), Hact by done. cbn.
    by destruct final_msg as [[]|]. }
  assert (Hs : state h' = ShuttingDown (delay_until (now + from_secs SHUTDOWN_TIMEOUT_SECS)%N)).
  { unfold h', shutdown. by rewrite (update_keep_alive_frame state), Hact. }
  split; [done|]. split; [done|]. split; [done|]. split; [|split].
  - intros now' final_msg'. unfold shutdown. rewrite Hs. cbn -[update_keep_alive].
    by rewrite (update_keep_alive_frame dial_queue), (update_keep_alive_frame pending_errors).
  - intros now' id req. unfold send_request. by rewrite Hs.
  - intros now' req substream. unfold inject_fully_negotiated_inbound. by rewrite Hs.
Qed.

(** ** Running a list of calls, to reach concrete states *)
Definition call_okb (c : HandlerCall) (w : World) : bool :=
  (negb (ends_upgrade c) || bool_decide (0 < opening w)%nat) &&
  bool_decide (current_inbound_substream_id (handler w) + 1 < 2 ^ 64) &&
  bool_decide (current_outbound_substream_id (handler w) + 1 < 2 ^ 64).

Fixpoint run_calls (cs : list HandlerCall) (w : World) : option World :=
  match cs with
  | [] => Some w
  | c :: cs =>
    if call_okb c w then
      match run_call 0%N c (handler w) with
      | Ret (event, h') => run_calls cs (after_call c event h' w)
      | _ => None
      end
    else None
  end.

Lemma run_calls_reachable cs w w' :
  world_reachable w -> run_calls cs w = Some w' -> world_reachable w'.
Proof.
  revert w; induction cs as [|c cs IH]; intros w Hw; cbn -[run_call after_call].
  - by intros [= <-].
  - destruct (call_okb c w) eqn:Hok; [|done].
    destruct (run_call 0%N c (handler w)) as [[event h']| |] eqn:Hr; [|done..].
    apply IH. destruct Hw as [timeout Hw]. exists timeout. eapply rtc_r; [exact Hw|].
    exists 0%N, c, event, h'. split; [|done]. unfold call_okb in Hok.
    apply andb_true_iff in Hok as [[Ho Hi]%andb_true_iff Hout].
    apply bool_decide_eq_true in Hi, Hout. split; [|done]. intros He. rewrite He in Ho.
    by apply bool_decide_eq_true in Ho.
Qed.

Lemma run_calls_default cs w : world_reachable w -> world_reachable (default w (run_calls cs w)).
Proof.
  intros Hw. destruct (run_calls cs w) as [w'|] eqn:E; [|done].
  by eapply run_calls_reachable.
Qed.

Lemma new_reachable timeout : world_reachable (mkWorld (new timeout) 0 0).
Proof. exists timeout. apply rtc_refl. Qed.
End Handler.

(** ** Witnesses *)
Section Witnesses.
#[local] Existing Instance table_queue.
#[local] Existing Instance table_queue_laws.
#[local] Existing Instance map_to_list_order.
#[local] Instance debug_build : BuildProfile := true.

(** Sockets that are always ready; every request is answered by a pong. *)
Definition demo_streams : Streams := {|
  Inbound := unit;
  in_poll_ready := fun s => (Ready (Ok tt), s);
  in_start_send := fun _ s => (Ok tt, s);
  in_poll_flush := fun s => (Ready (Ok tt), s);
  in_poll_close := fun s => (Pending, s);
  Outbound := unit;
  out_poll_next := fun s => (Ready (Some (Ok (Success (RPCResponse_Pong [Byte.x01])))), s);
  out_poll_close := fun s => (Ready (Ok tt), s);
  Delay := Instant;
  delay_until := fun t => t;
  is_elapsed := fun now t => bool_decide (t <= now)%N;
|}.
#[local] Existing Instance demo_streams.

Definition demo_request : RequestId * RPCRequest :=
  (RequestId_Behaviour, RPCRequest_Ping [Byte.x07]).
Definition demo_new : World := mkWorld (new 30%N) 0 0.

(** A request that fails three times with an I/O error. *)
Definition demo_io_error : HandlerCall := CallDialError demo_request (Upgr_Apply (IoError "reset")).
Definition demo_failing : list HandlerCall :=
  [CallEvent (Send_Request demo_request.1 demo_request.2); CallPoll; demo_io_error;
   CallPoll; demo_io_error; CallPoll; demo_io_error; CallPoll].

(** Three such requests, and a fourth that fails twice. *)
Definition demo_stalled : World :=
  default demo_new (run_calls (demo_failing ++ demo_failing ++ demo_failing ++ take 5 demo_failing) demo_new).

Lemma demo_stalled_reachable : world_reachable demo_stalled.
Proof. apply run_calls_default, new_reachable. Qed.

Definition demo_socket : @Inbound demo_streams := tt.
Definition demo_key : @Key table_queue := 0%N.

(** A peer's ping that waits for its response. *)
Definition demo_waiting : World :=
  default demo_new (run_calls [CallNegotiatedInbound (RPCRequest_Ping [Byte.x07]) demo_socket] demo_new).

Lemma demo_waiting_reachable : world_reachable demo_waiting.
Proof. apply run_calls_default, new_reachable. Qed.
Lemma run_call_returns_witness :
  exists event h', run_call 11%N CallPoll (handler demo_waiting) = Ret (event, h').
Proof.
  destruct (run_call_returns 11%N CallPoll demo_waiting demo_waiting_reachable) as (event & h' & Hr & _);
    [repeat split; try discriminate|].
  exists event, h'. exact Hr.
Defined.

(** The fourth request waits for ever. *)
Lemma io_retry_leaks_dial_witness :
  dial_queue (handler demo_stalled) = [demo_request] /\
  forall event h', poll 99%N (handler demo_stalled) = Ret (event, h') -> is_dial event = false.
Proof.
  split; [vm_compute; reflexivity|].
  destruct (io_retry_leaks_dial 99%N demo_stalled demo_stalled_reachable) as (_ & _ & Hstall).
  destruct Hstall as (_ & Hpoll & _); [vm_compute; reflexivity|]. exact Hpoll.
Defined.

Lemma update_keep_alive_spec_witness :
  keep_alive (update_keep_alive 5%N (handler demo_new)) = KeepAlive_Until 35%N.
Proof.
  destruct (update_keep_alive_spec 5%N (handler demo_new)) as (_ & Hidle & _); [discriminate|].
  apply Hidle. repeat split.
Defined.

Lemma shutdown_spec_witness :
  dial_queue (shutdown 5%N (Some demo_request) (handler demo_stalled)) = [demo_request] /\
  pending_errors (shutdown 5%N (Some demo_request) (handler demo_stalled)) = [rejected demo_request].
Proof.
  destruct (shutdown_spec 5%N (Some demo_request) (handler demo_stalled)) as (Hd & Hp & _);
    [vm_compute; reflexivity|].
  split; [exact Hd|]. rewrite Hp. vm_compute. reflexivity.
Defined.
End Witnesses.
