(* ===== verification/RpcFrames.v ===== *)
(** * What the phases of the RPC handler leave alone (src/core/network/src/rpc/handler.rs)

    The phases of [poll] that drive the inbound substreams do not touch the
    outbound ones, and the other way round; neither touches the state of the
    handler.  [outside_inbound] and [outside_outbound] are what is left alone. *)
From Stdlib Require Import ZArith.
From S2P Require Import Prelude RpcMethods RpcProtocol DelayQueue RpcHandler.

Section Frames.
Context `{Streams} `{DelayQueue} `{HashOrder} `{BuildProfile}.

Definition outside_inbound (h : RPCHandler) :=
  (events_out h, dial_queue h, dial_negotiated h, outbound_substreams h, outbound_substreams_delay h,
   current_inbound_substream_id h, current_outbound_substream_id h, state h).

Definition outside_outbound (h : RPCHandler) :=
  (events_out h, inbound_substreams h, inbound_substreams_delay h, queued_outbound_items h,
   current_inbound_substream_id h, current_outbound_substream_id h, state h).

Definition same_out (h h' : RPCHandler) : Prop := outside_inbound h' = outside_inbound h.
Definition same_in (h h' : RPCHandler) : Prop := outside_outbound h' = outside_outbound h.

#[export] Instance same_out_preorder : PreOrder same_out.
Proof. split; [by intros ?|]. unfold same_out. congruence. Qed.

#[export] Instance same_in_preorder : PreOrder same_in.
Proof. split; [by intros ?|]. unfold same_in. congruence. Qed.

Lemma same_out_keep_alive now h h' : same_out h h' -> same_out h (update_keep_alive now h').
Proof. unfold same_out. by rewrite (update_keep_alive_frame outside_inbound). Qed.

Lemma same_in_keep_alive now h h' : same_in h h' -> same_in h (update_keep_alive now h').
Proof. unfold same_in. by rewrite (update_keep_alive_frame outside_outbound). Qed.

Lemma same_out_state h h' : same_out h h' -> state h' = state h.
Proof. unfold same_out, outside_inbound. congruence. Qed.

Lemma same_in_state h h' : same_in h h' -> state h' = state h.
Proof. unfold same_in, outside_outbound. congruence. Qed.

(** The cases of a function that answers a handler. *)
Ltac cases :=
  unfold mbind, Outcome_bind, mret, Outcome_ret in *;
  repeat match goal with
  | E : Ret _ = Ret _ |- _ => injection E as; subst
  | E : (_, _) = (_, _) |- _ => injection E as; subst
  | E : Panic _ = Ret _ |- _ => discriminate E
  | E : OutOfFuel = Ret _ |- _ => discriminate E
  | E : context [match ?x with _ => _ end] |- _ => destruct x eqn:?
  end;
  try first [apply same_out_keep_alive | apply same_in_keep_alive]; try reflexivity.

(** ** Driving the inbound substreams *)

Lemma drop_inbound_same now id key h h' : drop_inbound now id key h = Ret h' -> same_out h h'.
Proof. unfold drop_inbound. intros Hr. cases. Qed.

Lemma apply_queued_same id substream h b h' :
  apply_queued_responses id substream h = (b, h') -> same_out h h'.
Proof. unfold apply_queued_responses. intros Hr. cases. Qed.

Lemma expire_inbound_same id h h' : expire_inbound id h = Ret h' -> same_out h h'.
Proof. unfold expire_inbound. intros Hr. cases. Qed.

Lemma purge_inbound_same fuel now h e h' : purge_inbound fuel now h = Ret (e, h') -> same_out h h'.
Proof.
  revert h; induction fuel as [|fuel IH]; intros h; [done|]. cbn [purge_inbound].
  destruct (dq_poll now _) as [[k| | |] q]; try (intros [= _ <-]; done).
  destruct (expire_inbound k _) as [h1| |] eqn:E; [|done..]. cbn [mbind Outcome_bind].
  intros Hr. apply IH in Hr. by rewrite <-Hr, <-(expire_inbound_same _ _ _ E).
Qed.

Lemma drive_inbound_turn_same now id h b e h' :
  drive_inbound_turn now id h = Ret (b, e, h') -> same_out h h'.
Proof.
  unfold drive_inbound_turn, drive_pending_send, drive_pending_flush. intros Hr. cases.
  all: repeat match goal with
    | E : drop_inbound _ _ _ _ = Ret _ |- _ => apply drop_inbound_same in E; exact E
    | E : apply_queued_responses _ _ _ = (_, _) |- _ => apply apply_queued_same in E; exact E
    end.
  all: unfold same_out; by repeat match goal with |- context [if ?b then _ else _] => destruct b end.
Qed.

Lemma drive_inbound_same fuel now id h e h' : drive_inbound fuel now id h = Ret (e, h') -> same_out h h'.
Proof.
  revert h; induction fuel as [|fuel IH]; intros h; [done|]. cbn [drive_inbound].
  destruct (drive_inbound_turn now id h) as [[[b e1] h1]| |] eqn:E; [|done..]. cbn [mbind Outcome_bind].
  apply drive_inbound_turn_same in E. destruct e1; [by intros [= _ <-]|].
  destruct b; [|by intros [= _ <-]]. intros Hr. by rewrite <-(IH _ Hr).
Qed.

Lemma drive_all_inbound_same now ids h e h' : drive_all_inbound now ids h = Ret (e, h') -> same_out h h'.
Proof.
  revert h; induction ids as [|id ids IH]; intros h; cbn [drive_all_inbound]; [by intros [= _ <-]|].
  destruct (drive_inbound _ now id h) as [[e1 h1]| |] eqn:E; [|done..]. cbn [mbind Outcome_bind].
  apply drive_inbound_same in E. destruct e1; [by intros [= _ <-]|]. intros Hr. by rewrite <-(IH _ Hr).
Qed.

(** ** Driving the outbound substreams *)

Lemma purge_outbound_same fuel now h e h' : purge_outbound fuel now h = Ret (e, h') -> same_in h h'.
Proof.
  revert h; induction fuel as [|fuel IH]; intros h; [done|]. cbn [purge_outbound].
  destruct (dq_poll now _) as [[k| | |] q]; try (intros [= _ <-]; done).
  cbn [outbound_substreams set_outbound_substreams_delay].
  destruct (outbound_substreams h !! k) as [info|].
  - intros [= _ <-]. by apply same_in_keep_alive.
  - intros Hr. by rewrite <-(IH _ Hr).
Qed.

Lemma drop_outbound_same now id info h h' : drop_outbound now id info h = Ret h' -> same_in h h'.
Proof. unfold drop_outbound. intros Hr. cases. Qed.

Lemma outbound_chunk_same now id info substream request response h h' :
  outbound_chunk now id info substream request response h = Ret h' -> same_in h h'.
Proof. rewrite outbound_chunk_closes. by intros [= <-]. Qed.

Lemma drive_outbound_same now id h e h' : drive_outbound now id h = Ret (e, h') -> same_in h h'.
Proof.
  unfold drive_outbound, drive_pending_response. intros Hr. cases.
  all: match goal with
    | E : drop_outbound _ _ _ _ = Ret _ |- _ => apply drop_outbound_same in E; exact E
    | E : outbound_chunk _ _ _ _ _ _ _ = Ret _ |- _ => apply outbound_chunk_same in E; exact E
    end.
Qed.

Lemma drive_all_outbound_same now ids h e h' : drive_all_outbound now ids h = Ret (e, h') -> same_in h h'.
Proof.
  revert h; induction ids as [|id ids IH]; intros h; cbn [drive_all_outbound]; [by intros [= _ <-]|].
  destruct (drive_outbound now id h) as [[e1 h1]| |] eqn:E; [|done..]. cbn [mbind Outcome_bind].
  apply drive_outbound_same in E. destruct e1; [by intros [= _ <-]|]. intros Hr. by rewrite <-(IH _ Hr).
Qed.

Lemma dial_next_same now h e h' : dial_next now h = Ret (e, h') -> same_in h h'.
Proof. unfold dial_next. intros Hr. cases. Qed.

(** ** The other calls *)

Lemma send_request_same now id req h : same_in h (send_request now id req h).
Proof. unfold send_request. destruct (state h); try apply same_in_keep_alive; done. Qed.

Lemma report_error_response_same id p response h h' :
  report_error_response id p response h = Ret h' -> same_out h h' /\ same_in h h'.
Proof. unfold report_error_response. intros Hr. split; cases. Qed.

Lemma send_response_same id response h h' : send_response id response h = Ret h' -> same_out h h'.
Proof.
  unfold send_response. intros Hr. cases; try by eapply report_error_response_same.
  all: match goal with E : report_error_response _ _ _ _ = Ret _ |- _ =>
    apply report_error_response_same in E as [E _]; by etransitivity end.
Qed.

Lemma dial_failed_same now info error h h' : dial_failed now info error h = Ret h' -> same_in h h'.
Proof.
  unfold dial_failed. intros Hr. cases.
Qed.

Lemma dial_error_same now info error h h' :
  inject_dial_upgrade_error now info error h = Ret h' -> same_in h h'.
Proof.
  unfold inject_dial_upgrade_error. intros Hr. cases; try by eapply dial_failed_same.
  all: try match goal with E : dial_failed _ _ _ _ = Ret _ |- _ => apply dial_failed_same in E; exact E end.
  all: match goal with |- same_in ?h (send_request ?n ?i ?r ?h1) => exact (send_request_same n i r h1) end.
Qed.

Lemma negotiated_inbound_state now req substream h h' :
  inject_fully_negotiated_inbound now req substream h = Ret h' -> state h' = state h.
Proof.
  intros [[_ ->]|(n & h1 & _ & _ & -> & [[_ ->]|(_ & key & q & _ & ->)])]%negotiated_inbound_cases; [done|..];
    by rewrite (update_keep_alive_frame state).
Qed.

Lemma negotiated_outbound_same now out info h h' :
  inject_fully_negotiated_outbound now out info h = Ret h' ->
  inbound_substreams h' = inbound_substreams h /\ queued_outbound_items h' = queued_outbound_items h /\
  events_out h' = events_out h /\ state h' = state h.
Proof.
  unfold inject_fully_negotiated_outbound. intros Hr. cases.
  all: try by split_and!.
  all: by rewrite ?(update_keep_alive_frame inbound_substreams), ?(update_keep_alive_frame queued_outbound_items),
    ?(update_keep_alive_frame events_out), ?(update_keep_alive_frame state) by done.
Qed.

(** Requests and upgrade errors leave the substreams alone. *)
Definition substreams_of (h : RPCHandler) := (inbound_substreams h, outbound_substreams h, events_out h).

Lemma send_request_substreams now id req h : substreams_of (send_request now id req h) = substreams_of h.
Proof. unfold send_request. destruct (state h); by rewrite ?(update_keep_alive_frame substreams_of). Qed.

Lemma shutdown_substreams now final_msg h : substreams_of (shutdown now final_msg h) = substreams_of h.
Proof.
  unfold shutdown. rewrite (update_keep_alive_frame substreams_of) by done.
  destruct (is_active (state h)); [|done]. by destruct final_msg as [[]|].
Qed.

Lemma dial_error_substreams now info error h h' :
  inject_dial_upgrade_error now info error h = Ret h' -> substreams_of h' = substreams_of h.
Proof.
  assert (Hfailed : forall h1 h', dial_failed now info error h1 = Ret h' -> substreams_of h' = substreams_of h1).
  { intros h1 h2. unfold dial_failed. destruct (sub_w 32 _ 1) as [n| |]; [|done..]. intros [= <-].
    by transitivity (substreams_of (update_keep_alive now (set_dial_negotiated n h1)));
      [|rewrite (update_keep_alive_frame substreams_of)]. }
  unfold inject_dial_upgrade_error. destruct (is_io_error error); [|apply Hfailed].
  destruct (add_w 8 _ 1) as [n| |]; [|done..]. cbn [mbind Outcome_bind].
  case_decide; [intros [= <-]|intros Hr; by rewrite (Hfailed _ _ Hr)].
  by rewrite send_request_substreams.
Qed.

(** The invariant along the phases of a poll. *)
Lemma phase_inv n p event h' : phase_ok n p -> p = Ret (event, h') -> inv h'.
Proof. intros (e & h1 & -> & Hinv & _) [= _ <-]. done. Qed.
End Frames.
