(* ===== verification/RpcShutdown.v ===== *)
(** * A shutdown is final (src/core/network/src/rpc/handler.rs)

    The state of the RPC handler only moves forward: no call, and no phase of
    [poll], makes a handler that is shutting down or deactivated active
    again. *)
From Stdlib Require Import ZArith Strings.String.
From S2P Require Import Prelude RpcMethods RpcProtocol DelayQueue HashSetDelay RpcHandler RpcFrames.

Section Shutdown.
Context `{Streams} `{DelayQueue} `{HashOrder} `{BuildProfile}.

(** ** Calls *)

Definition was_active (h : RPCHandler) : Prop := state h = Active.

(** [h'] is active only if [h] was. *)
Definition no_revival (h h' : RPCHandler) : Prop := was_active h' -> was_active h.

Lemma no_revival_same h h' : state h' = state h -> no_revival h h'.
Proof. unfold no_revival, was_active. by intros ->. Qed.

Lemma no_revival_trans h1 h2 h3 : no_revival h1 h2 -> no_revival h2 h3 -> no_revival h1 h3.
Proof. unfold no_revival. auto. Qed.

Lemma check_shutdown_revival now h : no_revival h (check_shutdown now h).
Proof.
  unfold no_revival, check_shutdown, was_active. destruct (state h) eqn:E; try congruence.
  destruct (is_elapsed now delay); cbn; [done|congruence].
Qed.

Lemma then_phase_revival h p k e h' :
  (forall e1 h1, p = Ret (e1, h1) -> no_revival h h1) ->
  (forall h1 e2 h2, k h1 = Ret (e2, h2) -> no_revival h1 h2) ->
  then_phase p k = Ret (e, h') -> no_revival h h'.
Proof.
  intros Hp Hk. unfold then_phase. destruct p as [[e1 h1]| |]; cbn [mbind Outcome_bind]; [|done..].
  specialize (Hp e1 h1 eq_refl). destruct e1; [by intros [= _ <-]|].
  intros Hr. eapply no_revival_trans; [done|by eapply Hk].
Qed.

Lemma poll_revival now h e h' : poll now h = Ret (e, h') -> no_revival h h'.
Proof.
  unfold poll. apply then_phase_revival.
  { intros e1 h1 [= Hr]. apply no_revival_same. unfold report_errors in Hr.
    by destruct (pending_errors h); injection Hr as _ <-. }
  intros h1 e2 h2. apply then_phase_revival.
  { intros e3 h3 [= Hr]. apply no_revival_same. unfold report_events in Hr.
    by destruct (events_out h1); injection Hr as _ <-. }
  intros h3 e4 h4 Hr. eapply no_revival_trans; [apply (check_shutdown_revival now)|]. revert Hr.
  repeat (apply then_phase_revival; [intros ?? Hr; apply no_revival_same|intros ???];
    [first [apply same_out_state; by eauto using purge_inbound_same, drive_all_inbound_same
           |apply same_in_state; by eauto using purge_outbound_same, drive_all_outbound_same]|]).
  intros Hr. by eapply no_revival_same, same_in_state, dial_next_same.
Qed.

(** No call makes a handler active that was not. *)
Lemma run_call_revival now c h e h' : run_call now c h = Ret (e, h') -> no_revival h h'.
Proof.
  destruct c as [msg|req sub|out info|ev|info err|]; cbn [run_call].
  - intros [= _ <-]. unfold no_revival, was_active, shutdown. rewrite (update_keep_alive_frame state) by done.
    by destruct (state h) eqn:E; cbn; rewrite ?E.
  - destruct (inject_fully_negotiated_inbound now req sub h) eqn:E; [|done..]. intros [= _ <-].
    by eapply no_revival_same, negotiated_inbound_state.
  - destruct (inject_fully_negotiated_outbound now out info h) eqn:E; [|done..]. intros [= _ <-].
    apply no_revival_same. by apply negotiated_outbound_same in E as (_ & _ & _ & E).
  - destruct ev as [id req|id response]; cbn [inject_event].
    + intros [= _ <-]. apply no_revival_same, same_in_state, send_request_same.
    + destruct (send_response id response h) eqn:E; [|done..]. intros [= _ <-].
      by eapply no_revival_same, same_out_state, send_response_same.
  - destruct (inject_dial_upgrade_error now info err h) eqn:E; [|done..]. intros [= _ <-].
    by eapply no_revival_same, same_in_state, dial_error_same.
  - apply poll_revival.
Qed.
End Shutdown.
