(* ===== verification/RpcPending.v ===== *)
(** * Polling the RPC handler until it is pending (src/core/network/src/rpc/handler.rs)

    The swarm polls a handler until it answers [Poll::Pending], or [Close]: then
    it drops the connection.  [work] bounds the events the handler can answer
    before that: every event takes one away from it and no phase adds to it.  [settled] is what a pending handler looks like:
    what it keeps was polled and had nothing to give, so that the handler is
    woken when there is something to do. *)
From Stdlib Require Import ZArith Strings.String.
From S2P Require Import Prelude RpcMethods RpcProtocol DelayQueue RpcHandler RpcFrames.

Open Scope nat_scope.
Open Scope list_scope.

Section Work.
Context `{Streams} `{DelayQueue} `{HashOrder} `{BuildProfile}.

Definition waits (st : OutboundSubstreamState) : bool :=
  match st with RequestPendingResponse _ _ => true | _ => false end.

Definition waiting (info : OutboundInfo) : bool := waits (out_state info).

Definition outbound_work (m : gmap SubstreamId OutboundInfo) : nat := size m + count_values waiting m.

(** What the handler can still report: the errors and events queued, the
    requests to dial, an expiry and a failure for each inbound substream, a
    response and a drop for each outbound one. *)
Definition work (h : RPCHandler) : nat :=
  length (pending_errors h) + length (events_out h) + length (dial_queue h) +
  size (live (inbound_substreams_delay h)) + size (inbound_substreams h) +
  outbound_work (outbound_substreams h).

Definition cost (event : option HandlerEvent) : nat :=
  match event with Some _ => 1 | None => 0 end.

(** A phase pays for its event. *)
Definition pays (h : RPCHandler) (p : Phase) : Prop :=
  forall event h', p = Ret (event, h') -> work h' + cost event <= work h.

Lemma work_keep_alive now h : work (update_keep_alive now h) = work h.
Proof. by apply update_keep_alive_frame. Qed.

(** ** Changing one entry *)

Lemma alter_known {A} (f : A -> A) (m : gmap SubstreamId A) id x :
  m !! id = Some x -> alter f id m = <[id := f x]> m.
Proof.
  intros Hx. apply map_eq. intros j. destruct (decide (j = id)) as [->|Hne].
  - by rewrite lookup_alter_eq, lookup_insert_eq, Hx.
  - by rewrite lookup_alter_ne, lookup_insert_ne.
Qed.

Lemma size_alter {A} (f : A -> A) (m : gmap SubstreamId A) id : size (alter f id m) = size m.
Proof.
  destruct (m !! id) as [x|] eqn:E.
  - rewrite (alter_known f m id x E), map_size_insert_Some; eauto.
  - by rewrite alter_id; [|intros y; congruence].
Qed.

Lemma size_delete {K A} `{Countable K} (m : gmap K A) id x :
  m !! id = Some x -> S (size (delete id m)) = size m.
Proof.
  intros Hx. rewrite map_size_delete_Some by eauto.
  pose proof (map_size_non_empty_iff m) as [_ Hne].
  assert (m <> ∅) as Hm by (intros ->; by rewrite lookup_empty in Hx). specialize (Hne Hm). lia.
Qed.

Lemma outbound_work_alter f (m : gmap SubstreamId OutboundInfo) id info :
  m !! id = Some info ->
  outbound_work (alter f id m) + (if waiting info then 1 else 0) =
  outbound_work m + (if waiting (f info) then 1 else 0).
Proof.
  intros Hi. unfold outbound_work. rewrite size_alter, (alter_known f m id info Hi).
  pose proof (count_values_insert waiting m id (f info)) as Hc. rewrite Hi in Hc. cbn in Hc. lia.
Qed.

Lemma outbound_work_delete (m : gmap SubstreamId OutboundInfo) id info :
  m !! id = Some info -> outbound_work (delete id m) + 1 + (if waiting info then 1 else 0) = outbound_work m.
Proof.
  intros Hi. unfold outbound_work. rewrite <-(size_delete m id info Hi).
  rewrite (count_values_delete waiting m id info Hi). lia.
Qed.

(** Writing the state of a poisoned outbound substream back. *)
Lemma work_set_outbound id st info h :
  outbound_substreams h !! id = Some info ->
  work (set_outbound_state id st (set_outbound_state id OutPoisoned h)) + (if waiting info then 1 else 0) =
  work h + (if waits st then 1 else 0).
Proof.
  intros Hi.
  pose (f s := fun i : OutboundInfo => mkOutboundInfo s (delay_key i) (proto i) (remaining_chunks i) (req_id i)).
  pose proof (outbound_work_alter (f OutPoisoned) _ id info Hi) as Hp.
  assert (Hi' : alter (f OutPoisoned) id (outbound_substreams h) !! id = Some (f OutPoisoned info))
    by (by rewrite lookup_alter_eq, Hi).
  pose proof (outbound_work_alter (f st) _ id _ Hi') as Hs.
  change (waiting (f OutPoisoned info)) with false in *.
  change (waiting (f st (f OutPoisoned info))) with (waits st) in Hs.
  assert (Hw : work (set_outbound_state id st (set_outbound_state id OutPoisoned h)) + outbound_work (outbound_substreams h) =
    work h + outbound_work (alter (f st) id (alter (f OutPoisoned) id (outbound_substreams h))))
    by (unfold work; cbn -[outbound_work]; unfold f; lia).
  lia.
Qed.

Lemma work_set_inbound id st h :
  work (set_inbound_state id st h) = work h.
Proof. unfold work. cbn. by rewrite size_alter. Qed.

Lemma work_push_error e h : work (push_error e h) = S (work h).
Proof. unfold work. cbn. rewrite length_app. cbn. lia. Qed.

(** ** The phases *)

Lemma report_errors_pays h : pays h (mret (report_errors h)).
Proof.
  intros event h' [= Hr]. unfold report_errors in Hr.
  destruct (pending_errors h) eqn:E; injection Hr as <- <-; unfold work; cbn; rewrite ?E; cbn; lia.
Qed.

Lemma report_events_pays h : pays h (mret (report_events h)).
Proof.
  intros event h' [= Hr]. unfold report_events in Hr.
  destruct (events_out h) eqn:E; injection Hr as <- <-; unfold work; cbn; rewrite ?E; cbn; lia.
Qed.

Lemma check_shutdown_work now h : work (check_shutdown now h) = work h.
Proof. unfold check_shutdown. destruct (state h); try done. by destruct (is_elapsed _ _). Qed.

Lemma dial_next_pays now h : pays h (dial_next now h).
Proof.
  intros event h'. unfold dial_next. destruct (dial_queue h) as [|[id req] rest] eqn:E.
  - intros [= <- <-]. cbn. lia.
  - case_decide; [|intros [= <- <-]; cbn; lia].
    destruct (add_w 32 _ 1) as [n| |]; [|done..]. cbn -[update_keep_alive]. intros [= <- <-].
    rewrite work_keep_alive. unfold work. cbn. rewrite E. cbn. lia.
Qed.

Lemma then_phase_pays h p (k : RPCHandler -> Phase) :
  pays h p -> (forall h1, p = Ret (None, h1) -> pays h1 (k h1)) -> pays h (then_phase p k).
Proof.
  intros Hp Hk event h'. unfold then_phase. destruct p as [[e1 h1]| |]; [|done..].
  cbn [mbind Outcome_bind]. specialize (Hp e1 h1 eq_refl). destruct e1 as [e1|].
  - by intros [= <- <-].
  - intros Hr. specialize (Hk h1 eq_refl event h' Hr). cbn in Hp. lia.
Qed.

Context `{!DelayQueueLaws} `{!DelayQueueAlive}.

Lemma expire_inbound_work id h h' : expire_inbound id h = Ret h' -> work h' <= S (work h).
Proof.
  unfold expire_inbound. destruct (inbound_substreams h !! id) as [[[st ko] p]|] eqn:E; [|intros [= <-]; lia].
  destruct (close st _) as [[st' queue]| |]; [|done..]. cbn [mbind Outcome_bind]. intros [= <-].
  unfold work. cbn. rewrite length_app, map_size_insert_Some by eauto. cbn. lia.
Qed.

Lemma purge_inbound_pays fuel now h : pays h (purge_inbound fuel now h).
Proof.
  revert h; induction fuel as [|fuel IH]; intros h event h'; [done|]. cbn [purge_inbound].
  destruct (dq_poll now (inbound_substreams_delay h)) as [r q] eqn:E.
  assert (Hsame : live q = live (inbound_substreams_delay h) ->
    work (set_inbound_substreams_delay q h) = work h) by (unfold work; cbn; by intros ->).
  pose proof (dq_poll_live _ _ _ _ _ E) as Hl. destruct r as [k|e| |].
  - destruct (expire_inbound k _) as [h1| |] eqn:Ex; [|done..]. cbn [mbind Outcome_bind]. intros Hr.
    apply IH in Hr. apply expire_inbound_work in Ex. apply size_poll_expired in E.
    assert (S (work (set_inbound_substreams_delay q h)) = work h) by (unfold work; cbn; lia). lia.
  - by apply dq_poll_alive in E.
  - destruct Hl as [_ Hl]. intros [= <- <-]. rewrite Hsame by done. cbn. lia.
  - intros [= <- <-]. rewrite Hsame by done. cbn. lia.
Qed.

Lemma purge_outbound_pays fuel now h : pays h (purge_outbound fuel now h).
Proof.
  revert h; induction fuel as [|fuel IH]; intros h event h'; [done|]. cbn [purge_outbound].
  destruct (dq_poll now (outbound_substreams_delay h)) as [r q] eqn:E. destruct r as [k|e| |].
  - cbn [outbound_substreams set_outbound_substreams_delay].
    destruct (outbound_substreams h !! k) as [info|] eqn:Ei; [|intros Hr; by apply IH in Hr].
    intros [= <- <-]. rewrite work_keep_alive. unfold work. cbn.
    pose proof (outbound_work_delete _ _ _ Ei). lia.
  - by apply dq_poll_alive in E.
  - intros [= <- <-]. unfold work. cbn. lia.
  - intros [= <- <-]. unfold work. cbn. lia.
Qed.

(** Dropping an inbound substream takes it away with its timer, if any. *)
Lemma drop_inbound_work now id st ko p h h' :
  inv h -> inbound_substreams h !! id = Some (st, ko, p) ->
  drop_inbound now id ko (set_inbound_state id InPoisoned h) = Ret h' -> work h' < work h.
Proof.
  intros Hinv He. pose proof (inv_inbound _ Hinv id _ He) as (_ & _ & Hkey). cbn in Hkey.
  assert (He' : inbound_substreams (set_inbound_state id InPoisoned h) !! id =
    Some (with_inbound_state InPoisoned (st, ko, p))) by (cbn; by rewrite lookup_alter_eq, He).
  pose proof (size_delete _ _ _ He') as Hs.
  unfold drop_inbound. destruct ko as [key|]; cbn [mbind Outcome_bind mret Outcome_ret].
  - destruct Hkey as [t Ht].
    destruct (dq_remove_live _ key (inbound_substreams_delay h)) as (q & Hq & Hl); [eauto|].
    cbn -[update_keep_alive]. rewrite Hq. cbn -[update_keep_alive]. intros [= <-].
    rewrite work_keep_alive. unfold work. cbn in *. rewrite Hl. rewrite size_alter in Hs.
    pose proof (size_delete _ _ _ Ht). lia.
  - intros [= <-]. rewrite work_keep_alive. unfold work. cbn in *. rewrite size_alter in Hs. lia.
Qed.

Lemma drive_inbound_turn_pays now id e h further event h' :
  inv h -> inbound_substreams h !! id = Some e ->
  drive_inbound_turn now id h = Ret (further, event, h') -> work h' + cost event <= work h.
Proof.
  intros Hinv He. pose proof (inv_inbound _ Hinv id e He) as (_ & Hst & _).
  destruct e as [[st ko] p]. unfold drive_inbound_turn. rewrite He. cbn in Hst.
  assert (Hset : forall st', work (set_inbound_state id st' (set_inbound_state id InPoisoned h)) + 0 <= work h)
    by (intros st'; rewrite !work_set_inbound; lia).
  destruct st as [substream message closing|substream closing|substream|substream|]; cbn in Hst; [| | | |done].
  - subst closing. unfold drive_pending_send. cbn [state set_inbound_state set_inbound_substreams].
    destruct (is_deactivated (state h)); [intros [= _ <- <-]; apply Hset|].
    destruct (in_poll_ready substream) as [[[[]|er]|] s1].
    + destruct (in_start_send message s1) as [[[]|er] s2]; intros [= _ <- <-]; apply Hset.
    + intros [= _ <- <-]. rewrite work_keep_alive. unfold work. cbn.
      assert (He' : alter (with_inbound_state InPoisoned) id (inbound_substreams h) !! id =
        Some (with_inbound_state InPoisoned (ResponsePendingSend substream message true, ko, p)))
        by (by rewrite lookup_alter_eq, He).
      pose proof (size_delete _ _ _ He') as Hs. rewrite size_alter in Hs. lia.
    + intros [= _ <- <-]. apply Hset.
  - subst closing. unfold drive_pending_flush. destruct (in_poll_flush substream) as [[[[]|er]|] s1]; cbn [orb].
    + intros [= _ <- <-]. apply Hset.
    + destruct (drop_inbound _ _ _ _) as [h1| |] eqn:Ed; [|done..]. intros [= _ <- <-].
      apply (drop_inbound_work now id _ ko p h h1 Hinv He) in Ed. cbn. lia.
    + intros [= _ <- <-]. apply Hset.
  - cbn [state set_inbound_state set_inbound_substreams]. destruct (is_deactivated (state h)).
    + intros [= _ <- <-]. apply Hset.
    + rewrite apply_queued_idle by done. intros [= _ <- <-]. apply Hset.
  - destruct (in_poll_close substream) as [[r|] s1].
    + destruct (drop_inbound _ _ _ _) as [h1| |] eqn:Ed; [|done..]. intros [= _ <- <-].
      apply (drop_inbound_work now id _ ko p h h1 Hinv He) in Ed. cbn. lia.
    + intros [= _ <- <-]. apply Hset.
Qed.

Lemma drive_inbound_pays fuel now id e h :
  inv h -> inbound_substreams h !! id = Some e -> pays h (drive_inbound fuel now id h).
Proof.
  revert e h; induction fuel as [|fuel IH]; intros e h Hinv He event h'; [done|]. cbn [drive_inbound].
  destruct (drive_inbound_turn_ok now id e h Hinv He) as (further & ev & h1 & Hr & Hinv1 & _ & _ & _ & Hf).
  pose proof (drive_inbound_turn_pays now id e h _ _ _ Hinv He Hr) as Hp. rewrite Hr. cbn [mbind Outcome_bind].
  destruct ev as [ev|]; [by intros [= <- <-]|].
  destruct further; [|by intros [= <- <-]].
  destruct (Hf eq_refl) as (_ & st' & He' & _). intros Hrun. apply (IH _ h1 Hinv1 He') in Hrun. cbn in Hp. lia.
Qed.

Lemma drive_all_inbound_pays now ids h :
  inv h -> NoDup ids -> (forall id, id ∈ ids -> is_Some (inbound_substreams h !! id)) ->
  pays h (drive_all_inbound now ids h).
Proof.
  revert h; induction ids as [|id ids IH]; intros h Hinv Hnd Hids event h';
    [intros [= <- <-]; cbn; lia|].
  apply NoDup_cons in Hnd as [Hni Hnd]. cbn [drive_all_inbound].
  destruct (Hids id) as [e He]; [left|].
  destruct (drive_inbound_ok (drive_fuel id h) now id e h Hinv He) as (ev & h1 & Hr & Hinv1 & _ & Ho).
  { pose proof (rank_le e.1.1). unfold drive_fuel. lia. }
  pose proof (drive_inbound_pays _ now id e h Hinv He _ _ Hr) as Hp. rewrite Hr. cbn [mbind Outcome_bind].
  destruct ev as [ev|]; [by intros [= <- <-]|]. intros Hrun. apply IH in Hrun; [cbn in Hp; lia|done|done|].
  intros j Hj. rewrite Ho; [apply Hids; by right|]. by intros ->.
Qed.

Lemma delete_altered {A} (f : A -> A) (m : gmap SubstreamId A) id : delete id (alter f id m) = delete id m.
Proof.
  apply map_eq. intros j. destruct (decide (j = id)) as [->|Hne].
  - by rewrite !lookup_delete_eq.
  - by rewrite !lookup_delete_ne, lookup_alter_ne.
Qed.

Lemma drop_outbound_work now id info h h' :
  outbound_substreams h !! id = Some info ->
  drop_outbound now id info (set_outbound_state id OutPoisoned h) = Ret h' -> work h' < work h.
Proof.
  intros He. unfold drop_outbound. destruct (dq_remove _ _) as [q| |]; [|done..].
  cbn -[update_keep_alive]. intros [= <-]. rewrite work_keep_alive. unfold work. cbn.
  rewrite delete_altered. pose proof (outbound_work_delete _ _ _ He). lia.
Qed.

Lemma drive_outbound_pays now id info h :
  outbound_substreams h !! id = Some info -> pays h (drive_outbound now id h).
Proof.
  intros He event h'. unfold drive_outbound. rewrite He.
  pose proof (fun st => work_set_outbound id st info h He) as Hset. unfold waiting in Hset.
  destruct (out_state info) as [substream request|substream|]; [| |done]; cbn [waits] in Hset.
  - cbn [state set_outbound_state set_outbound_substreams]. destruct (is_deactivated (state h)).
    + intros [= <- <-]. rewrite work_push_error. specialize (Hset (OutClosing substream)). cbn in *. lia.
    + unfold drive_pending_response. destruct (out_poll_next substream) as [[[[response|e]|]|] s1].
      * rewrite outbound_chunk_closes. cbn [mbind Outcome_bind].
        destruct (received_response info response); [|done..]. intros [= <- <-].
        specialize (Hset (OutClosing s1)). cbn [waits cost] in *. lia.
      * destruct (drop_outbound _ _ _ _) as [h1| |] eqn:Ed; [|done..]. intros [= <- <-].
        apply (drop_outbound_work now id info h h1 He) in Ed. cbn. lia.
      * destruct (drop_outbound _ _ _ _) as [h1| |] eqn:Ed; [|done..]. intros [= <- <-].
        apply (drop_outbound_work now id info h h1 He) in Ed. cbn. lia.
      * intros [= <- <-]. specialize (Hset (RequestPendingResponse s1 request)). cbn [waits cost] in *. lia.
  - destruct (out_poll_close substream) as [[r|] s1].
    + destruct (drop_outbound _ _ _ _) as [h1| |] eqn:Ed; [|done..]. intros [= <- <-].
      apply (drop_outbound_work now id info h h1 He) in Ed. cbn. lia.
    + intros [= <- <-]. specialize (Hset (OutClosing s1)). cbn [waits cost] in *. lia.
Qed.

Lemma drive_all_outbound_pays now ids h :
  inv h -> NoDup ids -> (forall id, id ∈ ids -> is_Some (outbound_substreams h !! id)) ->
  pays h (drive_all_outbound now ids h).
Proof.
  revert h; induction ids as [|id ids IH]; intros h Hinv Hnd Hids event h';
    [intros [= <- <-]; cbn; lia|].
  apply NoDup_cons in Hnd as [Hni Hnd]. cbn [drive_all_outbound].
  destruct (Hids id) as [info He]; [left|].
  destruct (drive_outbound_ok now id info h Hinv He) as (ev & h1 & Hr & _ & Hinv1 & _ & Ho).
  pose proof (drive_outbound_pays now id info h He _ _ Hr) as Hp. rewrite Hr. cbn [mbind Outcome_bind].
  destruct ev as [ev|]; [by intros [= <- <-]|]. intros Hrun. apply IH in Hrun; [cbn in Hp; lia|done|done|].
  intros j Hj. rewrite Ho; [apply Hids; by right|]. by intros ->.
Qed.

Lemma poll_pays now h : inv h -> pays h (poll now h).
Proof.
  intros Hinv. unfold poll.
  apply then_phase_pays; [apply report_errors_pays|intros h1 Hr1].
  pose proof (phase_inv _ _ _ _ (report_errors_ok h Hinv) Hr1) as Hi1.
  apply then_phase_pays; [apply report_events_pays|intros h2 Hr2].
  pose proof (phase_inv _ _ _ _ (report_events_ok h1 Hi1) Hr2) as Hi2.
  pose proof (inv_check_shutdown now h2 Hi2) as Hi3. cbv zeta.
  intros event h'. rewrite <-(check_shutdown_work now h2). revert event h'.
  set (h3 := check_shutdown now h2) in *. change (pays h3 (then_phase
    (purge_inbound (S (size (live (inbound_substreams_delay h3)))) now h3) (fun h =>
  then_phase (purge_outbound (S (size (live (outbound_substreams_delay h)))) now h) (fun h =>
  then_phase (drive_all_inbound now (hm_keys (inbound_substreams h)) h) (fun h =>
  then_phase (drive_all_outbound now (hm_keys (outbound_substreams h)) h) (dial_next now)))))).
  apply then_phase_pays; [apply purge_inbound_pays|intros h4 Hr4].
  pose proof (phase_inv _ _ _ _ (purge_inbound_ok _ now h3 Hi3 (Nat.lt_succ_diag_r _)) Hr4) as Hi4.
  apply then_phase_pays; [apply purge_outbound_pays|intros h5 Hr5].
  pose proof (phase_inv _ _ _ _ (purge_outbound_ok _ now h4 Hi4 (Nat.lt_succ_diag_r _)) Hr5) as Hi5.
  apply then_phase_pays; [apply drive_all_inbound_pays; [done|apply NoDup_hm_keys|]|intros h6 Hr6].
  { intros id. by rewrite elem_of_hm_keys. }
  assert (Hi6 : inv h6).
  { destruct (drive_all_inbound_ok now (hm_keys (inbound_substreams h5)) h5 Hi5) as (e & h7 & Hr & Hinv' & _);
      [apply NoDup_hm_keys|intros id; by rewrite elem_of_hm_keys|congruence]. }
  apply then_phase_pays; [apply drive_all_outbound_pays; [done|apply NoDup_hm_keys|]|].
  { intros id. by rewrite elem_of_hm_keys. }
  intros h7 _. apply dial_next_pays.
Qed.
End Work.

Section Settled.
Context `{Streams} `{DelayQueue} `{HashOrder} `{BuildProfile}.

(** ** What waits *)

(** The socket of the substream was polled and is pending, or the substream
    waits for a response that is not there yet. *)
Definition inbound_asleep (h : RPCHandler) (id : SubstreamId) (st : InboundSubstreamState) : Prop :=
  match st with
  | ResponsePendingSend s _ _ => exists s0, in_poll_ready s0 = (Pending, s)
  | ResponsePendingFlush s _ => exists s0, in_poll_flush s0 = (Pending, s)
  | ResponseIdle _ => default [] (queued_outbound_items h !! id) = [] /\ is_deactivated (state h) = false
  | InClosing s => exists s0, in_poll_close s0 = (Pending, s)
  | InPoisoned => False
  end.

(** The same of an outbound substream; one that was just given up is closed by
    the next poll, which there will be, since its error is waiting. *)
Definition outbound_asleep (h : RPCHandler) (info : OutboundInfo) : Prop :=
  match out_state info with
  | RequestPendingResponse s _ =>
    (exists s0, out_poll_next s0 = (Pending, s)) /\ is_deactivated (state h) = false
  | OutClosing s =>
    (exists s0, out_poll_close s0 = (Pending, s)) \/
    (is_deactivated (state h) = true /\
     Outbound_err (req_id info) (proto info) HandlerRejected ∈ pending_errors h)
  | OutPoisoned => False
  end.

(** The errors a poll can find and leave for the next one. *)
Definition found_late (h : RPCHandler) (err : HandlerErr) : Prop :=
  (exists id p, err = Inbound_err id p StreamTimeout) \/
  (is_deactivated (state h) = true /\ exists id p, err = Outbound_err id p HandlerRejected).

Record settled (now : Instant) (h : RPCHandler) : Prop := {
  settled_events : events_out h = [];
  settled_errors : Forall (found_late h) (pending_errors h);
  settled_shutdown : forall delay, state h = ShuttingDown delay -> is_elapsed now delay = false;
  settled_inbound : map_Forall (fun id e => inbound_asleep h id e.1.1) (inbound_substreams h);
  settled_outbound : map_Forall (fun _ info => outbound_asleep h info) (outbound_substreams h);
  settled_dials : dial_queue h = [] \/ (max_dial_negotiated h <= dial_negotiated h)%Z;
}.

Lemma then_phase_none p k h' :
  then_phase p k = Ret (None, h') -> exists h1, p = Ret (None, h1) /\ k h1 = Ret (None, h').
Proof.
  unfold then_phase. destruct p as [[[e|] h1]| |]; [done| |done..]. cbn. intros Hr. by exists h1.
Qed.

(** ** The inbound substreams *)

Context `{!DelayQueueLaws}.

Lemma drop_inbound_frame now id ko h h' :
  drop_inbound now id ko h = Ret h' ->
  pending_errors h' = pending_errors h /\
  queued_outbound_items h' = delete id (queued_outbound_items h) /\
  inbound_substreams h' = delete id (inbound_substreams h).
Proof.
  unfold drop_inbound. destruct ko as [key|]; cbn -[update_keep_alive].
  - destruct (dq_remove key _) as [q| |]; [|done..]. cbn -[update_keep_alive]. intros [= <-].
    by rewrite (update_keep_alive_frame pending_errors), (update_keep_alive_frame queued_outbound_items),
      (update_keep_alive_frame inbound_substreams).
  - intros [= <-].
    by rewrite (update_keep_alive_frame pending_errors), (update_keep_alive_frame queued_outbound_items),
      (update_keep_alive_frame inbound_substreams).
Qed.

(** What a turn does besides moving its substream. *)
Definition turn_leaves (id : SubstreamId) (h : RPCHandler) (further : bool) (event : option HandlerEvent)
    (h' : RPCHandler) : Prop :=
  pending_errors h' = pending_errors h /\
  (forall j, j <> id -> queued_outbound_items h' !! j = queued_outbound_items h !! j) /\
  (further = false -> event = None ->
   forall e', inbound_substreams h' !! id = Some e' -> inbound_asleep h' id e'.1.1).

Lemma turn_leaves_set id e st h further :
  inbound_substreams h !! id = Some e -> (further = false -> inbound_asleep h id st) ->
  turn_leaves id h further None (set_inbound_state id st (set_inbound_state id InPoisoned h)).
Proof.
  intros He Hst. split; [done|]. split; [done|]. intros Hf _ e'. cbn. rewrite !lookup_alter_eq, He. cbn.
  intros [= <-]. by apply Hst.
Qed.

Lemma turn_leaves_drop now id ko h h' :
  drop_inbound now id ko (set_inbound_state id InPoisoned h) = Ret h' -> turn_leaves id h false None h'.
Proof.
  intros (He & Hq & Hi)%drop_inbound_frame. split; [done|]. split.
  - intros j Hne. rewrite Hq. by apply lookup_delete_ne.
  - intros _ _ e'. rewrite Hi. by rewrite lookup_delete_eq.
Qed.

Lemma drive_inbound_turn_leaves now id e h further event h' :
  inv h -> inbound_substreams h !! id = Some e ->
  drive_inbound_turn now id h = Ret (further, event, h') -> turn_leaves id h further event h'.
Proof.
  intros Hinv He. pose proof (inv_inbound _ Hinv id e He) as (_ & Hst & _).
  destruct e as [[st ko] p]. unfold drive_inbound_turn. rewrite He. cbn in Hst.
  pose proof (fun st' further' => turn_leaves_set id _ st' h further' He) as Hset.
  destruct st as [substream message closing|substream closing|substream|substream|]; cbn in Hst; [| | | |done].
  - subst closing. unfold drive_pending_send. cbn [state set_inbound_state set_inbound_substreams].
    destruct (is_deactivated (state h)); [intros [= <- <- <-]; by apply Hset|].
    destruct (in_poll_ready substream) as [[[[]|er]|] s1] eqn:Es.
    + destruct (in_start_send message s1) as [[[]|er] s2]; intros [= <- <- <-]; by apply Hset.
    + intros [= <- <- <-]. split; [by rewrite (update_keep_alive_frame pending_errors)|]. split; [|done].
      by rewrite (update_keep_alive_frame queued_outbound_items).
    + intros [= <- <- <-]. apply Hset. intros _. by exists substream.
  - subst closing. unfold drive_pending_flush. destruct (in_poll_flush substream) as [[[[]|er]|] s1] eqn:Es; cbn [orb].
    + intros [= <- <- <-]. by apply Hset.
    + destruct (drop_inbound _ _ _ _) as [h1| |] eqn:Ed; [|done..]. intros [= <- <- <-].
      by eapply turn_leaves_drop.
    + intros [= <- <- <-]. apply Hset. intros _. by exists substream.
  - cbn [state set_inbound_state set_inbound_substreams]. destruct (is_deactivated (state h)) eqn:Ed.
    + intros [= <- <- <-]. by apply Hset.
    + rewrite apply_queued_idle by done. intros [= <- <- <-]. by apply Hset.
  - destruct (in_poll_close substream) as [[r|] s1] eqn:Es.
    + destruct (drop_inbound _ _ _ _) as [h1| |] eqn:Ed; [|done..]. intros [= <- <- <-].
      by eapply turn_leaves_drop.
    + intros [= <- <- <-]. apply Hset. intros _. by exists substream.
Qed.

Lemma drive_inbound_leaves fuel now id e h h' :
  inv h -> inbound_substreams h !! id = Some e -> drive_inbound fuel now id h = Ret (None, h') ->
  turn_leaves id h false None h'.
Proof.
  revert e h; induction fuel as [|fuel IH]; intros e h Hinv He; [done|]. cbn [drive_inbound].
  destruct (drive_inbound_turn_ok now id e h Hinv He) as (further & ev & h1 & Hr & Hinv1 & _ & _ & _ & Hf).
  pose proof (drive_inbound_turn_leaves now id e h _ _ _ Hinv He Hr) as Hl. rewrite Hr. cbn [mbind Outcome_bind].
  destruct ev as [ev|]; [done|]. destruct further; [|by intros [= <-]].
  destruct (Hf eq_refl) as (_ & st' & He' & _). intros Hrun.
  destruct (IH _ h1 Hinv1 He' Hrun) as (Hp' & Hq' & Ha'). destruct Hl as (Hp & Hq & _).
  split; [congruence|]. split; [|done]. intros j Hne. by rewrite Hq', Hq.
Qed.

Lemma inbound_asleep_same h h' id st :
  queued_outbound_items h' !! id = queued_outbound_items h !! id -> state h' = state h ->
  inbound_asleep h id st -> inbound_asleep h' id st.
Proof. intros Hq Hs. destruct st; cbn; by rewrite ?Hq, ?Hs. Qed.

(** After the loop every substream it has visited is asleep; the others are as
    they were. *)
Lemma drive_all_inbound_leaves now ids h h' :
  inv h -> NoDup ids -> (forall id, id ∈ ids -> is_Some (inbound_substreams h !! id)) ->
  drive_all_inbound now ids h = Ret (None, h') ->
  pending_errors h' = pending_errors h /\
  (forall j, j ∉ ids -> inbound_substreams h' !! j = inbound_substreams h !! j /\
     queued_outbound_items h' !! j = queued_outbound_items h !! j) /\
  forall id e, id ∈ ids -> inbound_substreams h' !! id = Some e -> inbound_asleep h' id e.1.1.
Proof.
  revert h; induction ids as [|id ids IH]; intros h Hinv Hnd Hids.
  { intros [= <-]. split; [done|]. split; [done|]. by intros id e Hin%not_elem_of_nil. }
  apply NoDup_cons in Hnd as [Hni Hnd]. cbn [drive_all_inbound].
  destruct (Hids id) as [e0 He0]; [left|].
  destruct (drive_inbound_ok (drive_fuel id h) now id e0 h Hinv He0) as (ev & h1 & Hr & Hinv1 & _ & Ho).
  { pose proof (rank_le e0.1.1). unfold drive_fuel. lia. }
  rewrite Hr. cbn [mbind Outcome_bind]. destruct ev as [ev|]; [done|]. intros Hrun.
  destruct (drive_inbound_leaves _ now id e0 h h1 Hinv He0 Hr) as (Hp & Hq & Ha).
  pose proof (same_out_state _ _ (drive_all_inbound_same _ _ _ _ _ Hrun)) as Hst.
  destruct (IH h1 Hinv1 Hnd) as (Hp' & Hl' & Ha'); [|done|].
  { intros j Hj. rewrite Ho; [apply Hids; by right|]. by intros ->. }
  split; [congruence|]. split.
  - intros j [Hne Hj]%not_elem_of_cons. destruct (Hl' j Hj) as [-> ->]. by rewrite Ho, Hq.
  - intros j e [->|Hj]%elem_of_cons He; [|by apply Ha']. destruct (Hl' id Hni) as [Hi' Hq'].
    eapply inbound_asleep_same; [done|done|]. apply Ha; [done|done|]. by rewrite <-Hi'.
Qed.

(** ** The outbound substreams *)

Lemma drop_outbound_frame now id info h h' :
  drop_outbound now id info h = Ret h' ->
  pending_errors h' = pending_errors h /\ outbound_substreams h' = delete id (outbound_substreams h).
Proof.
  unfold drop_outbound. destruct (dq_remove _ _) as [q| |]; [|done..]. cbn -[update_keep_alive]. intros [= <-].
  by rewrite (update_keep_alive_frame pending_errors), (update_keep_alive_frame outbound_substreams).
Qed.

(** What driving an outbound substream does besides moving it: errors are
    added only in a handler that is deactivated. *)
Definition drive_leaves (h h' : RPCHandler) : Prop :=
  exists errs, pending_errors h' = pending_errors h ++ errs /\
    Forall (fun err => is_deactivated (state h) = true /\ exists id p, err = Outbound_err id p HandlerRejected) errs.

Lemma drive_leaves_none h h' : pending_errors h' = pending_errors h -> drive_leaves h h'.
Proof. intros Hp. exists []. rewrite app_nil_r. by split. Qed.

Lemma lookup_set_outbound id st info h info' :
  outbound_substreams h !! id = Some info ->
  outbound_substreams (set_outbound_state id st (set_outbound_state id OutPoisoned h)) !! id = Some info' ->
  info' = mkOutboundInfo st (delay_key info) (proto info) (remaining_chunks info) (req_id info).
Proof. cbn. rewrite !lookup_alter_eq. intros ->. cbn. by intros [= <-]. Qed.

Lemma drive_outbound_leaves now id info h h' :
  outbound_substreams h !! id = Some info -> drive_outbound now id h = Ret (None, h') ->
  drive_leaves h h' /\ forall info', outbound_substreams h' !! id = Some info' -> outbound_asleep h' info'.
Proof.
  intros He. unfold drive_outbound. rewrite He.
  pose proof (fun st info' => lookup_set_outbound id st info h info' He) as Hset.
  destruct (out_state info) as [substream request|substream|]; [| |done].
  - cbn [state set_outbound_state set_outbound_substreams]. destruct (is_deactivated (state h)) eqn:Ed.
    + intros [= <-]. split.
      * eexists. split; [reflexivity|]. constructor; [by eauto|constructor].
      * intros info' ->%Hset. right. split; [done|]. cbn. rewrite elem_of_app. right. by left.
    + unfold drive_pending_response. destruct (out_poll_next substream) as [[[[response|e]|]|] s1] eqn:Es.
      * rewrite outbound_chunk_closes. cbn [mbind Outcome_bind]. by destruct (received_response info response).
      * by destruct (drop_outbound _ _ _ _).
      * by destruct (drop_outbound _ _ _ _).
      * intros [= <-]. split; [by apply drive_leaves_none|]. intros info' ->%Hset. split; [by exists substream|done].
  - destruct (out_poll_close substream) as [[r|] s1] eqn:Es.
    + destruct (drop_outbound _ _ _ _) as [h1| |] eqn:Ed; [|done..]. intros [= <-].
      apply drop_outbound_frame in Ed as [Hp Ho]. split; [by apply drive_leaves_none|].
      intros info'. by rewrite Ho, lookup_delete_eq.
    + intros [= <-]. split; [by apply drive_leaves_none|]. intros info' ->%Hset. left. by exists substream.
Qed.

Lemma drive_leaves_trans h1 h2 h3 :
  state h2 = state h1 -> drive_leaves h1 h2 -> drive_leaves h2 h3 -> drive_leaves h1 h3.
Proof.
  intros Hs (e1 & Hp1 & Hf1) (e2 & Hp2 & Hf2). rewrite Hs in Hf2. exists (e1 ++ e2).
  split; [by rewrite Hp2, Hp1, app_assoc|by apply Forall_app].
Qed.

Lemma outbound_asleep_same h h' info :
  state h' = state h -> drive_leaves h h' -> outbound_asleep h info -> outbound_asleep h' info.
Proof.
  intros Hs (errs & Hp & _). unfold outbound_asleep. rewrite Hs, Hp. destruct (out_state info); [done| |done].
  intros [Hc|[Hd Hin]]; [by left|]. right. split; [done|]. rewrite elem_of_app. by left.
Qed.

Lemma drive_all_outbound_leaves now ids h h' :
  inv h -> NoDup ids -> (forall id, id ∈ ids -> is_Some (outbound_substreams h !! id)) ->
  drive_all_outbound now ids h = Ret (None, h') ->
  drive_leaves h h' /\
  (forall j, j ∉ ids -> outbound_substreams h' !! j = outbound_substreams h !! j) /\
  forall id info, id ∈ ids -> outbound_substreams h' !! id = Some info -> outbound_asleep h' info.
Proof.
  revert h; induction ids as [|id ids IH]; intros h Hinv Hnd Hids.
  { intros [= <-]. split; [by apply drive_leaves_none|]. split; [done|]. by intros id e Hin%not_elem_of_nil. }
  apply NoDup_cons in Hnd as [Hni Hnd]. cbn [drive_all_outbound].
  destruct (Hids id) as [info0 He0]; [left|].
  destruct (drive_outbound_ok now id info0 h Hinv He0) as (ev & h1 & Hr & _ & Hinv1 & _ & Ho).
  pose proof Hr as Hs%drive_outbound_same%same_in_state.
  rewrite Hr. cbn [mbind Outcome_bind]. destruct ev as [ev|]; [done|]. intros Hrun.
  destruct (drive_outbound_leaves now id info0 h h1 He0 Hr) as [Hl Ha].
  pose proof Hrun as Hs'%drive_all_outbound_same%same_in_state.
  destruct (IH h1 Hinv1 Hnd) as (Hl' & Hk' & Ha'); [|done|].
  { intros j Hj. rewrite Ho; [apply Hids; by right|]. by intros ->. }
  split; [by eapply drive_leaves_trans|]. split.
  - intros j [Hne Hj]%not_elem_of_cons. by rewrite Hk', Ho.
  - intros j info [->|Hj]%elem_of_cons He; [|by eapply Ha'].
    eapply outbound_asleep_same; [done|done|]. apply Ha. by rewrite <-Hk'.
Qed.

(** ** The timers *)

Definition timed_out (err : HandlerErr) : Prop := exists id p, err = Inbound_err id p StreamTimeout.

Lemma expire_inbound_errors id h h' :
  Forall timed_out (pending_errors h) -> expire_inbound id h = Ret h' -> Forall timed_out (pending_errors h').
Proof.
  intros Hf. unfold expire_inbound. destruct (inbound_substreams h !! id) as [[[st ko] p]|]; [|by intros [= <-]].
  destruct (close st _) as [[st' queue]| |]; [|done..]. cbn. intros [= <-]. cbn.
  apply Forall_app. split; [done|]. constructor; [by exists id, p|constructor].
Qed.

Lemma purge_inbound_errors fuel now h e h' :
  Forall timed_out (pending_errors h) -> purge_inbound fuel now h = Ret (e, h') ->
  Forall timed_out (pending_errors h').
Proof.
  revert h; induction fuel as [|fuel IH]; intros h Hf; [done|]. cbn [purge_inbound].
  destruct (dq_poll now _) as [[k| | |] q]; try (intros [= _ <-]; done).
  destruct (expire_inbound k _) as [h1| |] eqn:Ex; [|done..]. cbn [mbind Outcome_bind].
  apply IH. exact (expire_inbound_errors k (set_inbound_substreams_delay q h) h1 Hf Ex).
Qed.

Lemma purge_outbound_errors fuel now h h' :
  purge_outbound fuel now h = Ret (None, h') -> pending_errors h' = pending_errors h.
Proof.
  revert h; induction fuel as [|fuel IH]; intros h; [done|]. cbn [purge_outbound].
  destruct (dq_poll now _) as [[k| | |] q]; try (intros [= <-]; done).
  cbn [outbound_substreams set_outbound_substreams_delay]. destruct (outbound_substreams h !! k); [done|].
  intros Hr. by rewrite (IH _ Hr).
Qed.

(** ** A pending poll *)

Lemma shutdown_checked now h delay :
  state (check_shutdown now h) = ShuttingDown delay -> is_elapsed now delay = false.
Proof.
  unfold check_shutdown. destruct (state h) as [|d|] eqn:E; rewrite ?E; try done.
  destruct (is_elapsed now d) eqn:Ee; cbn; rewrite ?E; [done|]. by intros [= <-].
Qed.

Lemma report_none h h1 h2 :
  report_errors h = (None, h1) -> report_events h1 = (None, h2) ->
  h2 = h /\ pending_errors h = [] /\ events_out h = [].
Proof.
  unfold report_errors, report_events. destruct (pending_errors h) eqn:E1; [|done]. intros [= <-].
  destruct (events_out h) eqn:E2; [|done]. by intros [= <-].
Qed.

Lemma dial_next_none now h h' :
  dial_next now h = Ret (None, h') ->
  h' = h /\ (dial_queue h = [] \/ (max_dial_negotiated h <= dial_negotiated h)%Z).
Proof.
  unfold dial_next. destruct (dial_queue h) as [|[id req] rest]; [intros [= <-]; by split; [|left]|].
  case_decide as Hd; [by destruct (add_w 32 _ 1)|]. intros [= <-]. split; [done|]. right. lia.
Qed.

Lemma check_shutdown_frame now h :
  pending_errors (check_shutdown now h) = pending_errors h /\ events_out (check_shutdown now h) = events_out h.
Proof. unfold check_shutdown. destruct (state h); try done. by destruct (is_elapsed _ _). Qed.

(** A pending poll goes through all its phases. *)
Lemma poll_none_phases now h h' :
  inv h -> poll now h = Ret (None, h') ->
  pending_errors h = [] /\ events_out h = [] /\
  exists h4 h5 h6, let h3 := check_shutdown now h in
    purge_inbound (S (size (live (inbound_substreams_delay h3)))) now h3 = Ret (None, h4) /\
    purge_outbound (S (size (live (outbound_substreams_delay h4)))) now h4 = Ret (None, h5) /\ inv h5 /\
    drive_all_inbound now (hm_keys (inbound_substreams h5)) h5 = Ret (None, h6) /\ inv h6 /\
    drive_all_outbound now (hm_keys (outbound_substreams h6)) h6 = Ret (None, h') /\
    (dial_queue h' = [] \/ (max_dial_negotiated h' <= dial_negotiated h')%Z).
Proof.
  intros Hinv. unfold poll.
  intros (h1 & [= Hr1] & (h2 & [= Hr2] & Hr)%then_phase_none)%then_phase_none.
  destruct (report_none h h1 h2 Hr1 Hr2) as (-> & Herr & Hev). split; [done|]. split; [done|].
  cbv zeta in Hr. pose proof (inv_check_shutdown now h Hinv) as Hi3.
  apply then_phase_none in Hr as (h4 & Hr4 & Hr). apply then_phase_none in Hr as (h5 & Hr5 & Hr).
  apply then_phase_none in Hr as (h6 & Hr6 & Hr). apply then_phase_none in Hr as (h7 & Hr7 & Hr8).
  pose proof (phase_inv _ _ _ _ (purge_inbound_ok _ now _ Hi3 (Nat.lt_succ_diag_r _)) Hr4) as Hi4.
  pose proof (phase_inv _ _ _ _ (purge_outbound_ok _ now h4 Hi4 (Nat.lt_succ_diag_r _)) Hr5) as Hi5.
  assert (Hk5 : forall id, id ∈ hm_keys (inbound_substreams h5) -> is_Some (inbound_substreams h5 !! id))
    by (intros id; by rewrite elem_of_hm_keys).
  pose proof (phase_inv _ _ _ _ (drive_all_inbound_ok now _ h5 Hi5 (NoDup_hm_keys _) Hk5) Hr6) as Hi6.
  destruct (dial_next_none _ _ _ Hr8) as [-> Hdial].
  exists h4, h5, h6. cbv zeta. by split_and!.
Qed.

Lemma same_out_events h h' : same_out h h' -> events_out h' = events_out h.
Proof. unfold same_out, outside_inbound. congruence. Qed.

Lemma same_in_events h h' : same_in h h' -> events_out h' = events_out h.
Proof. unfold same_in, outside_outbound. congruence. Qed.

Lemma same_in_inbound h h' :
  same_in h h' -> inbound_substreams h' = inbound_substreams h /\ queued_outbound_items h' = queued_outbound_items h.
Proof. unfold same_in, outside_outbound. intros Heq. split; congruence. Qed.

(** A poll that answers [Pending] leaves a settled handler. *)
Lemma poll_settles now h h' : inv h -> poll now h = Ret (None, h') -> settled now h'.
Proof.
  intros Hinv Hr. apply poll_none_phases in Hr as (Herr & Hev & h4 & h5 & h6 & Hr4 & Hr5 & Hi5 & Hr6 & Hi6 & Hr7 & Hd);
    [|done].
  destruct (check_shutdown_frame now h) as [Hce Hcv]. rewrite Herr in Hce. rewrite Hev in Hcv.
  pose proof (purge_inbound_errors _ _ _ _ _ ltac:(by rewrite Hce) Hr4) as He4.
  pose proof (purge_outbound_errors _ _ _ _ Hr5) as He5.
  destruct (drive_all_inbound_leaves now _ h5 h6 Hi5 (NoDup_hm_keys _)
    ltac:(intros id; by rewrite elem_of_hm_keys) Hr6) as (He6 & Hl6 & Ha6).
  destruct (drive_all_outbound_leaves now _ h6 h' Hi6 (NoDup_hm_keys _)
    ltac:(intros id; by rewrite elem_of_hm_keys) Hr7) as ((errs & He7 & Hf7) & Hk7 & Ha7).
  apply purge_inbound_same in Hr4. apply purge_outbound_same in Hr5.
  pose proof (drive_all_inbound_same _ _ _ _ _ Hr6) as Hs6.
  pose proof (drive_all_outbound_same _ _ _ _ _ Hr7) as Hs7.
  assert (Hst : state h6 = state h5 /\ state h' = state h6)
    by (split; [by apply same_out_state|by apply same_in_state]).
  split.
  - rewrite (same_in_events _ _ Hs7), (same_out_events _ _ Hs6), (same_in_events _ _ Hr5),
      (same_out_events _ _ Hr4). exact Hcv.
  - rewrite He7, He6, He5. apply Forall_app. split; eapply Forall_impl; [exact He4|by left|exact Hf7|].
    intros err [Hde Herr']. right. split; [by rewrite (proj2 Hst)|done].
  - intros delay Hdelay. apply (shutdown_checked now h).
    by rewrite <-(same_out_state _ _ Hr4), <-(same_in_state _ _ Hr5), <-(proj1 Hst), <-(proj2 Hst).
  - intros id e. destruct (same_in_inbound _ _ Hs7) as [-> Hq]. intros He.
    eapply inbound_asleep_same; [by rewrite Hq|by apply Hst|]. apply Ha6; [|done].
    apply elem_of_hm_keys. destruct (inbound_substreams h5 !! id) as [e5|] eqn:E5; [by eexists|].
    destruct (Hl6 id) as [Hl _]; [by rewrite elem_of_hm_keys, E5; intros []|congruence].
  - intros id info He. apply (Ha7 id); [|done]. apply elem_of_hm_keys.
    destruct (outbound_substreams h6 !! id) as [i6|] eqn:E6; [by eexists|].
    rewrite Hk7, E6 in He; [done|]. rewrite elem_of_hm_keys, E6. by intros [].
  - done.
Qed.
End Settled.

(** ** Polling until pending *)
Section Polling.
Context `{Streams} `{DelayQueue} `{!DelayQueueLaws} `{!DelayQueueAlive} `{HashOrder} `{BuildProfile}.

Definition is_close (event : HandlerEvent) : bool := match event with Close _ => true | _ => false end.

(** The swarm polls again after each event but a [Close], after which it drops
    the connection; [clock] is read once in a poll. *)
Fixpoint poll_all (fuel i : nat) (clock : nat -> Instant) (h : RPCHandler) : Outcome (list HandlerEvent * RPCHandler) :=
  match fuel with
  | O => OutOfFuel
  | S fuel =>
    '(event, h) ← poll (clock i) h;
    match event with
    | Some (Close e) => mret ([Close e], h)
    | Some event => '(events, h) ← poll_all fuel (S i) clock h; mret (event :: events, h)
    | None => mret ([], h)
    end
  end.

(** *** What closes a connection *)

(** A [Close] carries the error of a socket that was to be written. *)
Definition close_cause (event : HandlerEvent) : Prop :=
  match event with
  | Close e => exists s s', in_poll_ready s = (Ready (Err e), s')
  | _ => True
  end.

Definition caused (p : Phase) : Prop := forall event h, p = Ret (Some event, h) -> close_cause event.

Lemma then_phase_caused p k : caused p -> (forall h, caused (k h)) -> caused (then_phase p k).
Proof.
  intros Hp Hk event h. unfold then_phase. destruct p as [[[e|] h1]| |]; cbn [mbind Outcome_bind]; [|apply Hk|done..].
  intros [= <- <-]. by eapply Hp.
Qed.

Lemma drive_inbound_turn_caused now id h further event h' :
  drive_inbound_turn now id h = Ret (further, Some event, h') -> close_cause event.
Proof.
  unfold drive_inbound_turn. destruct (inbound_substreams h !! id) as [[[st ko] p]|]; [|done].
  destruct st as [s m closing|s closing|s|s|]; [| | | |done].
  - unfold drive_pending_send. destruct (is_deactivated _); [done|].
    destruct (in_poll_ready s) as [[[[]|e]|] s1] eqn:Er; [| |done].
    + destruct (in_start_send m s1) as [[[]|e] s2]; [done|]. destruct closing; [done|].
      by destruct (apply_queued_responses _ _ _).
    + intros [= _ <- _]. by exists s, s1.
  - unfold drive_pending_flush. destruct (in_poll_flush s) as [[[[]|e]|] s1]; [| |done].
    + destruct (_ || _)%bool; [done|]. by destruct (apply_queued_responses _ _ _).
    + by destruct (drop_inbound _ _ _ _).
  - destruct (is_deactivated _); [done|]. by destruct (apply_queued_responses _ _ _).
  - destruct (in_poll_close s) as [[r|] s1]; [|done]. by destruct (drop_inbound _ _ _ _).
Qed.

Lemma drive_all_inbound_caused now ids h : caused (drive_all_inbound now ids h).
Proof.
  assert (Hone : forall fuel id h, caused (drive_inbound fuel now id h)).
  { induction fuel as [|fuel IH]; intros id h1 event h2; [done|]. cbn [drive_inbound].
    destruct (drive_inbound_turn now id h1) as [[[further [e|]] h3]| |] eqn:E; cbn [mbind Outcome_bind]; [| |done..].
    - intros [= <- _]. by eapply drive_inbound_turn_caused.
    - destruct further; [apply IH|done]. }
  revert h; induction ids as [|id ids IH]; intros h event h'; [done|]. cbn [drive_all_inbound].
  destruct (drive_inbound _ now id h) as [[[e|] h1]| |] eqn:E; cbn [mbind Outcome_bind]; [|apply IH|done..].
  intros [= <- _]. by eapply Hone.
Qed.

Lemma drive_all_outbound_caused now ids h : caused (drive_all_outbound now ids h).
Proof.
  assert (Hone : forall id h, caused (drive_outbound now id h)).
  { intros id h1 event h2. unfold drive_outbound. destruct (outbound_substreams h1 !! id) as [info|]; [|done].
    destruct (out_state info) as [s req|s|]; [| |done].
    - destruct (is_deactivated _); [done|]. unfold drive_pending_response.
      destruct (out_poll_next s) as [[[[m|e]|]|] s1]; [| | |done].
      + destruct (outbound_chunk _ _ _ _ _ _ _); cbn [mbind Outcome_bind]; [|done..].
        destruct (received_response _ _); cbn; [|done..]. by intros [= <- _].
      + destruct (drop_outbound _ _ _ _); cbn; [|done..]. by intros [= <- _].
      + destruct (drop_outbound _ _ _ _); cbn; [|done..]. by intros [= <- _].
    - destruct (out_poll_close s) as [[r|] s1]; [|done]. by destruct (drop_outbound _ _ _ _). }
  revert h; induction ids as [|id ids IH]; intros h event h'; [done|]. cbn [drive_all_outbound].
  destruct (drive_outbound now id h) as [[[e|] h1]| |] eqn:E; cbn [mbind Outcome_bind]; [|apply IH|done..].
  intros [= <- _]. by eapply Hone.
Qed.

Lemma poll_caused now h : caused (poll now h).
Proof.
  unfold poll. apply then_phase_caused.
  { intros event h' [= Hr]. unfold report_errors in Hr. destruct (pending_errors h); [done|]. by injection Hr as <- _. }
  clear h. intros h. apply then_phase_caused.
  { intros event h' [= Hr]. unfold report_events in Hr. destruct (events_out h); [done|]. by injection Hr as <- _. }
  clear h. intros h. cbv zeta. generalize (check_shutdown now h). clear h. intros h. apply then_phase_caused.
  { intros event h'. generalize (S (size (live (inbound_substreams_delay h)))). intros fuel.
    revert h; induction fuel as [|fuel IH]; intros h; [done|]. cbn [purge_inbound].
    destruct (dq_poll now _) as [[k|e| |] q] eqn:E; try done; [|by apply dq_poll_alive in E].
    destruct (expire_inbound k _); cbn [mbind Outcome_bind]; [apply IH|done..]. }
  clear h. intros h. apply then_phase_caused.
  { intros event h'. generalize (S (size (live (outbound_substreams_delay h)))). intros fuel.
    revert h; induction fuel as [|fuel IH]; intros h; [done|]. cbn [purge_outbound].
    destruct (dq_poll now _) as [[k|e| |] q] eqn:E; try done; [|by apply dq_poll_alive in E].
    cbn [outbound_substreams set_outbound_substreams_delay].
    destruct (outbound_substreams h !! k); [by intros [= <- _]|apply IH]. }
  clear h. intros h. apply then_phase_caused; [apply drive_all_inbound_caused|].
  clear h. intros h. apply then_phase_caused; [apply drive_all_outbound_caused|].
  clear h. intros h event h'. unfold dial_next. destruct (dial_queue h) as [|[id req] rest]; [done|].
  case_decide; [|done]. destruct (add_w 32 _ 1); cbn -[update_keep_alive]; [|done..]. by intros [= <- _].
Qed.

(** Polling has ended: the handler is pending, or it has closed the connection
    because a socket refused to be written. *)
Definition ended (clock : nat -> Instant) (i : nat) (events : list HandlerEvent) (h : RPCHandler) : Prop :=
  (Forall (fun event => is_close event = false) events /\ settled (clock (i + length events)) h) \/
  exists events0 e, events = events0 ++ [Close e] /\ Forall (fun event => is_close event = false) events0 /\
    exists s s', in_poll_ready s = (Ready (Err e), s').

Lemma ended_cons clock i event events h :
  is_close event = false -> ended clock (S i) events h -> ended clock i (event :: events) h.
Proof.
  intros He [[Hf Hs]|(events0 & e & -> & Hf & Hc)].
  - left. split; [by constructor|]. cbn [length]. by rewrite Nat.add_succ_r.
  - right. exists (event :: events0), e. split; [done|]. split; [by constructor|done].
Qed.

Lemma poll_all_cons fuel i clock h event h1 :
  poll (clock i) h = Ret (Some event, h1) -> is_close event = false ->
  poll_all (S fuel) i clock h = '(events, h) ← poll_all fuel (S i) clock h1; mret (event :: events, h).
Proof. intros Hr He. cbn [poll_all]. rewrite Hr. by destruct event. Qed.

Lemma poll_all_ends fuel i clock h :
  inv h -> work h < fuel ->
  exists events h', poll_all fuel i clock h = Ret (events, h') /\ inv h' /\
    work h' + length events <= work h /\ ended clock i events h'.
Proof.
  revert i h; induction fuel as [|fuel IH]; intros i h Hinv Hfuel; [lia|].
  destruct (poll_ok (clock i) h Hinv) as (event & h1 & Hr & Hinv1 & _).
  pose proof (poll_pays (clock i) h Hinv _ _ Hr) as Hp.
  destruct event as [event|]; cbn [cost] in Hp.
  - destruct (is_close event) eqn:He.
    + destruct event as [|e|]; try done. exists [Close e], h1. cbn [poll_all]. rewrite Hr. split; [done|].
      split; [done|]. split; [cbn [length]; lia|]. right. exists [], e. split; [done|]. split; [done|].
      by apply (poll_caused (clock i) h _ _ Hr).
    + destruct (IH (S i) h1 Hinv1) as (events & h2 & Hr2 & Hinv2 & Hw & Hs); [lia|].
      rewrite (poll_all_cons _ _ _ _ _ _ Hr He), Hr2. exists (event :: events), h2.
      cbn [length mbind Outcome_bind]. split; [done|]. split; [done|]. split; [lia|]. by apply ended_cons.
  - cbn [poll_all]. rewrite Hr. exists [], h1. split; [done|]. split; [done|]. cbn [length].
    split; [lia|]. left. split; [done|]. cbn [length]. rewrite (Nat.add_0_r i).
    exact (poll_settles (clock i) h h1 Hinv Hr).
Qed.

(** C13: polling a handler comes to rest: in every state it can reach, and at
    whatever times it is polled, it answers at most [work] events before it is
    pending or closes the connection, which it does only with the error of a
    socket that could not be written, and after which it is polled no more.
    When it is pending, nothing is left lying about: no event waits to be
    reported; every substream that stays was polled and its socket is pending,
    or it waits for a response of the application, with none queued, or it was
    just given up and its error waits; a request still waits to be dialed only
    while the greatest number of upgrades is in progress. The exception are
    the errors that this last poll has found itself, time-outs of inbound
    substreams and the rejections of a handler that is deactivated: they are
    left for the next poll. *)
Theorem polling_settles (clock : nat -> Instant) (w : World) :
  world_reachable w ->
  exists events h', poll_all (S (work (handler w))) 0 clock (handler w) = Ret (events, h') /\
    length events <= work (handler w) /\
    ((Forall (fun event => is_close event = false) events /\ settled (clock (length events)) h') \/
     exists events0 e, events = events0 ++ [Close e] /\ Forall (fun event => is_close event = false) events0 /\
       exists s s', in_poll_ready s = (Ready (Err e), s')).
Proof.
  intros [Hinv _]%world_reachable_inv.
  destruct (poll_all_ends (S (work (handler w))) 0 clock (handler w) Hinv (Nat.lt_succ_diag_r _))
    as (events & h' & Hr & _ & Hw & Hs).
  exists events, h'. split; [done|]. split; [lia|exact Hs].
Qed.
End Polling.

(** ** Examples: a peer's request, unanswered until it times out *)
Section Witnesses.
#[local] Existing Instance table_queue.
#[local] Existing Instance table_queue_laws.
#[local] Existing Instance table_queue_alive.
#[local] Existing Instance map_to_list_order.
#[local] Existing Instance demo_streams.
#[local] Existing Instance debug_build.

Lemma polling_settles_witness :
  exists events h', poll_all (S (work (handler demo_waiting))) 0 N.of_nat (handler demo_waiting) = Ret (events, h') /\
    length events <= 3.
Proof.
  destruct (polling_settles N.of_nat demo_waiting demo_waiting_reachable) as (events & h' & Hr & Hl & _).
  exists events, h'. split; [exact Hr|]. etransitivity; [exact Hl|]. vm_compute. lia.
Defined.

(** The poll that finds the time-out is pending, and the error waits in the
    handler for a poll that nothing announces. *)
Lemma timeout_waits :
  match poll 0%N (handler demo_waiting) with
  | Ret (Some (Custom (Ok (Received_Request _ _))), h1) =>
    match poll (from_secs 60) h1 with
    | Ret (None, h2) => pending_errors h2 = [Inbound_err 0%Z Protocol_Ping StreamTimeout]
    | _ => False
    end
  | _ => False
  end.
Proof. vm_compute. reflexivity. Qed.
End Witnesses.
