(* ===== verification/RpcExchange.v ===== *)
(** * A request and its response, from one node to the other (src/core/network/src/rpc/)

    The handlers of both ends of a connection, the codecs between them and the
    substreams they share: what the server writes on a substream is the
    encoding of the one response that was given for it, and what the client
    reports of a substream is what was written there.  [Framed] is what the
    handlers rely on of tokio's framed sockets. *)
From Stdlib Require Import NArith Strings.String Strings.Byte.
From S2P Require Import Prelude RpcMethods RpcProtocol Wire RpcCodec DelayQueue RpcHandler RpcFrames.

Open Scope list_scope.

(** The parts of a framed socket: its codec; for the end that answers what is
    encoded but not yet written and what is written; for the end that asked
    what is received but not yet decoded and what is still going to arrive. *)
Class Framed `{Streams} := {
  in_codec : Inbound -> InboundCodec;
  in_buffer : Inbound -> list byte;
  in_wire : Inbound -> list byte;
  out_codec : Outbound -> OutboundCodec;
  out_buffer : Outbound -> list byte;
  out_arrives : Outbound -> list byte;
}.

(** Writing moves bytes from the buffer to the socket, in their order. *)
Definition in_moves `{Framed} (s s' : Inbound) : Prop :=
  in_codec s' = in_codec s /\
  exists n, in_wire s' = in_wire s ++ take n (in_buffer s) /\ in_buffer s' = drop n (in_buffer s).

(** A sink encodes into its buffer and empties it when it is flushed or closed;
    a stream decodes what arrives, in pieces of any size. *)
Class FramedLaws `{Wire} `{Framed} := {
  in_poll_ready_moves : forall s r s', in_poll_ready s = (r, s') -> in_moves s s';
  in_start_send_encodes : forall m s r s', in_start_send m s = (r, s') ->
    InboundCodec_encode (in_codec s) m (in_buffer s) = Ret (r, in_buffer s') /\
    in_wire s' = in_wire s /\ in_codec s' = in_codec s;
  in_poll_flush_moves : forall s r s', in_poll_flush s = (r, s') ->
    in_moves s s' /\ (r = Ready (Ok tt) -> in_buffer s' = []);
  in_poll_close_moves : forall s r s', in_poll_close s = (r, s') -> in_moves s s';
  out_poll_next_decodes : forall s r s', out_poll_next s = (r, s') ->
    exists chunks, out_arrives s = concat chunks ++ out_arrives s' /\
      match r with
      | Pending =>
        feed OutboundCodec_decode (out_codec s) (out_buffer s) chunks = Ret (None, out_codec s', out_buffer s')
      | Ready (Some (Ok item)) =>
        feed OutboundCodec_decode (out_codec s) (out_buffer s) chunks =
          Ret (Some (Ok item), out_codec s', out_buffer s')
      | Ready (Some (Err _)) | Ready None => True
      end;
}.

(** ** Feeding in pieces *)

Section Feed.
Context {C I : Type}
  (decode : C -> list byte -> Outcome (Result (option I) RPCError * C * list byte)).

Lemma feed_app c buf chunks chunks' c1 buf1 :
  feed decode c buf chunks = Ret (None, c1, buf1) ->
  feed decode c buf (chunks ++ chunks') = feed decode c1 buf1 chunks'.
Proof.
  revert c buf; induction chunks as [|chunk chunks IH]; intros c buf; cbn; [by intros [= -> ->]|].
  destruct (decode c (buf ++ chunk)) as [[[[[item|]|e] c2] buf2]| |]; cbn; try done. apply IH.
Qed.

Lemma feed_done c buf chunks chunks' r c1 buf1 :
  feed decode c buf chunks = Ret (Some r, c1, buf1) ->
  feed decode c buf (chunks ++ chunks') = Ret (Some r, c1, buf1 ++ concat chunks').
Proof.
  revert c buf; induction chunks as [|chunk chunks IH]; intros c buf; cbn; [done|].
  destruct (decode c (buf ++ chunk)) as [[[[[item|]|e] c2] buf2]| |]; cbn; try done; [|apply IH|];
    intros [= <- <- <-]; by rewrite concat_app, app_assoc.
Qed.
End Feed.

(** ** What is written for a response *)

Section Exchange.
Context `{Wire}.

(** The outcome of encoding a response and the bytes it leaves in the buffer. *)
Definition encoding (m : RPCCodedResponse) : Result unit RPCError * list byte :=
  encode_payload MAX_RPC_SIZE (response_payload m) (option_list (as_u8 m)).

Lemma encode_fresh protocol m dst :
  InboundCodec_encode (fresh_inbound protocol MAX_RPC_SIZE) m dst = Ret (encoding m).
Proof.
  destruct (as_u8_is_Some m) as [code Hcode]. cbn. unfold BaseInboundCodec_encode, encoding.
  by rewrite Hcode.
Qed.

Context `{!WireLaws}.

(** The response of another kind with the same payload. *)
Definition response_as (p : Protocol) (data : list byte) : RPCResponse :=
  match p with
  | Protocol_Ping => RPCResponse_Pong data
  | Protocol_MetaData => RPCResponse_MetaData data
  | _ => RPCResponse_Status data
  end.

(** ** What a client can decode of it *)

(** Nothing is decoded from a buffer that holds at most one byte. *)
Lemma feed_short protocol chunks r c buf :
  (length (concat chunks) <= 1)%nat ->
  feed OutboundCodec_decode (fresh_outbound protocol MAX_RPC_SIZE) [] chunks = Ret (r, c, buf) -> r = None.
Proof.
  assert (Hfeed : forall b, (length (b ++ concat chunks) <= 1)%nat ->
    feed OutboundCodec_decode (fresh_outbound protocol MAX_RPC_SIZE) b chunks =
      Ret (None, fresh_outbound protocol MAX_RPC_SIZE, b ++ concat chunks)).
  { induction chunks as [|chunk chunks IH]; intros b Hb; cbn; [by rewrite app_nil_r|].
    cbn in Hb. rewrite app_assoc in Hb. pose proof Hb as Hb'. rewrite length_app in Hb'.
    unfold BaseOutboundCodec_decode. rewrite decide_True by lia. cbn. by rewrite IH, app_assoc. }
  intros Hlen Hr. rewrite Hfeed in Hr by done. by injection Hr as <- _ _.
Qed.

(** The codec of a substream of [protocol] in any state. *)
Definition codec_of (protocol : ProtocolId) (len : option N) (current : option byte) : OutboundCodec :=
  OutboundCodec_Snappy (mkBaseOutboundCodec (mkSnappyOutboundCodec len protocol MAX_RPC_SIZE) current).

(** A decoder keeps its protocol, and what it accepts is of it. *)
Lemma decode_step protocol len current src :
  exists r len' current' src',
    OutboundCodec_decode (codec_of protocol len current) src = Ret (r, codec_of protocol len' current', src') /\
    forall resp, r = Ok (Some (Success resp)) -> response_protocol resp = message_name protocol.
Proof.
  unfold codec_of, OutboundCodec_decode, BaseOutboundCodec_decode.
  case_decide; [by eexists _, len, current, _|]. cbn [inner current_response_code].
  destruct (response_code_total current src) as (code & src1 & ->); [lia|]. cbn -[decode_payload].
  unfold decode_payload, SnappyOutboundCodec_decode, SnappyOutboundCodec_decode_error. cbn [out_max_packet_size out_len].
  destruct (read_chunk_total MAX_RPC_SIZE len src1) as (r & len' & src' & -> & Hr).
  destruct (is_response code), r as [[data|]|e]; cbn; eexists _, len', _, src'; (split; [done|]); try done.
  - intros resp Hresp. specialize (Hr data eq_refl).
    destruct (response_of_buffer protocol data) as [[x|]|] eqn:E; cbn in Hresp; try done.
    injection Hresp as <-. by eapply response_of_buffer_Some.
  - intros resp. unfold from_error. by destruct code.
Qed.

Lemma feed_protocol protocol len current buf chunks resp c buf' :
  feed OutboundCodec_decode (codec_of protocol len current) buf chunks = Ret (Some (Ok (Success resp)), c, buf') ->
  response_protocol resp = message_name protocol.
Proof.
  revert len current buf; induction chunks as [|chunk chunks IH]; intros len current buf; [done|]. cbn [feed].
  destruct (decode_step protocol len current (buf ++ chunk)) as (r & len' & current' & src' & -> & Hp).
  cbn [mbind Outcome_bind]. destruct r as [[item|]|e]; [|apply IH|done]. intros [= -> _ _]. by apply Hp.
Qed.

(** An empty payload is never read as a success: the length is read as 0, and
    no bytes of it. *)
Section EmptyPayload.
Context (u f : list byte) (code : byte).
Context (Hu : self_delimiting uvi_decode (Ok None) (fun rest => Ok (Some (0%N, rest))) u).

Definition reads_empty (len : option N) (current : option byte) (rest : list byte) : Prop :=
  match len, current with
  | None, None => rest = code :: u ++ f
  | None, Some _ => rest = u ++ f
  | Some n, Some _ => n = 0%N
  | Some _, None => False
  end.

Lemma read_chunk_empty len b t :
  match len with None => b ++ t = u ++ f | Some n => n = 0%N end ->
  exists r len' b', read_chunk MAX_RPC_SIZE len b = Ret (r, len', b') /\
    (forall data, r = Ok (Some data) -> data = []) /\
    (r = Ok None -> match len' with None => b' ++ t = u ++ f | Some n => n = 0%N end).
Proof.
  assert (Hzero : forall b, exists r len' b', read_chunk MAX_RPC_SIZE (Some 0%N) b = Ret (r, len', b') /\
    (forall data, r = Ok (Some data) -> data = []) /\
    (r = Ok None -> match len' with None => b' ++ t = u ++ f | Some n => n = 0%N end)).
  { intros b0. unfold read_chunk. rewrite decide_False by done. change (N.to_nat 0) with 0%nat.
    destruct (frame_read_exact 0 b0) as [data position| |e] eqn:E; [|by eexists _, _, _..].
    apply frame_read_exact_length in E as [Hl Hpos]. unfold split_to. rewrite decide_True by done.
    eexists _, _, _. split; [done|]. split; [|done]. intros ? [= <-]. by destruct data. }
  destruct len as [n|]; [intros ->; apply Hzero|]. intros Heq.
  destruct (split_prefix _ _ _ _ Heq) as [(b1 & -> & Hb)|(q & Hq & Hne & ->)].
  - destruct (Hzero b1) as (r & len' & b' & Hr & Hrest). exists r, len', b'. split; [|done].
    rewrite <-Hr. unfold read_chunk. by rewrite (proj1 Hu).
  - eexists _, _, _. unfold read_chunk. by rewrite (proj2 Hu b q Hq Hne).
Qed.

Lemma decode_empty protocol len current b t :
  reads_empty len current (b ++ t) ->
  exists r len' current' b',
    OutboundCodec_decode (codec_of protocol len current) b = Ret (r, codec_of protocol len' current', b') /\
    (forall resp, r <> Ok (Some (Success resp))) /\
    (r = Ok None -> reads_empty len' current' (b' ++ t)).
Proof.
  intros Hinv. unfold codec_of, OutboundCodec_decode, BaseOutboundCodec_decode.
  case_decide as Hlen; [by eexists _, len, current, b|]. cbn [inner current_response_code].
  assert (Hcode : exists code' b1, take_response_code current b = Ret (code', b1) /\
    match len with None => b1 ++ t = u ++ f | Some n => n = 0%N end).
  { destruct current as [code'|]; [exists code', b; by destruct len|].
    destruct len; [done|]. destruct b as [|x b]; [cbn in Hlen; lia|]. injection Hinv as -> Hinv.
    exists code, b. unfold take_response_code, split_to. rewrite decide_True by (cbn; lia). by cbn; rewrite drop_0. }
  destruct Hcode as (code' & b1 & -> & Hb1). cbn -[decode_payload].
  unfold decode_payload, SnappyOutboundCodec_decode, SnappyOutboundCodec_decode_error. cbn [out_max_packet_size out_len].
  destruct (read_chunk_empty len b1 t Hb1) as (r & len' & b' & -> & Hdata & Hnone).
  destruct (is_response code'), r as [[data|]|e]; cbn; eexists _, len', _, b'; (split; [done|]);
    try (split; [done|]; by try (intros _; specialize (Hnone eq_refl); destruct len')).
  - rewrite (Hdata data eq_refl).
    assert (response_of_buffer protocol [] = Err InvalidData) as -> by
      (unfold response_of_buffer; by destruct (message_name protocol), (version protocol)). done.
  - split; [|done]. intros resp. unfold from_error. by destruct code'.
Qed.

Lemma feed_empty protocol len current buf chunks t resp c buf' :
  reads_empty len current (buf ++ concat chunks ++ t) ->
  feed OutboundCodec_decode (codec_of protocol len current) buf chunks <> Ret (Some (Ok (Success resp)), c, buf').
Proof.
  revert len current buf; induction chunks as [|chunk chunks IH]; intros len current buf Hinv; [done|]. cbn [feed].
  cbn in Hinv. rewrite <-app_assoc, (app_assoc buf) in Hinv.
  destruct (decode_empty protocol len current (buf ++ chunk) (concat chunks ++ t) Hinv)
    as (r & len' & current' & b' & -> & Hns & Hnone).
  cbn [mbind Outcome_bind]. destruct r as [[item|]|e]; [|by apply IH, Hnone|done].
  intros [= -> _ _]. by apply (Hns resp).
Qed.
End EmptyPayload.

(** A client that reads from the bytes written for [m] reports a success only
    if [m] is one, with the payload of [m] and of the client's protocol. *)
Lemma decoded_success protocol m chunks t resp c buf :
  concat chunks ++ t = (encoding m).2 ->
  feed OutboundCodec_decode (fresh_outbound protocol MAX_RPC_SIZE) [] chunks = Ret (Some (Ok (Success resp)), c, buf) ->
  exists resp0, m = Success resp0 /\
    response_payload (Success resp) = response_payload m /\ response_protocol resp = message_name protocol.
Proof.
  intros Heq Hfeed. pose proof (feed_protocol protocol None None _ _ _ _ _ Hfeed) as Hp.
  destruct (as_u8_is_Some m) as [code Hcode]. unfold encoding in Heq. rewrite Hcode in Heq.
  change (option_list (Some code)) with [code] in Heq.
  destruct (decide (MAX_RPC_SIZE < N.of_nat (length (response_payload m)))%N) as [Hbig|Hmax].
  { unfold encode_payload in Heq. rewrite decide_True in Heq by done. cbn in Heq.
    apply feed_short in Hfeed; [done|]. apply (f_equal length) in Heq. rewrite length_app in Heq. cbn in Heq. lia. }
  destruct (decide (response_payload m = [])) as [He|Hne].
  { destruct (uvi_roundtrip 0) as (u & Hu & _ & Hud); [lia|]. exfalso. revert Hfeed.
    assert (exists f, (code :: u ++ f) = concat chunks ++ t) as (f & Hf).
    { rewrite Heq, He. unfold encode_payload. rewrite decide_False by done. change (N.of_nat (length [])) with 0%N.
      rewrite Hu. destruct (frame_encode []) as [f|e]; [exists f; by rewrite <-app_assoc|].
      exists []. by rewrite app_nil_r. }
    eapply (feed_empty u f code Hud protocol None None [] chunks t). by symmetry. }
  destruct (encode_payload_ok MAX_RPC_SIZE _ [code] Hne) as (u & f & Henc & Hrun); [lia|done|].
  rewrite Hrun in Heq. cbn in Heq. apply feed_done with (chunks' := [t]) in Hfeed.
  assert (Hall : forall r, coded_of_payload protocol (response_payload m) code = Ok (Some r) ->
    r = Success resp).
  { intros r Hr.
    rewrite (feed_reads _ (outbound_inv protocol MAX_RPC_SIZE (response_payload m) u f code) r
      (fresh_outbound protocol MAX_RPC_SIZE) _ (code :: u ++ f) [] _ []) in Hfeed;
      [by injection Hfeed as ->|by eapply outbound_reads|by exists None, None| |cbn; lia].
    rewrite concat_app. cbn [concat]. rewrite !app_nil_r. exact Heq. }
  destruct m as [resp0|e|e|e].
  2-4: rewrite (coded_of_payload_received _ _ code) in Hall by done; by specialize (Hall _ eq_refl).
  exists resp0. split; [done|]. split; [|done].
  pose proof (coded_of_payload_received protocol
    (Success (response_as (message_name protocol) (response_payload (Success resp0)))) code) as Hc.
  assert (Hsame : forall p data, response_payload (Success (response_as p data)) = data) by (by intros []).
  rewrite Hsame in Hc. rewrite <-(Hsame (message_name protocol)). symmetry. f_equal.
  apply Hall, Hc; [by injection Hcode as <-|done|]. intros r [= <-]. rewrite <-Hp. by destruct resp.
Qed.
End Exchange.

(** ** The end that answers *)

Section Session.
Context `{Wire} `{!WireLaws} `{Streams} `{!Framed} `{!FramedLaws}.
Context `{DelayQueue} `{!DelayQueueLaws} `{HashOrder} `{BuildProfile}.

Definition holds (s : Inbound) (bytes : list byte) : Prop := in_wire s ++ in_buffer s = bytes.

(** A substream as the upgrade gives it. *)
Definition nothing_sent (s : Inbound) : Prop :=
  in_wire s = [] /\ in_buffer s = [] /\ exists protocol, in_codec s = fresh_inbound protocol MAX_RPC_SIZE.

(** What a substream that answers with one of [A] holds. *)
Definition answer_ok (A : RPCCodedResponse -> Prop) (st : InboundSubstreamState) : Prop :=
  match st with
  | ResponseIdle s => nothing_sent s
  | ResponsePendingSend s m _ => nothing_sent s /\ A m
  | ResponsePendingFlush s _ => exists m, A m /\ holds s (encoding m).2
  | InClosing s => holds s [] \/ exists m, A m /\ holds s (encoding m).2
  | InPoisoned => True
  end.

(** The responses for a substream: the one that was given for it, or that it
    timed out. *)
Definition allowed (given : gmap SubstreamId RPCCodedResponse) (id : SubstreamId) (m : RPCCodedResponse) : Prop :=
  given !! id = Some m \/ m = timed_out_response.

Definition server_ok (given : gmap SubstreamId RPCCodedResponse) (h : RPCHandler) : Prop :=
  forall id e, inbound_substreams h !! id = Some e -> answer_ok (allowed given id) e.1.1.

Lemma in_moves_holds s s' bytes : in_moves s s' -> holds s bytes -> holds s' bytes.
Proof.
  intros (_ & n & Hw & Hb) Hs. unfold holds. rewrite Hw, Hb, <-app_assoc, take_drop. exact Hs.
Qed.

Lemma in_moves_nothing s s' : in_moves s s' -> nothing_sent s -> nothing_sent s'.
Proof.
  intros (Hc & n & Hw & Hb) (Hw0 & Hb0 & Hp). rewrite Hw0, Hb0 in *. rewrite take_nil in Hw. rewrite drop_nil in Hb.
  split; [done|]. split; [done|]. by rewrite Hc.
Qed.

Lemma nothing_holds s : nothing_sent s -> holds s [].
Proof. intros (Hw & Hb & _). unfold holds. by rewrite Hw, Hb. Qed.

Lemma server_ok_ext given h h' :
  inbound_substreams h' = inbound_substreams h -> server_ok given h -> server_ok given h'.
Proof. unfold server_ok. by intros ->. Qed.

Lemma server_ok_same given h h' : same_in h h' -> server_ok given h -> server_ok given h'.
Proof. intros Hs. apply server_ok_ext. unfold same_in, outside_outbound in Hs. congruence. Qed.

Lemma server_ok_set given id st h :
  server_ok given h -> answer_ok (allowed given id) st -> server_ok given (set_inbound_state id st h).
Proof.
  intros Hok Hst j e. cbn. rewrite lookup_alter. case_decide; [subst j|apply Hok].
  destruct (inbound_substreams h !! id) as [e'|]; [|done]. by intros [= <-].
Qed.

Lemma server_ok_keep_alive given now h : server_ok given h -> server_ok given (update_keep_alive now h).
Proof. apply server_ok_ext. by rewrite (update_keep_alive_frame inbound_substreams). Qed.

Lemma server_ok_delete given id h :
  server_ok given h -> server_ok given (set_inbound_substreams (delete id (inbound_substreams h)) h).
Proof. intros Hok j e. cbn. intros [_ He]%lookup_delete_Some. by apply Hok. Qed.

Lemma drop_inbound_server given now id ko h h' :
  drop_inbound now id ko h = Ret h' -> server_ok given h -> server_ok given h'.
Proof.
  intros Hr Hok. unfold drop_inbound in Hr.
  destruct (match ko with Some _ => _ | None => _ end) as [h1| |] eqn:E; [|done..].
  cbn [mbind Outcome_bind] in Hr. injection Hr as <-.
  apply server_ok_keep_alive, (server_ok_delete given id (set_queued_outbound_items _ h1)).
  revert Hok. apply server_ok_ext. destruct ko as [key|]; [|by injection E as <-].
  destruct (dq_remove key _); [|done..]. by injection E as <-.
Qed.

(** A turn keeps to the one response. *)
Lemma turn_server given now id h further event h' :
  inv h -> server_ok given h -> is_Some (inbound_substreams h !! id) ->
  drive_inbound_turn now id h = Ret (further, event, h') -> server_ok given h'.
Proof.
  intros Hinv Hok [[[st ko] p] He] Hr. pose proof (Hok id _ He) as Hst.
  pose proof (inv_inbound _ Hinv id _ He) as (_ & Hi & _). cbn [fst] in Hst, Hi.
  assert (Hok1 : server_ok given (set_inbound_state id InPoisoned h)) by by apply server_ok_set.
  revert Hr. unfold drive_inbound_turn. rewrite He.
  destruct st as [s m closing|s closing|s|s|]; cbn [inbound_state_ok] in Hi;
    [subst closing; destruct Hst as [Hs Hm]|subst closing| | |done].
  - unfold drive_pending_send. destruct (is_deactivated _).
    { intros [= _ _ <-]. apply server_ok_set; [done|]. left. by apply nothing_holds. }
    destruct (in_poll_ready s) as [r s1] eqn:Er. apply in_poll_ready_moves in Er.
    pose proof (in_moves_nothing _ _ Er Hs) as Hs1. destruct r as [[[]|e]|].
    + destruct (in_start_send m s1) as [sent s2] eqn:Es. apply in_start_send_encodes in Es as (Henc & Hw & _).
      destruct Hs1 as (Hw1 & Hb1 & protocol & Hp). rewrite Hp, encode_fresh in Henc. injection Henc as Henc.
      assert (Hh : holds s2 (encoding m).2) by (unfold holds; by rewrite Hw, Hw1, Henc).
      destruct sent as [[]|e]; intros [= _ _ <-]; apply server_ok_set; try done; [by exists m|]. right. by exists m.
    + intros [= _ _ <-]. by apply server_ok_keep_alive, server_ok_delete.
    + intros [= _ _ <-]. by apply server_ok_set.
  - unfold drive_pending_flush. destruct (in_poll_flush s) as [r s1] eqn:Er.
    apply in_poll_flush_moves in Er as [Er _]. destruct Hst as (m & Hm & Hh). apply (in_moves_holds _ _ _ Er) in Hh.
    destruct r as [[[]|e]|]; cbn [orb].
    + intros [= _ _ <-]. apply server_ok_set; [done|]. right. by exists m.
    + destruct (drop_inbound now id ko _) as [h1| |] eqn:Ed; [|done..]. intros [= _ _ <-]. by eapply drop_inbound_server.
    + intros [= _ _ <-]. apply server_ok_set; [done|]. by exists m.
  - destruct (is_deactivated _).
    + intros [= _ _ <-]. apply server_ok_set; [done|]. left. by apply nothing_holds.
    + rewrite apply_queued_idle by done. intros [= _ _ <-]. by apply server_ok_set.
  - destruct (in_poll_close s) as [r s1] eqn:Er. apply in_poll_close_moves in Er. destruct r as [r|].
    + destruct (drop_inbound now id ko _) as [h1| |] eqn:Ed; [|done..]. intros [= _ _ <-]. by eapply drop_inbound_server.
    + intros [= _ _ <-]. apply server_ok_set; [done|].
      destruct Hst as [Hh|(m & Hm & Hh)]; apply (in_moves_holds _ _ _ Er) in Hh; [by left|right; by exists m].
Qed.

(** ** A property kept by a phase *)

Definition keeps (P : RPCHandler -> Prop) (p : Phase) : Prop := forall e h', p = Ret (e, h') -> P h'.

Lemma then_phase_keeps P p k :
  keeps P p -> (forall h, P h -> keeps P (k h)) -> keeps P (then_phase p k).
Proof.
  intros Hp Hk e h'. unfold then_phase. destruct p as [[e1 h1]| |]; cbn [mbind Outcome_bind]; [|done..].
  specialize (Hp e1 h1 eq_refl). destruct e1; [by intros [= _ <-]|]. by apply Hk.
Qed.

(** *** What a poll keeps of the inbound substreams *)
Section PollKeeps.
Context (P : RPCHandler -> Prop).
Hypothesis P_same : forall h h', inbound_substreams h' = inbound_substreams h -> P h -> P h'.
Hypothesis P_expire : forall id h h', P h -> expire_inbound id h = Ret h' -> P h'.
Hypothesis P_turn : forall now id h further event h', inv h -> P h -> is_Some (inbound_substreams h !! id) ->
  drive_inbound_turn now id h = Ret (further, event, h') -> P h'.

Definition holding (h : RPCHandler) : Prop := inv h /\ P h.

Lemma P_same_in h h' : same_in h h' -> P h -> P h'.
Proof. intros Hs. apply P_same. unfold same_in, outside_outbound in Hs. congruence. Qed.

Lemma drive_inbound_keeps fuel now id h e h' :
  holding h -> is_Some (inbound_substreams h !! id) -> drive_inbound fuel now id h = Ret (e, h') ->
  holding h' /\ forall j, j <> id -> inbound_substreams h' !! j = inbound_substreams h !! j.
Proof.
  revert h; induction fuel as [|fuel IH]; intros h [Hinv Hok] He Hr; [done|]. cbn [drive_inbound] in Hr.
  destruct (drive_inbound_turn now id h) as [[[further event] h1]| |] eqn:E; [|done..]. cbn [mbind Outcome_bind] in Hr.
  pose proof (P_turn now id h further event h1 Hinv Hok He E) as Hok1.
  destruct He as [x He]. destruct (drive_inbound_turn_ok now id x h Hinv He)
    as (further' & event' & h1' & E' & Hinv1 & _ & Ho & _ & Hf).
  rewrite E in E'. injection E' as <- <- <-.
  destruct event; [injection Hr as _ <-; done|]. destruct further; [|injection Hr as _ <-; done].
  destruct (Hf eq_refl) as (_ & st' & He' & _).
  destruct (IH h1) as [Hs Ho']; [done|by eexists|done|]. split; [done|]. intros j Hj. by rewrite Ho', Ho.
Qed.

Lemma drive_all_inbound_keeps now ids h :
  holding h -> NoDup ids -> (forall id, id ∈ ids -> is_Some (inbound_substreams h !! id)) ->
  keeps holding (drive_all_inbound now ids h).
Proof.
  revert h; induction ids as [|id ids IH]; intros h Hs Hnd Hids e h'; cbn [drive_all_inbound]; [by intros [= _ <-]|].
  apply NoDup_cons in Hnd as [Hni Hnd].
  destruct (drive_inbound _ now id h) as [[e1 h1]| |] eqn:E; [|done..]. cbn [mbind Outcome_bind].
  apply drive_inbound_keeps in E as [Hs1 Ho]; [|done|by apply Hids; left].
  destruct e1; [by intros [= _ <-]|]. apply IH; [done|done|]. intros j Hj. rewrite Ho; [apply Hids; by right|].
  by intros ->.
Qed.

Lemma purge_inbound_keeps fuel now h : P h -> keeps P (purge_inbound fuel now h).
Proof.
  revert h; induction fuel as [|fuel IH]; intros h Hok e h'; [done|]. cbn [purge_inbound].
  assert (Hq : forall q, P (set_inbound_substreams_delay q h)) by (intros q; by eapply P_same, Hok).
  destruct (dq_poll now _) as [[k| | |] q]; try (by intros [= _ <-]).
  destruct (expire_inbound k _) as [h1| |] eqn:E; [|done..]. cbn [mbind Outcome_bind]. apply IH.
  by eapply P_expire; [|exact E].
Qed.

Lemma check_shutdown_keeps now h : holding h -> holding (check_shutdown now h).
Proof.
  intros [Hinv Hok]. split; [by apply inv_check_shutdown|]. revert Hok. apply P_same.
  unfold check_shutdown. destruct (state h); [done| |done]. by destruct (is_elapsed _ _).
Qed.

Lemma keeps_holding n p : phase_ok n p -> keeps P p -> keeps holding p.
Proof. intros Hp Hk e h' Hr. split; [by eapply phase_inv|by eapply Hk]. Qed.

Lemma keeps_same h p : P h -> (forall e h', p = Ret (e, h') -> same_in h h') -> keeps P p.
Proof. intros Hok Hp e h' Hr. by eapply P_same_in, Hok; eapply Hp. Qed.

Lemma poll_keeps now h : holding h -> keeps holding (poll now h).
Proof.
  intros Hs. unfold poll. apply then_phase_keeps.
  { destruct Hs as [Hinv Hok]. eapply keeps_holding; [by apply report_errors_ok|]. intros e h' Hr.
    revert Hok. apply P_same. injection Hr as Hr. unfold report_errors in Hr.
    destruct (pending_errors h); by injection Hr as _ <-. }
  clear h Hs. intros h Hs. apply then_phase_keeps.
  { destruct Hs as [Hinv Hok]. eapply keeps_holding; [by apply report_events_ok|]. intros e h' Hr.
    revert Hok. apply P_same. injection Hr as Hr. unfold report_events in Hr.
    destruct (events_out h); by injection Hr as _ <-. }
  clear h Hs. intros h Hs. cbv zeta. apply (check_shutdown_keeps now) in Hs. revert Hs.
  generalize (check_shutdown now h). clear h. intros h [Hinv Hok]. apply then_phase_keeps.
  { eapply keeps_holding; [apply purge_inbound_ok; [done|lia]|by apply purge_inbound_keeps]. }
  clear h Hinv Hok. intros h [Hinv Hok]. apply then_phase_keeps.
  { eapply keeps_holding; [apply purge_outbound_ok; [done|lia]|].
    eapply keeps_same; [done|apply purge_outbound_same]. }
  clear h Hinv Hok. intros h Hs. apply then_phase_keeps.
  { apply drive_all_inbound_keeps; [done|apply NoDup_hm_keys|]. intros id. by rewrite elem_of_hm_keys. }
  clear h Hs. intros h [Hinv Hok]. apply then_phase_keeps.
  { eapply keeps_holding; [|eapply keeps_same; [done|apply drive_all_outbound_same]].
    apply drive_all_outbound_ok; [done|apply NoDup_hm_keys|]. intros id. by rewrite elem_of_hm_keys. }
  clear h Hinv Hok. intros h [Hinv Hok].
  eapply keeps_holding; [by apply dial_next_ok|eapply keeps_same; [done|apply dial_next_same]].
Qed.
End PollKeeps.

(** The invariant of the handler and the answers of its substreams. *)
Definition serving (given : gmap SubstreamId RPCCodedResponse) (h : RPCHandler) : Prop :=
  inv h /\ server_ok given h.

Lemma expire_inbound_server given id h h' :
  server_ok given h -> expire_inbound id h = Ret h' -> server_ok given h'.
Proof.
  intros Hok. unfold expire_inbound. destruct (inbound_substreams h !! id) as [[[st ko] p]|] eqn:He; [|by intros [= <-]].
  pose proof (Hok id _ He) as Hst. cbn [fst] in Hst.
  destruct (close st _) as [[st' queue]| |] eqn:Ec; [|done..]. intros [= <-] j x.
  cbn [inbound_substreams set_queued_outbound_items set_inbound_substreams].
  rewrite lookup_insert. case_decide; [subst j|apply Hok]. intros [= <-]. cbn [fst].
  destruct st as [s m closing|s closing|s|s|]; [..|discriminate Ec]; injection Ec as <- _; try done.
  split; [done|]. by right.
Qed.

(** *** What is sent for a substream is settled once *)

#[local] Abbreviation InboundEntry := (InboundSubstreamState * option Key * Protocol)%type.

Definition sent (s : Inbound) : list byte := in_wire s ++ in_buffer s.

(** How a substream goes on: once a response waits to be sent no other takes its
    place, and once it is in the buffer nothing is added to it. *)
Definition goes_on (st st' : InboundSubstreamState) : Prop :=
  match st, st' with
  | _, InPoisoned | InPoisoned, _ => False
  | ResponseIdle _, _ => True
  | ResponsePendingSend _ m _, ResponsePendingSend _ m' _ => m' = m
  | ResponsePendingSend _ m _, ResponsePendingFlush s' _ => sent s' = (encoding m).2
  | ResponsePendingSend _ m _, InClosing s' => sent s' = [] \/ sent s' = (encoding m).2
  | ResponsePendingFlush s _, (ResponsePendingFlush s' _ | InClosing s') | InClosing s, InClosing s' =>
    sent s' = sent s
  | _, _ => False
  end.

Lemma goes_on_refl st : st <> InPoisoned -> goes_on st st.
Proof. by destruct st. Qed.

Lemma goes_on_trans st1 st2 st3 : goes_on st1 st2 -> goes_on st2 st3 -> goes_on st1 st3.
Proof.
  destruct st1, st2; try done; destruct st3; try done; cbn; try congruence; try (by intros ->).
  intros E ->. by right.
Qed.

(** Every substream of [h'] was one of [h] and has gone on. *)
Definition onward (h h' : RPCHandler) : Prop :=
  forall id e', inbound_substreams h' !! id = Some e' ->
    exists e, inbound_substreams h !! id = Some e /\ goes_on e.1.1 e'.1.1.

Lemma in_moves_sent s s' : in_moves s s' -> sent s' = sent s.
Proof. intros (_ & n & Hw & Hb). unfold sent. by rewrite Hw, Hb, <-app_assoc, take_drop. Qed.

Lemma nothing_sent_nil s : nothing_sent s -> sent s = [].
Proof. intros (Hw & Hb & _). unfold sent. by rewrite Hw, Hb. Qed.

Lemma set_goes_on id st (e : InboundEntry) h (e' : InboundEntry) :
  goes_on e.1.1 st -> inbound_substreams (set_inbound_state id st h) !! id = Some e' -> goes_on e.1.1 e'.1.1.
Proof.
  intros Hst. cbn. rewrite lookup_alter_eq. destruct (inbound_substreams h !! id); [|done]. by intros [= <-].
Qed.

Lemma turn_goes_on given now id (e : InboundEntry) h further event h' (e' : InboundEntry) :
  inv h -> server_ok given h -> inbound_substreams h !! id = Some e ->
  drive_inbound_turn now id h = Ret (further, event, h') -> inbound_substreams h' !! id = Some e' ->
  goes_on e.1.1 e'.1.1.
Proof.
  intros Hinv Hok He Hr. pose proof (Hok id _ He) as Hst.
  pose proof (inv_inbound _ Hinv id _ He) as (_ & Hi & _). destruct e as [[st ko] p]. cbn [fst] in Hst, Hi |- *.
  pose proof (fun st' x => set_goes_on id st' (st, ko, p) x e') as Hset. cbn [fst] in Hset.
  assert (Hgone : forall h1 q, drop_inbound now id ko h1 = Ret q -> inbound_substreams q !! id = Some e' -> goes_on st e'.1.1).
  { intros h1 q Hd. unfold drop_inbound in Hd.
    destruct (match ko with Some _ => _ | None => _ end) as [h2| |]; [|done..]. injection Hd as <-.
    rewrite (update_keep_alive_frame inbound_substreams) by done. cbn. by rewrite lookup_delete_eq. }
  revert Hr. unfold drive_inbound_turn. rewrite He.
  destruct st as [s m closing|s closing|s|s|]; cbn [inbound_state_ok] in Hi;
    [subst closing; destruct Hst as [Hs Hm]|subst closing| | |done].
  - unfold drive_pending_send. destruct (is_deactivated _).
    { intros [= _ _ <-]. apply Hset. left. by apply nothing_sent_nil. }
    destruct (in_poll_ready s) as [r s1] eqn:Er. apply in_poll_ready_moves in Er.
    pose proof (in_moves_nothing _ _ Er Hs) as Hs1. destruct r as [[[]|e]|].
    + destruct (in_start_send m s1) as [ok s2] eqn:Es. apply in_start_send_encodes in Es as (Henc & Hw & _).
      destruct Hs1 as (Hw1 & Hb1 & protocol & Hp). rewrite Hp, encode_fresh in Henc. injection Henc as Henc.
      assert (Hh : sent s2 = (encoding m).2) by (unfold sent; by rewrite Hw, Hw1, Henc).
      destruct ok as [[]|e]; intros [= _ _ <-]; apply Hset; [done|by right].
    + intros [= _ _ <-]. rewrite (update_keep_alive_frame inbound_substreams) by done. cbn. by rewrite lookup_delete_eq.
    + intros [= _ _ <-]. by apply Hset.
  - unfold drive_pending_flush. destruct (in_poll_flush s) as [r s1] eqn:Er.
    apply in_poll_flush_moves in Er as [Er _]. apply in_moves_sent in Er.
    destruct r as [[[]|e]|]; cbn [orb].
    + intros [= _ _ <-]. by apply Hset.
    + destruct (drop_inbound now id ko _) as [h1| |] eqn:Ed; [|done..]. intros [= _ _ <-]. by eapply Hgone.
    + intros [= _ _ <-]. by apply Hset.
  - destruct (is_deactivated _).
    + intros [= _ _ <-]. by apply Hset.
    + rewrite apply_queued_idle by done. intros [= _ _ <-]. by apply Hset.
  - destruct (in_poll_close s) as [r s1] eqn:Er. apply in_poll_close_moves, in_moves_sent in Er. destruct r as [r|].
    + destruct (drop_inbound now id ko _) as [h1| |] eqn:Ed; [|done..]. intros [= _ _ <-]. by eapply Hgone.
    + intros [= _ _ <-]. by apply Hset.
Qed.

Lemma onward_same h h1 h2 : inbound_substreams h2 = inbound_substreams h1 -> onward h h1 -> onward h h2.
Proof. unfold onward. by intros ->. Qed.

Lemma expire_inbound_onward h id h1 h2 : onward h h1 -> expire_inbound id h1 = Ret h2 -> onward h h2.
Proof.
  intros Ho. unfold expire_inbound. destruct (inbound_substreams h1 !! id) as [[[st ko] p]|] eqn:He; [|by intros [= <-]].
  destruct (close st _) as [[st' queue]| |] eqn:Ec; [|done..]. intros [= <-] j x.
  cbn [inbound_substreams set_queued_outbound_items set_inbound_substreams].
  rewrite lookup_insert. case_decide; [subst j|apply Ho]. intros [= <-]. cbn [fst].
  destruct (Ho id _ He) as (e & He0 & Hg). exists e. split; [done|]. eapply goes_on_trans; [exact Hg|]. cbn [fst].
  by destruct st as [s m closing|s closing|s|s|]; [..|discriminate Ec]; injection Ec as <- _.
Qed.

Lemma turn_onward given h now id h1 further event h2 :
  inv h1 -> server_ok given h1 -> onward h h1 -> is_Some (inbound_substreams h1 !! id) ->
  drive_inbound_turn now id h1 = Ret (further, event, h2) -> onward h h2.
Proof.
  intros Hinv Hok Ho [x Hx] Hr j e' He'.
  destruct (drive_inbound_turn_ok now id x h1 Hinv Hx) as (f & ev & h3 & Hr3 & _ & _ & Hother & _).
  rewrite Hr in Hr3. injection Hr3 as <- <- <-. destruct (decide (j = id)) as [->|Hj].
  - destruct (Ho id x Hx) as (e & He & Hg). exists e. split; [done|]. eapply goes_on_trans; [exact Hg|].
    by eapply turn_goes_on.
  - rewrite Hother in He' by done. by apply Ho.
Qed.

Lemma poll_onward given now h e h' : serving given h -> poll now h = Ret (e, h') -> onward h h'.
Proof.
  intros [Hinv Hok] Hr.
  apply (poll_keeps (fun h1 => server_ok given h1 /\ onward h h1)) in Hr as (_ & _ & Ho); [done| | | |].
  - intros h1 h2 Hs [Hok1 Ho1]. split; [by eapply server_ok_ext|by eapply onward_same].
  - intros id h1 h2 [Hok1 Ho1] Hx. split; [by eapply expire_inbound_server|by eapply expire_inbound_onward].
  - intros now1 id h1 further event h2 Hinv1 [Hok1 Ho1] Hx Ht. split; [by eapply turn_server|by eapply turn_onward].
  - split; [done|]. split; [done|]. intros id x Hx. exists x. split; [done|]. apply goes_on_refl.
    pose proof (inv_inbound _ Hinv id x Hx) as (_ & Hi & _). intros Hp. by rewrite Hp in Hi.
Qed.

Lemma poll_server given now h : serving given h -> keeps (serving given) (poll now h).
Proof.
  intros Hs. apply (poll_keeps (server_ok given)); [| | |done].
  - intros h1 h2. apply server_ok_ext.
  - intros id h1 h2. apply expire_inbound_server.
  - intros now1 id h1 further event h2. apply turn_server.
Qed.

(** ** A node: its handler, and what was given and received *)

(** A substream as the upgrades hand it over. *)
Definition call_framed (c : HandlerCall) : Prop :=
  match c with
  | CallNegotiatedInbound _ s => nothing_sent s
  | CallNegotiatedOutbound out info =>
    out_buffer out = [] /\ exists protocol, message_name protocol = request_protocol info.2 /\
      out_codec out = fresh_outbound protocol MAX_RPC_SIZE
  | _ => True
  end.

(** The handler in its world, the response given for each substream, and the
    bytes that arrive on each substream the node opened. *)
Record Node := mkNode {
  world : World;
  given : gmap SubstreamId RPCCodedResponse;
  streams : gmap SubstreamId (list byte);
}.

(** A response is taken when its substream waits for one. *)
Definition given_after (c : HandlerCall) (h : RPCHandler) (g : gmap SubstreamId RPCCodedResponse)
    : gmap SubstreamId RPCCodedResponse :=
  match c with
  | CallEvent (Send_Response id response) =>
    match inbound_substreams h !! id with
    | Some (ResponseIdle _, _, _) => <[id := response]> g
    | _ => g
    end
  | _ => g
  end.

Definition streams_after (c : HandlerCall) (h : RPCHandler) (s : gmap SubstreamId (list byte))
    : gmap SubstreamId (list byte) :=
  match c with
  | CallNegotiatedOutbound out _ => <[current_outbound_substream_id h := out_arrives out]> s
  | _ => s
  end.

Definition node_handler (n : Node) : RPCHandler := handler (world n).

Definition after_node (c : HandlerCall) (event : option HandlerEvent) (h' : RPCHandler) (n : Node) : Node :=
  mkNode (after_call c event h' (world n)) (given_after c (node_handler n) (given n))
    (streams_after c (node_handler n) (streams n)).

Definition node_step (n n' : Node) : Prop :=
  exists now c event h', call_ok c (world n) /\ call_framed c /\
    run_call now c (node_handler n) = Ret (event, h') /\ n' = after_node c event h' n.

Definition node_reachable (n : Node) : Prop :=
  exists timeout, rtc node_step (mkNode (mkWorld (new timeout) 0 0) ∅ ∅) n.

Lemma node_world n : node_reachable n -> world_reachable (world n).
Proof.
  intros [timeout Hr]. exists timeout.
  apply rtc_ind_r with (P := fun n => rtc world_step (mkWorld (new timeout) 0 0) (world n)) in Hr;
    [done|apply rtc_refl|].
  intros n1 n2 _ (now & c & event & h' & Hok & _ & Hrun & ->) IH. eapply rtc_r; [exact IH|].
  by exists now, c, event, h'.
Qed.

(** *** The calls of the server side *)

Lemma answer_ok_mono (A B : RPCCodedResponse -> Prop) st :
  (forall m, A m -> B m) -> answer_ok A st -> answer_ok B st.
Proof.
  intros HAB. destruct st; cbn; try done.
  - intros [Hs Hm]. eauto.
  - intros (m & Hm & Hh). eauto.
  - intros [Hh|(m & Hm & Hh)]; eauto.
Qed.

Lemma send_response_server g id response h h' :
  inv h -> server_ok g h -> send_response id response h = Ret h' ->
  server_ok (given_after (CallEvent (Send_Response id response)) h g) h'.
Proof.
  intros Hinv Hok Hr. unfold send_response in Hr. cbn [given_after].
  destruct (inbound_substreams h !! id) as [[[st ko] p]|] eqn:He; [|by injection Hr as <-].
  destruct (report_error_response_ok id p response h Hinv) as (h1 & Hr1 & _ & Hs & _ & _).
  rewrite Hr1 in Hr. cbn [mbind Outcome_bind] in Hr.
  assert (Hok1 : server_ok (match st with ResponseIdle _ => <[id:=response]> g | _ => g end) h1).
  { intros j e Hj. rewrite Hs in Hj. pose proof (Hok j e Hj) as Ha.
    destruct st; try exact Ha. destruct (decide (j = id)) as [->|Hne].
    - rewrite He in Hj. by injection Hj as <-.
    - revert Ha. apply answer_ok_mono. unfold allowed. by rewrite lookup_insert_ne. }
  pose proof (Hok1 id (st, ko, p)) as Hst. rewrite Hs in Hst. specialize (Hst He). cbn [fst] in Hst.
  destruct (is_deactivated (state h1)); [by injection Hr as <-|].
  assert (Hok2 : forall q st', answer_ok (allowed (match st with ResponseIdle _ => <[id:=response]> g | _ => g end) id) st' ->
    server_ok (match st with ResponseIdle _ => <[id:=response]> g | _ => g end)
      (set_inbound_state id st' (set_queued_outbound_items q (set_inbound_state id InPoisoned h1)))).
  { intros q st' Hst'. apply server_ok_set; [|done]. by apply (server_ok_ext _ (set_inbound_state id InPoisoned h1)), server_ok_set. }
  destruct st as [s m closing|s closing|s|s|]; [| | | |done].
  - destruct (multiple_responses response); injection Hr as <-; by apply Hok2.
  - destruct (multiple_responses response); injection Hr as <-; by apply Hok2.
  - injection Hr as <-. apply Hok2. split; [done|]. left. by rewrite lookup_insert_eq.
  - injection Hr as <-. by apply Hok2.
Qed.

Lemma negotiated_inbound_server g now req s h h' :
  nothing_sent s -> server_ok g h -> inject_fully_negotiated_inbound now req s h = Ret h' -> server_ok g h'.
Proof.
  intros Hs Hok [[_ ->]|(n & h1 & _ & _ & -> & Hh1)]%negotiated_inbound_cases; [done|].
  apply server_ok_keep_alive. intros j e. cbn [inbound_substreams set_current_inbound_substream_id set_events_out].
  destruct Hh1 as [[_ ->]|(_ & key & q & _ & ->)]; [apply Hok|]. cbn. rewrite lookup_insert.
  case_decide; [by intros [= <-]|apply Hok].
Qed.

Lemma run_call_server g now c h event h' :
  serving g h -> call_framed c -> run_call now c h = Ret (event, h') -> server_ok (given_after c h g) h'.
Proof.
  intros [Hinv Hok] Hf Hr. destruct c as [final_msg|req s|out info|ev|info error|]; cbn [run_call] in Hr.
  - injection Hr as _ <-. eapply server_ok_ext, Hok. pose proof (shutdown_substreams now final_msg h) as E.
    by injection E.
  - destruct (inject_fully_negotiated_inbound now req s h) as [h1| |] eqn:E; [|done..]. injection Hr as _ <-.
    by eapply negotiated_inbound_server.
  - destruct (inject_fully_negotiated_outbound now out info h) as [h1| |] eqn:E; [|done..]. injection Hr as _ <-.
    apply negotiated_outbound_same in E as [E _]. by eapply server_ok_ext.
  - destruct ev as [id req|id response]; cbn [inject_event] in Hr.
    + injection Hr as _ <-. eapply server_ok_same, Hok. apply send_request_same.
    + destruct (send_response id response h) as [h1| |] eqn:E; [|done..]. injection Hr as _ <-.
      by apply send_response_server.
  - destruct (inject_dial_upgrade_error now info error h) as [h1| |] eqn:E; [|done..]. injection Hr as _ <-.
    eapply server_ok_same, Hok. by eapply dial_error_same.
  - by eapply poll_server.
Qed.

(** No call takes a substream back. *)
Lemma send_response_onward id response h h' :
  inv h -> send_response id response h = Ret h' -> onward h h'.
Proof.
  intros Hinv Hr. unfold send_response in Hr.
  assert (Hrefl : forall h1, inbound_substreams h1 = inbound_substreams h -> onward h h1).
  { intros h1 Hs j x. rewrite Hs. intros Hx. exists x. split; [done|]. apply goes_on_refl.
    pose proof (inv_inbound _ Hinv j x Hx) as (_ & Hi & _). intros Hp. by rewrite Hp in Hi. }
  destruct (inbound_substreams h !! id) as [[[st ko] p]|] eqn:He; [|injection Hr as <-; by apply Hrefl].
  destruct (report_error_response_ok id p response h Hinv) as (h1 & Hr1 & _ & Hs & _ & _).
  rewrite Hr1 in Hr. cbn [mbind Outcome_bind] in Hr.
  destruct (is_deactivated (state h1)); [injection Hr as <-; by apply Hrefl|].
  assert (Hset : forall q st', goes_on st st' ->
    onward h (set_inbound_state id st' (set_queued_outbound_items q (set_inbound_state id InPoisoned h1)))).
  { intros q st' Hst' j x. cbn. rewrite Hs. destruct (decide (id = j)) as [<-|Hj].
    - rewrite !lookup_alter_eq, He. intros [= <-]. exists (st, ko, p). by split.
    - rewrite !lookup_alter_ne by done. intros Hx. apply (Hrefl h1); [done|]. by rewrite Hs. }
  destruct st as [s m closing|s closing|s|s|]; [| | | |done].
  - destruct (multiple_responses response); injection Hr as <-; by apply Hset.
  - destruct (multiple_responses response); injection Hr as <-; by apply Hset.
  - injection Hr as <-. by apply Hset.
  - injection Hr as <-. by apply Hset.
Qed.

Lemma run_call_onward g now c h event h' id (e e' : InboundEntry) :
  serving g h -> run_call now c h = Ret (event, h') ->
  inbound_substreams h !! id = Some e -> inbound_substreams h' !! id = Some e' -> goes_on e.1.1 e'.1.1.
Proof.
  intros [Hinv Hok] Hr He He'.
  assert (Hne : e.1.1 <> InPoisoned).
  { pose proof (inv_inbound _ Hinv id e He) as (_ & Hi & _). intros Hp. by rewrite Hp in Hi. }
  assert (Hsame : inbound_substreams h' = inbound_substreams h -> goes_on e.1.1 e'.1.1).
  { intros Hs. assert (e' = e) as -> by (rewrite Hs in He'; congruence). by apply goes_on_refl. }
  assert (Hon : onward h h' -> goes_on e.1.1 e'.1.1).
  { intros Ho. destruct (Ho id e' He') as (e1 & He1 & Hg). by assert (e1 = e) as -> by congruence. }
  destruct c as [final_msg|req s|out info|ev|info error|]; cbn [run_call] in Hr.
  - injection Hr as _ <-. apply Hsame. pose proof (shutdown_substreams now final_msg h) as E. by injection E.
  - destruct (inject_fully_negotiated_inbound now req s h) as [h1| |] eqn:E; [|done..]. injection Hr as _ <-.
    apply negotiated_inbound_cases in E as [[_ ->]|(n & h2 & _ & _ & -> & Hh2)]; [by apply Hsame|].
    rewrite (update_keep_alive_frame inbound_substreams) in He' by done.
    assert (e' = e) as ->; [|by apply goes_on_refl]. revert He'. cbn.
    destruct Hh2 as [[_ ->]|(_ & key & q & _ & ->)]; [congruence|]. cbn.
    pose proof (proj1 (inv_inbound _ Hinv id e He)). rewrite lookup_insert_ne by lia. congruence.
  - destruct (inject_fully_negotiated_outbound now out info h) as [h1| |] eqn:E; [|done..]. injection Hr as _ <-.
    apply negotiated_outbound_same in E as [E _]. by apply Hsame.
  - destruct ev as [j req|j response]; cbn [inject_event] in Hr.
    + injection Hr as _ <-. apply Hsame. pose proof (send_request_same now j req h) as E.
      unfold same_in, outside_outbound in E. congruence.
    + destruct (send_response j response h) as [h1| |] eqn:E; [|done..]. injection Hr as _ <-.
      by apply Hon; eapply send_response_onward.
  - destruct (inject_dial_upgrade_error now info error h) as [h1| |] eqn:E; [|done..]. injection Hr as _ <-.
    apply Hsame. apply dial_error_same in E. unfold same_in, outside_outbound in E. congruence.
  - by eapply Hon, poll_onward.
Qed.

Lemma node_server n : node_reachable n -> server_ok (given n) (node_handler n).
Proof.
  intros Hn. destruct Hn as [timeout Hr].
  apply rtc_ind_r with (P := fun n => server_ok (given n) (node_handler n)) in Hr; [done| |].
  - intros id e. cbn. by rewrite lookup_empty.
  - intros n1 n2 Hr1 (now & c & event & h' & Hok & Hf & Hrun & ->) IH.
    eapply run_call_server; [|done|exact Hrun]. split; [|done].
    apply world_reachable_inv, node_world. by exists timeout.
Qed.

(** ** The end that asked *)

(** [s] has read a part of the stream [bytes], which holds no whole response yet. *)
Definition reading (p : Protocol) (bytes : list byte) (s : Outbound) : Prop :=
  exists protocol chunks, message_name protocol = p /\ bytes = concat chunks ++ out_arrives s /\
    feed OutboundCodec_decode (fresh_outbound protocol MAX_RPC_SIZE) [] chunks = Ret (None, out_codec s, out_buffer s).

(** [resp] is the first thing in the stream [bytes]. *)
Definition decodes (p : Protocol) (bytes : list byte) (resp : RPCResponse) : Prop :=
  exists protocol chunks rest c buf, message_name protocol = p /\ bytes = concat chunks ++ rest /\
    feed OutboundCodec_decode (fresh_outbound protocol MAX_RPC_SIZE) [] chunks =
      Ret (Some (Ok (Success resp)), c, buf).

Definition awaits (str : gmap SubstreamId (list byte)) (id : SubstreamId) (info : OutboundInfo) : Prop :=
  match out_state info with
  | RequestPendingResponse s _ => exists bytes, str !! id = Some bytes /\ reading (proto info) bytes s
  | _ => True
  end.

Definition is_request (e : RPCReceived) : Prop :=
  match e with Received_Request _ _ => True | Received_Response _ _ => False end.

(** Every substream reads its stream, the events queued are requests, and the
    substreams are those of [h0]. *)
Record client_ok (str : gmap SubstreamId (list byte)) (h0 h : RPCHandler) : Prop := {
  client_awaits : map_Forall (awaits str) (outbound_substreams h);
  client_events : Forall is_request (events_out h);
  client_from : forall id info, outbound_substreams h !! id = Some info ->
    exists info0, outbound_substreams h0 !! id = Some info0 /\ req_id info0 = req_id info /\ proto info0 = proto info;
}.

(** A response that [poll] reports is read from a substream of [h0]. *)
Definition reports (str : gmap SubstreamId (list byte)) (h0 : RPCHandler) (e : option HandlerEvent) : Prop :=
  forall id resp, e = Some (Custom (Ok (Received_Response id resp))) ->
    exists o info bytes, outbound_substreams h0 !! o = Some info /\ req_id info = id /\
      str !! o = Some bytes /\ decodes (proto info) bytes resp.

Definition client_post str h0 (p : Phase) : Prop :=
  forall e h', p = Ret (e, h') -> client_ok str h0 h' /\ reports str h0 e.

Lemma then_phase_client str h0 p k :
  client_post str h0 p -> (forall h, client_ok str h0 h -> client_post str h0 (k h)) ->
  client_post str h0 (then_phase p k).
Proof.
  intros Hp Hk e h'. unfold then_phase. destruct p as [[e1 h1]| |]; cbn [mbind Outcome_bind]; [|done..].
  destruct (Hp e1 h1 eq_refl) as [Hok Hrep]. destruct e1; [by intros [= <- <-]|]. by apply Hk.
Qed.

Lemma client_ok_ext str h0 h h' :
  outbound_substreams h' = outbound_substreams h -> events_out h' = events_out h ->
  client_ok str h0 h -> client_ok str h0 h'.
Proof. intros Ho He [Ha Hev Hf]. split; by rewrite ?Ho, ?He. Qed.

Lemma client_ok_substreams str h h' :
  substreams_of h' = substreams_of h -> client_ok str h h -> client_ok str h' h'.
Proof. unfold substreams_of. intros [= _ Ho He] [Ha Hev _]. split; rewrite ?Ho, ?He; eauto. Qed.

Lemma client_ok_same str h0 h h' : same_out h h' -> client_ok str h0 h -> client_ok str h0 h'.
Proof. unfold same_out, outside_inbound. intros Hs. apply client_ok_ext; congruence. Qed.

Lemma client_ok_keep_alive str h0 now h : client_ok str h0 h -> client_ok str h0 (update_keep_alive now h).
Proof. apply client_ok_ext; by rewrite update_keep_alive_frame. Qed.

Lemma client_ok_set str h0 id st h :
  client_ok str h0 h ->
  (forall info, outbound_substreams h !! id = Some info ->
     awaits str id (mkOutboundInfo st (delay_key info) (proto info) (remaining_chunks info) (req_id info))) ->
  client_ok str h0 (set_outbound_state id st h).
Proof.
  intros [Ha Hev Hf] Hst. split; [|done|].
  - intros j info. cbn. rewrite lookup_alter. case_decide; [subst j|apply Ha].
    destruct (outbound_substreams h !! id) as [info0|]; [|done]. intros [= <-]. by apply Hst.
  - intros j info. cbn. rewrite lookup_alter. case_decide; [subst j|apply Hf].
    destruct (outbound_substreams h !! id) as [info0|] eqn:E; [|done]. intros [= <-]. by apply (Hf id info0).
Qed.

Lemma client_ok_delete str h0 id h h' :
  outbound_substreams h' = delete id (outbound_substreams h) -> events_out h' = events_out h ->
  client_ok str h0 h -> client_ok str h0 h'.
Proof.
  intros Ho He [Ha Hev Hf]. split; rewrite ?Ho, ?He; [|done|].
  - intros j info [_ Hj]%lookup_delete_Some. by apply Ha.
  - intros j info [_ Hj]%lookup_delete_Some. by apply Hf.
Qed.

Lemma drop_outbound_client str h0 now id info h h' :
  client_ok str h0 h -> drop_outbound now id info h = Ret h' -> client_ok str h0 h'.
Proof.
  intros Hok. unfold drop_outbound. destruct (dq_remove _ _) as [q| |]; [|done..]. intros [= <-].
  apply client_ok_keep_alive. revert Hok. by apply (client_ok_delete _ _ id).
Qed.

Definition no_response (e : option HandlerEvent) : Prop :=
  match e with Some (Custom (Ok (Received_Response _ _))) => False | _ => True end.

Lemma no_response_reports str h0 e : no_response e -> reports str h0 e.
Proof. intros Hn id resp ->. done. Qed.

(** The substream that is driven gets its next state. *)
Lemma client_ok_next str h0 id info st h :
  client_ok str h0 h -> outbound_substreams h !! id = Some info ->
  (forall i, proto i = proto info -> out_state i = st -> awaits str id i) ->
  client_ok str h0 (set_outbound_state id st (set_outbound_state id OutPoisoned h)).
Proof.
  intros Hok He Hst. apply client_ok_set; [by apply client_ok_set|]. intros i. cbn.
  rewrite lookup_alter_eq, He. cbn. intros [= <-]. by apply Hst.
Qed.

Lemma client_ok_closing str h0 id info s h :
  client_ok str h0 h -> outbound_substreams h !! id = Some info ->
  client_ok str h0 (set_outbound_state id (OutClosing s) (set_outbound_state id OutPoisoned h)).
Proof. intros Hok He. eapply client_ok_next; [done..|]. intros i _ Hi. unfold awaits. by rewrite Hi. Qed.

Lemma drop_driven_client str h0 now id info event h e h' :
  client_ok str h0 h -> no_response event ->
  (h1 ← drop_outbound now id info (set_outbound_state id OutPoisoned h); mret (event, h1)) = Ret (e, h') ->
  client_ok str h0 h' /\ reports str h0 e.
Proof.
  intros Hok Hn. destruct (drop_outbound now id info _) as [h1| |] eqn:Ed; [|done..]. intros [= <- <-].
  split; [|by apply no_response_reports]. eapply drop_outbound_client, Ed. by apply client_ok_set.
Qed.

(** One substream: what it reports is what it has read. *)
Lemma pending_response_client str h0 now id info s req h :
  client_ok str h0 h -> outbound_substreams h !! id = Some info -> out_state info = RequestPendingResponse s req ->
  client_post str h0 (drive_pending_response now id info s req (set_outbound_state id OutPoisoned h)).
Proof.
  intros Hok He Hst e h'. pose proof (client_awaits _ _ _ Hok id info He) as Ha. unfold awaits in Ha. rewrite Hst in Ha.
  destruct Ha as (bytes & Hbytes & protocol & seen & Hp & Hb & Hfeed).
  unfold drive_pending_response. destruct (out_poll_next s) as [r s1] eqn:Er.
  apply out_poll_next_decodes in Er as (chunks & Harr & Hr).
  assert (Hall : bytes = concat (seen ++ chunks) ++ out_arrives s1)
    by by rewrite concat_app, <-app_assoc, <-Harr.
  rewrite <-(feed_app _ _ _ _ chunks _ _ Hfeed) in Hr.
  destruct r as [[[item|err]|]|]; [|by apply drop_driven_client..|].
  - rewrite outbound_chunk_closes. cbn [mbind Outcome_bind].
    destruct (received_response info item) as [rec| |] eqn:Erec; [|done..].
    intros [= <- <-]. split; [by eapply client_ok_closing|].
    intros rid resp [= ->]. destruct item as [resp'|?|?|?]; try done. injection Erec as <- <-.
    destruct (client_from _ _ _ Hok id info He) as (info0 & Hi0 & Hid0 & Hp0).
    exists id, info0, bytes. do 3 (split; [done|]). rewrite Hp0. by eexists protocol, _, _, _, _.
  - intros [= <- <-]. split; [|done]. eapply client_ok_next; [done..|]. intros i Hi1 Hi2. unfold awaits. rewrite Hi2, Hi1.
    exists bytes. split; [done|]. by eexists protocol, _.
Qed.

Lemma drive_outbound_client str h0 now id h :
  client_ok str h0 h -> client_post str h0 (drive_outbound now id h).
Proof.
  intros Hok e h'. unfold drive_outbound. destruct (outbound_substreams h !! id) as [info|] eqn:He; [|done].
  destruct (out_state info) as [s req|s|] eqn:Hst; [| |done].
  - destruct (is_deactivated _); [|by apply pending_response_client]. intros [= <- <-]. split; [|done].
    eapply client_ok_ext; [..|by eapply client_ok_closing]; done.
  - destruct (out_poll_close s) as [[r|] s1]; [by apply drop_driven_client|].
    intros [= <- <-]. split; [|done]. by eapply client_ok_closing.
Qed.

Lemma drive_all_outbound_client str h0 now ids h :
  client_ok str h0 h -> client_post str h0 (drive_all_outbound now ids h).
Proof.
  revert h; induction ids as [|id ids IH]; intros h Hok e h'; cbn [drive_all_outbound]; [by intros [= <- <-]|].
  pose proof (drive_outbound_client str h0 now id h Hok) as Hd.
  destruct (drive_outbound now id h) as [[e1 h1]| |]; [|done..]. cbn [mbind Outcome_bind].
  destruct (Hd e1 h1 eq_refl) as [Hok1 Hrep]. destruct e1; [by intros [= <- <-]|]. by apply IH.
Qed.

Lemma purge_outbound_client str h0 fuel now h :
  client_ok str h0 h -> client_post str h0 (purge_outbound fuel now h).
Proof.
  revert h; induction fuel as [|fuel IH]; intros h Hok e h'; [done|]. cbn [purge_outbound].
  destruct (dq_poll now _) as [r q].
  assert (Hq : client_ok str h0 (set_outbound_substreams_delay q h)) by by apply (client_ok_ext _ _ h).
  destruct r as [k| | |]; [|by intros [= <- <-]..].
  destruct (outbound_substreams (set_outbound_substreams_delay q h) !! k) as [info|]; [|by apply IH].
  intros [= <- <-]. split; [|done]. apply client_ok_keep_alive. by eapply client_ok_delete, Hq.
Qed.

Lemma purge_inbound_no_response fuel now h e h' : purge_inbound fuel now h = Ret (e, h') -> no_response e.
Proof.
  revert h; induction fuel as [|fuel IH]; intros h; [done|]. cbn [purge_inbound].
  destruct (dq_poll now _) as [[k| | |] q]; try (by intros [= <- _]).
  destruct (expire_inbound k _) as [h1| |]; [|done..]. apply IH.
Qed.

Lemma turn_no_response now id h further e h' : drive_inbound_turn now id h = Ret (further, e, h') -> no_response e.
Proof.
  unfold drive_inbound_turn, drive_pending_send, drive_pending_flush, mbind, Outcome_bind, mret, Outcome_ret. intros Hr.
  repeat match goal with
  | E : Ret _ = Ret _ |- _ => injection E as; subst
  | E : context [match ?x with _ => _ end] |- _ => destruct x
  end; done.
Qed.

Lemma drive_all_inbound_no_response now ids h e h' : drive_all_inbound now ids h = Ret (e, h') -> no_response e.
Proof.
  revert h; induction ids as [|id ids IH]; intros h; cbn [drive_all_inbound]; [by intros [= <- _]|].
  assert (Hdrive : forall fuel h e h', drive_inbound fuel now id h = Ret (e, h') -> no_response e).
  { clear. induction fuel as [|fuel IH]; intros h e h'; [done|]. cbn [drive_inbound].
    destruct (drive_inbound_turn now id h) as [[[b e1] h1]| |] eqn:E; [|done..]. cbn [mbind Outcome_bind].
    apply turn_no_response in E. destruct e1; [by intros [= <- _]|]. destruct b; [apply IH|by intros [= <- _]]. }
  destruct (drive_inbound _ now id h) as [[e1 h1]| |] eqn:E; [|done..]. cbn [mbind Outcome_bind].
  apply Hdrive in E. destruct e1; [by intros [= <- _]|]. apply IH.
Qed.

(** A phase that leaves the outbound substreams alone. *)
Lemma client_post_same str h0 h p :
  client_ok str h0 h -> (forall e h', p = Ret (e, h') -> same_out h h' /\ no_response e) -> client_post str h0 p.
Proof.
  intros Hok Hp e h' Hr. destruct (Hp e h' Hr) as [Hs Hn].
  split; [by eapply client_ok_same|by apply no_response_reports].
Qed.

Lemma poll_client str h0 now h : client_ok str h0 h -> client_post str h0 (poll now h).
Proof.
  intros Hok. unfold poll. apply then_phase_client.
  { apply (client_post_same _ _ h); [done|]. intros e h' [= Hr]. unfold report_errors in Hr.
    unfold same_out. by destruct (pending_errors h); injection Hr as <- <-. }
  clear h Hok. intros h Hok. apply then_phase_client.
  { intros e h' [= Hr]. unfold report_events in Hr. pose proof (client_events _ _ _ Hok) as Hev.
    destruct (events_out h) as [|event rest] eqn:E; injection Hr as <- <-; [done|].
    apply Forall_cons_1 in Hev as [Hq Hrest].
    split; [|by apply no_response_reports; destruct event]. by destruct Hok. }
  clear h Hok. intros h Hok. cbv zeta. assert (Hok1 : client_ok str h0 (check_shutdown now h)).
  { revert Hok. unfold check_shutdown. by destruct (state h); [|destruct (is_elapsed _ _)|]; apply client_ok_ext. }
  revert Hok1. generalize (check_shutdown now h). clear h Hok. intros h Hok. apply then_phase_client.
  { apply (client_post_same _ _ h); [done|]. eauto using purge_inbound_same, purge_inbound_no_response. }
  clear h Hok. intros h Hok. apply then_phase_client; [by apply purge_outbound_client|].
  clear h Hok. intros h Hok. apply then_phase_client.
  { apply (client_post_same _ _ h); [done|]. eauto using drive_all_inbound_same, drive_all_inbound_no_response. }
  clear h Hok. intros h Hok. apply then_phase_client; [by apply drive_all_outbound_client|].
  clear h Hok. intros h Hok e h'. unfold dial_next. destruct (dial_queue h) as [|[id req] rest]; [by intros [= <- <-]|].
  case_decide; [|by intros [= <- <-]]. destruct (add_w 32 _ 1); [|done..]. intros [= <- <-]. split; [|done].
  apply client_ok_keep_alive. by apply (client_ok_ext _ _ h).
Qed.

(** *** The calls of the client side *)

Lemma negotiated_outbound_client str now out info h h' :
  inv h -> client_ok str h h -> call_framed (CallNegotiatedOutbound out info) ->
  inject_fully_negotiated_outbound now out info h = Ret h' ->
  client_ok (streams_after (CallNegotiatedOutbound out info) h str) h' h'.
Proof.
  intros Hinv [Ha Hev _] (Hbuf & protocol & Hp & Hcodec) Hr. destruct info as [id request].
  cbn [streams_after]. set (sid := current_outbound_substream_id h) in *.
  assert (Hold : map_Forall (awaits (<[sid:=out_arrives out]> str)) (outbound_substreams h)).
  { intros j i Hj. specialize (Ha j i Hj). unfold awaits in *. destruct (out_state i); [|done..].
    rewrite lookup_insert_ne; [done|]. pose proof (proj1 (inv_outbound _ Hinv j i Hj)). unfold sid. lia. }
  assert (Hgen : forall h1, map_Forall (awaits (<[sid:=out_arrives out]> str)) (outbound_substreams h1) ->
    events_out h1 = events_out h -> client_ok (<[sid:=out_arrives out]> str) h1 h1).
  { intros h1 Hh1 Hev1. split; [done|by rewrite Hev1|by eauto]. }
  unfold inject_fully_negotiated_outbound in Hr. destruct (sub_w 32 _ 1) as [n| |]; [|done..].
  cbn [mbind Outcome_bind] in Hr. destruct (is_deactivated _); [injection Hr as <-; by apply Hgen|].
  match type of Hr with mbind _ ?x = _ => destruct x as [h1| |] eqn:E; [|done..] end.
  injection Hr as <-. apply Hgen; [|rewrite (update_keep_alive_frame events_out) by done];
    rewrite ?(update_keep_alive_frame outbound_substreams) by done; case_decide; try (by injection E as <-);
    destruct (dq_insert _ _ _ _) as [[key q]| |]; try done; cbn [mbind Outcome_bind] in E;
    destruct (add_w 64 _ 1) as [sid'| |]; try done; injection E as <-; [|done].
  cbn. apply map_Forall_insert_2; [|done]. unfold awaits. cbn. exists (out_arrives out).
  split; [by rewrite lookup_insert_eq|]. exists protocol, []. by rewrite Hbuf, Hcodec.
Qed.

Lemma client_ok_refl str h0 h : client_ok str h0 h -> client_ok str h h.
Proof. intros [Ha Hev _]. split; [done|done|by eauto]. Qed.

Lemma run_call_client str now c h event h' :
  inv h -> client_ok str h h -> call_framed c -> run_call now c h = Ret (event, h') ->
  client_ok (streams_after c h str) h' h'.
Proof.
  intros Hinv Hok Hf Hr. destruct c as [final_msg|req s|out info|ev|info error|]; cbn [run_call] in Hr.
  - injection Hr as _ <-. eapply client_ok_substreams, Hok. apply shutdown_substreams.
  - destruct (inject_fully_negotiated_inbound now req s h) as [h1| |] eqn:E; [|done..]. injection Hr as _ <-.
    apply negotiated_inbound_cases in E as [[_ ->]|(n & h2 & _ & _ & -> & Hh2)]; [done|].
    apply (client_ok_refl _ h), client_ok_keep_alive.
    destruct Hok as [Ha Hev Hfrom]. destruct Hh2 as [[_ ->]|(_ & key & q & _ & ->)];
      (split; [exact Ha|apply Forall_app; split; [done|by constructor]|exact Hfrom]).
  - destruct (inject_fully_negotiated_outbound now out info h) as [h1| |] eqn:E; [|done..]. injection Hr as _ <-.
    by eapply negotiated_outbound_client.
  - destruct ev as [id req|id response]; cbn [inject_event] in Hr.
    + injection Hr as _ <-. eapply client_ok_substreams, Hok. apply send_request_substreams.
    + destruct (send_response id response h) as [h1| |] eqn:E; [|done..]. injection Hr as _ <-.
      eapply client_ok_refl, client_ok_same, Hok. by eapply send_response_same.
  - destruct (inject_dial_upgrade_error now info error h) as [h1| |] eqn:E; [|done..]. injection Hr as _ <-.
    eapply client_ok_substreams, Hok. by eapply dial_error_substreams.
  - destruct (poll_client str h now h Hok event h' Hr) as [Hok' _]. by eapply client_ok_refl.
Qed.

Lemma node_client n : node_reachable n -> client_ok (streams n) (node_handler n) (node_handler n).
Proof.
  intros [timeout Hr].
  apply rtc_ind_r with (P := fun n => client_ok (streams n) (node_handler n) (node_handler n)) in Hr; [done| |].
  - split; [apply map_Forall_empty|by constructor|]. intros id info. cbn. by rewrite lookup_empty.
  - intros n1 n2 Hr1 (now & c & event & h' & Hok & Hf & Hrun & ->) IH.
    eapply run_call_client; [|done|done|exact Hrun]. apply world_reachable_inv, node_world. by exists timeout.
Qed.

(** ** Both ends *)

Definition inbound_socket (st : InboundSubstreamState) : option Inbound :=
  match st with
  | ResponsePendingSend s _ _ | ResponsePendingFlush s _ | ResponseIdle s | InClosing s => Some s
  | InPoisoned => None
  end.

(** What is written on a substream is a part of the encoding of one response. *)
Lemma answer_written A st s :
  answer_ok A st -> inbound_socket st = Some s ->
  in_wire s = [] \/ exists m, A m /\ in_wire s `prefix_of` (encoding m).2.
Proof.
  intros Hok Hs. destruct st as [s' m b|s' b|s'|s'|]; [..|discriminate Hs]; injection Hs as ->; cbn in Hok.
  - left. apply Hok.
  - destruct Hok as (m & Hm & Hh). right. exists m. split; [done|]. by exists (in_buffer s).
  - left. apply Hok.
  - destruct Hok as [[Hw _]%app_nil|(m & Hm & Hh)]; [by left|]. right. exists m. split; [done|].
    by exists (in_buffer s).
Qed.

(** What is decoded from a part of what a node wrote is the response that was
    given for the substream. *)
Lemma decodes_given p bytes resp n id e s :
  decodes p bytes resp -> node_reachable n -> inbound_substreams (node_handler n) !! id = Some e ->
  inbound_socket e.1.1 = Some s -> bytes `prefix_of` in_wire s ->
  exists answer, given n !! id = Some (Success answer) /\
    response_payload (Success resp) = response_payload (Success answer).
Proof.
  intros (protocol & chunks & rest & c & buf & _ & -> & Hfeed) Hn He Hs Hpre.
  destruct (answer_written _ _ _ (node_server n Hn id e He) Hs) as [Hw|(m & Hm & Hw)].
  - rewrite Hw in Hpre. destruct Hpre as [k Hk]. symmetry in Hk. apply app_nil in Hk as [[Hk _]%app_nil _].
    apply feed_short in Hfeed; [done|]. rewrite Hk. cbn. lia.
  - destruct (transitivity Hpre Hw) as [k Hk]. rewrite <-app_assoc in Hk.
    destruct (decoded_success protocol m chunks (rest ++ k) resp c buf (eq_sym Hk) Hfeed) as (answer & -> & Hp & _).
    exists answer. split; [|done]. destruct Hm as [Hm|Hm]; [done|discriminate Hm].
Qed.

Lemma decodes_protocol p bytes resp : decodes p bytes resp -> response_protocol resp = p.
Proof.
  intros (protocol & chunks & rest & c & buf & <- & _ & Hfeed).
  by apply (feed_protocol protocol None None _ _ _ _ _ Hfeed).
Qed.

Lemma response_protocol_payload r r' :
  response_payload (Success r) = response_payload (Success r') -> response_protocol r = response_protocol r' -> r = r'.
Proof. destruct r, r'; cbn; congruence. Qed.

(** ** Properties *)

(** C10: a response that a node reports was given by its peer, for the request it
    is reported for: whatever either node did before, however its bytes were cut
    and delayed on the way, it was read from one substream, under the id of the
    request sent on it and of that request's protocol; and if what arrived there
    was written by a substream of another node, then that node's application
    gave a response with that payload for that substream, the very same if it is
    of the right protocol. In particular no time-out, error, oversized or empty
    response is ever reported as a success. *)
Theorem response_is_the_answer (client : Node) (now : Instant) (id : RequestId) (resp : RPCResponse)
    (h' : RPCHandler) :
  node_reachable client ->
  poll now (node_handler client) = Ret (Some (Custom (Ok (Received_Response id resp))), h') ->
  exists o info bytes,
    outbound_substreams (node_handler client) !! o = Some info /\ req_id info = id /\
    streams client !! o = Some bytes /\ response_protocol resp = proto info /\
    forall server i e s, node_reachable server ->
      inbound_substreams (node_handler server) !! i = Some e -> inbound_socket e.1.1 = Some s ->
      bytes `prefix_of` in_wire s ->
      exists answer, given server !! i = Some (Success answer) /\
        response_payload (Success resp) = response_payload (Success answer) /\
        (response_protocol answer = proto info -> resp = answer).
Proof.
  intros Hc Hr. destruct (poll_client _ _ now _ (node_client client Hc) _ _ Hr) as [_ Hrep].
  destruct (Hrep id resp eq_refl) as (o & info & bytes & Ho & Hid & Hb & Hdec).
  pose proof (decodes_protocol _ _ _ Hdec) as Hp.
  exists o, info, bytes. do 4 (split; [done|]). intros server i e s Hs He Hsock Hpre.
  destruct (decodes_given _ _ _ server i e s Hdec Hs He Hsock Hpre) as (answer & Hg & Hpay).
  exists answer. split; [done|]. split; [done|]. intros Hpa. apply response_protocol_payload; [done|]. congruence.
Qed.

(** What a substream has sent: nothing, or all of one allowed response. *)
Lemma answer_sent (A : RPCCodedResponse -> Prop) st :
  answer_ok A st -> st <> InPoisoned ->
  exists s, inbound_socket st = Some s /\ (sent s = [] \/ exists m, A m /\ sent s = (encoding m).2).
Proof.
  destruct st as [s m b|s b|s|s|]; cbn; intros Hok Hne; try done; exists s; (split; [done|]).
  - left. by apply nothing_sent_nil, Hok.
  - by right.
  - left. by apply nothing_sent_nil.
  - exact Hok.
Qed.

(** C22: a peer gets at most one response on a substream it opened, whatever the
    node goes through. In every reachable node the bytes written on a substream,
    or buffered for it, are none or exactly the encoding of one response: the
    one given for it while it was waiting, or the time-out error; and the
    response that waits to be sent is such a one. No call takes a substream
    back: later responses neither replace nor follow the one that waits or is in
    the buffer, and are not recorded as given. A turn of the driving loop leaves
    the substream where it is or moves it from sending to flushing and from there
    to closing, or drops it, and a substream that waits has no queued chunks, so
    the chunks [send_response] queues are never sent. *)
Theorem one_response_per_substream (n : Node) (id : SubstreamId) (st : InboundSubstreamState)
    (key : option Key) (p : Protocol) :
  node_reachable n -> inbound_substreams (node_handler n) !! id = Some (st, key, p) ->
  (exists s, inbound_socket st = Some s /\
     (sent s = [] \/ exists m, allowed (given n) id m /\ sent s = (encoding m).2)) /\
  (forall s m closing, st = ResponsePendingSend s m closing -> sent s = [] /\ allowed (given n) id m) /\
  (forall now c event h', run_call now c (node_handler n) = Ret (event, h') ->
     (forall st' key' p', inbound_substreams h' !! id = Some (st', key', p') -> goes_on st st') /\
     ((forall s, st <> ResponseIdle s) -> given (after_node c event h' n) !! id = given n !! id)) /\
  (forall substream, st = ResponseIdle substream ->
     default [] (queued_outbound_items (node_handler n) !! id) = []) /\
  forall now, exists further event h', drive_inbound_turn now id (node_handler n) = Ret (further, event, h') /\
    forall st' key' p', inbound_substreams h' !! id = Some (st', key', p') -> inbound_next st st'.
Proof.
  intros Hn He. pose proof (node_server n Hn) as Hok. pose proof (Hok id _ He) as Ha. cbn [fst] in Ha.
  pose proof (proj1 (world_reachable_inv _ (node_world n Hn))) as Hinv. fold (node_handler n) in Hinv.
  pose proof (inv_inbound _ Hinv id _ He) as (_ & Hi & _). cbn in Hi.
  split; [apply answer_sent; [done|by intros ->]|]. split.
  { intros s m closing ->. destruct Ha as [Hs Hm]. split; [by apply nothing_sent_nil|done]. }
  split; [|split; [by intros substream ->|]].
  - intros now c event h' Hr. split.
    + intros st' key' p' He'.
      exact (run_call_onward _ now c _ event h' id _ _ (conj Hinv Hok) Hr He He').
    + intros Hidle. cbn [given after_node]. unfold given_after. destruct c as [| | |[|j response]| |]; try done.
      destruct (decide (j = id)) as [->|Hj].
      * rewrite He. destruct st; try done. by destruct (Hidle substream).
      * destruct (inbound_substreams (node_handler n) !! j) as [[[[] ?] ?]|]; try done. by rewrite lookup_insert_ne.
  - intros now. destruct (drive_inbound_turn_ok now id (st, key, p) _ Hinv He)
      as (further & event & h' & Hr & _ & _ & _ & Hnext & _).
    exists further, event, h'. split; [done|]. intros st' key' p' He'. by apply (Hnext (st', key', p')).
Qed.

(** What the framed socket yields first when the chunks arrive. *)
Definition first_item (protocol : ProtocolId) (chunks : list (list byte)) : FirstItem :=
  match feed InboundCodec_decode (fresh_inbound protocol MAX_RPC_SIZE) [] chunks with
  | Ret (Some r, _, _) => Item (Some r)
  | _ => Elapsed
  end.

(** C12: a request reaches the other node as it was made: what its upgrade writes,
    under the protocol it asks for, is read by the upgrade of the other end as
    that very request, however the bytes are cut and whatever follows them; and
    an active handler reports it last, under a substream that is new and that
    waits for the response if one is expected. *)
Theorem request_arrives (req : RPCRequest) (chunks : list (list byte)) (rest : list byte) (now : Instant)
    (s : Inbound) (server : Node) :
  (N.of_nat (length (request_payload req)) <= MAX_RPC_SIZE)%N ->
  (req = RPCRequest_MetaData \/ request_payload req <> []) ->
  node_reachable server -> state (node_handler server) = Active ->
  call_ok (CallNegotiatedInbound req s) (world server) ->
  exists protocol bytes, protocol ∈ supported_protocols req /\
    OutboundCodec_encode (fresh_outbound protocol MAX_RPC_SIZE) req [] = (Ok tt, bytes) /\
    (concat chunks = bytes ++ rest -> upgrade_inbound protocol (first_item protocol chunks) = Ok req) /\
    exists h', run_call now (CallNegotiatedInbound req s) (node_handler server) = Ret (None, h') /\
      let id := current_inbound_substream_id (node_handler server) in
      events_out h' = events_out (node_handler server) ++ [Received_Request id req] /\
      inbound_substreams (node_handler server) !! id = None /\
      (if decide (0 < expected_responses req)%N
       then exists key, inbound_substreams h' !! id = Some (ResponseIdle s, key, request_protocol req)
       else inbound_substreams h' = inbound_substreams (node_handler server)).
Proof.
  intros Hmax Hne Hserver Hact Hok. set (protocol := ProtocolId_new (request_protocol req) V1 Snappy).
  destruct (request_roundtrip protocol MAX_RPC_SIZE req []) as (bytes & Henc & Hfeed); [by destruct req|done..|].
  exists protocol, bytes. split; [by destruct req; constructor|]. split; [done|]. split.
  - intros Hc. unfold upgrade_inbound, first_item. destruct req; try done; by rewrite (Hfeed chunks rest Hc).
  - pose proof (proj1 (world_reachable_inv _ (node_world _ Hserver))) as Hinv.
    destruct Hok as (_ & Hid & _). unfold node_handler in *. cbn [run_call].
    assert (Hfree : inbound_substreams (handler (world server)) !! current_inbound_substream_id (handler (world server)) = None).
    { destruct (inbound_substreams (handler (world server)) !! _) as [e|] eqn:E; [|done].
      pose proof (proj1 (inv_inbound _ Hinv _ _ E)). lia. } unfold inject_fully_negotiated_inbound.
    rewrite Hact. cbn [is_active]. case_decide as Hexp.
    + rewrite dq_insert_ret by (by apply within_day). destruct (dq_put _ _ _ _) as [key q].
      cbn [mbind Outcome_bind mret Outcome_ret set_inbound_substreams current_inbound_substream_id set_events_out
           set_inbound_substreams_delay events_out].
      rewrite (add_w_ok 64 _ 1) by lia. cbn [mbind Outcome_bind].
      eexists. split; [done|]. rewrite (update_keep_alive_frame events_out), (update_keep_alive_frame inbound_substreams) by done.
      split; [done|]. split; [by apply Hfree|]. exists (Some key). cbn. by rewrite lookup_insert_eq.
    + cbn [mbind Outcome_bind mret Outcome_ret]. rewrite (add_w_ok 64 _ 1) by lia. cbn [mbind Outcome_bind].
      eexists. split; [done|]. rewrite (update_keep_alive_frame events_out), (update_keep_alive_frame inbound_substreams) by done.
      split; [done|]. split; [by apply Hfree|done].
Qed.
End Session.

(** ** A concrete instance: sockets that take all bytes at once, and that
    deliver what arrives at the first poll *)
Section Instance.
Context `{Wire}.

Record Sink := mkSink { sink_codec : InboundCodec; sink_buffer : list byte; sink_wire : list byte }.
Record Source := mkSource { source_codec : OutboundCodec; source_buffer : list byte; source_arrives : list byte }.

Definition sink_flush (s : Sink) : Sink := mkSink (sink_codec s) [] (sink_wire s ++ sink_buffer s).

Definition direct_streams : Streams := {|
  Inbound := Sink;
  in_poll_ready := fun s => (Ready (Ok tt), s);
  in_start_send := fun m s =>
    match InboundCodec_encode (sink_codec s) m (sink_buffer s) with
    | Ret (r, buffer) => (r, mkSink (sink_codec s) buffer (sink_wire s))
    | _ => (Ok tt, s)
    end;
  in_poll_flush := fun s => (Ready (Ok tt), sink_flush s);
  in_poll_close := fun s => (Pending, sink_flush s);
  Outbound := Source;
  out_poll_next := fun s =>
    match feed OutboundCodec_decode (source_codec s) (source_buffer s) [source_arrives s] with
    | Ret (Some r, c, buffer) => (Ready (Some r), mkSource c buffer [])
    | Ret (None, c, buffer) => (Pending, mkSource c buffer [])
    | _ => (Ready None, s)
    end;
  out_poll_close := fun s => (Ready (Ok tt), s);
  Delay := Instant;
  delay_until := fun t => t;
  is_elapsed := fun now t => bool_decide (t <= now)%N;
|}.

Definition direct_framed : @Framed direct_streams := {|
  in_codec := sink_codec : @Inbound direct_streams -> InboundCodec;
  in_buffer := sink_buffer : @Inbound direct_streams -> list byte;
  in_wire := sink_wire : @Inbound direct_streams -> list byte;
  out_codec := source_codec : @Outbound direct_streams -> OutboundCodec;
  out_buffer := source_buffer : @Outbound direct_streams -> list byte;
  out_arrives := source_arrives : @Outbound direct_streams -> list byte;
|}.

#[local] Existing Instance direct_streams.
#[local] Existing Instance direct_framed.

Lemma sink_flush_moves (s : Inbound) : in_moves s (sink_flush s).
Proof.
  split; [done|]. exists (length (sink_buffer s)). cbn. by rewrite take_ge, drop_ge by lia.
Qed.

Lemma direct_laws : FramedLaws.
Proof.
  split.
  - intros s r s' [= _ <-]. split; [done|]. exists 0%nat. cbn. by rewrite app_nil_r.
  - intros m s r s'. cbn. destruct (as_u8_is_Some m) as [code Hcode].
    destruct (sink_codec s) as [inner] eqn:Ec. cbn. unfold BaseInboundCodec_encode. rewrite Hcode. cbn.
    destruct (SnappyInboundCodec_encode inner m [code]) as [r1 buffer]. by intros [= <- <-].
  - intros s r s' [= _ <-]. split; [apply sink_flush_moves|done].
  - intros s r s' [= _ <-]. apply sink_flush_moves.
  - intros s r s'. unfold out_poll_next. cbn -[feed]. intros Hr.
    destruct (feed OutboundCodec_decode (source_codec s) (source_buffer s) [source_arrives s])
      as [[[[[item|e]|] c] buffer]| |] eqn:E; injection Hr as <- <-.
    + exists [source_arrives s]. cbn -[feed]. by rewrite !app_nil_r.
    + exists [source_arrives s]. cbn -[feed]. by rewrite !app_nil_r.
    + exists [source_arrives s]. cbn -[feed]. by rewrite !app_nil_r.
    + by exists [].
    + by exists [].
Qed.
End Instance.

(** Running a list of calls on a node. *)
Section Run.
Context `{Wire} `{Streams} `{!Framed} `{DelayQueue} `{HashOrder} `{BuildProfile}.

Fixpoint run_node (cs : list HandlerCall) (n : Node) : option Node :=
  match cs with
  | [] => Some n
  | c :: cs =>
    if call_okb c (world n) then
      match run_call 0%N c (node_handler n) with
      | Ret (event, h') => run_node cs (after_node c event h' n)
      | _ => None
      end
    else None
  end.

Lemma call_okb_ok c w : call_okb c w = true -> call_ok c w.
Proof.
  unfold call_okb, call_ok. intros [[Ho Hi]%andb_true_iff Hout]%andb_true_iff.
  apply bool_decide_eq_true in Hi, Hout. split; [|done]. intros He. rewrite He in Ho.
  by apply bool_decide_eq_true in Ho.
Qed.

Lemma run_node_reachable cs n n' :
  node_reachable n -> Forall call_framed cs -> run_node cs n = Some n' -> node_reachable n'.
Proof.
  revert n; induction cs as [|c cs IH]; intros n Hn Hf; cbn -[run_call after_node]; [by intros [= <-]|].
  apply Forall_cons_1 in Hf as [Hc Hf].
  destruct (call_okb c (world n)) eqn:Hok; [|done].
  destruct (run_call 0%N c (node_handler n)) as [[event h']| |] eqn:Hr; [|done..].
  apply IH; [|done]. destruct Hn as [timeout Hn]. exists timeout. eapply rtc_r; [exact Hn|].
  exists 0%N, c, event, h'. split; [by apply call_okb_ok|done].
Qed.

Lemma run_node_default cs n :
  node_reachable n -> Forall call_framed cs -> node_reachable (default n (run_node cs n)).
Proof.
  intros Hn Hf. destruct (run_node cs n) as [n'|] eqn:E; [|done]. by eapply run_node_reachable.
Qed.

(** The response a poll reports. *)
Definition reported (p : Phase) : option (RequestId * RPCResponse) :=
  match p with
  | Ret (Some (Custom (Ok (Received_Response id resp))), _) => Some (id, resp)
  | _ => None
  end.

Lemma reported_Some p id resp :
  reported p = Some (id, resp) -> exists h', p = Ret (Some (Custom (Ok (Received_Response id resp))), h').
Proof.
  destruct p as [[[[[[]|]| |]|] h']| |]; try done. cbn. intros [= -> ->]. by eexists.
Qed.
End Run.

(** A ping: both ends of it. *)
Section Witnesses.
#[local] Existing Instance leb128_wire.
#[local] Existing Instance leb128_laws.
#[local] Existing Instance direct_streams.
#[local] Existing Instance direct_framed.
#[local] Existing Instance direct_laws.
#[local] Existing Instance table_queue.
#[local] Existing Instance table_queue_laws.
#[local] Existing Instance map_to_list_order.
#[local] Instance debug_build : BuildProfile := true.

Definition demo_ping_request : RPCRequest := RPCRequest_Ping [x07].
Definition demo_pong : RPCResponse := RPCResponse_Pong [x01; x02].
Definition demo_node : Node := mkNode (mkWorld (new 30%N) 0 0) ∅ ∅.
Definition demo_sink : @Inbound direct_streams := mkSink (fresh_inbound ping_protocol MAX_RPC_SIZE) [] [].

(** The server answers the ping. *)
Definition demo_server_calls : list HandlerCall :=
  [CallNegotiatedInbound demo_ping_request demo_sink; CallPoll;
   CallEvent (Send_Response 0%Z (Success demo_pong)); CallPoll].
Definition demo_server : Node := default demo_node (run_node demo_server_calls demo_node).

(** What is written on its substream. *)
Definition demo_bytes_written : list byte :=
  match inbound_substreams (node_handler demo_server) !! 0%Z with
  | Some (InClosing s, _, _) => in_wire s
  | _ => []
  end.

(** The client sends the ping and gets those bytes. *)
Definition demo_source : @Outbound direct_streams :=
  mkSource (fresh_outbound ping_protocol MAX_RPC_SIZE) [] demo_bytes_written.
Definition demo_client_calls : list HandlerCall :=
  [CallEvent (Send_Request RequestId_Router demo_ping_request); CallPoll;
   CallNegotiatedOutbound demo_source (RequestId_Router, demo_ping_request)].
Definition demo_client : Node := default demo_node (run_node demo_client_calls demo_node).

Lemma demo_node_reachable : node_reachable demo_node.
Proof. exists 30%N. apply rtc_refl. Qed.

Lemma demo_server_reachable : node_reachable demo_server.
Proof. apply run_node_default; [apply demo_node_reachable|]. repeat constructor. by exists ping_protocol. Qed.

Lemma demo_client_reachable : node_reachable demo_client.
Proof. apply run_node_default; [apply demo_node_reachable|]. repeat constructor. by exists ping_protocol. Qed.

Lemma demo_client_streams : streams demo_client = {[0%Z := demo_bytes_written]}.
Proof. vm_compute. reflexivity. Qed.

Lemma demo_server_substream :
  exists e s, inbound_substreams (node_handler demo_server) !! 0%Z = Some e /\
    inbound_socket e.1.1 = Some s /\ in_wire s = demo_bytes_written /\ demo_bytes_written <> [].
Proof.
  assert (Hs : match inbound_substreams (node_handler demo_server) !! 0%Z with
    | Some (InClosing s, _, _) => in_wire s = demo_bytes_written /\ demo_bytes_written <> []
    | _ => False
    end) by (vm_compute; split; [reflexivity|discriminate]).
  destruct (inbound_substreams (node_handler demo_server) !! 0%Z) as [[[[s m b|s b|s|s|] key] p]|]; try done.
  exists (InClosing s, key, p), s. destruct Hs. by split_and!.
Qed.

(** The client reports the pong, and only because the server gave it. *)
Lemma response_is_the_answer_witness :
  exists answer, given demo_server !! 0%Z = Some (Success answer) /\
    response_payload (Success demo_pong) = response_payload (Success answer).
Proof.
  destruct (reported_Some (poll 0%N (node_handler demo_client)) RequestId_Router demo_pong) as [h' Hr];
    [vm_compute; reflexivity|].
  destruct (response_is_the_answer demo_client 0%N RequestId_Router demo_pong h' demo_client_reachable Hr)
    as (o & info & bytes & _ & _ & Hb & _ & Hans).
  rewrite demo_client_streams in Hb. apply lookup_singleton_Some in Hb as [<- <-].
  destruct demo_server_substream as (e & s & He & Hs & Hw & _).
  destruct (Hans demo_server 0%Z e s demo_server_reachable He Hs) as (answer & Hg & Hp & _); [by rewrite Hw|].
  exists answer. split; [exact Hg|exact Hp].
Defined.

(** The substream of the server holds the pong, and a second response changes
    nothing of it. *)
Lemma one_response_per_substream_witness :
  exists st key p s, inbound_substreams (node_handler demo_server) !! 0%Z = Some (st, key, p) /\
    inbound_socket st = Some s /\
    (exists m, allowed (given demo_server) 0%Z m /\ sent s = (encoding m).2) /\
    forall event h', run_call 0%N (CallEvent (Send_Response 0%Z (Success demo_pong))) (node_handler demo_server)
      = Ret (event, h') ->
      given (after_node (CallEvent (Send_Response 0%Z (Success demo_pong))) event h' demo_server) !! 0%Z
      = given demo_server !! 0%Z.
Proof.
  destruct demo_server_substream as ([[st key] p] & s & He & Hs & Hw & Hne).
  destruct (one_response_per_substream demo_server 0%Z st key p demo_server_reachable He)
    as ((s' & Hs' & Hsent) & _ & Hcalls & Hidle & _).
  exists st, key, p, s. split; [exact He|]. split; [exact Hs|]. cbn [fst] in Hs. rewrite Hs in Hs'. injection Hs' as <-.
  split.
  - destruct Hsent as [Hnil|Hm]; [|exact Hm]. unfold sent in Hnil. apply app_nil in Hnil as [Hnil _]. congruence.
  - intros event h' Hr. apply (Hcalls 0%N _ event h' Hr). intros s0 Hst. subst st.
    pose proof (node_server demo_server demo_server_reachable 0%Z _ He) as (Hw0 & _). cbn in Hs. injection Hs as ->.
    congruence.
Defined.

(** The ping in three pieces, with bytes after it. *)
Lemma request_arrives_witness :
  exists protocol bytes, OutboundCodec_encode (fresh_outbound protocol MAX_RPC_SIZE) demo_ping_request [] = (Ok tt, bytes) /\
    protocol ∈ supported_protocols demo_ping_request.
Proof.
  destruct (request_arrives demo_ping_request [[x01]; [x00]; [x07; x09]] [x09] 0%N demo_sink demo_node)
    as (protocol & bytes & Hp & Henc & _);
    [vm_compute; discriminate|right; discriminate|apply demo_node_reachable|reflexivity|by apply call_okb_ok|].
  exists protocol, bytes. split; [exact Henc|exact Hp].
Defined.
End Witnesses.
