(* ===== verification/RpcDelivery.v ===== *)
(** * A response that arrives is reported (src/core/network/src/rpc/handler.rs)

    What keeps a response from getting lost in the handler: the timers of the
    outbound substreams are exactly those of the substreams that are open
    ([timers_exact]), so that none is taken for timed out that is not; and a
    poll reports what a socket gives it.  Polling the handler until it is pending
    or closed reports the response of a request in time, unless the socket of
    the request fails or keeps back some of its bytes, or another socket makes
    the handler close the connection. *)
From Stdlib Require Import ZArith Strings.String Strings.Byte.
From S2P Require Import Prelude RpcMethods RpcProtocol Wire RpcCodec DelayQueue RpcHandler RpcFrames RpcPending RpcExchange.

Open Scope Z_scope.
Open Scope list_scope.

Section Side.
Context `{Streams} `{DelayQueue} `{!DelayQueueLaws} `{HashOrder} `{BuildProfile}.

(** The part of the handler that belongs to the outbound substreams. *)
Definition outbound_side (h : RPCHandler) :=
  (outbound_substreams h, outbound_substreams_delay h, state h).

Lemma same_out_side h h' : same_out h h' -> outbound_side h' = outbound_side h.
Proof. unfold same_out, outside_inbound, outbound_side. congruence. Qed.

(** [R] after a phase that goes on, [Q] of the event after one that ends the
    poll. *)
Definition after_phase (R : RPCHandler -> Prop) (Q : HandlerEvent -> RPCHandler -> Prop)
    (event : option HandlerEvent) (h : RPCHandler) : Prop :=
  match event with Some ev => Q ev h | None => R h end.

Lemma then_phase_post (R R' : RPCHandler -> Prop) (Q : HandlerEvent -> RPCHandler -> Prop) p (k : RPCHandler -> Phase)
    event h' :
  (forall e1 h1, p = Ret (e1, h1) -> after_phase R' Q e1 h1) ->
  (forall h1, p = Ret (None, h1) -> R' h1 -> forall e2 h2, k h1 = Ret (e2, h2) -> after_phase R Q e2 h2) ->
  then_phase p k = Ret (event, h') -> after_phase R Q event h'.
Proof.
  intros Hp Hk. unfold then_phase. destruct p as [[e1 h1]| |]; [|done..]. cbn [mbind Outcome_bind].
  specialize (Hp e1 h1 eq_refl). destruct e1 as [e1|]; [by intros [= <- <-]|].
  intros Hr. by eapply Hk.
Qed.

Section Post.
Context (R : RPCHandler -> Prop) (Q : HandlerEvent -> RPCHandler -> Prop) (now : Instant).
Context (Hside : forall h h', outbound_side h' = outbound_side h -> R h -> R h').
Context (Hevent : forall event h, R h -> Q event h).
Context (Hshutdown : forall h, R h -> R (check_shutdown now h)).
Context (Hpurge : forall fuel h event h', inv h -> R h -> purge_outbound fuel now h = Ret (event, h') ->
  after_phase R Q event h').
Context (Hdrive : forall id info h event h', inv h -> R h -> outbound_substreams h !! id = Some info ->
  drive_outbound now id h = Ret (event, h') -> after_phase R Q event h').

Lemma side_post h event h' : outbound_side h' = outbound_side h -> R h -> after_phase R Q event h'.
Proof. intros Hs Hr. destruct event; [by apply Hevent, (Hside h)|by apply (Hside h)]. Qed.

Lemma drive_all_outbound_post ids h event h' :
  inv h -> R h -> NoDup ids -> (forall id, id ∈ ids -> is_Some (outbound_substreams h !! id)) ->
  drive_all_outbound now ids h = Ret (event, h') -> after_phase R Q event h'.
Proof.
  revert h; induction ids as [|id ids IH]; intros h Hinv HR Hnd Hids; [by intros [= <- <-]|].
  apply NoDup_cons in Hnd as [Hni Hnd]. cbn [drive_all_outbound].
  destruct (Hids id) as [info He]; [left|].
  destruct (drive_outbound_ok now id info h Hinv He) as (ev & h1 & Hr & _ & Hinv1 & _ & Ho).
  pose proof (Hdrive id info h ev h1 Hinv HR He Hr) as Hp. rewrite Hr. cbn [mbind Outcome_bind].
  destruct ev as [ev|]; [by intros [= <- <-]|]. apply IH; [done|done|done|].
  intros j Hj. rewrite Ho; [apply Hids; by right|]. by intros ->.
Qed.

(** A poll, from what its two phases over outbound substreams do. *)
Lemma poll_post h event h' :
  inv h -> R h -> poll now h = Ret (event, h') -> after_phase R Q event h'.
Proof.
  intros Hinv HR. unfold poll.
  apply (then_phase_post R (fun h => inv h /\ R h)).
  { intros e1 h1 [= Hr]. unfold report_errors in Hr.
    destruct (pending_errors h); injection Hr as <- <-; [done|]. by apply Hevent, (Hside h). }
  intros h1 _ [Hi1 HR1] e2 h2. apply (then_phase_post R (fun h => inv h /\ R h)).
  { intros e3 h3 [= Hr]. unfold report_events in Hr.
    destruct (events_out h1); injection Hr as <- <-; [done|]. by apply Hevent, (Hside h1). }
  intros h3 _ [Hi3 HR3] e4 h4. cbv zeta.
  pose proof (inv_check_shutdown now h3 Hi3) as Hi5. pose proof (Hshutdown h3 HR3) as HR5.
  set (h5 := check_shutdown now h3) in *. clearbody h5.
  apply (then_phase_post R (fun h => inv h /\ R h)).
  { intros e6 h6 Hr. pose proof (phase_inv _ _ _ _ (purge_inbound_ok _ now h5 Hi5 (Nat.lt_succ_diag_r _)) Hr).
    apply purge_inbound_same, same_out_side in Hr. destruct e6; [by apply Hevent, (Hside h5)|].
    split; [done|]. by apply (Hside h5). }
  intros h6 _ [Hi6 HR6] e7 h7. apply (then_phase_post R (fun h => inv h /\ R h)).
  { intros e8 h8 Hr. pose proof (phase_inv _ _ _ _ (purge_outbound_ok _ now h6 Hi6 (Nat.lt_succ_diag_r _)) Hr).
    apply Hpurge in Hr; [|done..]. by destruct e8. }
  intros h8 _ [Hi8 HR8] e9 h9. apply (then_phase_post R (fun h => inv h /\ R h)).
  { intros e10 h10 Hr. pose proof (phase_inv _ _ _ _ (drive_all_inbound_ok now _ h8 Hi8 (NoDup_hm_keys _)
      ltac:(intros id; by rewrite elem_of_hm_keys)) Hr).
    apply drive_all_inbound_same, same_out_side in Hr. destruct e10; [by apply Hevent, (Hside h8)|].
    split; [done|]. by apply (Hside h8). }
  intros h10 _ [Hi10 HR10] e11 h11. apply (then_phase_post R R).
  { intros e12 h12. apply drive_all_outbound_post; [done|done|apply NoDup_hm_keys|].
    intros id. by rewrite elem_of_hm_keys. }
  intros h12 _ HR12 e13 h13 Hr. apply (side_post h12); [|done]. unfold dial_next in Hr.
  destruct (dial_queue h12) as [|[id req] rest]; [by injection Hr as _ <-|].
  case_decide; [|by injection Hr as _ <-]. destruct (add_w 32 _ 1) as [n| |]; [|done..].
  cbn -[update_keep_alive] in Hr. injection Hr as _ <-. by rewrite (update_keep_alive_frame outbound_side).
Qed.
End Post.

(** ** The timers are those of the open substreams *)

Definition timers_exact (h : RPCHandler) : Prop :=
  forall key id t, live (outbound_substreams_delay h) !! key = Some (id, t) ->
    exists info, outbound_substreams h !! id = Some info /\ delay_key info = key.

Lemma timers_exact_same h h' :
  outbound_substreams h' = outbound_substreams h ->
  outbound_substreams_delay h' = outbound_substreams_delay h -> timers_exact h -> timers_exact h'.
Proof. unfold timers_exact. by intros -> ->. Qed.

Lemma timers_exact_side h h' : outbound_side h' = outbound_side h -> timers_exact h -> timers_exact h'.
Proof. intros Hs. apply timers_exact_same; unfold outbound_side in Hs; congruence. Qed.

Lemma timers_exact_keep_alive now h : timers_exact h -> timers_exact (update_keep_alive now h).
Proof. apply timers_exact_side. by rewrite (update_keep_alive_frame outbound_side). Qed.

(** Removing a substream with its timer. *)
Lemma timers_exact_remove (h h' : RPCHandler) id info :
  timers_exact h -> outbound_substreams h !! id = Some info ->
  outbound_substreams h' = delete id (outbound_substreams h) ->
  live (outbound_substreams_delay h') = delete (delay_key info) (live (outbound_substreams_delay h)) ->
  timers_exact h'.
Proof.
  intros Ht Hi Ho Hl key j t. rewrite Ho, Hl. intros [Hne Hk]%lookup_delete_Some.
  destruct (Ht key j t Hk) as (info' & Hj & <-). exists info'. split; [|done].
  rewrite lookup_delete_ne; [done|]. intros <-. congruence.
Qed.

Lemma timers_exact_poll q h :
  live q = live (outbound_substreams_delay h) -> timers_exact h -> timers_exact (set_outbound_substreams_delay q h).
Proof. unfold timers_exact. cbn. by intros ->. Qed.

Lemma purge_outbound_exact fuel now h event h' :
  timers_exact h -> purge_outbound fuel now h = Ret (event, h') -> timers_exact h'.
Proof.
  revert h; induction fuel as [|fuel IH]; intros h Ht; [done|]. cbn [purge_outbound].
  destruct (dq_poll now (outbound_substreams_delay h)) as [r q] eqn:E. apply dq_poll_live in E.
  destruct r as [k|e| |].
  - destruct E as (key & t & Hl & _ & Hq). destruct (Ht key k t Hl) as (info & Hi & <-).
    cbn [outbound_substreams set_outbound_substreams_delay]. rewrite Hi. intros [= _ <-].
    apply timers_exact_keep_alive. by apply (timers_exact_remove h _ k info).
  - intros [= _ <-]. by apply timers_exact_poll.
  - destruct E as [_ Hq]. intros [= _ <-]. by apply timers_exact_poll.
  - intros [= _ <-]. by apply timers_exact_poll.
Qed.

Lemma drop_outbound_live now id info h h' :
  inv h -> outbound_substreams h !! id = Some info ->
  drop_outbound now id info (set_outbound_state id OutPoisoned h) = Ret h' ->
  outbound_substreams h' = delete id (outbound_substreams h) /\
  live (outbound_substreams_delay h') = delete (delay_key info) (live (outbound_substreams_delay h)) /\
  state h' = state h.
Proof.
  intros Hinv Hi. destruct (inv_outbound _ Hinv id _ Hi) as (_ & _ & [t Ht]).
  unfold drop_outbound. cbn [outbound_substreams_delay set_outbound_state set_outbound_substreams].
  destruct (dq_remove_live _ (delay_key info) (outbound_substreams_delay h)) as (q & -> & Hq); [eauto|].
  cbn -[update_keep_alive]. intros [= <-].
  rewrite (update_keep_alive_frame outbound_substreams), (update_keep_alive_frame outbound_substreams_delay),
    (update_keep_alive_frame state) by done.
  cbn. by rewrite delete_altered.
Qed.

(** The cases of driving an outbound substream: it is dropped with its timer,
    or only its state changes. *)
Lemma drive_outbound_cases now id info h event h' :
  inv h -> outbound_substreams h !! id = Some info -> drive_outbound now id h = Ret (event, h') ->
  state h' = state h /\
  ((outbound_substreams h' = delete id (outbound_substreams h) /\
    live (outbound_substreams_delay h') = delete (delay_key info) (live (outbound_substreams_delay h))) \/
   (exists st, outbound_substreams h' = outbound_substreams
      (set_outbound_state id st (set_outbound_state id OutPoisoned h)) /\
    outbound_substreams_delay h' = outbound_substreams_delay h)).
Proof.
  intros Hinv Hi Hr. split; [by eapply same_in_state, drive_outbound_same|]. revert Hr.
  assert (Hdrop : forall h1 e, drop_outbound now id info (set_outbound_state id OutPoisoned h) = Ret h1 ->
    Ret (e, h1) = Ret (event, h') ->
    outbound_substreams h' = delete id (outbound_substreams h) /\
    live (outbound_substreams_delay h') = delete (delay_key info) (live (outbound_substreams_delay h))).
  { intros h1 e Hd [= <- <-]. by apply (drop_outbound_live now id info h h1 Hinv Hi) in Hd as (? & ? & _). }
  unfold drive_outbound. rewrite Hi. destruct (out_state info) as [substream request|substream|]; [| |done].
  - cbn [state set_outbound_state set_outbound_substreams].
    destruct (is_deactivated (state h)); [intros [= <- <-]; right; by exists (OutClosing substream)|].
    unfold drive_pending_response. destruct (out_poll_next substream) as [[[[response|e]|]|] s1].
    + rewrite outbound_chunk_closes. cbn [mbind Outcome_bind].
      destruct (received_response info response); [|done..]. intros [= <- <-]. right. by exists (OutClosing s1).
    + destruct (drop_outbound _ _ _ _) as [h1| |] eqn:Ed; [|done..]. intros Hr. left. by eapply Hdrop.
    + destruct (drop_outbound _ _ _ _) as [h1| |] eqn:Ed; [|done..]. intros Hr. left. by eapply Hdrop.
    + intros [= <- <-]. right. by exists (RequestPendingResponse s1 request).
  - destruct (out_poll_close substream) as [[r|] s1].
    + destruct (drop_outbound _ _ _ _) as [h1| |] eqn:Ed; [|done..]. intros Hr. left. by eapply Hdrop.
    + intros [= <- <-]. right. by exists (OutClosing s1).
Qed.

Lemma drive_outbound_exact now id info h event h' :
  inv h -> timers_exact h -> outbound_substreams h !! id = Some info ->
  drive_outbound now id h = Ret (event, h') -> timers_exact h'.
Proof.
  intros Hinv Ht Hi Hr. destruct (drive_outbound_cases now id info h event h' Hinv Hi Hr)
    as [_ [[Ho Hl]|(st & Ho & Hl)]]; [by apply (timers_exact_remove h h' id info)|].
  unfold timers_exact. rewrite Ho, Hl. intros key j t Hk. destruct (Ht key j t Hk) as (info' & Hj & Hkey).
  cbn. destruct (decide (j = id)) as [->|Hne].
  - rewrite !lookup_alter_eq, Hj. cbn. eexists. split; [reflexivity|exact Hkey].
  - rewrite !lookup_alter_ne by done. by exists info'.
Qed.

Lemma poll_exact now h event h' : inv h -> timers_exact h -> poll now h = Ret (event, h') -> timers_exact h'.
Proof.
  intros Hinv Ht Hr. apply (poll_post timers_exact (fun _ => timers_exact) now) in Hr; [by destruct event|..]; try done.
  - apply timers_exact_side.
  - intros h1. unfold check_shutdown. destruct (state h1); try done. by destruct (is_elapsed _ _).
  - intros fuel h1 e h2 _ Ht1 Hr1. apply purge_outbound_exact in Hr1; [by destruct e|done].
  - intros id info h1 e h2 Hi1 Ht1 He Hr1. apply (drive_outbound_exact _ _ info) in Hr1; [by destruct e|done..].
Qed.

(** *** The other calls *)

Definition open_outbound (h : RPCHandler) := (outbound_substreams h, outbound_substreams_delay h).

Lemma timers_exact_open h h' : open_outbound h' = open_outbound h -> timers_exact h -> timers_exact h'.
Proof. intros Ho. apply timers_exact_same; unfold open_outbound in Ho; congruence. Qed.

Lemma send_request_open now id req h : open_outbound (send_request now id req h) = open_outbound h.
Proof. unfold send_request. destruct (state h); by rewrite ?(update_keep_alive_frame open_outbound). Qed.

Lemma shutdown_open now final_msg h : open_outbound (shutdown now final_msg h) = open_outbound h.
Proof.
  unfold shutdown. rewrite (update_keep_alive_frame open_outbound) by done.
  destruct (is_active (state h)); [|done]. by destruct final_msg as [[]|].
Qed.

Lemma dial_error_open now info error h h' :
  inject_dial_upgrade_error now info error h = Ret h' -> open_outbound h' = open_outbound h.
Proof.
  assert (Hfailed : forall h1 h2, dial_failed now info error h1 = Ret h2 -> open_outbound h2 = open_outbound h1).
  { intros h1 h2. unfold dial_failed. destruct (sub_w 32 _ 1) as [n| |]; [|done..]. intros [= <-].
    by transitivity (open_outbound (update_keep_alive now (set_dial_negotiated n h1)));
      [|rewrite (update_keep_alive_frame open_outbound)]. }
  unfold inject_dial_upgrade_error. destruct (is_io_error error); [|apply Hfailed].
  destruct (add_w 8 _ 1) as [n| |]; [|done..]. cbn [mbind Outcome_bind].
  case_decide; [intros [= <-]|intros Hr; by rewrite (Hfailed _ _ Hr)]. by rewrite send_request_open.
Qed.

Lemma negotiated_inbound_open now req substream h h' :
  inject_fully_negotiated_inbound now req substream h = Ret h' -> open_outbound h' = open_outbound h.
Proof.
  intros [[_ ->]|(n & h1 & _ & _ & -> & [[_ ->]|(_ & key & q & _ & ->)])]%negotiated_inbound_cases; [done|..];
    by rewrite (update_keep_alive_frame open_outbound).
Qed.

Lemma negotiated_outbound_exact now out info h h' :
  inv h -> timers_exact h -> inject_fully_negotiated_outbound now out info h = Ret h' -> timers_exact h'.
Proof.
  intros Hinv Ht. unfold inject_fully_negotiated_outbound. destruct (sub_w 32 _ 1) as [n| |]; [|done..].
  cbn -[update_keep_alive set_dial_negotiated]. destruct info as [id request].
  destruct (is_deactivated (state (set_dial_negotiated n h))); [by intros [= <-]|].
  case_decide; [|intros [= <-]; by apply timers_exact_keep_alive].
  destruct (dq_insert now _ _ _) as [[key q]| |] eqn:Hins; [|done..]. cbn in Hins.
  apply dq_insert_live in Hins as [Hfresh Hlive]. cbn -[add_w update_keep_alive].
  destruct (add_w 64 _ 1) as [n'| |]; [|done..]. cbn -[update_keep_alive]. intros [= <-].
  apply timers_exact_keep_alive. intros key' j t. cbn. rewrite Hlive.
  intros [[<- [= <- <-]]|[Hne Hk]]%lookup_insert_Some.
  - eexists. by rewrite lookup_insert_eq.
  - destruct (Ht key' j t Hk) as (info & Hj & <-). exists info. split; [|done].
    rewrite lookup_insert_ne; [done|]. pose proof (proj1 (inv_outbound _ Hinv j info Hj)). lia.
Qed.

Lemma run_call_exact now c h event h' :
  inv h -> timers_exact h -> run_call now c h = Ret (event, h') -> timers_exact h'.
Proof.
  intros Hinv Ht. destruct c as [final_msg|req substream|out info|ev|info error|]; cbn [run_call].
  - intros [= _ <-]. by eapply timers_exact_open; [apply shutdown_open|].
  - destruct (inject_fully_negotiated_inbound now req substream h) eqn:E; [|done..]. intros [= _ <-].
    by eapply timers_exact_open; [eapply negotiated_inbound_open|].
  - destruct (inject_fully_negotiated_outbound now out info h) eqn:E; [|done..]. intros [= _ <-].
    by eapply negotiated_outbound_exact.
  - destruct ev as [id req|id response]; cbn [inject_event].
    + intros [= _ <-]. by eapply timers_exact_open; [apply send_request_open|].
    + destruct (send_response id response h) eqn:E; [|done..]. intros [= _ <-].
      by eapply timers_exact_side; [eapply same_out_side, send_response_same|].
  - destruct (inject_dial_upgrade_error now info error h) eqn:E; [|done..]. intros [= _ <-].
    by eapply timers_exact_open; [eapply dial_error_open|].
  - by apply poll_exact.
Qed.

Lemma world_exact w : world_reachable w -> timers_exact (handler w).
Proof.
  intros [timeout Hr]. assert (Hw : inv (handler w) /\ timers_exact (handler w)); [|apply Hw].
  assert (Hpre : world_reachable (mkWorld (new timeout) 0 0)) by apply new_reachable.
  apply rtc_ind_r with (P := fun w => world_reachable w /\ timers_exact (handler w)) in Hr.
  - destruct Hr as [Hw Ht]. split; [by apply world_reachable_inv|done].
  - split; [done|]. intros key id t. cbn. by rewrite dq_new_live, lookup_empty.
  - intros w1 w2 _ Hstep [Hw Ht]. pose proof (proj1 (world_reachable_inv _ Hw)) as Hinv. split.
    + destruct Hw as [timeout' Hw]. exists timeout'. by eapply rtc_r.
    + destruct Hstep as (now & c & event & h' & _ & Hrun & ->). by eapply run_call_exact.
Qed.
End Side.

(** ** A response on its way *)

Section Delivery.
Context `{Wire} `{!WireLaws} `{Streams} `{!Framed} `{!FramedLaws}.
Context `{DelayQueue} `{!DelayQueueLaws} `{!DelayQueueAlive} `{HashOrder} `{BuildProfile}.

(** The socket of a request of [protocol] on which the response arrives, and
    maybe more after it. *)
Record carries (s : Outbound) (answer : RPCResponse) : Prop := {
  carries_codec : exists protocol, out_codec s = fresh_outbound protocol MAX_RPC_SIZE /\
    message_name protocol = response_protocol answer;
  carries_buffer : out_buffer s = [];
  carries_bytes : exists rest, out_arrives s = (encoding (Success answer)).2 ++ rest;
  carries_size : (N.of_nat (length (response_payload (Success answer))) <= MAX_RPC_SIZE)%N;
  carries_payload : response_payload (Success answer) <> [];
}.

(** However the bytes are cut, they decode to the response. *)
Lemma encoding_decodes protocol answer chunks rest :
  message_name protocol = response_protocol answer ->
  (N.of_nat (length (response_payload (Success answer))) <= MAX_RPC_SIZE)%N ->
  response_payload (Success answer) <> [] ->
  concat chunks = (encoding (Success answer)).2 ++ rest ->
  feed OutboundCodec_decode (fresh_outbound protocol MAX_RPC_SIZE) [] chunks =
    Ret (Some (Ok (Success answer)), fresh_outbound protocol MAX_RPC_SIZE, rest) /\
  (encoding (Success answer)).2 <> [].
Proof.
  intros Hp Hmax Hne. destruct (as_u8_is_Some (Success answer)) as [code Hcode].
  destruct (encode_payload_ok MAX_RPC_SIZE _ [code] Hne Hmax) as (u & f & Henc & Hrun); [done|].
  unfold encoding. rewrite Hcode. change (option_list (Some code)) with [code]. rewrite Hrun. cbn [snd].
  intros Heq. split; [|done]. eapply feed_reads.
  - eapply outbound_reads; [exact Henc|].
    apply (coded_of_payload_received protocol (Success answer) code Hcode Hne). by intros ? [= <-].
  - by eexists _, _.
  - exact Heq.
  - cbn. lia.
Qed.

(** [s'] is [s] after some polls that were pending. *)
Definition waited : Outbound -> Outbound -> Prop := rtc (fun s s' => out_poll_next s = (Pending, s')).

(** The socket itself failed: it gave the error [e], or ended too early. *)
Definition socket_failed (s : Outbound) (e : RPCError) : Prop :=
  exists s1 s2, waited s s1 /\
    (out_poll_next s1 = (Ready (Some (Err e)), s2) \/ (out_poll_next s1 = (Ready None, s2) /\ e = IncompleteStream)).

(** However what is still to arrive is cut, it decodes to the response next. *)
Definition owes (s : Outbound) (answer : RPCResponse) : Prop :=
  forall chunks, concat chunks = out_arrives s -> exists c buf,
    feed OutboundCodec_decode (out_codec s) (out_buffer s) chunks = Ret (Some (Ok (Success answer)), c, buf).

Lemma carries_owes s answer : carries s answer -> owes s answer.
Proof.
  intros [(protocol & Hcodec & Hp) Hbuf (rest & Hbytes) Hmax Hne] chunks Hc. rewrite Hbytes in Hc.
  rewrite Hcodec, Hbuf. eexists _, _. by apply (encoding_decodes protocol answer chunks rest).
Qed.

Lemma owes_arrives s answer : owes s answer -> out_arrives s <> [].
Proof. intros Ho Ha. by destruct (Ho [] (eq_sym Ha)) as (c & buf & ?). Qed.

(** What a poll of such a socket can give. *)
Lemma owed s answer r s' :
  owes s answer -> out_poll_next s = (r, s') ->
  match r with
  | Pending => owes s' answer
  | Ready (Some (Ok item)) => item = Success answer
  | Ready (Some (Err _)) | Ready None => True
  end.
Proof.
  intros Ho Hr. destruct (out_poll_next_decodes _ _ _ Hr) as (chunks & Harr & Hfeed).
  destruct r as [[[item|e]|]|]; try done.
  - apply feed_done with (chunks' := [out_arrives s']) in Hfeed.
    destruct (Ho (chunks ++ [out_arrives s'])) as (c & buf & Hall);
      [by rewrite concat_app, Harr; cbn; rewrite app_nil_r|]. congruence.
  - intros chunks' Hc. destruct (Ho (chunks ++ chunks')) as (c & buf & Hall); [by rewrite concat_app, Hc|].
    exists c, buf. by rewrite <-(feed_app OutboundCodec_decode _ _ _ chunks' _ _ Hfeed).
Qed.

(** ** The fate of a request that is answered *)

Section Fate.
Context (o : SubstreamId) (info : OutboundInfo) (s : Outbound) (req : RPCRequest) (t : Instant) (answer : RPCResponse).
Context (Hstate : out_state info = RequestPendingResponse s req) (Hcarries : carries s answer).

(** The entry of the request when its socket is [s1]. *)
Definition with_socket (s1 : Outbound) : OutboundInfo :=
  mkOutboundInfo (RequestPendingResponse s1 req) (delay_key info) (proto info) (remaining_chunks info) (req_id info).

Record awaits (h : RPCHandler) : Prop := {
  awaits_exact : timers_exact h;
  awaits_active : state h = Active;
  awaits_entry : exists s1, waited s s1 /\ owes s1 answer /\ outbound_substreams h !! o = Some (with_socket s1);
  awaits_timer : live (outbound_substreams_delay h) !! delay_key info = Some (o, t);
}.

Definition delivered (event : HandlerEvent) : Prop := event = Custom (Ok (Received_Response (req_id info) answer)).

(** The request failed, because its own socket did. *)
Definition failed (event : HandlerEvent) : Prop :=
  exists p e, event = Custom (Err (Outbound_err (req_id info) p e)) /\ socket_failed s e.

Definition fate (event : HandlerEvent) (h : RPCHandler) : Prop := delivered event \/ failed event \/ awaits h.

Lemma awaits_side h h' : outbound_side h' = outbound_side h -> awaits h -> awaits h'.
Proof.
  intros Hs [Hx Ha He Ht]. pose proof (timers_exact_side _ _ Hs Hx). unfold outbound_side in Hs.
  injection Hs as Ho Hd Hst. split; [done|congruence|by rewrite Ho|congruence].
Qed.

Lemma purge_fate now fuel h event h' :
  (now < t)%N -> awaits h -> purge_outbound fuel now h = Ret (event, h') -> after_phase awaits fate event h'.
Proof.
  intros Hnow. revert h; induction fuel as [|fuel IH]; intros h Ha; [done|]. intros Hr.
  pose proof (purge_outbound_exact _ _ _ _ _ (awaits_exact _ Ha) Hr) as Hx. revert Hr. cbn [purge_outbound].
  destruct Ha as [Hx0 Hact (s1 & Hw & Ho & He) Ht].
  destruct (dq_poll now (outbound_substreams_delay h)) as [r q] eqn:E.
  pose proof (dq_poll_live _ _ _ _ _ E) as Hl. destruct r as [k|e| |].
  - destruct Hl as (key & t' & Hk & Hle & Hq). destruct (Hx0 key k t' Hk) as (info' & Hi & Hkey).
    assert (Hne : k <> o).
    { intros ->. assert (info' = with_socket s1) as -> by congruence. cbn [delay_key with_socket] in Hkey.
      rewrite Hkey in Ht. pose proof (eq_trans (eq_sym Ht) Hk) as Heq. injection Heq as ->. lia. }
    cbn [outbound_substreams set_outbound_substreams_delay]. rewrite Hi. intros [= <- <-]. right; right. split; [done|..].
    + by rewrite (update_keep_alive_frame state).
    + exists s1. rewrite (update_keep_alive_frame outbound_substreams) by done. cbn. by rewrite lookup_delete_ne.
    + rewrite (update_keep_alive_frame outbound_substreams_delay) by done. cbn. rewrite Hq.
      rewrite lookup_delete_ne; [done|]. intros ->.
      pose proof (eq_trans (eq_sym Ht) Hk) as Heq. by injection Heq as ->.
  - by apply dq_poll_alive in E.
  - destruct Hl as [_ Hl]. intros [= <- <-]. split; [done|done|by exists s1|]. cbn. by rewrite Hl.
  - intros [= <- <-]. split; [done|done|by exists s1|]. cbn. by rewrite Hl.
Qed.

(** Its own substream is driven. *)
Lemma drive_own_fate now h event h' :
  inv h -> awaits h -> drive_outbound now o h = Ret (event, h') -> after_phase awaits fate event h'.
Proof.
  intros Hinv [Hx Hact (s1 & Hw & Ho & He) Ht] Hr.
  pose proof (drive_outbound_exact now o _ h event h' Hinv Hx He Hr) as Hx'.
  revert Hr. unfold drive_outbound. rewrite He. cbn [out_state with_socket].
  cbn [state set_outbound_state set_outbound_substreams]. rewrite Hact. cbn [is_deactivated].
  unfold drive_pending_response. destruct (out_poll_next s1) as [r s2] eqn:E.
  pose proof (owed s1 answer r s2 Ho E) as Hs2.
  destruct r as [[[item|e]|]|].
  - subst item. rewrite outbound_chunk_closes. cbn. intros [= <- <-]. by left.
  - destruct (drop_outbound _ _ _ _) as [h1| |]; [|done..]. intros [= <- <-]. right; left.
    exists (proto info), e. split; [done|]. exists s1, s2. auto.
  - destruct (drop_outbound _ _ _ _) as [h1| |]; [|done..]. intros [= <- <-]. right; left.
    exists (request_protocol req), IncompleteStream. split; [done|]. exists s1, s2. auto.
  - intros [= <- <-]. split; [done|done| |done]. exists s2. split; [by eapply rtc_r|]. split; [done|].
    cbn. by rewrite !lookup_alter_eq, He.
Qed.

Lemma drive_fate now id info' h event h' :
  inv h -> awaits h -> outbound_substreams h !! id = Some info' ->
  drive_outbound now id h = Ret (event, h') -> after_phase awaits fate event h'.
Proof.
  intros Hinv Ha0 Hi Hr. destruct (decide (id = o)) as [->|Hne]; [by eapply drive_own_fate|].
  pose proof Ha0 as [Hx Hact (s1 & Hw & Ho & He) Ht].
  assert (Ha : awaits h').
  { split; [exact (drive_outbound_exact now id info' h event h' Hinv Hx Hi Hr)|..];
      destruct (drive_outbound_cases now id info' h event h' Hinv Hi Hr) as [Hst Hcases]; [congruence|..].
    - exists s1. split; [done|]. split; [done|].
      destruct Hcases as [[-> _]|(st & -> & _)]; cbn; [by rewrite lookup_delete_ne|by rewrite !lookup_alter_ne].
    - destruct Hcases as [[_ ->]|(st & _ & ->)]; [|done]. rewrite lookup_delete_ne; [done|]. intros Hkey.
      destruct (inv_outbound _ Hinv id info' Hi) as (_ & _ & [t' Ht']). rewrite Hkey in Ht'. congruence. }
  destruct event; [by right; right|done].
Qed.

Lemma poll_fate now h event h' :
  (now < t)%N -> inv h -> awaits h -> poll now h = Ret (event, h') -> after_phase awaits fate event h'.
Proof.
  intros Hnow. apply poll_post.
  - apply awaits_side.
  - intros ev h1 Ha. by right; right.
  - intros h1 Ha. unfold check_shutdown. by rewrite (awaits_active _ Ha).
  - intros fuel h1 e h2 _. by apply purge_fate.
  - intros id info' h1 e h2. apply drive_fate.
Qed.

(** The request is still open, and its socket answered [Pending] when it was
    last polled, with bytes of the response still to arrive. *)
Definition still_waits (h : RPCHandler) : Prop :=
  exists s1, outbound_substreams h !! o = Some (with_socket s1) /\ waited s s1 /\
    (exists s0, out_poll_next s0 = (Pending, s1)) /\ owes s1 answer /\ out_arrives s1 <> [].

Lemma awaits_still_waits now h : awaits h -> settled now h -> still_waits h.
Proof.
  intros [_ _ (s1 & Hw & Ho & He) _] Hs. exists s1. split; [done|]. split; [done|].
  pose proof (settled_outbound _ _ Hs o _ He) as [Hp _]. split; [exact Hp|]. split; [done|]. by eapply owes_arrives.
Qed.

Lemma poll_all_fate fuel i clock h events h' :
  (forall j, (clock j < t)%N) -> inv h -> awaits h ->
  poll_all fuel i clock h = Ret (events, h') ->
  Exists delivered events \/ Exists failed events \/ still_waits h' \/
  exists events0 e, events = events0 ++ [Close e].
Proof.
  intros Hclock. revert i h events; induction fuel as [|fuel IH]; intros i h events Hinv Ha; [done|].
  destruct (poll_ok (clock i) h Hinv) as (event & h1 & Hr & Hinv1 & _).
  pose proof (poll_fate (clock i) h event h1 (Hclock i) Hinv Ha Hr) as Hf.
  destruct event as [event|].
  - destruct (is_close event) eqn:Hc.
    + destruct event as [|e|]; try done. cbn [poll_all]. rewrite Hr. intros [= <- _]. right; right; right. by exists [], e.
    + rewrite (poll_all_cons _ _ _ _ _ _ Hr Hc).
      destruct (poll_all fuel (S i) clock h1) as [[events1 h2]| |] eqn:E; [|done..]. intros [= <- <-].
      destruct Hf as [Hd|[Hd|Ha1]]; [by left; left|by right; left; left|].
      destruct (IH (S i) h1 events1 Hinv1 Ha1 E) as [Hd|[Hd|[Hd|(events0 & e & ->)]]];
        [by left; right|by right; left; right|by right; right; left|]. right; right; right. by exists (event :: events0), e.
  - cbn [poll_all]. rewrite Hr. intros [= <- <-]. right; right; left. apply (awaits_still_waits (clock i)); [exact Hf|].
    exact (poll_settles (clock i) h h1 Hinv Hr).
Qed.
End Fate.

(** C11: a response that arrives in time is reported, or there is a reason. If
    what arrives on the substream of a request begins with the bytes an honest
    peer writes for a response of the right protocol (not empty and not above
    the greatest size), and the handler is active and polled before the request
    times out, until it is pending or closes, then these polls, at most [work]
    many events, end in one of four ways: the very response is among the events,
    for that request; or an error is, for that request, that its own socket gave;
    or the handler is pending and the request still open, and its socket
    answered [Pending] with bytes of the response still to arrive; or the last
    event closes the connection, with the error of a socket the handler was
    writing to. Nothing else the handler does, whatever order it visits its
    substreams in and however the bytes are cut, loses a response. *)
Theorem response_is_delivered (clock : nat -> Instant) (w : World) (o : SubstreamId) (info : OutboundInfo)
    (s : Outbound) (req : RPCRequest) (t : Instant) (answer : RPCResponse) :
  world_reachable w -> state (handler w) = Active ->
  outbound_substreams (handler w) !! o = Some info -> out_state info = RequestPendingResponse s req ->
  carries s answer ->
  live (outbound_substreams_delay (handler w)) !! delay_key info = Some (o, t) -> (forall i, (clock i < t)%N) ->
  exists events h', poll_all (S (work (handler w))) 0 clock (handler w) = Ret (events, h') /\
    (length events <= work (handler w))%nat /\
    (Custom (Ok (Received_Response (req_id info) answer)) ∈ events \/
     (exists p e, Custom (Err (Outbound_err (req_id info) p e)) ∈ events /\ socket_failed s e) \/
     (exists s1, outbound_substreams h' !! o = Some (with_socket info req s1) /\ waited s s1 /\
        (exists s0, out_poll_next s0 = (Pending, s1)) /\ owes s1 answer /\ out_arrives s1 <> []) \/
     (exists events0 e, events = events0 ++ [Close e] /\ exists s s', in_poll_ready s = (Ready (Err e), s'))).
Proof.
  intros Hw Hact He Hst Hc Ht Hclock. pose proof (world_exact w Hw) as Hx.
  apply world_reachable_inv in Hw as [Hinv _].
  destruct (poll_all_ends (S (work (handler w))) 0 clock (handler w) Hinv (Nat.lt_succ_diag_r _))
    as (events & h' & Hr & _ & Hlen & Hend).
  exists events, h'. split; [done|]. split; [lia|].
  assert (Ha : awaits o info s req t answer (handler w)).
  { split; [done|done| |done]. exists s. split; [apply rtc_refl|]. split; [by apply carries_owes|].
    rewrite He. destruct info as [st key pr rc id]. cbn in Hst |- *. by subst st. }
  destruct (poll_all_fate o info s req t answer _ _ clock _ _ _ Hclock Hinv Ha Hr) as [Hd|[Hd|[Hd|(events0 & e & ->)]]].
  - left. apply Exists_exists in Hd as (event & Hin & ->). exact Hin.
  - right; left. apply Exists_exists in Hd as (event & Hin & p & e & -> & Hf). by exists p, e.
  - by right; right; left.
  - right; right; right. exists events0, e. split; [done|].
    destruct Hend as [[Hf _]|(events1 & e1 & [_ Heq]%app_inj_2 & _ & Hcause)]; [|by injection Heq as ->|done].
    apply Forall_app in Hf as [_ Hf]. apply Forall_cons_1 in Hf as [Hf _]. done.
Qed.
End Delivery.

(** ** The concrete instance: the sockets of RpcExchange *)
Section Witnesses.
#[local] Existing Instance leb128_wire.
#[local] Existing Instance leb128_laws.
#[local] Existing Instance direct_streams.
#[local] Existing Instance direct_framed.
#[local] Existing Instance direct_laws.
#[local] Existing Instance table_queue.
#[local] Existing Instance table_queue_laws.
#[local] Existing Instance table_queue_alive.
#[local] Existing Instance map_to_list_order.
#[local] Existing Instance RpcExchange.debug_build.

Lemma demo_carries : carries demo_source demo_pong.
Proof.
  split.
  - exists ping_protocol. split; reflexivity.
  - reflexivity.
  - exists []. vm_compute. reflexivity.
  - vm_compute. discriminate.
  - discriminate.
Qed.

Definition demo_info : @OutboundInfo direct_streams table_queue :=
  mkOutboundInfo (RequestPendingResponse demo_source demo_ping_request) (0%N : @Key table_queue) Protocol_Ping None
    RequestId_Router.

Lemma demo_client_world : world_reachable (world demo_client).
Proof. exact (node_world _ demo_client_reachable). Qed.

Lemma demo_client_active : state (handler (world demo_client)) = Active.
Proof. vm_cast_no_check (eq_refl (@Active direct_streams)). Qed.

Lemma demo_client_waits : outbound_substreams (handler (world demo_client)) !! 0%Z = Some demo_info.
Proof. vm_cast_no_check (eq_refl (Some demo_info)). Qed.

Lemma demo_client_timer :
  live (outbound_substreams_delay (handler (world demo_client))) !! delay_key demo_info =
    Some (0%Z, from_secs RESPONSE_TIMEOUT).
Proof. vm_cast_no_check (eq_refl (Some (0%Z, from_secs RESPONSE_TIMEOUT))). Qed.

(** Its socket gives the pong at once; none of the other ways is open. *)
Lemma demo_source_gives : exists s', out_poll_next demo_source = (Ready (Some (Ok (Success demo_pong))), s').
Proof. eexists. vm_compute. reflexivity. Qed.

Lemma demo_source_waited s' : waited demo_source s' -> s' = demo_source.
Proof.
  destruct demo_source_gives as [s1 H1]. intros Hw. inversion Hw as [|x y z Hp]; [done|]. congruence.
Qed.

Lemma pending_arrived (s s' : @Outbound direct_streams) : out_poll_next s = (Pending, s') -> out_arrives s' = [].
Proof.
  unfold out_poll_next. cbn -[feed].
  destruct (feed _ _ _ _) as [[[[r|] c] buf]| |]; [done| |done..]. by intros [= <-].
Qed.

(** The client of the ping, polled until it is pending, reports the pong. *)
Lemma response_is_delivered_witness :
  exists events h', poll_all (S (work (handler (world demo_client)))) 0 (fun _ => 0%N) (handler (world demo_client)) =
      Ret (events, h') /\ Custom (Ok (Received_Response RequestId_Router demo_pong)) ∈ events.
Proof.
  destruct (response_is_delivered (fun _ => 0%N) (world demo_client) 0%Z demo_info demo_source demo_ping_request
    (from_secs RESPONSE_TIMEOUT) demo_pong demo_client_world demo_client_active demo_client_waits eq_refl demo_carries
    demo_client_timer) as (events & h' & Hr & _ & Hfate); [by intros _|].
  exists events, h'. split; [exact Hr|]. destruct demo_source_gives as [s' Hs'].
  destruct Hfate as [Hin|[(p & e & _ & s1 & s2 & Hw%demo_source_waited & Hf)|[(s1 & _ & Hw & (s0 & Hp) & _ & Ha)|Hc]]].
  - exact Hin.
  - exfalso. subst s1. destruct Hf as [Hf|[Hf _]]; congruence.
  - exfalso. apply Ha. exact (pending_arrived s0 s1 Hp).
  - exfalso. destruct Hc as (events0 & e & _ & s1 & s2 & Hc). discriminate Hc.
Defined.
End Witnesses.
