(* ===== verification/Env.v ===== *)
(** * The types of libp2p and discv5 the program handles

    Peer identifiers, multiaddresses and the other values that come from the
    networking libraries are opaque to the program: they are the members of a
    class, and every component is parameterised by an instance. *)
From S2P Require Import Prelude.

(** [std::net::IpAddr] *)
Inductive IpAddr := V4 (a : N) | V6 (a : N).

#[export] Instance IpAddr_eq_dec : EqDecision IpAddr.
Proof. solve_decision. Defined.

(** The components of a multiaddress the program builds and looks at. *)
Inductive MProtocol (P : Type) :=
| M_Ip (ip : IpAddr)
| M_Tcp (port : N)
| M_Udp (port : N)
| M_P2p (peer_id : P)
| M_Other (text : string).
Arguments M_Ip {P} ip.
Arguments M_Tcp {P} port.
Arguments M_Udp {P} port.
Arguments M_P2p {P} peer_id.
Arguments M_Other {P} text.

Class Libp2p := {
  (** [libp2p::PeerId], used as a hash-map key. *)
  PeerId : Type;
  PeerId_eq_dec :: EqDecision PeerId;
  PeerId_countable :: Countable PeerId;
  (** [libp2p::Multiaddr] *)
  Multiaddr : Type;
  (** [libp2p::identify::IdentifyInfo] and the fields the program reads. *)
  IdentifyInfo : Type;
  agent_version : IdentifyInfo -> string;
  info_protocol_version : IdentifyInfo -> string;
  listen_addrs : IdentifyInfo -> list Multiaddr;
  (** The assignment [info.listen_addrs = addrs]. *)
  set_listen_addrs : list Multiaddr -> IdentifyInfo -> IdentifyInfo;
}.

Class Libp2pLaws `{Libp2p} := {
  listen_addrs_set : forall addrs i, listen_addrs (set_listen_addrs addrs i) = addrs;
  agent_version_set : forall addrs i, agent_version (set_listen_addrs addrs i) = agent_version i;
  protocol_version_set : forall addrs i,
    info_protocol_version (set_listen_addrs addrs i) = info_protocol_version i;
}.

(** A concrete instance for the examples and the witnesses: peers are numbers,
    an address is the list of its components, an identify record is its three fields. *)
Definition demo_libp2p : Libp2p := {|
  PeerId := N;
  PeerId_eq_dec := _;
  PeerId_countable := _;
  Multiaddr := list (MProtocol N);
  IdentifyInfo := (string * string * list (list (MProtocol N)))%type;
  agent_version := fun i => i.1.1;
  info_protocol_version := fun i => i.1.2;
  listen_addrs := fun i => i.2;
  set_listen_addrs := fun addrs i => (i.1, addrs);
|}.

Lemma demo_libp2p_laws : @Libp2pLaws demo_libp2p.
Proof. by split. Qed.

(** ** Files

    What becomes of [File::create] and [write_all]: the file cannot be created
    and is left as it was; it is created, and so emptied, but the write fails
    after some bytes; or it is written. *)
Inductive FileWrite :=
| Not_created
| Cut_short (written : nat)
| Written.

(** A file as a read finds it: [None] when it does not open, [Some None] when
    it cannot be read. [cut n] is the start of a content. *)
Definition write_file {A} (cut : nat -> A -> A) (w : FileWrite) (content : A) (file : option (option A))
    : option (option A) :=
  match w with
  | Not_created => file
  | Cut_short n => Some (Some (cut n content))
  | Written => Some (Some content)
  end.
