(* ===== verification/Client.v ===== *)
(** * Client identification (src/core/network/src/peer_manager/client.rs)

    The name, version and operating system of a peer, cut out of the agent
    string its Identify message carries. *)
From Stdlib Require Import Strings.String Strings.Ascii.
From S2P Require Import Prelude Env.

Open Scope list_scope.

Inductive ClientKind :=
| Known (name : string)
| UnknownClient.

Record Client := mkClient {
  kind : ClientKind;
  client_version : string;
  os_version : string;
  protocol_version : string;
  agent_string : option string;
}.

(** [impl Default for Client] *)
Definition Client_default : Client := mkClient UnknownClient "unknown" "unknown" "unknown" None.

(** [str::split(c)]: the pieces between the separators, at least one. *)
Fixpoint split (c : ascii) (s : string) : list string :=
  match s with
  | EmptyString => [EmptyString]
  | String a s' =>
    if Ascii.eqb a c then EmptyString :: split c s'
    else match split c s' with
         | p :: ps => String a p :: ps
         | [] => [String a EmptyString]
         end
  end.

(** [client_from_agent_version]; the iterator [agent_split] is the list of the
    pieces not yet taken. *)
Definition client_from_agent_version (agent_version : string) : ClientKind * string * string :=
  let agent_split := split "/" agent_version in
  match agent_split with
  | kind :: agent_split1 =>
    if String.eqb kind "github.com" then
      let unknown := "unknown"%string in
      (Known kind, unknown, unknown)
    else
      let version := "unknown"%string in
      let os_version := version in
      let '(version, os_version) :=
        match agent_split1 with
        | agent_version :: agent_split2 =>
          let version := agent_version in
          match agent_split2 with
          | agent_os_version :: _ => (version, agent_os_version)
          | [] => (version, os_version)
          end
        | [] => (version, os_version)
        end in
      (Known kind, version, os_version)
  | [] =>
    let unknown := "unknown"%string in
    (UnknownClient, unknown, unknown)
  end.

Section Identify.
Context `{Libp2p}.

(** [Client::from_identify_info] *)
Definition from_identify_info (info : IdentifyInfo) : Client :=
  let '(kind, version, os_version) := client_from_agent_version (agent_version info) in
  mkClient kind version os_version (info_protocol_version info) (Some (agent_version info)).
End Identify.

(** ** Lemmas *)

Lemma split_cons c s : exists p ps, split c s = p :: ps.
Proof.
  destruct s as [|a s]; cbn; [eauto|].
  destruct (Ascii.eqb a c); [eauto|]. destruct (split c s); eauto.
Qed.

Lemma concat_String sep a p ps :
  String.concat sep (String a p :: ps) = String a (String.concat sep (p :: ps)).
Proof. by destruct ps. Qed.

(** Joining the pieces with the separator gives the string back. *)
Lemma concat_split c s : String.concat (String c EmptyString) (split c s) = s.
Proof.
  induction s as [|a s IH]; [done|].
  destruct (split_cons c s) as (p & ps & Hs). cbn [split]. rewrite Hs in IH |- *.
  destruct (Ascii.eqb_spec a c) as [->|Hne].
  - cbn. by rewrite <-IH.
  - by rewrite concat_String, IH.
Qed.

Fixpoint occurs (c : ascii) (s : string) : bool :=
  match s with
  | EmptyString => false
  | String a s' => (Ascii.eqb a c || occurs c s')%bool
  end.

(** No piece holds the separator. *)
Lemma split_pieces c s : Forall (fun p => occurs c p = false) (split c s).
Proof.
  induction s as [|a s IH]; cbn; [by repeat constructor|].
  destruct (Ascii.eqb a c) eqn:Ha; [by constructor|].
  destruct (split c s) as [|p ps]; cbn in *.
  - repeat constructor. cbn. by rewrite Ha.
  - apply Forall_cons_1 in IH as [Hp Hps]. constructor; [|done]. cbn. by rewrite Ha.
Qed.

Lemma split_no_sep c p : occurs c p = false -> split c p = [p].
Proof.
  induction p as [|a p IH]; cbn; [done|].
  intros [Ha Hp]%orb_false_iff. by rewrite Ha, IH.
Qed.

Lemma split_app c p s :
  occurs c p = false -> split c (p +:+ String c s)%string = p :: split c s.
Proof.
  induction p as [|a p IH]; intros Ho.
  - change (split c (String c s) = "" :: split c s)%string. cbn. by rewrite Ascii.eqb_refl.
  - cbn in Ho. apply orb_false_iff in Ho as [Ha Hp].
    change (split c (String a (p +:+ String c s)) = String a p :: split c s)%string.
    cbn [split]. by rewrite Ha, (IH Hp).
Qed.
