(* ===== verification/PeerInfo.v ===== *)
(** * Peer information (src/core/network/src/peer_manager/peer_info.rs)

    The connection status of a peer as a state machine, and the record the
    database keeps for each peer. *)
From Stdlib Require Import NArith Strings.Byte.
From S2P Require Import Prelude Env RpcMethods Client.

Open Scope Z_scope.
Open Scope list_scope.

(** [pub type Rep = u8] and [DEFAULT_REPUTATION] are declared in peerdb.rs. *)
Definition Rep := Z.
Definition DEFAULT_REPUTATION : Rep := 50.

(** [SubnetId] is [u64]. *)
Definition SubnetId := N.

Inductive PeerStatus := Healthy | Clogged.

Definition PeerStatus_default : PeerStatus := Healthy.

(** The counters [n_in] and [n_out] are [u8]. *)
Inductive PeerConnectionStatus :=
| Connected (n_in n_out : Z)
| Disconnected (since : Instant)
| Banned (since : Instant)
| Dialing (since : Instant)
| UnknownStatus.

Definition PeerConnectionStatus_default : PeerConnectionStatus := UnknownStatus.

Definition is_connected (s : PeerConnectionStatus) : bool :=
  match s with Connected _ _ => true | _ => false end.

Definition is_dialing (s : PeerConnectionStatus) : bool :=
  match s with Dialing _ => true | _ => false end.

Definition is_banned (s : PeerConnectionStatus) : bool :=
  match s with Banned _ => true | _ => false end.

Definition is_disconnected (s : PeerConnectionStatus) : bool :=
  match s with Disconnected _ => true | _ => false end.

Section Status.
Context `{BuildProfile}.

Definition connect_ingoing (s : PeerConnectionStatus) : Outcome PeerConnectionStatus :=
  match s with
  | Connected n_in n_out => n_in ← add_w 8 n_in 1; mret (Connected n_in n_out)
  | Disconnected _ | Banned _ | Dialing _ | UnknownStatus => mret (Connected 1 0)
  end.

Definition connect_outgoing (s : PeerConnectionStatus) : Outcome PeerConnectionStatus :=
  match s with
  | Connected n_in n_out => n_out ← add_w 8 n_out 1; mret (Connected n_in n_out)
  | Disconnected _ | Banned _ | Dialing _ | UnknownStatus => mret (Connected 0 1)
  end.
End Status.

Definition disconnect (now : Instant) (s : PeerConnectionStatus) : PeerConnectionStatus :=
  Disconnected now.

Definition ban (now : Instant) (s : PeerConnectionStatus) : PeerConnectionStatus :=
  Banned now.

Definition connections (s : PeerConnectionStatus) : Z * Z :=
  match s with
  | Connected n_in n_out => (n_in, n_out)
  | _ => (0, 0)
  end.

(** [impl Serialize for PeerConnectionStatus]: the calls made on the
    serializer, as the variant they build.  [since.elapsed()] is
    [now - since]; the clock is monotonic and the subtraction saturates. *)
Inductive SerVariant :=
| StructVariant (index : N) (variant : string) (fields : list (string * Z))
| UnitVariant (index : N) (variant : string).

Definition elapsed_secs (now since : Instant) : Z := Z.of_N (as_secs (now - since)%N).

Definition serialize (now : Instant) (s : PeerConnectionStatus) : SerVariant :=
  match s with
  | Connected n_in n_out => StructVariant 0 "Connected" [("in"%string, n_in); ("out"%string, n_out)]
  | Disconnected since => StructVariant 1 "Disconnected" [("since"%string, elapsed_secs now since)]
  | Banned since => StructVariant 2 "Banned" [("since"%string, elapsed_secs now since)]
  | Dialing since => StructVariant 3 "Dialing" [("since"%string, elapsed_secs now since)]
  | UnknownStatus => UnitVariant 4 "Unknown"
  end.

Section Info.
Context `{Libp2p}.

Record PeerInfo := mkPeerInfo {
  _status : PeerStatus;
  reputation : Rep;
  client : Client;
  connection_status : PeerConnectionStatus;
  listening_addresses : list Multiaddr;
  meta_data : option MetaData;
  min_ttl : option Instant;
}.

(** [impl Default for PeerInfo] *)
Definition PeerInfo_default : PeerInfo :=
  mkPeerInfo PeerStatus_default DEFAULT_REPUTATION Client_default PeerConnectionStatus_default
    [] None None.

(** [PeerInfo::on_subnet], a stub: both branches answer [false]. *)
Definition on_subnet (info : PeerInfo) (subnet_id : SubnetId) : bool :=
  match meta_data info with
  | Some _ => false
  | None => false
  end.

(** Field assignments [info.f = v]. *)
Definition set_reputation_field (v : Rep) (i : PeerInfo) : PeerInfo :=
  mkPeerInfo (_status i) v (client i) (connection_status i) (listening_addresses i)
    (meta_data i) (min_ttl i).
Definition set_connection_status (v : PeerConnectionStatus) (i : PeerInfo) : PeerInfo :=
  mkPeerInfo (_status i) (reputation i) (client i) v (listening_addresses i)
    (meta_data i) (min_ttl i).
Definition set_client (v : Client) (i : PeerInfo) : PeerInfo :=
  mkPeerInfo (_status i) (reputation i) v (connection_status i) (listening_addresses i)
    (meta_data i) (min_ttl i).
Definition set_listening_addresses (v : list Multiaddr) (i : PeerInfo) : PeerInfo :=
  mkPeerInfo (_status i) (reputation i) (client i) (connection_status i) v
    (meta_data i) (min_ttl i).
Definition set_meta_data (v : option MetaData) (i : PeerInfo) : PeerInfo :=
  mkPeerInfo (_status i) (reputation i) (client i) (connection_status i)
    (listening_addresses i) v (min_ttl i).
Definition set_min_ttl (v : option Instant) (i : PeerInfo) : PeerInfo :=
  mkPeerInfo (_status i) (reputation i) (client i) (connection_status i)
    (listening_addresses i) (meta_data i) v.
End Info.

(** ** Well-formedness and lemmas *)

(** The connection counters are [u8]. *)
Definition status_wf (s : PeerConnectionStatus) : Prop :=
  match s with
  | Connected n_in n_out => in_width 8 n_in /\ in_width 8 n_out
  | _ => True
  end.

Definition info_wf `{Libp2p} (i : PeerInfo) : Prop :=
  in_width 8 (reputation i) /\ status_wf (connection_status i).

Section StatusLemmas.
Context `{BuildProfile}.

Lemma connect_ingoing_connected s s' : connect_ingoing s = Ret s' -> is_connected s' = true.
Proof. unfold connect_ingoing. destruct s; outcome_simpl; intros; invert_ret; done. Qed.

Lemma connect_outgoing_connected s s' : connect_outgoing s = Ret s' -> is_connected s' = true.
Proof. unfold connect_outgoing. destruct s; outcome_simpl; intros; invert_ret; done. Qed.

Lemma add_w_width w x y z :
  0 <= w -> in_width w x -> 0 <= y -> add_w w x y = Ret z -> in_width w z.
Proof.
  unfold add_w, in_width. intros Hw Hx Hy.
  repeat case_match; intros; simplify_eq; try lia.
  apply Z.mod_pos_bound. lia.
Qed.

Lemma connect_ingoing_wf s s' : status_wf s -> connect_ingoing s = Ret s' -> status_wf s'.
Proof.
  destruct s; cbn; outcome_simpl; try (intros _ [= <-]; split; unfold in_width; lia).
  intros [Hi Ho]. destruct (add_w 8 n_in 1) eqn:E; intros [= <-]. split; [|done].
  by eapply add_w_width in E.
Qed.

Lemma connect_outgoing_wf s s' : status_wf s -> connect_outgoing s = Ret s' -> status_wf s'.
Proof.
  destruct s; cbn; outcome_simpl; try (intros _ [= <-]; split; unfold in_width; lia).
  intros [Hi Ho]. destruct (add_w 8 n_out 1) eqn:E; intros [= <-]. split; [done|].
  by eapply add_w_width in E.
Qed.
End StatusLemmas.

Lemma info_wf_default `{Libp2p} : info_wf PeerInfo_default.
Proof. repeat split; unfold in_width, DEFAULT_REPUTATION; cbn; unfold DEFAULT_REPUTATION; lia. Qed.
