(* ===== verification/PeerDB.v ===== *)
(** * The peer database (src/core/network/src/peer_manager/peerdb.rs)

    [PeerDB] maps peers to their information and counts the disconnected ones
    in [n_dc].  Each method of [impl PeerDB] is a definition; a method that can
    panic answers in [Outcome], and one that reads the clock takes [now]. *)
From Stdlib Require Import NArith.
From S2P Require Import Prelude Env RpcMethods Client PeerInfo.

Open Scope Z_scope.
Open Scope list_scope.

(** [struct RepChange] and its constructors. *)
Record RepChange := mkRepChange { is_good : bool; diff : Rep }.

Definition good (diff : Rep) : RepChange := mkRepChange true diff.
Definition bad (diff : Rep) : RepChange := mkRepChange false diff.
Definition worst : RepChange := mkRepChange false 255.

Definition MAX_DC_PEERS : Z := 30.

Section PeerDB.
Context `{Libp2p} `{HashOrder} `{BuildProfile}.

(** [struct PeerDB] *)
Record PeerDB := mkPeerDB {
  peers : gmap PeerId PeerInfo;
  n_dc : Z;
}.

Definition new : PeerDB := mkPeerDB ∅ 0.

(** ** Getters *)

Definition get_reputation (peer_id : PeerId) (db : PeerDB) : Rep :=
  match peers db !! peer_id with
  | Some info => reputation info
  | None => DEFAULT_REPUTATION
  end.

Definition peer_ids (db : PeerDB) : list PeerId := hm_keys (peers db).

Definition peer_info (peer_id : PeerId) (db : PeerDB) : option PeerInfo := peers db !! peer_id.

(** [peer_info_mut]: a mutable borrow through which [f] is applied. *)
Definition peer_info_mut (peer_id : PeerId) (f : PeerInfo -> PeerInfo) (db : PeerDB) : PeerDB :=
  mkPeerDB (alter f peer_id (peers db)) (n_dc db).

Definition peer_banned (peer_id : PeerId) (db : PeerDB) : bool :=
  match connection_status <$> (peers db !! peer_id) with
  | Some status => is_banned status
  | None => false
  end.

(** The filters over all peers; each is the list of the entries in iteration
    order whose information passes the test. *)
Definition filter_peers (f : PeerInfo -> bool) (db : PeerDB) : list (PeerId * PeerInfo) :=
  filter (fun kv => f kv.2 = true) (hm_iter (peers db)).

Definition connected_peers (db : PeerDB) : list (PeerId * PeerInfo) :=
  filter_peers (fun info => is_connected (connection_status info)) db.

Definition connected_peer_ids (db : PeerDB) : list PeerId :=
  (filter_peers (fun info => is_connected (connection_status info)) db).*1.

Definition connected_or_dialing_peers (db : PeerDB) : list PeerId :=
  (filter_peers (fun info => is_connected (connection_status info) ||
                             is_dialing (connection_status info))%bool db).*1.

Definition peers_on_subnet (subnet_id : SubnetId) (db : PeerDB) : list PeerId :=
  (filter_peers (fun info => is_connected (connection_status info) &&
                             on_subnet info subnet_id)%bool db).*1.

Definition disconnected_peers (db : PeerDB) : list PeerId :=
  (filter_peers (fun info => is_disconnected (connection_status info)) db).*1.

Definition banned_peers (db : PeerDB) : list PeerId :=
  (filter_peers (fun info => is_banned (connection_status info)) db).*1.

(** [sort_by_key] on [Rep::max_value() - reputation]. *)
Definition best_peers_by_status (is_status : PeerConnectionStatus -> bool) (db : PeerDB)
    : list (PeerId * PeerInfo) :=
  let by_status := filter_peers (fun info => is_status (connection_status info)) db in
  sort_by_key (fun kv => 255 - reputation kv.2) by_status.

Definition best_by_status (is_status : PeerConnectionStatus -> bool) (db : PeerDB)
    : option PeerId :=
  fst <$> max_by_key (fun kv => reputation kv.2)
            (filter_peers (fun info => is_status (connection_status info)) db).

Definition get_connection_status (peer_id : PeerId) (db : PeerDB) : option PeerConnectionStatus :=
  connection_status <$> peer_info peer_id db.

Definition peer_is_connected (peer_id : PeerId) (db : PeerDB) : bool :=
  match get_connection_status peer_id db with
  | Some (Connected _ _) => true
  | _ => false
  end.

Definition is_connected_or_dialing (peer_id : PeerId) (db : PeerDB) : bool :=
  match get_connection_status peer_id db with
  | Some (Connected _ _) | Some (Dialing _) => true
  | _ => false
  end.

(** ** Setters *)

(** [self.peers.entry(peer_id.clone()).or_default()], also with the logging
    [or_insert_with] of [disconnect] and [ban]. *)
Definition entry_or_default (peer_id : PeerId) (db : PeerDB) : PeerInfo :=
  default PeerInfo_default (peers db !! peer_id).

Definition dialing_peer (now : Instant) (peer_id : PeerId) (db : PeerDB) : PeerDB :=
  let info := entry_or_default peer_id db in
  let n_dc' :=
    if is_disconnected (connection_status info) then saturating_sub (n_dc db) 1 else n_dc db in
  mkPeerDB (<[peer_id := set_connection_status (Dialing now) info]> (peers db)) n_dc'.

(** [Some(min_ttl) > info.min_ttl], with [None] below every [Some]. *)
Definition ttl_gt (ttl : Instant) (o : option Instant) : bool :=
  match o with Some t => bool_decide (t < ttl)%N | None => true end.

Definition ttl_update (ttl : Instant) (info : PeerInfo) : PeerInfo :=
  if (match min_ttl info with None => true | Some _ => false end || ttl_gt ttl (min_ttl info))%bool
  then set_min_ttl (Some ttl) info
  else info.

Definition update_min_ttl (peer_id : PeerId) (ttl : Instant) (db : PeerDB) : PeerDB :=
  let info := entry_or_default peer_id db in
  mkPeerDB (<[peer_id := ttl_update ttl info]> (peers db)) (n_dc db).

Definition extend_peers_on_subnet (subnet_id : SubnetId) (ttl : Instant) (db : PeerDB) : PeerDB :=
  mkPeerDB
    ((fun info =>
        if (is_connected (connection_status info) && on_subnet info subnet_id)%bool
        then ttl_update ttl info
        else info) <$> peers db)
    (n_dc db).

Definition connect_ingoing (peer_id : PeerId) (db : PeerDB) : Outcome PeerDB :=
  let info := entry_or_default peer_id db in
  let n_dc' :=
    if is_disconnected (connection_status info) then saturating_sub (n_dc db) 1 else n_dc db in
  status ← PeerInfo.connect_ingoing (connection_status info);
  mret (mkPeerDB (<[peer_id := set_connection_status status info]> (peers db)) n_dc').

Definition connect_outgoing (peer_id : PeerId) (db : PeerDB) : Outcome PeerDB :=
  let info := entry_or_default peer_id db in
  let n_dc' :=
    if is_disconnected (connection_status info) then saturating_sub (n_dc db) 1 else n_dc db in
  status ← PeerInfo.connect_outgoing (connection_status info);
  mret (mkPeerDB (<[peer_id := set_connection_status status info]> (peers db)) n_dc').

(** [shrink_to_fit]: one iteration of the loop removes one peer. *)
Definition shrink_victim (db : PeerDB) : option PeerId :=
  fst <$> min_by_key (fun kv => reputation kv.2)
            (filter_peers (fun info => is_disconnected (connection_status info)) db).

Fixpoint shrink_loop (fuel : nat) (db : PeerDB) : Outcome PeerDB :=
  match fuel with
  | O => OutOfFuel
  | S fuel =>
    if decide (MAX_DC_PEERS < n_dc db) then
      to_drop ← unwrap (shrink_victim db) "called `Option::unwrap()` on a `None` value";
      shrink_loop fuel (mkPeerDB (delete to_drop (peers db)) (saturating_sub (n_dc db) 1))
    else mret db
  end.

Definition shrink_to_fit (db : PeerDB) : Outcome PeerDB :=
  shrink_loop (S (Z.to_nat (n_dc db - MAX_DC_PEERS))) db.

Definition disconnect (now : Instant) (peer_id : PeerId) (db : PeerDB) : Outcome PeerDB :=
  let info := entry_or_default peer_id db in
  db' ←
    (if (negb (is_disconnected (connection_status info)) &&
         negb (is_banned (connection_status info)))%bool then
       let status := PeerInfo.disconnect now (connection_status info) in
       n_dc' ← add_w 64 (n_dc db) 1;
       mret (mkPeerDB (<[peer_id := set_connection_status status info]> (peers db)) n_dc')
     else mret (mkPeerDB (<[peer_id := info]> (peers db)) (n_dc db)));
  shrink_to_fit db'.

Definition ban (now : Instant) (peer_id : PeerId) (db : PeerDB) : PeerDB :=
  let info := entry_or_default peer_id db in
  let n_dc' :=
    if is_disconnected (connection_status info) then saturating_sub (n_dc db) 1 else n_dc db in
  let status := PeerInfo.ban now (connection_status info) in
  mkPeerDB (<[peer_id := set_connection_status status info]> (peers db)) n_dc'.

Definition add_metadata (peer_id : PeerId) (data : MetaData) (db : PeerDB) : PeerDB :=
  match peers db !! peer_id with
  | Some info => mkPeerDB (<[peer_id := set_meta_data (Some data) info]> (peers db)) (n_dc db)
  | None => db
  end.

Definition set_reputation (peer_id : PeerId) (rep : Rep) (db : PeerDB) : PeerDB :=
  match peers db !! peer_id with
  | Some info => mkPeerDB (<[peer_id := set_reputation_field rep info]> (peers db)) (n_dc db)
  | None => db
  end.

Definition add_reputation (peer_id : PeerId) (change : RepChange) (db : PeerDB) : PeerDB :=
  match peers db !! peer_id with
  | None => db
  | Some info =>
    let rep :=
      if is_good change then saturating_add 8 (reputation info) (diff change)
      else saturating_sub (reputation info) (diff change) in
    mkPeerDB (<[peer_id := set_reputation_field rep info]> (peers db)) (n_dc db)
  end.

(** ** Invariant *)

Definition disc (info : PeerInfo) : bool := is_disconnected (connection_status info).

(** [n_dc] is the number of disconnected peers. *)
Definition exact (db : PeerDB) : Prop := n_dc db = Z.of_nat (count_values disc (peers db)).

Record wf (db : PeerDB) : Prop := {
  wf_exact : exact db;
  wf_bound : n_dc db <= MAX_DC_PEERS;
  wf_infos : map_Forall (fun _ info => info_wf info) (peers db);
}.

(** The calls the rest of the program makes on the database: its setters, and
    the assignments through [peer_info_mut], which never touch the status or
    the reputation. *)
Inductive DbOp :=
| OpDialing (peer_id : PeerId)
| OpUpdateMinTtl (peer_id : PeerId) (ttl : Instant)
| OpExtendPeersOnSubnet (subnet_id : SubnetId) (ttl : Instant)
| OpConnectIngoing (peer_id : PeerId)
| OpConnectOutgoing (peer_id : PeerId)
| OpDisconnect (peer_id : PeerId)
| OpShrinkToFit
| OpBan (peer_id : PeerId)
| OpAddMetadata (peer_id : PeerId) (data : MetaData)
| OpSetReputation (peer_id : PeerId) (rep : Rep)
| OpAddReputation (peer_id : PeerId) (change : RepChange)
| OpIdentify (peer_id : PeerId) (c : Client) (addrs : list Multiaddr)
| OpSetMetaData (peer_id : PeerId) (data : MetaData).

(** [u8] arguments are in range. *)
Definition op_wf (op : DbOp) : Prop :=
  match op with
  | OpSetReputation _ rep => in_width 8 rep
  | OpAddReputation _ change => in_width 8 (diff change)
  | _ => True
  end.

Definition run_op (now : Instant) (op : DbOp) (db : PeerDB) : Outcome PeerDB :=
  match op with
  | OpDialing p => mret (dialing_peer now p db)
  | OpUpdateMinTtl p ttl => mret (update_min_ttl p ttl db)
  | OpExtendPeersOnSubnet s ttl => mret (extend_peers_on_subnet s ttl db)
  | OpConnectIngoing p => connect_ingoing p db
  | OpConnectOutgoing p => connect_outgoing p db
  | OpDisconnect p => disconnect now p db
  | OpShrinkToFit => shrink_to_fit db
  | OpBan p => mret (ban now p db)
  | OpAddMetadata p data => mret (add_metadata p data db)
  | OpSetReputation p rep => mret (set_reputation p rep db)
  | OpAddReputation p change => mret (add_reputation p change db)
  | OpIdentify p c addrs =>
    mret (peer_info_mut p (fun i => set_listening_addresses addrs (set_client c i)) db)
  | OpSetMetaData p data => mret (peer_info_mut p (set_meta_data (Some data)) db)
  end.

(** One call, and the databases the program can reach. *)
Definition db_step (db db' : PeerDB) : Prop :=
  exists now op, op_wf op /\ run_op now op db = Ret db'.

Definition reachable (db : PeerDB) : Prop := rtc db_step new db.

(** The peer an operation is called for. *)
Definition op_target (op : DbOp) : option PeerId :=
  match op with
  | OpDialing p | OpUpdateMinTtl p _ | OpConnectIngoing p | OpConnectOutgoing p
  | OpDisconnect p | OpBan p | OpAddMetadata p _ | OpSetReputation p _
  | OpAddReputation p _ | OpIdentify p _ _ | OpSetMetaData p _ => Some p
  | OpExtendPeersOnSubnet _ _ | OpShrinkToFit => None
  end.

(** ** Lemmas *)

Lemma info_wf_entry peer_id db : wf db -> info_wf (entry_or_default peer_id db).
Proof.
  intros Hwf. unfold entry_or_default.
  destruct (peers db !! peer_id) eqn:E; cbn; [by eapply (wf_infos _ Hwf)|apply info_wf_default].
Qed.

Lemma disc_entry peer_id db :
  disc (entry_or_default peer_id db) = default false (disc <$> peers db !! peer_id).
Proof. unfold entry_or_default. by destruct (peers db !! peer_id). Qed.

(** Writing one entry back keeps the count exact when [n_dc] follows the
    change of that entry. *)
Lemma exact_insert peer_id info db n :
  exact db ->
  n + (if disc (entry_or_default peer_id db) then 1 else 0) =
    n_dc db + (if disc info then 1 else 0) ->
  exact (mkPeerDB (<[peer_id := info]> (peers db)) n).
Proof.
  unfold exact. cbn. intros Hex Hn. rewrite disc_entry in Hn.
  pose proof (count_values_insert disc (peers db) peer_id info) as Hc.
  repeat case_match; lia.
Qed.

Lemma wf_insert peer_id info db n :
  wf db -> info_wf info -> n <= MAX_DC_PEERS ->
  n + (if disc (entry_or_default peer_id db) then 1 else 0) =
    n_dc db + (if disc info then 1 else 0) ->
  wf (mkPeerDB (<[peer_id := info]> (peers db)) n).
Proof.
  intros Hwf Hinfo Hn Heq. split; cbn.
  - apply exact_insert; [apply Hwf|done].
  - done.
  - apply map_Forall_insert_2; [done|apply Hwf].
Qed.

(** A disconnected entry is counted, so the count is positive. *)
Lemma exact_disc_pos peer_id db :
  exact db -> disc (entry_or_default peer_id db) = true -> 1 <= n_dc db.
Proof.
  unfold exact. rewrite disc_entry. intros -> Hd.
  destruct (peers db !! peer_id) as [info|] eqn:E; cbn in Hd; [|done].
  rewrite (count_values_delete disc _ _ _ E), Hd. lia.
Qed.

(** A step out of the disconnected state. *)
Lemma wf_leave peer_id info db :
  wf db -> info_wf info -> disc info = false ->
  wf (mkPeerDB (<[peer_id := info]> (peers db))
        (if disc (entry_or_default peer_id db) then saturating_sub (n_dc db) 1 else n_dc db)).
Proof.
  intros Hwf Hi Hd. pose proof (exact_disc_pos peer_id db (wf_exact _ Hwf)) as Hpos.
  pose proof (wf_bound _ Hwf) as Hb. unfold saturating_sub.
  apply wf_insert; [done..| |]; rewrite ?Hd;
    destruct (disc (entry_or_default peer_id db)); try lia;
    specialize (Hpos eq_refl); lia.
Qed.

(** An assignment that does not touch the status. *)
Lemma wf_same_status peer_id f db :
  wf db ->
  (forall info, info_wf info -> info_wf (f info)) ->
  (forall info, connection_status (f info) = connection_status info) ->
  wf (mkPeerDB (<[peer_id := f (entry_or_default peer_id db)]> (peers db)) (n_dc db)).
Proof.
  intros Hwf Hf Hs. apply wf_insert; [done| |apply Hwf|].
  - by apply Hf, info_wf_entry.
  - unfold disc. rewrite Hs. lia.
Qed.

Lemma wf_alter peer_id f db :
  wf db ->
  (forall info, info_wf info -> info_wf (f info)) ->
  (forall info, connection_status (f info) = connection_status info) ->
  wf (peer_info_mut peer_id f db).
Proof.
  intros Hwf Hf Hs. unfold peer_info_mut.
  destruct (peers db !! peer_id) as [info|] eqn:E.
  - pose proof (wf_same_status peer_id f db Hwf Hf Hs) as Hw.
    unfold entry_or_default in Hw. rewrite E in Hw. cbn in Hw.
    replace (alter f peer_id (peers db)) with (<[peer_id := f info]> (peers db)); [done|].
    apply map_eq. intros j. rewrite lookup_insert, lookup_alter.
    case_decide; [subst; by rewrite E|done].
  - assert (alter f peer_id (peers db) = peers db) as ->.
    { apply map_eq. intros j. rewrite lookup_alter. case_decide; [subst; by rewrite E|done]. }
    destruct Hwf. by split.
Qed.

Lemma wf_new : wf new.
Proof.
  split; cbn.
  - unfold exact. cbn. by rewrite count_values_empty.
  - unfold MAX_DC_PEERS. lia.
  - apply map_Forall_empty.
Qed.
(** *** Filters *)

Lemma elem_of_filter_peers f db p info :
  (p, info) ∈ filter_peers f db <-> peers db !! p = Some info /\ f info = true.
Proof. unfold filter_peers. rewrite list_elem_of_filter, elem_of_hm_iter. cbn. tauto. Qed.

Lemma length_filter_peers f db : length (filter_peers f db) = count_values f (peers db).
Proof. apply length_filter_hm_iter. Qed.

(** *** The shrinking loop *)

Lemma shrink_victim_spec db p :
  shrink_victim db = Some p ->
  exists info, peers db !! p = Some info /\ disc info = true /\
    forall q qi, peers db !! q = Some qi -> disc qi = true -> reputation info <= reputation qi.
Proof.
  unfold shrink_victim. intros ([p' info] & Hmin & ->)%fmap_Some. cbn.
  apply min_by_key_spec in Hmin as [Hin Hmin].
  apply elem_of_filter_peers in Hin as [Hp Hd].
  exists info. split; [done|]. split; [done|]. intros q qi Hq Hdq.
  apply (Hmin (q, qi)). by apply elem_of_filter_peers.
Qed.

Lemma shrink_victim_is_Some db :
  exact db -> 0 < n_dc db -> is_Some (shrink_victim db).
Proof.
  unfold exact. intros Hex Hpos.
  destruct (shrink_victim db) as [p|] eqn:E; [eauto|].
  apply fmap_None, min_by_key_None in E.
  pose proof (length_filter_peers disc db) as Hl. unfold disc in Hl at 1. rewrite E in Hl.
  cbn in Hl. lia.
Qed.

(** What the loop does to the database: it only removes disconnected peers,
    and none of a better reputation than a disconnected peer it keeps. *)
Record shrunk (db db' : PeerDB) : Prop := {
  shrunk_sub : peers db' ⊆ peers db;
  shrunk_dropped : forall p info, peers db !! p = Some info -> peers db' !! p = None ->
    disc info = true /\
    forall q qi, peers db' !! q = Some qi -> disc qi = true -> reputation info <= reputation qi;
}.

Lemma shrunk_refl db : shrunk db db.
Proof. split; [done|]. intros p info Hp Hn. congruence. Qed.

Lemma shrunk_step db db' p info n :
  peers db !! p = Some info -> disc info = true ->
  (forall q qi, peers db !! q = Some qi -> disc qi = true -> reputation info <= reputation qi) ->
  shrunk (mkPeerDB (delete p (peers db)) n) db' -> shrunk db db'.
Proof.
  intros Hp Hd Hmin [Hsub Hdrop]. cbn in *. split.
  - etrans; [done|]. apply delete_subseteq.
  - intros q qi Hq Hnone. destruct (decide (p = q)) as [<-|Hne].
    + simplify_eq. split; [done|]. intros q' qi' Hq' Hd'. apply (Hmin q'); [|done].
      eapply lookup_weaken in Hq' ; [|exact Hsub]. by apply lookup_delete_Some in Hq' as [_ ?].
    + apply (Hdrop q); [|done]. by rewrite lookup_delete_ne.
Qed.

Lemma exact_shrink db p info :
  exact db -> peers db !! p = Some info -> disc info = true ->
  exact (mkPeerDB (delete p (peers db)) (saturating_sub (n_dc db) 1)).
Proof.
  unfold exact, saturating_sub. cbn. intros Hex Hp Hd.
  rewrite (count_values_delete disc _ _ _ Hp), Hd in Hex. lia.
Qed.

Lemma shrink_loop_spec fuel db :
  exact db -> (Z.to_nat (n_dc db - MAX_DC_PEERS) < fuel)%nat ->
  exists db', shrink_loop fuel db = Ret db' /\ exact db' /\
    n_dc db' = Z.min (n_dc db) MAX_DC_PEERS /\ shrunk db db'.
Proof.
  revert db; induction fuel as [|fuel IH]; intros db Hex Hfuel; [lia|].
  cbn [shrink_loop]. case_decide as Hgt.
  - destruct (shrink_victim_is_Some db Hex) as [p Hp]; [unfold MAX_DC_PEERS in *; lia|].
    rewrite Hp. destruct (shrink_victim_spec _ _ Hp) as (info & Hinfo & Hd & Hmin).
    pose proof (exact_shrink db p info Hex Hinfo Hd) as Hex'.
    destruct (IH _ Hex') as (db' & Hrun & Hex'' & Hn & Hsh);
      [cbn; unfold saturating_sub, MAX_DC_PEERS in *; lia|].
    exists db'. split; [done|]. split; [done|]. split.
    + rewrite Hn. cbn. unfold saturating_sub, MAX_DC_PEERS in *. lia.
    + by eapply shrunk_step.
  - exists db. split; [done|]. split; [done|]. split; [lia|apply shrunk_refl].
Qed.

Lemma shrink_loop_fuel fuel db :
  (Z.to_nat (n_dc db - MAX_DC_PEERS) < fuel)%nat -> shrink_loop fuel db <> OutOfFuel.
Proof.
  revert db; induction fuel as [|fuel IH]; intros db Hfuel; [lia|].
  cbn [shrink_loop]. case_decide as Hgt; [|done].
  destruct (shrink_victim db) as [p|]; cbn; [|done].
  apply IH. cbn. unfold saturating_sub, MAX_DC_PEERS in *. lia.
Qed.

Lemma shrink_to_fit_ok db :
  exact db ->
  exists db', shrink_to_fit db = Ret db' /\ exact db' /\
    n_dc db' = Z.min (n_dc db) MAX_DC_PEERS /\ shrunk db db'.
Proof. intros Hex. apply shrink_loop_spec; [done|]. lia. Qed.

Lemma shrunk_wf db db' :
  map_Forall (fun _ info => info_wf info) (peers db) -> exact db' ->
  n_dc db' <= MAX_DC_PEERS -> shrunk db db' -> wf db'.
Proof.
  intros Hi Hex Hb [Hsub _]. split; [done|done|]. intros p info Hp. eapply Hi.
  by eapply lookup_weaken in Hp.
Qed.

Lemma wf_shrink_to_fit db db' : wf db -> shrink_to_fit db = Ret db' -> wf db'.
Proof.
  intros Hwf Hrun. destruct (shrink_to_fit_ok db (wf_exact _ Hwf)) as (db1 & Hr & Hex & Hn & Hsh).
  rewrite Hr in Hrun. injection Hrun as <-.
  eapply shrunk_wf; [apply Hwf|done|lia|done].
Qed.

(** The entry [disconnect] writes back. *)
Definition after_disconnect (now : Instant) (info : PeerInfo) : PeerInfo :=
  if (disc info || is_banned (connection_status info))%bool then info
  else set_connection_status (Disconnected now) info.

Lemma shrink_written p info n db :
  wf db -> info_wf info -> exact (mkPeerDB (<[p := info]> (peers db)) n) ->
  n <= MAX_DC_PEERS + 1 ->
  let db1 := mkPeerDB (<[p := info]> (peers db)) n in
  exists db', shrink_to_fit db1 = Ret db' /\ wf db' /\ shrunk db1 db'.
Proof.
  intros Hwf Hi Hex Hn db1.
  destruct (shrink_to_fit_ok db1 Hex) as (db' & Hr & Hex' & Hn' & Hsh).
  exists db'. split; [done|]. split; [|done].
  eapply shrunk_wf; [|done|lia|done].
  apply map_Forall_insert_2; [done|apply Hwf].
Qed.

(** [disconnect] writes one entry and then runs the loop. *)
Lemma disconnect_ok now p db :
  wf db ->
  exists (n : Z) (db' : PeerDB), disconnect now p db = Ret db' /\ wf db' /\
    shrunk (mkPeerDB (<[p := after_disconnect now (entry_or_default p db)]> (peers db)) n) db'.
Proof.
  intros Hwf. unfold disconnect, after_disconnect.
  pose proof (info_wf_entry p db Hwf) as Hi.
  pose proof (wf_bound _ Hwf) as Hb.
  pose proof (wf_exact _ Hwf) as Hex.
  assert (Hpos : 0 <= n_dc db) by (unfold exact in Hex; lia).
  set (info := entry_or_default p db) in *. fold (disc info).
  assert (Hkeep : exists db', shrink_to_fit (mkPeerDB (<[p := info]> (peers db)) (n_dc db)) = Ret db'
    /\ wf db' /\ shrunk (mkPeerDB (<[p := info]> (peers db)) (n_dc db)) db').
  { apply shrink_written; [done|done| |lia]. apply exact_insert; [done|]. fold info. lia. }
  destruct (disc info) eqn:Hd; [|destruct (is_banned (connection_status info)) eqn:Hban];
    cbn [negb andb orb].
  - destruct Hkeep as (db' & Hr & Hw & Hs). exists (n_dc db), db'. by cbn -[shrink_to_fit].
  - destruct Hkeep as (db' & Hr & Hw & Hs). exists (n_dc db), db'. by cbn -[shrink_to_fit].
  - unfold add_w. rewrite decide_True by (unfold MAX_DC_PEERS in *; lia).
    destruct (shrink_written p (set_connection_status (Disconnected now) info) (n_dc db + 1) db)
      as (db' & Hr & Hw & Hs); [done|by split; [apply Hi|]| |lia|].
    { apply exact_insert; [done|]. fold info. rewrite Hd. cbn. lia. }
    exists (n_dc db + 1), db'. by cbn -[shrink_to_fit].
Qed.

Lemma wf_disconnect now p db db' : wf db -> disconnect now p db = Ret db' -> wf db'.
Proof.
  intros Hwf Hrun.
  destruct (disconnect_ok now p db Hwf) as (n & db2 & Hr & Hw & _). congruence.
Qed.

(** Whatever it was, the peer is not connected afterwards. *)
Lemma disconnect_not_connected now p db db' :
  wf db -> disconnect now p db = Ret db' -> peer_is_connected p db' = false.
Proof.
  intros Hwf Hrun. destruct (disconnect_ok now p db Hwf) as (n & db2 & Hr & _ & [Hsub _]).
  assert (db' = db2) as -> by congruence. cbn in Hsub.
  unfold peer_is_connected, get_connection_status, peer_info.
  destruct (peers db2 !! p) as [info|] eqn:E; [|done]. cbn.
  pose proof (lookup_weaken _ _ _ _ E Hsub) as Hl. rewrite lookup_insert_eq in Hl. injection Hl as <-.
  unfold after_disconnect, disc. destruct (connection_status (entry_or_default p db)) eqn:Es; cbn;
    rewrite ?Es; done.
Qed.

(** *** All operations *)

Lemma wf_connect_ingoing p db db' : wf db -> connect_ingoing p db = Ret db' -> wf db'.
Proof.
  intros Hwf. unfold connect_ingoing. outcome_simpl. intros Hr.
  destruct (PeerInfo.connect_ingoing _) as [s| |] eqn:E; invert_ret.
  pose proof (info_wf_entry p db Hwf) as [Hrep Hst].
  apply (wf_leave p (set_connection_status s (entry_or_default p db)) db Hwf).
  - split; [done|]. by eapply connect_ingoing_wf.
  - apply connect_ingoing_connected in E. unfold disc. cbn. by destruct s.
Qed.

Lemma wf_connect_outgoing p db db' : wf db -> connect_outgoing p db = Ret db' -> wf db'.
Proof.
  intros Hwf. unfold connect_outgoing. outcome_simpl. intros Hr.
  destruct (PeerInfo.connect_outgoing _) as [s| |] eqn:E; invert_ret.
  pose proof (info_wf_entry p db Hwf) as [Hrep Hst].
  apply (wf_leave p (set_connection_status s (entry_or_default p db)) db Hwf).
  - split; [done|]. by eapply connect_outgoing_wf.
  - apply connect_outgoing_connected in E. unfold disc. cbn. by destruct s.
Qed.

Lemma info_wf_ttl_update ttl info : info_wf info -> info_wf (ttl_update ttl info).
Proof. unfold ttl_update. by destruct (_ || _)%bool. Qed.

Lemma ttl_update_status ttl info :
  connection_status (ttl_update ttl info) = connection_status info /\
  reputation (ttl_update ttl info) = reputation info.
Proof. unfold ttl_update. by destruct (_ || _)%bool. Qed.

Lemma count_values_fmap (g : PeerInfo -> PeerInfo) (m : gmap PeerId PeerInfo) :
  (forall info, disc (g info) = disc info) -> count_values disc (g <$> m) = count_values disc m.
Proof.
  intros Hg. induction m as [|k v m Hk IH] using map_ind; [by rewrite fmap_empty|].
  rewrite fmap_insert.
  pose proof (count_values_insert disc (g <$> m) k (g v)) as H1'.
  pose proof (count_values_insert disc m k v) as H2'.
  rewrite lookup_fmap, Hk in H1'. rewrite Hk in H2'. rewrite Hg in H1'. cbn in *. lia.
Qed.

Lemma wf_extend subnet_id ttl db : wf db -> wf (extend_peers_on_subnet subnet_id ttl db).
Proof.
  intros [Hex Hb Hi]. unfold extend_peers_on_subnet. split; cbn; [|done|].
  - unfold exact in *. cbn. rewrite count_values_fmap; [done|]. intros info.
    destruct (_ && _)%bool; [|done]. unfold disc. by rewrite (proj1 (ttl_update_status _ _)).
  - intros p info. rewrite lookup_fmap, fmap_Some. intros (i0 & Hp & ->).
    specialize (Hi p i0 Hp). destruct (_ && _)%bool; [by apply info_wf_ttl_update|done].
Qed.

Lemma in_width_change w r d :
  0 <= w -> in_width w r -> in_width w d ->
  in_width w (saturating_add w r d) /\ in_width w (saturating_sub r d).
Proof. unfold in_width, saturating_add, saturating_sub. intros. lia. Qed.

(** Writing back a known peer's entry, as the setters that skip unknown peers. *)
Lemma wf_known (p : PeerId) f db :
  wf db ->
  (forall info, info_wf info -> info_wf (f info)) ->
  (forall info, connection_status (f info) = connection_status info) ->
  wf (match peers db !! p with
      | Some info => mkPeerDB (<[p := f info]> (peers db)) (n_dc db)
      | None => db
      end).
Proof.
  intros Hwf Hf Hs. destruct (peers db !! p) as [info|] eqn:E; [|done].
  pose proof (wf_same_status p f db Hwf Hf Hs) as Hw.
  unfold entry_or_default in Hw. by rewrite E in Hw.
Qed.

Lemma run_op_wf now op db db' : wf db -> op_wf op -> run_op now op db = Ret db' -> wf db'.
Proof.
  intros Hwf Hop Hrun. destruct op; cbn -[shrink_to_fit connect_ingoing connect_outgoing disconnect] in *;
    try (injection Hrun as <-).
  - apply (wf_leave peer_id (set_connection_status (Dialing now) (entry_or_default peer_id db))
             db Hwf); [|done].
    destruct (info_wf_entry peer_id db Hwf). by split.
  - apply (wf_same_status peer_id (ttl_update ttl) db Hwf).
    + apply info_wf_ttl_update.
    + intros info. apply ttl_update_status.
  - by apply wf_extend.
  - by eapply wf_connect_ingoing.
  - by eapply wf_connect_outgoing.
  - by eapply wf_disconnect.
  - by eapply wf_shrink_to_fit.
  - apply (wf_leave peer_id (set_connection_status (Banned now) (entry_or_default peer_id db))
             db Hwf); [|done].
    destruct (info_wf_entry peer_id db Hwf). by split.
  - by apply (wf_known peer_id (set_meta_data (Some data))).
  - apply (wf_known peer_id (set_reputation_field rep)); [done| |done]. intros info [_ ?]. by split.
  - apply (wf_known peer_id (fun info => set_reputation_field
      (if is_good change then saturating_add 8 (reputation info) (diff change)
       else saturating_sub (reputation info) (diff change)) info)); [done| |done].
    intros info [Hr ?]. split; [|done]. cbn [reputation set_reputation_field].
    destruct (in_width_change 8 (reputation info) (diff change)); [lia|done..|].
    by destruct (is_good change).
  - by apply wf_alter.
  - by apply wf_alter.
Qed.

(** *** Entries across an operation *)

(** The status transitions of the state machine, for any peer. *)
Inductive status_step : PeerConnectionStatus -> PeerConnectionStatus -> Prop :=
| StStay s : status_step s s
| StDial s now : status_step s (Dialing now)
| StBan s now : status_step s (Banned now)
| StFirst s n_in n_out : is_connected s = false -> n_in + n_out = 1 ->
    status_step s (Connected n_in n_out)
| StMoreIn n m n' : add_w 8 n 1 = Ret n' -> status_step (Connected n m) (Connected n' m)
| StMoreOut n m m' : add_w 8 m 1 = Ret m' -> status_step (Connected n m) (Connected n m')
| StDisconnect s now : is_banned s = false -> is_disconnected s = false ->
    status_step s (Disconnected now).

Lemma status_step_ingoing s s' : PeerInfo.connect_ingoing s = Ret s' -> status_step s s'.
Proof.
  destruct s; cbn; outcome_simpl; try (intros [= <-]; by constructor).
  destruct (add_w 8 n_in 1) eqn:E; intros [= <-]. by constructor.
Qed.

Lemma status_step_outgoing s s' : PeerInfo.connect_outgoing s = Ret s' -> status_step s s'.
Proof.
  destruct s; cbn; outcome_simpl; try (intros [= <-]; by constructor).
  destruct (add_w 8 n_out 1) eqn:E; intros [= <-]. by constructor.
Qed.

Lemma status_step_after_disconnect now info :
  status_step (connection_status info) (connection_status (after_disconnect now info)).
Proof.
  unfold after_disconnect, disc.
  destruct (is_disconnected _) eqn:Hd; cbn; [constructor|].
  destruct (is_banned _) eqn:Hb; cbn; by constructor.
Qed.

(** What an operation leaves of the entry of [p]: its status makes one step,
    or it is evicted, which only happens to a disconnected peer and to the
    target of [disconnect]. *)
Definition entry_step (op : DbOp) (p : PeerId) (db db' : PeerDB) : Prop :=
  match peers db' !! p with
  | Some info' => status_step (connection_status (entry_or_default p db)) (connection_status info')
  | None => forall info, peers db !! p = Some info ->
      disc info = true \/ (op = OpDisconnect p /\ is_banned (connection_status info) = false)
  end.

Lemma entry_or_default_known p info db :
  peers db !! p = Some info -> entry_or_default p db = info.
Proof. unfold entry_or_default. by intros ->. Qed.

Lemma reachable_is_wf db : reachable db -> wf db.
Proof.
  unfold reachable. intros Hr. apply rtc_ind_r with (P := wf) in Hr; [done|apply wf_new|].
  intros db1 db2 _ (now & op & Hop & Hrun) Hwf. by eapply run_op_wf.
Qed.

Lemma entry_step_same op p db db' : peers db' !! p = peers db !! p -> entry_step op p db db'.
Proof.
  intros Hp. unfold entry_step, entry_or_default. rewrite Hp.
  destruct (peers db !! p); cbn; [constructor|done].
Qed.

Lemma entry_step_insert op p q info db n :
  status_step (connection_status (entry_or_default q db)) (connection_status info) ->
  entry_step op p db (mkPeerDB (<[q := info]> (peers db)) n).
Proof.
  intros Hs. destruct (decide (p = q)) as [->|Hne].
  - unfold entry_step. cbn. by rewrite lookup_insert_eq.
  - apply entry_step_same. cbn. by rewrite lookup_insert_ne.
Qed.

Lemma entry_step_known op p q f db :
  (forall info, connection_status (f info) = connection_status info) ->
  entry_step op p db (match peers db !! q with
                      | Some info => mkPeerDB (<[q := f info]> (peers db)) (n_dc db)
                      | None => db
                      end).
Proof.
  intros Hf. destruct (peers db !! q) as [info|] eqn:E; [|by apply entry_step_same].
  apply entry_step_insert. rewrite (entry_or_default_known _ _ _ E), Hf. constructor.
Qed.

Lemma entry_step_fmap op p f g db n :
  (forall info, connection_status (f info) = connection_status info) ->
  (forall q, g !! q = f <$> peers db !! q \/ g !! q = peers db !! q) ->
  entry_step op p db (mkPeerDB g n).
Proof.
  intros Hf Hg. unfold entry_step, entry_or_default. cbn.
  destruct (Hg p) as [-> | ->]; destruct (peers db !! p) eqn:E; cbn; rewrite ?Hf; try done; constructor.
Qed.

Lemma entry_step_shrunk op p db n (db' : PeerDB) :
  shrunk (mkPeerDB (peers db) n) db' -> entry_step op p db db'.
Proof.
  intros [Hsub Hdrop]. destruct (peers db' !! p) as [info'|] eqn:E.
  - apply entry_step_same. rewrite E. by eapply lookup_weaken in E.
  - unfold entry_step. rewrite E. intros info Hp. left. by destruct (Hdrop p info Hp E).
Qed.

Lemma entry_step_disconnect now p q db db' :
  wf db -> disconnect now q db = Ret db' -> entry_step (OpDisconnect q) p db db'.
Proof.
  intros Hwf Hr. destruct (disconnect_ok now q db Hwf) as (n & db2 & Hr2 & _ & [Hsub Hdrop]).
  assert (db' = db2) as -> by congruence. cbn in *.
  unfold entry_step. destruct (peers db2 !! p) as [info'|] eqn:E.
  - eapply lookup_weaken in E; [|done]. apply lookup_insert_Some in E as [[-> <-]|[_ E]].
    + apply status_step_after_disconnect.
    + rewrite (entry_or_default_known _ _ _ E). constructor.
  - intros info Hp. destruct (decide (p = q)) as [->|Hne].
    + destruct (Hdrop q _ (lookup_insert_eq _ _ _) E) as [Hd _].
      rewrite (entry_or_default_known _ _ _ Hp) in Hd. unfold after_disconnect in Hd.
      destruct (disc info) eqn:Hdi; cbn in Hd; [by left|].
      destruct (is_banned (connection_status info)); [congruence|by right].
    + left. apply (Hdrop p info); [by rewrite lookup_insert_ne|done].
Qed.

Lemma Sorted_impl {A} (R S : A -> A -> Prop) (l : list A) :
  (forall a b, R a b -> S a b) -> Sorted R l -> Sorted S l.
Proof.
  intros HRS. induction 1 as [|x l Hl IH Hhd]; constructor; [done|].
  destruct Hhd; constructor; by apply HRS.
Qed.

Lemma NoDup_fst_filter_peers f db : NoDup (filter_peers f db).*1.
Proof.
  eapply sublist_NoDup; [apply (NoDup_hm_keys (peers db))|].
  by apply fmap_sublist, sublist_filter.
Qed.

(** *** Repeated connections *)

(** A run of new connections of [p]; [true] is an ingoing one. *)
Fixpoint connect_all (dirs : list bool) (p : PeerId) (db : PeerDB) : Outcome PeerDB :=
  match dirs with
  | [] => mret db
  | d :: dirs =>
    db' ← (if d then connect_ingoing p db else connect_outgoing p db);
    connect_all dirs p db'
  end.

Fixpoint n_true (dirs : list bool) : nat :=
  match dirs with [] => O | d :: dirs => ((if d then 1 else 0) + n_true dirs)%nat end.
Definition n_false (dirs : list bool) : nat := (length dirs - n_true dirs)%nat.

Lemma n_true_length dirs : (n_true dirs <= length dirs)%nat.
Proof. induction dirs as [|[] ? ?]; cbn; lia. Qed.

Lemma n_false_cons d dirs : n_false (d :: dirs) = ((if d then 0 else 1) + n_false dirs)%nat.
Proof. unfold n_false. pose proof (n_true_length dirs). destruct d; cbn; lia. Qed.

Lemma connect_one_connected (d : bool) p db info a b :
  peers db !! p = Some info -> connection_status info = Connected a b ->
  a + (if d then 1 else 0) <= 255 -> b + (if d then 0 else 1) <= 255 ->
  (if d then connect_ingoing p db else connect_outgoing p db) =
  Ret (mkPeerDB (<[p := set_connection_status
         (Connected (a + (if d then 1 else 0)) (b + (if d then 0 else 1))) info]> (peers db)) (n_dc db)).
Proof.
  intros Hp Hs Ha Hb. unfold connect_ingoing, connect_outgoing.
  rewrite !(entry_or_default_known _ _ _ Hp), Hs.
  destruct d; cbn; unfold add_w; rewrite decide_True by lia; cbn; by rewrite ?Z.add_0_r.
Qed.

Lemma connect_all_connected dirs p db info a b :
  peers db !! p = Some info -> connection_status info = Connected a b ->
  a + Z.of_nat (n_true dirs) <= 255 -> b + Z.of_nat (n_false dirs) <= 255 ->
  exists db', connect_all dirs p db = Ret db' /\
    peers db' !! p = Some (set_connection_status
      (Connected (a + Z.of_nat (n_true dirs)) (b + Z.of_nat (n_false dirs))) info) /\
    forall q, q <> p -> peers db' !! q = peers db !! q.
Proof.
  revert db info a b; induction dirs as [|d dirs IH]; intros db info a b Hp Hs Ha Hb.
  - exists db. split; [done|]. split; [|done]. unfold n_false. cbn. rewrite Hp, !Z.add_0_r, <-Hs. by destruct info.
  - rewrite n_false_cons in *. cbn [connect_all n_true] in *.
    rewrite (connect_one_connected d p db info a b Hp Hs) by (destruct d; cbn in *; lia).
    set (db1 := mkPeerDB _ _).
    assert (Hp1 : peers db1 !! p = Some (set_connection_status (Connected
      (a + (if d then 1 else 0)) (b + (if d then 0 else 1))) info)) by apply lookup_insert_eq.
    destruct (IH db1 _ _ _ Hp1 eq_refl) as (db' & Hr & Hp' & Hq); [destruct d; cbn in *; lia..|].
    exists db'. split; [exact Hr|]. split.
    + rewrite Hp'. unfold set_connection_status. cbn. do 2 f_equal. f_equal; destruct d; lia.
    + intros q Hne. rewrite Hq by done. cbn. by rewrite lookup_insert_ne.
Qed.

Lemma connect_all_first d dirs p db :
  is_connected (connection_status (entry_or_default p db)) = false ->
  (n_true (d :: dirs) <= 255)%nat -> (n_false (d :: dirs) <= 255)%nat ->
  exists db', connect_all (d :: dirs) p db = Ret db' /\
    peers db' !! p = Some (set_connection_status
      (Connected (Z.of_nat (n_true (d :: dirs))) (Z.of_nat (n_false (d :: dirs))))
      (entry_or_default p db)) /\
    forall q, q <> p -> peers db' !! q = peers db !! q.
Proof.
  intros Hnc Ht Hf. rewrite n_false_cons in *. cbn [connect_all n_true] in *.
  set (info := entry_or_default p db) in *.
  assert (exists n, (if d then connect_ingoing p db else connect_outgoing p db) =
    Ret (mkPeerDB (<[p := set_connection_status (Connected (if d then 1 else 0) (if d then 0 else 1)) info]>
      (peers db)) n)) as [n Hone].
  { unfold connect_ingoing, connect_outgoing. fold info.
    destruct (connection_status info), d; cbn; try done; eauto. }
  rewrite Hone.
  set (db1 := mkPeerDB _ _).
  assert (Hp1 : peers db1 !! p = Some (set_connection_status (Connected
    (if d then 1 else 0) (if d then 0 else 1)) info)) by apply lookup_insert_eq.
  destruct (connect_all_connected dirs p db1 _ _ _ Hp1 eq_refl)
    as (db' & Hr & Hp' & Hq); [destruct d; cbn in *; lia..|].
  exists db'. split; [exact Hr|]. split.
  - rewrite Hp'. unfold set_connection_status. cbn. do 2 f_equal. f_equal; destruct d; lia.
  - intros q Hne. rewrite Hq by done. cbn. by rewrite lookup_insert_ne.
Qed.

(** The invariant's count is the length of the getter's list. *)
Lemma exact_disconnected db : exact db -> n_dc db = Z.of_nat (length (disconnected_peers db)).
Proof.
  unfold exact, disconnected_peers. intros ->. by rewrite length_fmap, length_filter_peers.
Qed.

(** ** Properties *)

(** C1: whatever sequence of calls the program makes, the database stays well
    formed: [n_dc] is exactly the number of disconnected peers, it never
    exceeds [MAX_DC_PEERS], and every reputation and counter fits in [u8]. *)
Theorem reachable_wf (db : PeerDB) :
  reachable db ->
  n_dc db = Z.of_nat (length (disconnected_peers db)) /\ n_dc db <= MAX_DC_PEERS /\
  forall p info, peers db !! p = Some info ->
    0 <= reputation info <= 255 /\
    let '(n_in, n_out) := connections (connection_status info) in
    0 <= n_in <= 255 /\ 0 <= n_out <= 255.
Proof.
  intros [Hex Hb Hi]%reachable_is_wf. split; [|split; [done|]].
  - by apply exact_disconnected.
  - intros p info Hp. destruct (Hi p info Hp) as [Hr Hs]. unfold in_width in *.
    split; [lia|]. destruct (connection_status info); cbn in *; unfold in_width in *; lia.
Qed.

(** C17: on every database the program can reach, [disconnect] returns (the
    [unwrap] in [shrink_to_fit] is safe and the count does not overflow); it
    writes [Disconnected] unless the peer is already disconnected or banned,
    and the peers it evicts are disconnected ones, none of them of a better
    reputation than a disconnected peer that stays. *)
Theorem disconnect_spec (now : Instant) (p : PeerId) (db : PeerDB) :
  reachable db ->
  exists db', disconnect now p db = Ret db' /\ n_dc db' <= MAX_DC_PEERS /\
    (forall q info', peers db' !! q = Some info' ->
       if decide (q = p) then info' = after_disconnect now (entry_or_default p db)
       else peers db !! q = Some info') /\
    (forall q info, peers db !! q = Some info -> peers db' !! q = None ->
       (q = p \/ disc info = true) /\
       forall r ri, peers db' !! r = Some ri -> disc ri = true -> reputation info <= reputation ri).
Proof.
  intros Hwf%reachable_is_wf.
  destruct (disconnect_ok now p db Hwf) as (n & db' & Hr & Hw & [Hsub Hdrop]). cbn in *.
  exists db'. split; [done|]. split; [apply Hw|]. split.
  - intros q info' Hq. eapply lookup_weaken in Hq; [|done].
    case_decide; subst; [by rewrite lookup_insert_eq in Hq; simplify_eq|].
    by rewrite lookup_insert_ne in Hq.
  - intros q info Hq Hn. destruct (decide (q = p)) as [->|Hne].
    + destruct (Hdrop p _ (lookup_insert_eq _ _ _) Hn) as [_ Hmin].
      split; [by left|]. intros r ri Hri Hd. specialize (Hmin r ri Hri Hd).
      rewrite (entry_or_default_known _ _ _ Hq) in Hmin.
      unfold after_disconnect in Hmin. by destruct (_ || _)%bool.
    + destruct (Hdrop q info) as [Hd Hmin]; [by rewrite lookup_insert_ne|done|].
      split; [by right|done].
Qed.

(** [shrink_to_fit] terminates and returns on every database whose count
    is exact, however far above the bound; it brings the count down to
    [MAX_DC_PEERS] by removing exactly the excess, only disconnected peers,
    the lowest reputations first. *)
Theorem shrink_to_fit_spec (db : PeerDB) :
  n_dc db = Z.of_nat (length (disconnected_peers db)) ->
  exists db', shrink_to_fit db = Ret db' /\
    n_dc db' = Z.of_nat (length (disconnected_peers db')) /\
    length (disconnected_peers db') = Nat.min (length (disconnected_peers db)) 30 /\
    (forall q info, peers db' !! q = Some info -> peers db !! q = Some info) /\
    (forall q info, peers db !! q = Some info -> peers db' !! q = None ->
       disc info = true /\
       forall r ri, peers db' !! r = Some ri -> disc ri = true -> reputation info <= reputation ri).
Proof.
  unfold disconnected_peers. rewrite length_fmap, length_filter_peers. intros Hex.
  destruct (shrink_to_fit_ok db Hex) as (db' & Hr & Hex' & Hn & [Hsub Hdrop]).
  exists db'. rewrite !length_fmap, !length_filter_peers.
  split; [done|]. split; [done|]. split; [|split; [|done]].
  - unfold exact, MAX_DC_PEERS, disc in *. lia.
  - intros q info Hq. by eapply lookup_weaken in Hq.
Qed.

(** For every operation, target and peer: only disconnected peers and the
    target of [disconnect] are evicted, never a banned peer, and the status of
    a peer that stays makes at most one transition of the connection state
    machine: a banned peer never becomes disconnected, a connected one moves
    one of its counters by one. *)
Theorem run_op_entry_step (now : Instant) (op : DbOp) (db db' : PeerDB) (p : PeerId) :
  wf db -> run_op now op db = Ret db' -> entry_step op p db db'.
Proof.
  intros Hwf Hrun.
  destruct op; cbn -[shrink_to_fit connect_ingoing connect_outgoing disconnect] in *;
    try (injection Hrun as <-).
  - apply entry_step_insert. constructor.
  - apply entry_step_insert. rewrite (proj1 (ttl_update_status _ _)). constructor.
  - apply (entry_step_fmap _ _ (fun info =>
      if (is_connected (connection_status info) && on_subnet info subnet_id)%bool
      then ttl_update ttl info else info)).
    + intros info. destruct (_ && _)%bool; [apply ttl_update_status|done].
    + intros q. left. apply lookup_fmap.
  - unfold connect_ingoing in Hrun. outcome_simpl.
    destruct (PeerInfo.connect_ingoing _) as [s| |] eqn:E; invert_ret.
    apply entry_step_insert. by apply status_step_ingoing.
  - unfold connect_outgoing in Hrun. outcome_simpl.
    destruct (PeerInfo.connect_outgoing _) as [s| |] eqn:E; invert_ret.
    apply entry_step_insert. by apply status_step_outgoing.
  - by apply (entry_step_disconnect now).
  - destruct (shrink_to_fit_ok db (wf_exact _ Hwf)) as (db2 & Hr2 & _ & _ & Hsh).
    assert (db' = db2) as -> by congruence. apply (entry_step_shrunk _ _ _ (n_dc db)).
    by destruct db.
  - apply entry_step_insert. constructor.
  - by apply (entry_step_known _ _ _ (set_meta_data (Some data))).
  - by apply (entry_step_known _ _ _ (set_reputation_field rep)).
  - by apply (entry_step_known _ _ _ (fun info => set_reputation_field
      (if is_good change then saturating_add 8 (reputation info) (diff change)
       else saturating_sub (reputation info) (diff change)) info)).
  - unfold peer_info_mut.
    apply (entry_step_fmap _ _ (fun i => set_listening_addresses addrs (set_client c i))); [done|].
    intros q. rewrite lookup_alter. case_decide; subst; eauto.
  - unfold peer_info_mut. apply (entry_step_fmap _ _ (set_meta_data (Some data))); [done|].
    intros q. rewrite lookup_alter. case_decide; subst; eauto.
Qed.

(** [add_reputation] clamps the sum to the range of [u8], touches no other
    field and no other peer, and ignores unknown peers. *)
Theorem add_reputation_spec (p : PeerId) (change : RepChange) (db : PeerDB) :
  reachable db -> in_width 8 (diff change) ->
  n_dc (add_reputation p change db) = n_dc db /\
  forall q, peers (add_reputation p change db) !! q =
    if decide (q = p) then
      set_reputation_field
        (Z.max 0 (Z.min 255 (get_reputation p db +
           (if is_good change then diff change else - diff change)))) <$> peers db !! q
    else peers db !! q.
Proof.
  intros Hwf%reachable_is_wf Hd. unfold add_reputation, get_reputation.
  destruct (peers db !! p) as [info|] eqn:E; cbn.
  - destruct (wf_infos _ Hwf p info E) as [Hr _]. unfold in_width in *.
    split; [done|]. intros q. case_decide as Hq; [subst; rewrite lookup_insert_eq, E; cbn|
      by rewrite lookup_insert_ne]. repeat f_equal.
    unfold saturating_add, saturating_sub. destruct (is_good change); lia.
  - split; [done|]. intros q. case_decide; [subst; by rewrite E|done].
Qed.

(** The connection counters of a peer count its connections in each
    direction exactly, whatever the interleaving, up to 255 each; one more
    connection panics in a build with overflow checks and in one without
    resets the counter to 0. *)
Theorem connect_all_counts (dirs : list bool) (p : PeerId) (db : PeerDB) :
  is_connected (connection_status (entry_or_default p db)) = false -> dirs <> [] ->
  (n_true dirs <= 255)%nat -> (n_false dirs <= 255)%nat ->
  (exists db', connect_all dirs p db = Ret db' /\
    peer_info p db' = Some (set_connection_status
      (Connected (Z.of_nat (n_true dirs)) (Z.of_nat (n_false dirs)))
      (entry_or_default p db)) /\
    forall q, q <> p -> peer_info q db' = peer_info q db) /\
  forall db' info m, peer_info p db' = Some info -> connection_status info = Connected 255 m ->
    connect_ingoing p db' =
      if overflow_checks then Panic "attempt to add with overflow"
      else Ret (mkPeerDB (<[p := set_connection_status (Connected 0 m) info]> (peers db')) (n_dc db')).
Proof.
  intros Hnc Hne Hin Hout. split.
  - destruct dirs as [|d dirs]; [done|]. by apply connect_all_first.
  - unfold peer_info. intros db' info m Hp Hs. unfold connect_ingoing.
    rewrite (entry_or_default_known _ _ _ Hp), Hs. cbn. unfold add_w. cbn.
    by destruct overflow_checks.
Qed.

(** [best_peers_by_status] lists exactly the peers whose status passes
    the test, each once, from the highest reputation to the lowest, and
    [best_by_status] picks a peer of the reputation of the first of them. *)
Theorem best_peers_by_status_spec (f : PeerConnectionStatus -> bool) (db : PeerDB) :
  let best := best_peers_by_status f db in
  NoDup best.*1 /\
  (forall p info, (p, info) ∈ best <-> peers db !! p = Some info /\ f (connection_status info) = true) /\
  StronglySorted (fun a b => reputation b.2 <= reputation a.2) best /\
  (reputation ∘ snd <$> head best) = (best_by_status f db ≫= fun p => reputation <$> peers db !! p).
Proof.
  set (by_status := filter_peers (fun info => f (connection_status info)) db).
  assert (Hperm : best_peers_by_status f db ≡ₚ by_status) by apply sort_by_key_perm.
  assert (Hmem : forall p info, (p, info) ∈ best_peers_by_status f db <->
    peers db !! p = Some info /\ f (connection_status info) = true).
  { intros p info. rewrite Hperm. apply elem_of_filter_peers. }
  assert (Hsort : StronglySorted (fun a b => reputation b.2 <= reputation a.2)
                    (best_peers_by_status f db)).
  { apply Sorted_StronglySorted; [intros x y z; lia|].
    eapply Sorted_impl; [|apply (sort_by_key_sorted (fun kv => 255 - reputation kv.2))].
    intros a b. cbn. lia. }
  split; [|split; [done|split; [done|]]].
  - rewrite Hperm. apply NoDup_fst_filter_peers.
  - unfold best_by_status. fold by_status.
    destruct (max_by_key _ by_status) as [[p info]|] eqn:E; cbn.
    + apply max_by_key_spec in E as [Hin Hmax].
      pose proof (proj1 (elem_of_filter_peers _ _ _ _) Hin) as [Hp _]. rewrite Hp. cbn.
      destruct (best_peers_by_status f db) as [|[q qi] best]; cbn;
        [by rewrite <-Hperm in Hin; apply not_elem_of_nil in Hin|].
      f_equal. apply Z.le_antisymm.
      * apply (Hmax (q, qi)). rewrite <-Hperm. left.
      * rewrite <-Hperm in Hin. apply elem_of_cons in Hin as [[= -> ->]|Hin]; [lia|].
        apply StronglySorted_inv in Hsort as [_ Hall]. rewrite Forall_forall in Hall.
        by apply (Hall (p, info)).
    + apply max_by_key_None in E. rewrite E in Hperm.
      by apply Permutation_nil_r in Hperm as ->.
Qed.
End PeerDB.

(** ** Witnesses: the properties at concrete databases *)
Section Witnesses.
#[local] Existing Instance demo_libp2p.
#[local] Existing Instance map_to_list_order.
#[local] Instance debug_build : BuildProfile := true.

Definition peer_1 : @PeerId demo_libp2p := 1%N.
Definition peer_2 : @PeerId demo_libp2p := 2%N.

(** One peer disconnected, one connected, after four calls. *)
Definition demo_db : PeerDB :=
  mkPeerDB
    (<[peer_2 := set_connection_status (Connected 1 1) PeerInfo_default]>
     (<[peer_1 := set_connection_status (Disconnected 9%N) PeerInfo_default]> ∅)) 1.

Lemma demo_reachable : reachable demo_db.
Proof.
  eapply rtc_l; [exists 5%N, (OpDialing peer_1); split; [done|reflexivity]|].
  eapply rtc_l; [exists 9%N, (OpDisconnect peer_1); split; [done|vm_compute; reflexivity]|].
  eapply rtc_l; [exists 9%N, (OpConnectIngoing peer_2); split; [done|vm_compute; reflexivity]|].
  eapply rtc_l; [exists 9%N, (OpConnectOutgoing peer_2); split; [done|vm_compute; reflexivity]|].
  apply rtc_refl.
Qed.
Lemma reachable_wf_witness : n_dc demo_db = 1 /\ n_dc demo_db <= MAX_DC_PEERS.
Proof. split; [reflexivity|]. apply (reachable_wf demo_db demo_reachable). Defined.

Lemma disconnect_spec_witness :
  exists db', disconnect 11%N peer_2 demo_db = Ret db' /\ n_dc db' <= MAX_DC_PEERS.
Proof.
  destruct (disconnect_spec 11%N peer_2 demo_db demo_reachable) as (db' & Hr & Hn & _).
  exists db'. split; [exact Hr|exact Hn].
Defined.

Lemma shrink_to_fit_spec_witness : exists db', shrink_to_fit demo_db = Ret db'.
Proof.
  destruct (shrink_to_fit_spec demo_db) as (db' & Hr & _); [vm_compute; reflexivity|].
  exists db'. exact Hr.
Defined.

Lemma run_op_entry_step_witness :
  entry_step (OpBan peer_2) peer_2 demo_db (ban 12%N peer_2 demo_db).
Proof.
  apply (run_op_entry_step 12%N); [exact (reachable_is_wf demo_db demo_reachable)|reflexivity].
Defined.

Lemma add_reputation_spec_witness : n_dc (add_reputation peer_1 (bad 60) demo_db) = 1.
Proof.
  apply (add_reputation_spec peer_1 (bad 60) demo_db demo_reachable).
  unfold in_width. cbn. lia.
Defined.

Lemma connect_all_counts_witness :
  exists db', connect_all [true; false; true] peer_1 demo_db = Ret db'.
Proof.
  destruct (connect_all_counts [true; false; true] peer_1 demo_db) as [(db' & Hr & _) _];
    [reflexivity|discriminate|cbn; lia|cbn; lia|].
  exists db'. exact Hr.
Defined.
End Witnesses.
