(* ===== verification/UnitTests.v ===== *)
(** * The unit tests of the peer database and of the expiring set
      (src/core/network/src/peer_manager/peerdb.rs, [mod tests];
      src/core/network/src/hashset_delay.rs, [mod tests])

    Each test is a run on the model that panics where an assertion of the code
    fails.  What a test leaves to chance is an argument here: [random i] is
    the [i]-th peer that [PeerId::random] draws, [clock i] the [i]-th reading
    of the clock, and the iteration order of the hash map is any order at
    all.  The theorems say that the tests pass whatever these are, as long as
    two draws are never the same peer. *)
From Stdlib Require Import NArith.
From S2P Require Import Prelude DelayQueue HashSetDelay Env RpcMethods Client PeerInfo PeerDB.

Open Scope Z_scope.
Open Scope list_scope.

(** [assert!] and [assert_eq!]. *)
Definition assert (b : bool) : Outcome unit :=
  if b then mret tt else Panic "assertion failed".

Definition assert_eq {A : Type} `{EqDecision A} (x y : A) : Outcome unit :=
  assert (bool_decide (x = y)).

(** [for _ in 0..n] and [for p in ids], the index counting the iterations. *)
Fixpoint times {S : Type} (n i : nat) (f : nat -> S -> Outcome S) (s : S) : Outcome S :=
  match n with
  | O => mret s
  | Datatypes.S n => s' ← f i s; times n (Datatypes.S i) f s'
  end.

Fixpoint for_each {A S : Type} (l : list A) (i : nat) (f : nat -> A -> S -> Outcome S) (s : S)
    : Outcome S :=
  match l with
  | [] => mret s
  | a :: l => s' ← f i a s; for_each l (Datatypes.S i) f s'
  end.

(** ** peerdb.rs *)
Section PeerDBTests.
Context `{Libp2p} `{HashOrder} `{BuildProfile}.
Context (random : nat -> PeerId) (clock : nat -> Instant).

Definition get_db : PeerDB := PeerDB.new.

Definition test_peer_connected_successfully : Outcome unit :=
  let pdb := get_db in
  let random_peer := random 0 in
  let '(n_in, n_out) := (10, 20) in
  pdb ← times (Z.to_nat n_in) 0 (fun _ => PeerDB.connect_ingoing random_peer) pdb;
  pdb ← times (Z.to_nat n_out) 0 (fun _ => PeerDB.connect_outgoing random_peer) pdb;
  let peer_info := peer_info random_peer pdb in
  _ ← assert (bool_decide (is_Some peer_info));
  _ ← assert_eq (length (hm_iter (peers pdb))) 1%nat;
  _ ← assert_eq (get_reputation random_peer pdb) DEFAULT_REPUTATION;
  _ ← assert_eq (n_dc pdb) 0;
  info ← unwrap peer_info "called `Option::unwrap()` on a `None` value";
  _ ← assert (is_connected (connection_status info));
  assert_eq (connections (connection_status info)) (n_in, n_out).

Definition test_set_reputation : Outcome unit :=
  let pdb := get_db in
  let random_peer := random 0 in
  pdb ← PeerDB.connect_ingoing random_peer pdb;
  let rep := 0 in
  let pdb := set_reputation random_peer rep pdb in
  _ ← assert_eq (get_reputation random_peer pdb) rep;
  let rep := 255 in
  let pdb := set_reputation random_peer rep pdb in
  _ ← assert_eq (get_reputation random_peer pdb) rep;
  let rep := 255 / 100 in
  let pdb := set_reputation random_peer rep pdb in
  assert_eq (get_reputation random_peer pdb) rep.

Definition test_reputation_change : Outcome unit :=
  let pdb := get_db in
  let random_peer := random 0 in
  let change := good 0 in
  pdb ← PeerDB.connect_ingoing random_peer pdb;
  let pdb := add_reputation random_peer change pdb in
  _ ← assert_eq (get_reputation random_peer pdb) DEFAULT_REPUTATION;
  let random_peer := random 1 in
  let change := worst in
  pdb ← PeerDB.connect_ingoing random_peer pdb;
  let pdb := add_reputation random_peer change pdb in
  _ ← assert_eq (get_reputation random_peer pdb) 0;
  let random_peer := random 2 in
  let change := good 255 in
  pdb ← PeerDB.connect_ingoing random_peer pdb;
  let pdb := add_reputation random_peer change pdb in
  assert_eq (get_reputation random_peer pdb) 255.

Definition test_disconnected_are_bounded : Outcome unit :=
  let pdb := get_db in
  pdb ← times (Z.to_nat (MAX_DC_PEERS + 1)) 0
          (fun i pdb => let p := random i in PeerDB.connect_ingoing p pdb) pdb;
  _ ← assert_eq (n_dc pdb) 0;
  pdb ← for_each (connected_peer_ids pdb) 0 (fun i p => PeerDB.disconnect (clock i) p) pdb;
  assert_eq (n_dc pdb) MAX_DC_PEERS.

(** The lines that [test_best_peers] and [test_the_best_peer] share. *)
Definition three_rated : Outcome PeerDB :=
  let pdb := get_db in
  let p0 := random 0 in
  let p1 := random 1 in
  let p2 := random 2 in
  pdb ← PeerDB.connect_ingoing p0 pdb;
  pdb ← PeerDB.connect_ingoing p1 pdb;
  pdb ← PeerDB.connect_ingoing p2 pdb;
  let pdb := set_reputation p0 70 pdb in
  let pdb := set_reputation p1 100 pdb in
  mret (set_reputation p2 50 pdb).

Definition test_best_peers : Outcome unit :=
  pdb ← three_rated;
  let best_peers := best_peers_by_status is_connected pdb in
  assert (bool_decide ([random 1; random 0; random 2] = best_peers.*1)).

Definition test_the_best_peer : Outcome unit :=
  pdb ← three_rated;
  let the_best := best_by_status is_connected pdb in
  _ ← assert (bool_decide (is_Some the_best));
  let best_peers := best_peers_by_status is_connected pdb in
  assert_eq the_best (head best_peers.*1).

(** [assert_eq!(pdb.n_dc, pdb.disconnected_peers().count())] *)
Definition assert_consistent (pdb : PeerDB) : Outcome unit :=
  assert_eq (n_dc pdb) (Z.of_nat (length (disconnected_peers pdb))).

Definition test_disconnected_consistency : Outcome unit :=
  let pdb := get_db in
  let random_peer := random 0 in
  pdb ← PeerDB.connect_ingoing random_peer pdb;
  _ ← assert_consistent pdb;
  pdb ← PeerDB.connect_ingoing random_peer pdb;
  _ ← assert_consistent pdb;
  pdb ← PeerDB.disconnect (clock 0) random_peer pdb;
  _ ← assert_consistent pdb;
  pdb ← PeerDB.connect_outgoing random_peer pdb;
  _ ← assert_consistent pdb;
  pdb ← PeerDB.disconnect (clock 1) random_peer pdb;
  _ ← assert_consistent pdb;
  let pdb := PeerDB.ban (clock 2) random_peer pdb in
  _ ← assert_consistent pdb;
  pdb ← PeerDB.disconnect (clock 3) random_peer pdb;
  _ ← assert_consistent pdb;
  pdb ← PeerDB.disconnect (clock 4) random_peer pdb;
  _ ← assert_consistent pdb;
  pdb ← PeerDB.disconnect (clock 5) random_peer pdb;
  assert_consistent pdb.
End PeerDBTests.

(** ** hashset_delay.rs *)
Section HashSetDelayTests.
Context `{DelayQueue} (clock : nat -> Instant).

(** The answers of the two polls are dropped, as in the test. *)
Definition should_not_panic : Outcome unit :=
  let key := 2%N in
  let map := HashSetDelay_default in
  map ← HashSetDelay.insert (clock 0) key map;
  '(_, map) ← update_timeout (clock 1) key (from_secs 100) map;
  let '(_, map) := HashSetDelay.poll_next (clock 2) map in
  let '(_, map) := HashSetDelay.poll_next (clock 3) map in
  map ← HashSetDelay.insert (clock 4) key map;
  '(_, map) ← update_timeout (clock 5) key (from_secs 100) map;
  mret tt.
End HashSetDelayTests.

(** ** Lemmas *)
Section PeerDBLemmas.
Context `{Libp2p} `{HashOrder} `{BuildProfile}.

Lemma assert_eq_refl {A} `{EqDecision A} (x y : A) : x = y -> assert_eq x y = Ret tt.
Proof. intros ->. unfold assert_eq. by rewrite bool_decide_eq_true_2. Qed.

(** A database that knows one peer, of default reputation. *)
Definition one (p : PeerId) (s : PeerConnectionStatus) (n : Z) : PeerDB :=
  mkPeerDB {[p := set_connection_status s PeerInfo_default]} n.

Lemma entry_one p s n :
  entry_or_default p (one p s n) = set_connection_status s PeerInfo_default.
Proof. apply entry_or_default_known, lookup_singleton_eq. Qed.

Lemma connect_ingoing_new p : PeerDB.connect_ingoing p PeerDB.new = Ret (one p (Connected 1 0) 0).
Proof.
  unfold PeerDB.connect_ingoing, entry_or_default, PeerDB.new, one. cbn. by rewrite lookup_empty.
Qed.

Lemma connect_ingoing_one p s n :
  PeerDB.connect_ingoing p (one p s n) =
  (s' ← PeerInfo.connect_ingoing s;
   Ret (one p s' (if is_disconnected s then saturating_sub n 1 else n))).
Proof.
  unfold PeerDB.connect_ingoing. rewrite entry_one. cbn.
  destruct (PeerInfo.connect_ingoing s); cbn; [|done..].
  unfold one. by rewrite insert_singleton_eq.
Qed.

Lemma connect_outgoing_one p s n :
  PeerDB.connect_outgoing p (one p s n) =
  (s' ← PeerInfo.connect_outgoing s;
   Ret (one p s' (if is_disconnected s then saturating_sub n 1 else n))).
Proof.
  unfold PeerDB.connect_outgoing. rewrite entry_one. cbn.
  destruct (PeerInfo.connect_outgoing s); cbn; [|done..].
  unfold one. by rewrite insert_singleton_eq.
Qed.

Lemma disconnect_one now p s n :
  0 <= n < MAX_DC_PEERS ->
  PeerDB.disconnect now p (one p s n) =
  Ret (if is_disconnected s || is_banned s then one p s n else one p (Disconnected now) (n + 1)).
Proof.
  unfold MAX_DC_PEERS. intros Hn. unfold PeerDB.disconnect. rewrite entry_one.
  assert (Hadd : add_w 64 n 1 = Ret (n + 1)) by (unfold add_w; rewrite decide_True; [done|lia]).
  assert (Hshrink : forall m s', m <= 30 -> shrink_to_fit (one p s' m) = Ret (one p s' m)).
  { intros m s' Hm. unfold shrink_to_fit. cbn. rewrite decide_False; [done|].
    unfold MAX_DC_PEERS. lia. }
  cbn -[shrink_to_fit add_w Z.add].
  destruct (is_disconnected s), (is_banned s); cbn -[shrink_to_fit add_w Z.add];
    rewrite ?Hadd; cbn -[shrink_to_fit Z.add]; rewrite insert_singleton_eq; (apply (Hshrink n) || apply (Hshrink (n + 1))); lia.
Qed.

Lemma ban_one now p s n :
  PeerDB.ban now p (one p s n) =
  one p (Banned now) (if is_disconnected s then saturating_sub n 1 else n).
Proof. unfold PeerDB.ban. rewrite entry_one. cbn. unfold one. by rewrite insert_singleton_eq. Qed.

Lemma consistent_one p s n :
  n = (if is_disconnected s then 1 else 0) -> assert_consistent (one p s n) = Ret tt.
Proof.
  intros ->. apply assert_eq_refl, exact_disconnected. unfold exact, one. cbn.
  rewrite <-insert_empty.
  pose proof (count_values_insert disc ∅ p (set_connection_status s PeerInfo_default)) as Hc.
  rewrite lookup_empty, count_values_empty in Hc. unfold disc in *. cbn in *.
  destruct (is_disconnected s); lia.
Qed.

Lemma times_ingoing p k i a b :
  0 <= a -> a + Z.of_nat k <= 255 ->
  times k i (fun _ => PeerDB.connect_ingoing p) (one p (Connected a b) 0) =
  Ret (one p (Connected (a + Z.of_nat k) b) 0).
Proof.
  revert i a; induction k as [|k IH]; intros i a Ha Hk; cbn [times].
  - by rewrite Z.add_0_r.
  - rewrite connect_ingoing_one. cbn. unfold add_w. rewrite decide_True by lia.
    outcome_simpl. rewrite IH by lia. do 3 f_equal. lia.
Qed.

Lemma times_outgoing p k i a b :
  0 <= b -> b + Z.of_nat k <= 255 ->
  times k i (fun _ => PeerDB.connect_outgoing p) (one p (Connected a b) 0) =
  Ret (one p (Connected a (b + Z.of_nat k)) 0).
Proof.
  revert i b; induction k as [|k IH]; intros i b Hb Hk; cbn [times].
  - by rewrite Z.add_0_r.
  - rewrite connect_outgoing_one. cbn. unfold add_w. rewrite decide_True by lia.
    outcome_simpl. rewrite IH by lia. do 3 f_equal. lia.
Qed.

(** *** Fresh peers *)

Lemma connect_fresh p db :
  peers db !! p = None ->
  PeerDB.connect_ingoing p db =
  Ret (mkPeerDB (<[p := set_connection_status (Connected 1 0) PeerInfo_default]> (peers db))
         (n_dc db)).
Proof. unfold PeerDB.connect_ingoing, entry_or_default. by intros ->. Qed.

Lemma set_reputation_known p info rep db :
  peers db !! p = Some info ->
  set_reputation p rep db = mkPeerDB (<[p := set_reputation_field rep info]> (peers db)) (n_dc db).
Proof. unfold set_reputation. by intros ->. Qed.

Lemma add_reputation_known p info change db :
  peers db !! p = Some info ->
  add_reputation p change db =
  mkPeerDB (<[p := set_reputation_field
    (if is_good change then saturating_add 8 (reputation info) (diff change)
     else saturating_sub (reputation info) (diff change)) info]> (peers db)) (n_dc db).
Proof. unfold add_reputation. by intros ->. Qed.

Lemma draws_differ (random : nat -> PeerId) `{!Inj (=) (=) random} :
  random 0%nat <> random 1%nat /\ random 0%nat <> random 2%nat /\ random 1%nat <> random 2%nat.
Proof. repeat split; by intros ?%(inj random). Qed.

Lemma get_reputation_written p info m n :
  get_reputation p (mkPeerDB (<[p := info]> m) n) = reputation info.
Proof. unfold get_reputation. cbn. by rewrite lookup_insert_eq. Qed.

(** [n] fresh peers connected one after the other. *)
Lemma times_fresh (random : nat -> PeerId) `{!Inj (=) (=) random} k i db :
  wf db -> (forall j, (i <= j)%nat -> peers db !! random j = None) ->
  exists db', times k i (fun j => PeerDB.connect_ingoing (random j)) db = Ret db' /\ wf db' /\
    n_dc db' = n_dc db /\
    forall q info, peers db' !! q = Some info <->
      peers db !! q = Some info \/
      (exists j, (i <= j < i + k)%nat /\ q = random j /\
         info = set_connection_status (Connected 1 0) PeerInfo_default).
Proof.
  revert i db; induction k as [|k IH]; intros i db Hwf Hnew; cbn [times].
  - exists db. split_and!; [done..|]. intros q info. split; [by left|].
    intros [Hq|(j & Hj & _)]; [done|lia].
  - pose proof (connect_fresh _ _ (Hnew i (le_n i))) as Hc. rewrite Hc. outcome_simpl.
    destruct (IH (Datatypes.S i)) with (db := mkPeerDB
      (<[random i := set_connection_status (Connected 1 0) PeerInfo_default]> (peers db))
      (n_dc db)) as (db' & Hr & Hwf' & Hn & Hq).
    { by eapply wf_connect_ingoing. }
    { intros j Hj. cbn. rewrite lookup_insert_ne; [apply Hnew; lia|].
      intros Heq%(inj random). lia. }
    exists db'. split_and!; [done..|]. intros q info. rewrite Hq. cbn.
    rewrite lookup_insert_Some. split.
    + intros [[[<- <-]|[_ Hl]]|(j & Hj & Hrest)]; [right; exists i; split; [lia|done]|by left|].
      right. exists j. split; [lia|done].
    + intros [Hl|(j & Hj & -> & ->)].
      * left. right. split; [|done]. intros <-. by rewrite (Hnew i (le_n i)) in Hl.
      * destruct (decide (j = i)) as [->|Hne]; [by left; left|].
        right. exists j. split; [lia|done].
Qed.

(** *** Disconnecting every connected peer *)

(** Disconnecting a connected peer raises the count by one, up to the bound,
    and touches no other peer that is not disconnected. *)
Lemma disconnect_connected now p info db :
  wf db -> peers db !! p = Some info -> is_connected (connection_status info) = true ->
  exists db', PeerDB.disconnect now p db = Ret db' /\ wf db' /\
    n_dc db' = Z.min (n_dc db + 1) MAX_DC_PEERS /\
    forall q qi, q <> p -> disc qi = false -> peers db !! q = Some qi -> peers db' !! q = Some qi.
Proof.
  intros Hwf Hp Hc. pose proof (wf_bound _ Hwf) as Hb. pose proof (wf_exact _ Hwf) as Hex.
  set (db1 := mkPeerDB (<[p := set_connection_status (Disconnected now) info]> (peers db))
                (n_dc db + 1)).
  assert (Hd : disc info = false) by (unfold disc; by destruct (connection_status info)).
  assert (Hex1 : exact db1).
  { apply exact_insert; [done|]. rewrite (entry_or_default_known _ _ _ Hp), Hd. cbn. lia. }
  destruct (shrink_to_fit_ok db1 Hex1) as (db' & Hr & Hex' & Hn & [Hsub Hdrop]).
  exists db'. assert (Hrun : PeerDB.disconnect now p db = Ret db').
  { unfold PeerDB.disconnect. rewrite (entry_or_default_known _ _ _ Hp).
    unfold add_w. rewrite decide_True by (unfold MAX_DC_PEERS in *; lia).
    by destruct (connection_status info). }
  split; [done|]. split; [by eapply wf_disconnect|]. split; [done|].
  intros q qi Hne Hqd Hq. destruct (peers db' !! q) as [qi'|] eqn:E.
  - pose proof (lookup_weaken _ _ _ _ E Hsub) as Hl. cbn in Hl.
    rewrite lookup_insert_ne in Hl by done. congruence.
  - destruct (Hdrop q qi) as [Hdisc _]; [cbn; by rewrite lookup_insert_ne|done|congruence].
Qed.

Lemma disconnect_all (clock : nat -> Instant) ids i db :
  wf db -> NoDup ids ->
  (forall p, p ∈ ids -> exists info, peers db !! p = Some info /\
     is_connected (connection_status info) = true) ->
  exists db', for_each ids i (fun j p => PeerDB.disconnect (clock j) p) db = Ret db' /\
    n_dc db' = Z.min (n_dc db + Z.of_nat (length ids)) MAX_DC_PEERS.
Proof.
  revert i db; induction ids as [|p ids IH]; intros i db Hwf Hnd Hids; cbn [for_each].
  - exists db. split; [done|]. pose proof (wf_bound _ Hwf). cbn. lia.
  - apply NoDup_cons in Hnd as [Hp Hnd].
    destruct (Hids p) as (info & Hpi & Hc); [left|].
    destruct (disconnect_connected (clock i) p info db Hwf Hpi Hc) as (db1 & Hr & Hwf1 & Hn & Hk).
    rewrite Hr. outcome_simpl.
    destruct (IH (Datatypes.S i) db1 Hwf1 Hnd) as (db' & Hr' & Hn').
    { intros q Hq. destruct (Hids q) as (qi & Hqi & Hqc); [by right|]. exists qi. split; [|done].
      apply Hk; [by intros ->| |done]. unfold disc. by destruct (connection_status qi). }
    exists db'. split; [done|]. rewrite Hn', Hn. lia.
Qed.

(** *** Three rated peers *)

Definition rated (rep : Rep) : PeerInfo :=
  set_reputation_field rep (set_connection_status (Connected 1 0) PeerInfo_default).

Definition by_reputation (a b : PeerId * PeerInfo) : Prop := reputation b.2 <= reputation a.2.

Lemma three_rated_ok (random : nat -> PeerId) `{!Inj (=) (=) random} :
  exists db, three_rated random = Ret db /\
    peers db = list_to_map [(random 0%nat, rated 70); (random 1%nat, rated 100);
                            (random 2%nat, rated 50)].
Proof.
  destruct (draws_differ random) as (H01 & H02 & H12).
  unfold three_rated, get_db.
  rewrite connect_ingoing_new. outcome_simpl. unfold one.
  rewrite connect_fresh by (cbn; by rewrite lookup_singleton_ne). outcome_simpl.
  rewrite connect_fresh by (cbn; by rewrite lookup_insert_ne, lookup_singleton_ne).
  outcome_simpl.
  do 3 (match goal with
        | |- context [set_reputation ?p _ (mkPeerDB _ _)] => erewrite (set_reputation_known p)
        end; [|cbn; rewrite ?lookup_insert_ne by done;
               first [apply lookup_insert_eq|apply lookup_singleton_eq]]; cbn [peers n_dc]).
  eexists. split; [reflexivity|]. cbn. apply map_eq. intros q.
  destruct (decide (q = random 0%nat)) as [->|?];
    [|destruct (decide (q = random 1%nat)) as [->|?];
      [|destruct (decide (q = random 2%nat)) as [->|?]]];
    repeat (rewrite lookup_insert_eq || rewrite lookup_insert_ne by done ||
            rewrite lookup_singleton_ne by done); try done.
  by apply lookup_singleton_ne.
Qed.

(** The only order of the three by reputation. *)
Lemma three_rated_best (random : nat -> PeerId) `{!Inj (=) (=) random} db :
  peers db = list_to_map [(random 0%nat, rated 70); (random 1%nat, rated 100);
                          (random 2%nat, rated 50)] ->
  best_peers_by_status is_connected db =
    [(random 1%nat, rated 100); (random 0%nat, rated 70); (random 2%nat, rated 50)] /\
  best_by_status is_connected db = Some (random 1%nat).
Proof.
  intros Hdb.
  assert (Hnd : NoDup [random 0%nat; random 1%nat; random 2%nat]).
  { apply (NoDup_fmap_2 random [0; 1; 2]%nat). apply (NoDup_seq 0 3). }
  assert (Hmem : forall q qi, peers db !! q = Some qi <->
    (q, qi) ∈ [(random 0%nat, rated 70); (random 1%nat, rated 100); (random 2%nat, rated 50)]).
  { intros q qi. rewrite Hdb. symmetry. by apply elem_of_list_to_map. }
  destruct (best_peers_by_status_spec is_connected db) as (Hndb & Hin & Hsort & Hbest).
  set (best := best_peers_by_status is_connected db) in *.
  set (expected := [(random 1%nat, rated 100); (random 0%nat, rated 70); (random 2%nat, rated 50)]).
  assert (Hperm : best ≡ₚ expected).
  { apply NoDup_Permutation; [by eapply NoDup_fmap_1| |].
    - apply (NoDup_fmap_1 fst). cbn. rewrite (Permutation_swap _ _). done.
    - intros [q qi]. rewrite Hin, Hmem. unfold expected.
      set_unfold. split; [tauto|]. intros Hq. split; [tauto|].
      by destruct Hq as [[= _ ->]|[[= _ ->]|[[= _ ->]|[]]]]. }
  assert (Heq : best = expected).
  { apply (StronglySorted_unique_strong by_reputation); [|done| |done].
    - intros a b Ha Hb. rewrite Hperm in Ha. unfold expected, by_reputation in *.
      set_unfold. destruct Ha as [->|[->|[->|[]]]], Hb as [->|[->|[->|[]]]]; cbn; (done || lia).
    - repeat constructor; unfold by_reputation; cbn; lia. }
  split; [done|].
  rewrite Heq in Hbest. cbn in Hbest. destruct (best_by_status is_connected db) as [q|]; [|done].
  cbn in Hbest. destruct (peers db !! q) as [qi|] eqn:Hq; [|done].
  apply Hmem in Hq. set_unfold. destruct Hq as [[= -> ->]|[[= -> ->]|[[= -> ->]|[]]]]; done.
Qed.

(** *** Each test *)

Lemma connected_successfully_passes (random : nat -> PeerId) :
  test_peer_connected_successfully random = Ret tt.
Proof.
  unfold test_peer_connected_successfully, get_db. set (p := random 0%nat).
  assert (Hin : times (Z.to_nat 10) 0 (fun _ => PeerDB.connect_ingoing p) PeerDB.new =
    Ret (one p (Connected 10 0) 0)).
  { change (Z.to_nat 10) with (Datatypes.S 9). cbn [times]. rewrite connect_ingoing_new.
    by apply (times_ingoing p 9 1 1 0). }
  assert (Hout : times (Z.to_nat 20) 0 (fun _ => PeerDB.connect_outgoing p)
    (one p (Connected 10 0) 0) = Ret (one p (Connected 10 20) 0))
    by (by apply (times_outgoing p 20 0 10 0)).
  cbv zeta. rewrite Hin. cbn -[times one Z.to_nat]. rewrite Hout. cbn -[one].
  unfold peer_info, get_reputation, one. cbn [peers n_dc]. rewrite lookup_singleton_eq.
  assert (Hlen : length (hm_iter {[p := set_connection_status (Connected 10 20) PeerInfo_default]})
    = 1%nat) by (rewrite hm_iter_perm, map_to_list_singleton; done).
  by rewrite (assert_eq_refl _ _ Hlen).
Qed.

Lemma set_reputation_passes (random : nat -> PeerId) : test_set_reputation random = Ret tt.
Proof.
  unfold test_set_reputation, get_db. rewrite connect_ingoing_new. outcome_simpl. unfold one.
  do 3 (erewrite set_reputation_known
          by (cbn; first [apply lookup_singleton_eq|apply lookup_insert_eq]);
        rewrite get_reputation_written; cbn).
  done.
Qed.

Lemma reputation_change_passes (random : nat -> PeerId) `{!Inj (=) (=) random} :
  test_reputation_change random = Ret tt.
Proof.
  destruct (draws_differ random) as (H01 & H02 & H12).
  unfold test_reputation_change, get_db. rewrite connect_ingoing_new. outcome_simpl. unfold one.
  erewrite add_reputation_known by (cbn; apply lookup_singleton_eq).
  rewrite get_reputation_written. cbn [peers n_dc].
  rewrite assert_eq_refl by done. outcome_simpl.
  rewrite connect_fresh
    by (cbn; by rewrite lookup_insert_ne, lookup_singleton_ne). outcome_simpl.
  erewrite add_reputation_known by (cbn; apply lookup_insert_eq).
  rewrite get_reputation_written. cbn [peers n_dc].
  rewrite assert_eq_refl by done. outcome_simpl.
  rewrite connect_fresh
    by (cbn; by rewrite !lookup_insert_ne, lookup_singleton_ne). outcome_simpl.
  erewrite add_reputation_known by (cbn; apply lookup_insert_eq).
  rewrite get_reputation_written. by apply assert_eq_refl.
Qed.

Lemma are_bounded_passes (random : nat -> PeerId) `{!Inj (=) (=) random} clock :
  test_disconnected_are_bounded random clock = Ret tt.
Proof.
  unfold test_disconnected_are_bounded, get_db.
  destruct (times_fresh random (Z.to_nat (MAX_DC_PEERS + 1)) 0 PeerDB.new wf_new)
    as (db & Hr & Hwf & Hn & Hq); [intros j _; apply lookup_empty|].
  assert (Hall : times (Z.to_nat (MAX_DC_PEERS + 1)) 0
    (fun i pdb => PeerDB.connect_ingoing (random i) pdb) PeerDB.new = Ret db) by exact Hr.
  cbv zeta. rewrite Hall. outcome_simpl. rewrite (assert_eq_refl _ _ Hn).
  set (ids := connected_peer_ids db).
  assert (Hids : ids ≡ₚ random <$> seq 0 31).
  { apply NoDup_Permutation.
    - apply NoDup_fst_filter_peers.
    - apply NoDup_fmap_2; [done|apply NoDup_seq].
    - intros p. unfold ids, connected_peer_ids. rewrite !list_elem_of_fmap. split.
      + intros ([p' info] & -> & Hin). apply elem_of_filter_peers in Hin as [Hp _].
        apply Hq in Hp as [Hp|(j & Hj & -> & _)]; [by rewrite lookup_empty in Hp|].
        exists j. split; [done|]. apply elem_of_seq. unfold MAX_DC_PEERS in Hj. lia.
      + intros (j & -> & Hj%elem_of_seq).
        exists (random j, set_connection_status (Connected 1 0) PeerInfo_default).
        split; [done|]. apply elem_of_filter_peers. split; [|done]. apply Hq. right.
        exists j. split; [unfold MAX_DC_PEERS; lia|done]. }
  destruct (disconnect_all clock ids 0 db Hwf) as (db' & Hr' & Hn').
  - rewrite Hids. apply NoDup_fmap_2; [done|apply NoDup_seq].
  - intros p Hp. unfold ids, connected_peer_ids in Hp.
    apply list_elem_of_fmap in Hp as ([p' info] & -> & Hin).
    apply elem_of_filter_peers in Hin. eauto.
  - rewrite Hr'. apply assert_eq_refl. rewrite Hn', Hn, Hids, length_fmap, length_seq. done.
Qed.

Lemma best_peers_passes (random : nat -> PeerId) `{!Inj (=) (=) random} :
  test_best_peers random = Ret tt.
Proof.
  destruct (three_rated_ok random) as (db & Hr & Hdb).
  destruct (three_rated_best random db Hdb) as [Hbest _].
  unfold test_best_peers. rewrite Hr. outcome_simpl. rewrite Hbest.
  unfold assert. by rewrite bool_decide_eq_true_2.
Qed.

Lemma the_best_peer_passes (random : nat -> PeerId) `{!Inj (=) (=) random} :
  test_the_best_peer random = Ret tt.
Proof.
  destruct (three_rated_ok random) as (db & Hr & Hdb).
  destruct (three_rated_best random db Hdb) as [Hbest Hone].
  unfold test_the_best_peer. rewrite Hr. outcome_simpl. rewrite Hbest, Hone. cbn.
  by apply assert_eq_refl.
Qed.

Lemma consistency_passes (random : nat -> PeerId) clock :
  test_disconnected_consistency random clock = Ret tt.
Proof.
  unfold test_disconnected_consistency, get_db. rewrite connect_ingoing_new.
  assert (Hadd : add_w 8 1 1 = Ret 2) by done.
  repeat (outcome_simpl;
          first [rewrite Hadd
                |rewrite consistent_one by done
                |rewrite connect_ingoing_one
                |rewrite connect_outgoing_one
                |rewrite disconnect_one by (unfold MAX_DC_PEERS, saturating_sub; lia)
                |rewrite ban_one]).
  done.
Qed.
End PeerDBLemmas.

(** ** Properties *)
Section Tests.
Context `{Libp2p} `{HashOrder} `{BuildProfile}.

(** C31: the unit tests of the peer database pass, whatever peers are drawn
    (no two of them equal), whatever the clock says, whatever the iteration
    order of the hash map, and with or without overflow checks: no assertion
    fails, no operation panics, and every loop ends. *)
Theorem peerdb_tests_pass (random : nat -> PeerId) (clock : nat -> Instant) :
  (forall i j, random i = random j -> i = j) ->
  test_peer_connected_successfully random = Ret tt /\
  test_set_reputation random = Ret tt /\
  test_reputation_change random = Ret tt /\
  test_disconnected_are_bounded random clock = Ret tt /\
  test_best_peers random = Ret tt /\
  test_the_best_peer random = Ret tt /\
  test_disconnected_consistency random clock = Ret tt.
Proof.
  intros Hinj. assert (Inj (=) (=) random) by exact Hinj.
  split_and!.
  - apply connected_successfully_passes.
  - apply set_reputation_passes.
  - by apply reputation_change_passes.
  - by apply are_bounded_passes.
  - by apply best_peers_passes.
  - by apply the_best_peer_passes.
  - apply consistency_passes.
Qed.

(** The test of the expiring set passes with every delay queue that keeps its
    laws: none of the calls panics, whatever the polls answer. *)
Theorem should_not_panic_passes `{DelayQueueLaws} (clock : nat -> Instant) :
  should_not_panic clock = Ret tt.
Proof.
  unfold should_not_panic. cbv zeta.
  unfold HashSetDelay.insert at 1.
  change (default_entry_timeout HashSetDelay_default) with (from_secs DEFAULT_DELAY).
  destruct (insert_at_spec (clock 0%nat) 2%N (from_secs DEFAULT_DELAY)
    (HashSetDelay_default (K := N)) (set_wf_new _) ltac:(by apply within_day)) as (s1 & Hr1 & Hwf1 & Ht1 & _).
  setoid_rewrite Hr1. outcome_simpl.
  destruct (update_timeout_spec (clock 1%nat) 2%N (from_secs 100) s1 Hwf1 ltac:(by apply within_day))
    as (s2 & Hr2 & Hwf2 & _ & Ht2 & _).
  setoid_rewrite Hr2. outcome_simpl.
  destruct (poll_next (clock 2%nat) s2) as [r3 s3] eqn:E3.
  destruct (poll_next_ok _ _ _ _ Hwf2 E3) as (Hwf3 & Ht3 & _).
  destruct (poll_next (clock 3%nat) s3) as [r4 s4] eqn:E4.
  destruct (poll_next_ok _ _ _ _ Hwf3 E4) as (Hwf4 & Ht4 & _).
  unfold HashSetDelay.insert.
  assert (Hlim : (default_entry_timeout s4 <= dq_limit)%N)
    by (rewrite Ht4, Ht3, Ht2, Ht1; by apply within_day).
  destruct (insert_at_spec (clock 4%nat) 2%N (default_entry_timeout s4) s4 Hwf4 Hlim)
    as (s5 & Hr5 & Hwf5 & _).
  setoid_rewrite Hr5. outcome_simpl.
  destruct (update_timeout_spec (clock 5%nat) 2%N (from_secs 100) s5 Hwf5 ltac:(by apply within_day)) as (s6 & Hr6 & _).
  by setoid_rewrite Hr6.
Qed.
End Tests.

(** ** Witness: peers are numbers, drawn one after the other *)
Section Witnesses.
#[local] Existing Instance demo_libp2p.
#[local] Existing Instance map_to_list_order.
#[local] Instance debug_build : BuildProfile := true.

Definition draw (i : nat) : @PeerId demo_libp2p := N.of_nat i.

Lemma peerdb_tests_pass_witness :
  test_disconnected_are_bounded draw (fun i => N.of_nat i) = Ret tt.
Proof.
  destruct (peerdb_tests_pass draw (fun i => N.of_nat i)) as (_ & _ & _ & Hb & _);
    [|exact Hb].
  intros i j Heq. exact (Nat2N.inj i j Heq).
Defined.
End Witnesses.
