(* ===== verification/EnrExt.v ===== *)
(** * Node records (src/core/network/src/discovery/enr_ext.rs, enr.rs)

    The addresses a record stands for, and the choice between the record built
    from the configuration and the one stored on disk.  The record type, its
    builder and its text form belong to the [enr] library and multiaddresses to
    libp2p: they are the members of the class [Enrs]. *)
From Stdlib Require Import NArith Strings.String Strings.Byte.
From S2P Require Import Prelude Env RpcMethods.

Open Scope list_scope.

#[export] Instance byte_eq_decision : EqDecision byte := Byte.byte_eq_dec.

(** The fields given to the record builder; a later call for the same field
    replaces an earlier one. *)
Record EnrFields := mkEnrFields {
  field_ip : option IpAddr;
  field_udp : option N;
  field_tcp : option N;
  field_values : list (string * list byte);
}.

Class Enrs `{Libp2p} := {
  Enr : Type;
  CombinedKey : Type;
  NodeId : Type;
  NodeId_eq_dec :: EqDecision NodeId;
  (** The fields of a record. *)
  enr_ip : Enr -> option N;
  enr_udp : Enr -> option N;
  enr_tcp : Enr -> option N;
  enr_ip6 : Enr -> option N;
  enr_udp6 : Enr -> option N;
  enr_tcp6 : Enr -> option N;
  enr_get : string -> Enr -> option (list byte);
  enr_seq : Enr -> N;
  enr_node_id : Enr -> NodeId;
  (** The value of [EnrExt::peer_id], [EnrExt_peer_id] in [Keys]. *)
  enr_peer_id : Enr -> PeerId;
  (** [set_seq] signs the record again, [build] signs a new one. *)
  enr_set_seq : N -> CombinedKey -> Enr -> Result Enr string;
  enr_build : EnrFields -> CombinedKey -> Result Enr string;
  (** [Enr::from_str] and [to_base64]. *)
  enr_from_str : string -> Result Enr string;
  enr_to_base64 : Enr -> string;
  (** [Multiaddr::from(ip)], [push] and [iter]. *)
  ma_from_ip : IpAddr -> Multiaddr;
  ma_push : MProtocol PeerId -> Multiaddr -> Multiaddr;
  ma_iter : Multiaddr -> list (MProtocol PeerId);
}.

Class EnrLaws `{Enrs} := {
  ma_iter_from_ip : forall ip, ma_iter (ma_from_ip ip) = [M_Ip ip];
  ma_iter_push : forall p a, ma_iter (ma_push p a) = ma_iter a ++ [p];
  enr_build_spec : forall fields key e, enr_build fields key = Ok e ->
    enr_seq e = 1%N /\ enr_tcp e = field_tcp fields /\ enr_udp e = field_udp fields /\
    enr_ip e = match field_ip fields with Some (V4 a) => Some a | _ => None end;
  enr_set_seq_spec : forall n key e e', enr_set_seq n key e = Ok e' ->
    enr_seq e' = n /\ enr_node_id e' = enr_node_id e /\ enr_tcp e' = enr_tcp e /\
    enr_udp e' = enr_udp e /\ enr_ip e' = enr_ip e /\ forall k, enr_get k e' = enr_get k e;
}.

Definition ETH2_ENR_KEY : string := "eth2".
Definition BITFIELD_ENR_KEY : string := "attnets".

Section Enr.
Context `{Enrs}.

(** ** [impl EnrExt for Enr] *)

Definition with_ip (ip : IpAddr) (protocols : list (MProtocol PeerId)) : Multiaddr :=
  foldl (fun a p => ma_push p a) (ma_from_ip ip) protocols.

Definition enr_multiaddr (e : Enr) : list Multiaddr :=
  match enr_ip e with
  | Some ip =>
    match enr_udp e with Some udp => [with_ip (V4 ip) [M_Udp udp]] | None => [] end ++
    match enr_tcp e with Some tcp => [with_ip (V4 ip) [M_Tcp tcp]] | None => [] end
  | None => []
  end ++
  match enr_ip6 e with
  | Some ip6 =>
    match enr_udp6 e with Some udp6 => [with_ip (V6 ip6) [M_Udp udp6]] | None => [] end ++
    match enr_tcp6 e with Some tcp6 => [with_ip (V6 ip6) [M_Tcp tcp6]] | None => [] end
  | None => []
  end.

Definition enr_multiaddr_p2p (e : Enr) : list Multiaddr :=
  let p2p := M_P2p (enr_peer_id e) in
  match enr_ip e with
  | Some ip =>
    match enr_udp e with Some udp => [with_ip (V4 ip) [M_Udp udp; p2p]] | None => [] end ++
    match enr_tcp e with Some tcp => [with_ip (V4 ip) [M_Tcp tcp; p2p]] | None => [] end
  | None => []
  end ++
  match enr_ip6 e with
  | Some ip6 =>
    match enr_udp6 e with Some udp6 => [with_ip (V6 ip6) [M_Udp udp6; p2p]] | None => [] end ++
    match enr_tcp6 e with Some tcp6 => [with_ip (V6 ip6) [M_Tcp tcp6; p2p]] | None => [] end
  | None => []
  end.

Definition enr_multiaddr_tcp (e : Enr) : list Multiaddr :=
  match enr_ip e with
  | Some ip => match enr_tcp e with Some tcp => [with_ip (V4 ip) [M_Tcp tcp]] | None => [] end
  | None => []
  end ++
  match enr_ip6 e with
  | Some ip6 => match enr_tcp6 e with Some tcp6 => [with_ip (V6 ip6) [M_Tcp tcp6]] | None => [] end
  | None => []
  end.

(** ** enr.rs *)

(** The fields of [NetworkConfig] that make the record. *)
Record EnrConfig := mkEnrConfig {
  enr_address : option IpAddr;
  enr_udp_port : option N;
  enr_tcp_port : option N;
  libp2p_port : N;
}.

(** The builder calls of [build_enr], in order. *)
Definition builder_new : EnrFields := mkEnrFields None None None [].
Definition builder_ip (ip : IpAddr) (b : EnrFields) : EnrFields :=
  mkEnrFields (Some ip) (field_udp b) (field_tcp b) (field_values b).
Definition builder_udp (port : N) (b : EnrFields) : EnrFields :=
  mkEnrFields (field_ip b) (Some port) (field_tcp b) (field_values b).
Definition builder_tcp (port : N) (b : EnrFields) : EnrFields :=
  mkEnrFields (field_ip b) (field_udp b) (Some port) (field_values b).
Definition builder_add_value (key : string) (value : list byte) (b : EnrFields) : EnrFields :=
  mkEnrFields (field_ip b) (field_udp b) (field_tcp b) (field_values b ++ [(key, value)]).

Definition build_enr (enr_key : CombinedKey) (config : EnrConfig) (enr_fork_id : list byte)
    : Result Enr string :=
  let builder := builder_new in
  let builder :=
    match enr_address config with Some ip => builder_ip ip builder | None => builder end in
  let builder :=
    match enr_udp_port config with Some port => builder_udp port builder | None => builder end in
  let tcp_port := default (libp2p_port config) (enr_tcp_port config) in
  let builder := builder_tcp tcp_port builder in
  let builder := builder_add_value ETH2_ENR_KEY enr_fork_id builder in
  let bitfield := replicate 8 x00 in
  let builder := builder_add_value BITFIELD_ENR_KEY bitfield builder in
  let builder := builder_tcp (libp2p_port config) builder in
  match enr_build builder enr_key with
  | Ok e => Ok e
  | Err e => Err ("Could not build Local ENR: " +:+ e)%string
  end.

Definition compare_enr (local_enr disk_enr : Enr) : bool :=
  (bool_decide (enr_ip local_enr = None) || bool_decide (enr_ip local_enr = enr_ip disk_enr)) &&
  bool_decide (enr_tcp local_enr = enr_tcp disk_enr) &&
  bool_decide (enr_get ETH2_ENR_KEY local_enr = enr_get ETH2_ENR_KEY disk_enr) &&
  (bool_decide (enr_udp local_enr = None) || bool_decide (enr_udp local_enr = enr_udp disk_enr)) &&
  bool_decide (enr_get BITFIELD_ENR_KEY local_enr = enr_get BITFIELD_ENR_KEY disk_enr).

(** The file on disk: [None] when it does not open, [Some None] when it cannot
    be read as text. *)
Definition EnrFile : Type := option (option string).

(** [w] is what becomes of the write. *)
Definition save_enr_to_disk (w : FileWrite) (e : Enr) (file : EnrFile) : EnrFile :=
  write_file (String.substring 0) w (enr_to_base64 e) file.

(** [build_or_load_enr], after the key is derived: the record or an error, and
    the file afterwards. *)
Definition build_or_load_enr (enr_key : CombinedKey) (config : EnrConfig)
    (enr_fork_id : list byte) (w : FileWrite) (file : EnrFile) : Result Enr string * EnrFile :=
  match build_enr enr_key config enr_fork_id with
  | Err e => (Err e, file)
  | Ok local_enr =>
    match file with
    | Some (Some enr_string) =>
      match enr_from_str enr_string with
      | Ok disk_enr =>
        if decide (enr_node_id local_enr = enr_node_id disk_enr) then
          if compare_enr local_enr disk_enr then (Ok disk_enr, file)
          else if decide (enr_seq disk_enr + 1 < 2 ^ 64)%N then
            match enr_set_seq (enr_seq disk_enr + 1) enr_key local_enr with
            | Ok local_enr => (Ok local_enr, save_enr_to_disk w local_enr file)
            | Err e => (Err ("Could not update ENR sequence number: " +:+ e)%string, file)
            end
          else (Err "ENR sequence number on file is too large. Remove it to generate a new NodeId"%string, file)
        else (Ok local_enr, save_enr_to_disk w local_enr file)
      | Err _ => (Ok local_enr, save_enr_to_disk w local_enr file)
      end
    | _ => (Ok local_enr, save_enr_to_disk w local_enr file)
    end
  end.

(** [PeerManager::addresses_of_peer] keeps the addresses without a UDP
    component. *)
Definition has_udp (a : Multiaddr) : bool :=
  existsb (fun p => match p with M_Udp _ => true | _ => false end) (ma_iter a).

(** ** Lemmas *)
Context `{!EnrLaws}.

Lemma ma_iter_with_ip ip ps : ma_iter (with_ip ip ps) = M_Ip ip :: ps.
Proof.
  unfold with_ip. rewrite <-(app_nil_l ps) at 2.
  assert (Hgen : forall qs a, ma_iter (foldl (fun a p => ma_push p a) a qs) = ma_iter a ++ qs).
  { induction qs as [|q qs IH]; intros a; cbn; [by rewrite app_nil_r|].
    by rewrite IH, ma_iter_push, <-app_assoc. }
  rewrite Hgen, ma_iter_from_ip. done.
Qed.

(** The addresses libp2p is given to dial a discovered peer. *)
Lemma multiaddr_without_udp e :
  filter (fun a => has_udp a = false) (enr_multiaddr e) = enr_multiaddr_tcp e.
Proof.
  unfold enr_multiaddr, enr_multiaddr_tcp.
  assert (Hu : forall ip port, has_udp (with_ip ip [M_Udp port]) = true)
    by (intros; unfold has_udp; by rewrite ma_iter_with_ip).
  assert (Ht : forall ip port, has_udp (with_ip ip [M_Tcp port]) = false)
    by (intros; unfold has_udp; by rewrite ma_iter_with_ip).
  rewrite filter_app. f_equal.
  - destruct (enr_ip e) as [ip|]; [|done]. rewrite filter_app.
    destruct (enr_udp e) as [udp|], (enr_tcp e) as [tcp|];
      rewrite ?filter_cons, ?Hu, ?Ht, ?filter_nil; by repeat case_decide.
  - destruct (enr_ip6 e) as [ip|]; [|done]. rewrite filter_app.
    destruct (enr_udp6 e) as [udp|], (enr_tcp6 e) as [tcp|];
      rewrite ?filter_cons, ?Hu, ?Ht, ?filter_nil; by repeat case_decide.
Qed.

(** What stays the same when a record is reused from disk: everything the
    configuration fixes. *)
Lemma compare_enr_true local_enr disk_enr :
  compare_enr local_enr disk_enr = true <->
  (enr_ip local_enr = None \/ enr_ip local_enr = enr_ip disk_enr) /\
  enr_tcp local_enr = enr_tcp disk_enr /\
  enr_get ETH2_ENR_KEY local_enr = enr_get ETH2_ENR_KEY disk_enr /\
  (enr_udp local_enr = None \/ enr_udp local_enr = enr_udp disk_enr) /\
  enr_get BITFIELD_ENR_KEY local_enr = enr_get BITFIELD_ENR_KEY disk_enr.
Proof.
  unfold compare_enr. rewrite !andb_true_iff, !orb_true_iff, !bool_decide_eq_true. tauto.
Qed.

Lemma build_enr_tcp key config fork e :
  build_enr key config fork = Ok e -> enr_tcp e = Some (libp2p_port config) /\ enr_seq e = 1%N.
Proof.
  unfold build_enr. destruct (enr_build _ key) as [e'|] eqn:E; [|done]. intros [= <-].
  apply enr_build_spec in E as (Hs & Ht & _). rewrite Ht. by destruct (enr_address config), (enr_udp_port config).
Qed.

(** The record that is used has the node id of the one that was built, and its
    TCP port. *)
Lemma build_or_load_enr_same key config fork w file e file' :
  build_or_load_enr key config fork w file = (Ok e, file') ->
  enr_tcp e = Some (libp2p_port config) /\
  exists local, build_enr key config fork = Ok local /\ enr_node_id e = enr_node_id local.
Proof.
  unfold build_or_load_enr. destruct (build_enr key config fork) as [local|] eqn:Hb; [|done].
  pose proof (build_enr_tcp _ _ _ _ Hb) as [Htcp _]. intros Hr.
  cut (enr_tcp e = enr_tcp local /\ enr_node_id e = enr_node_id local).
  { intros [-> ->]. eauto. }
  destruct file as [[s|]|]; [|by injection Hr as <- _..].
  destruct (enr_from_str s) as [disk|]; [|by injection Hr as <- _].
  case_decide as Hid; [|by injection Hr as <- _].
  destruct (compare_enr local disk) eqn:Hc.
  - injection Hr as <- _. apply compare_enr_true in Hc as (_ & Ht & _). by rewrite Ht.
  - case_decide; [|done]. destruct (enr_set_seq _ key local) as [local'|] eqn:Hs; [|done].
    injection Hr as <- _. apply enr_set_seq_spec in Hs as (_ & Hn & Ht & _). by rewrite Hn, Ht.
Qed.

(** The record the file holds, if it holds one. *)
Definition stored_enr (file : EnrFile) : option Enr :=
  match file with
  | Some (Some s) => match enr_from_str s with Ok e => Some e | Err _ => None end
  | _ => None
  end.

(** ** Properties *)

(** The record the node announces always carries the port libp2p listens
    on: [enr_tcp_port], documented as the port to broadcast, is overwritten.
    It is the stored record exactly when that one has the same node id and
    agrees with the configuration; with the same node id but another
    configuration it is a new record with the stored sequence number plus one
    (or an error when that is too large), and otherwise a new one; a new record
    is written back. *)
Theorem build_or_load_enr_spec (key : CombinedKey) (config : EnrConfig) (fork : list byte)
    (w : FileWrite) (file : EnrFile) (e : Enr) (file' : EnrFile) :
  build_or_load_enr key config fork w file = (Ok e, file') ->
  enr_tcp e = Some (libp2p_port config) /\
  match stored_enr file with
  | Some disk =>
    if decide (enr_node_id e = enr_node_id disk) then
      (e = disk /\ file' = file) \/
      (enr_seq e = enr_seq disk + 1)%N /\ (enr_seq disk + 1 < 2 ^ 64)%N /\
        compare_enr e disk = false /\ file' = save_enr_to_disk w e file
    else build_enr key config fork = Ok e /\ file' = save_enr_to_disk w e file
  | None => build_enr key config fork = Ok e /\ file' = save_enr_to_disk w e file
  end.
Proof.
  intros Hr. split; [by apply build_or_load_enr_same in Hr as [? _]|]. revert Hr.
  unfold build_or_load_enr. destruct (build_enr key config fork) as [local|] eqn:Hb; [|done].
  unfold stored_enr. destruct file as [[s|]|]; [|by intros [= <- <-]..].
  destruct (enr_from_str s) as [disk|]; [|by intros [= <- <-]].
  destruct (decide (enr_node_id local = enr_node_id disk)) as [Hid|Hid].
  - destruct (compare_enr local disk) eqn:Hc.
    + intros [= <- <-]. rewrite decide_True by done. by left.
    + case_decide as Hseq; [|done].
      destruct (enr_set_seq _ key local) as [local'|] eqn:Hs; [|done]. intros [= <- <-].
      apply enr_set_seq_spec in Hs as (Hseq' & Hid' & Ht & Hu & Hip & Hget).
      rewrite decide_True by congruence. right.
      split; [done|]. split; [done|]. split; [|done].
      unfold compare_enr in *. by rewrite Ht, Hu, Hip, !Hget.
  - intros [= <- <-]. by rewrite decide_False.
Qed.

(** Of the addresses of a record, those without a UDP component, which
    the node offers to libp2p for dialing, are exactly its TCP addresses. *)
Theorem dialable_addresses (e : Enr) :
  filter (fun a => has_udp a = false) (enr_multiaddr e) = enr_multiaddr_tcp e /\
  forall a, a ∈ enr_multiaddr_tcp e -> exists ip port, ma_iter a = [M_Ip ip; M_Tcp port] /\
    ((exists n, ip = V4 n /\ enr_ip e = Some n /\ enr_tcp e = Some port) \/
     (exists n, ip = V6 n /\ enr_ip6 e = Some n /\ enr_tcp6 e = Some port)).
Proof.
  split; [apply multiaddr_without_udp|]. intros a. unfold enr_multiaddr_tcp. rewrite elem_of_app.
  intros [Ha|Ha].
  - destruct (enr_ip e) as [ip|]; [|by apply not_elem_of_nil in Ha].
    destruct (enr_tcp e) as [tcp|]; [|by apply not_elem_of_nil in Ha].
    apply list_elem_of_singleton in Ha as ->. exists (V4 ip), tcp. rewrite ma_iter_with_ip.
    split; [done|]. left. by exists ip.
  - destruct (enr_ip6 e) as [ip|]; [|by apply not_elem_of_nil in Ha].
    destruct (enr_tcp6 e) as [tcp|]; [|by apply not_elem_of_nil in Ha].
    apply list_elem_of_singleton in Ha as ->. exists (V6 ip), tcp. rewrite ma_iter_with_ip.
    split; [done|]. right. by exists ip.
Qed.
End Enr.

(** ** A concrete instance: a record is its fields and its sequence number,
    with its key, a byte and whether it is of secp256k1; the number of the key
    is both its peer id and its node id; the one text that can be read back
    stands for one stored record. *)
Record DemoEnr := mkDemoEnr { demo_fields : EnrFields; demo_seq : N; demo_pair : Byte.byte * bool }.

Definition demo_key_id (e : DemoEnr) : N :=
  (Byte.to_N (demo_pair e).1 * 4 + (if (demo_pair e).2 then 1 else 2))%N.

Definition demo_stored : DemoEnr :=
  mkDemoEnr (mkEnrFields (Some (V4 7%N)) None (Some 9000%N)
               [(ETH2_ENR_KEY, [x01]); (BITFIELD_ENR_KEY, replicate 8 x00)]) 4%N (x07, true).

Definition demo_get (k : string) (l : list (string * list byte)) : option (list byte) :=
  snd <$> List.find (fun kv => bool_decide (kv.1 = k)) l.

Definition demo_enrs : @Enrs demo_libp2p := {|
  Enr := DemoEnr;
  CombinedKey := Byte.byte * bool;
  NodeId := N;
  NodeId_eq_dec := _;
  enr_ip := fun e => match field_ip (demo_fields e) with Some (V4 a) => Some a | _ => None end;
  enr_udp := fun e => field_udp (demo_fields e);
  enr_tcp := fun e => field_tcp (demo_fields e);
  enr_ip6 := fun e => match field_ip (demo_fields e) with Some (V6 a) => Some a | _ => None end;
  enr_udp6 := fun e => None;
  enr_tcp6 := fun e => None;
  enr_get := fun k e => demo_get k (field_values (demo_fields e));
  enr_seq := demo_seq;
  enr_node_id := demo_key_id;
  enr_peer_id := fun e => (demo_key_id e : @PeerId demo_libp2p);
  enr_set_seq := fun n _ e => Ok (mkDemoEnr (demo_fields e) n (demo_pair e));
  enr_build := fun fields key => Ok (mkDemoEnr fields 1%N key);
  enr_from_str := fun s => if decide (s = "stored"%string) then Ok demo_stored else Err "bad record"%string;
  enr_to_base64 := fun _ => "stored"%string;
  ma_from_ip := fun ip => ([M_Ip ip] : @Multiaddr demo_libp2p);
  ma_push := fun p (a : list (MProtocol N)) => (a ++ [p] : @Multiaddr demo_libp2p);
  ma_iter := fun a : list (MProtocol N) => a;
|}.

Lemma demo_enr_laws : @EnrLaws demo_libp2p demo_enrs.
Proof.
  split; cbn; try done.
  - intros fields key e [= <-]. cbn. done.
  - intros n key e e' [= <-]. cbn. done.
Qed.

Section Witnesses.
#[local] Existing Instance demo_libp2p.
#[local] Existing Instance demo_enrs.
#[local] Existing Instance demo_enr_laws.

Definition demo_record : @Enr demo_libp2p demo_enrs := demo_stored.
Definition demo_config : EnrConfig := mkEnrConfig None None (Some 9100%N) 9000%N.
Definition demo_key : @CombinedKey demo_libp2p demo_enrs := (x07, true).

(** Another port than the stored one: a new record with the next number. *)
Lemma build_or_load_enr_spec_witness :
  exists e file', build_or_load_enr demo_key (mkEnrConfig None None (Some 9100%N) 9001%N) [x01]
    Written (Some (Some "stored"%string)) = (Ok e, file') /\ enr_tcp e = Some 9001%N /\ enr_seq e = 5%N.
Proof.
  destruct (build_or_load_enr demo_key (mkEnrConfig None None (Some 9100%N) 9001%N) [x01]
    Written (Some (Some "stored"%string))) as [[e|err] file'] eqn:E; [|vm_compute in E; discriminate E].
  exists e, file'. split; [reflexivity|].
  destruct (build_or_load_enr_spec demo_key (mkEnrConfig None None (Some 9100%N) 9001%N) [x01]
    Written (Some (Some "stored"%string)) e file' E) as [Ht _].
  split; [exact Ht|]. vm_compute in E. injection E as <- _. reflexivity.
Defined.

(** The same configuration as the stored record: it is reused. *)
Example demo_reuse :
  build_or_load_enr demo_key demo_config [x01] Written (Some (Some "stored"%string)) =
    (Ok demo_record, Some (Some "stored"%string)).
Proof. reflexivity. Qed.

Lemma dialable_addresses_witness :
  filter (fun a => has_udp a = false) (enr_multiaddr demo_record) =
    enr_multiaddr_tcp demo_record.
Proof. apply (dialable_addresses demo_record). Defined.
End Witnesses.
