(* ===== verification/Keys.v ===== *)
(** * Keys (src/core/network/src/discovery/enr_ext.rs,
      src/core/network/src/service.rs)

    The conversions between the keys of libp2p and those of node records, the
    node id behind a peer id, and the key file of the node.  The curves, their
    encodings, the hash and the hexadecimal decoder belong to libraries:
    they are the members of [KeyLib]. *)
From Stdlib Require Import NArith Strings.String Strings.Byte.
From S2P Require Import Prelude Env RpcMethods EnrExt.

Open Scope list_scope.

Class KeyLib `{Enrs} := {
  (** Secret keys of libp2p; [secp_from_bytes] is [SecretKey::from_bytes],
      [secp_to_bytes] is [to_bytes]; a keypair is made from its secret.
      [ed_encode] is [ed25519::Keypair::encode]. *)
  SecpSecret : Type;
  secp_from_bytes : list byte -> Result SecpSecret string;
  secp_to_bytes : SecpSecret -> list byte;
  EdKeypair : Type;
  ed_encode : EdKeypair -> list byte;
  RsaKeypair : Type;
  (** Secret keys of records: [secp256k1::SecretKey::parse] and
      [ed25519_dalek::SecretKey::from_bytes]. *)
  enr_secp_parse : list byte -> Result CombinedKey string;
  enr_ed_from_bytes : list byte -> Result CombinedKey string;
  (** Public keys of records, and their encodings. *)
  EnrSecpPublic : Type;
  serialize_compressed : EnrSecpPublic -> list byte;
  EnrEdPublic : Type;
  ed_to_bytes : EnrEdPublic -> list byte;
  (** Public keys of libp2p. *)
  SecpPublic : Type;
  secp_decode : list byte -> Result SecpPublic string;
  encode_uncompressed : SecpPublic -> list byte;
  EdPublic : Type;
  ed_decode : list byte -> Result EdPublic string;
  ed_public_encode : EdPublic -> list byte;
  RsaPublic : Type;
  secp_public : SecpSecret -> SecpPublic;
  ed_public : EdKeypair -> EdPublic;
  rsa_public : RsaKeypair -> RsaPublic;
  (** [Keccak::v256], [NodeId::parse], [hex::decode]. *)
  keccak256 : list byte -> list byte;
  node_id_parse : list byte -> Result NodeId string;
  hex_decode : string -> Result (list byte) string;
  (** [PeerId::as_bytes] *)
  peer_id_bytes : PeerId -> list byte;
}.

Section Keys.
Context `{KeyLib}.

(** libp2p's [PublicKey] and [Keypair], and the record's [CombinedPublicKey]. *)
Inductive PublicKey :=
| Public_Ed25519 (pk : EdPublic)
| Public_Rsa (pk : RsaPublic)
| Public_Secp256k1 (pk : SecpPublic).

Inductive Keypair :=
| Pair_Ed25519 (key : EdKeypair)
| Pair_Rsa (key : RsaKeypair)
| Pair_Secp256k1 (secret : SecpSecret).

Inductive CombinedPublicKey :=
| Combined_Secp256k1 (pk : EnrSecpPublic)
| Combined_Ed25519 (pk : EnrEdPublic).

Definition keypair_public (key : Keypair) : PublicKey :=
  match key with
  | Pair_Ed25519 key => Public_Ed25519 (ed_public key)
  | Pair_Rsa key => Public_Rsa (rsa_public key)
  | Pair_Secp256k1 secret => Public_Secp256k1 (secp_public secret)
  end.
End Keys.

(** [PeerId::from_public_key], [PublicKey::from_protobuf_encoding] and
    [Enr::public_key]. *)
Class PeerIdLib `{KeyLib} := {
  peer_id_from_public_key : PublicKey -> PeerId;
  from_protobuf_encoding : list byte -> Result PublicKey string;
  enr_public_key : Enr -> CombinedPublicKey;
}.

Section Conversions.
Context `{PeerIdLib}.

(** [Result::expect] *)
Definition expect {A E} (r : Result A E) (msg : string) : Outcome A :=
  match r with Ok a => Ret a | Err _ => Panic msg end.

(** [&bytes[n..]] *)
Definition slice_from (n : nat) (bytes : list byte) : Outcome (list byte) :=
  if decide (n <= length bytes)%nat then Ret (drop n bytes) else Panic "range start index out of range".

(** [&bytes[..n]] *)
Definition slice_to (n : nat) (bytes : list byte) : Outcome (list byte) :=
  if decide (n <= length bytes)%nat then Ret (take n bytes) else Panic "range end index out of range".

(** [CombinedKeyPublicExt::into_peer_id] *)
Definition into_peer_id (key : CombinedPublicKey) : Outcome PeerId :=
  match key with
  | Combined_Secp256k1 pk =>
    let pk_bytes := serialize_compressed pk in
    libp2p_pk ← expect (secp_decode pk_bytes) "valid public key";
    mret (peer_id_from_public_key (Public_Secp256k1 libp2p_pk))
  | Combined_Ed25519 pk =>
    let pk_bytes := ed_to_bytes pk in
    libp2p_pk ← expect (ed_decode pk_bytes) "valid public key";
    mret (peer_id_from_public_key (Public_Ed25519 libp2p_pk))
  end.

(** [EnrExt::peer_id] *)
Definition EnrExt_peer_id (e : Enr) : Outcome PeerId := into_peer_id (enr_public_key e).

(** [CombinedKeyExt::from_libp2p] *)
Definition from_libp2p (key : Keypair) : Outcome (Result CombinedKey string) :=
  match key with
  | Pair_Secp256k1 key =>
    secret ← expect (enr_secp_parse (secp_to_bytes key)) "libp2p key must be valid";
    mret (Ok secret)
  | Pair_Ed25519 key =>
    bytes ← slice_to 32 (ed_encode key);
    ed_keypair ← expect (enr_ed_from_bytes bytes) "libp2p key must be valid";
    mret (Ok ed_keypair)
  | Pair_Rsa _ => mret (Err "ENR: Unsupported libp2p key type"%string)
  end.

Definition peer_id_to_node_id (peer_id : PeerId) : Outcome (Result NodeId string) :=
  pk_bytes ← slice_from 2 (peer_id_bytes peer_id);
  match from_protobuf_encoding pk_bytes with
  | Err e => mret (Err (" Cannot parse libp2p public key public key from peer id: " +:+ e)%string)
  | Ok (Public_Secp256k1 pk) =>
    uncompressed_key_bytes ← slice_from 1 (encode_uncompressed pk);
    let output := keccak256 uncompressed_key_bytes in
    node_id ← expect (node_id_parse output) "Must be correct length";
    mret (Ok node_id)
  | Ok (Public_Ed25519 pk) =>
    let uncompressed_key_bytes := ed_public_encode pk in
    let output := keccak256 uncompressed_key_bytes in
    node_id ← expect (node_id_parse output) "Must be correct length";
    mret (Ok node_id)
  | Ok (Public_Rsa _) => mret (Err "Unsupported public key"%string)
  end.

(** ** The key file *)

Definition NETWORK_KEY_FILENAME : string := "key".

(** The file: [None] when it does not open, [Some None] when it cannot be read. *)
Definition KeyFile : Type := option (option (list byte)).

(** [load_private_key]: [generated] is the secret [generate_secp256k1] draws,
    [w] what becomes of the write of the file. *)
Definition load_private_key (generated : SecpSecret) (w : FileWrite) (file : KeyFile) : Keypair * KeyFile :=
  let new_key := (Pair_Secp256k1 generated, write_file take w (secp_to_bytes generated) file) in
  match file with
  | Some (Some key_bytes) =>
    match secp_from_bytes key_bytes with
    | Ok secret_key => (Pair_Secp256k1 secret_key, file)
    | Err _ => new_key
    end
  | Some None => new_key
  | None => new_key
  end.

Definition keypair_from_bytes (bytes : list byte) : Result Keypair string :=
  match secp_from_bytes bytes with
  | Ok secret => Ok (Pair_Secp256k1 secret)
  | Err e => Err ("Unable to parse p2p secret key: " +:+ e)%string
  end.

Definition keypair_from_hex (hex_bytes : string) : Result Keypair string :=
  let hex_bytes :=
    if String.prefix "0x" hex_bytes then String.substring 2 (String.length hex_bytes - 2) hex_bytes
    else hex_bytes in
  match hex_decode hex_bytes with
  | Err e => Err ("Failed to parse p2p secret key bytes: " +:+ e)%string
  | Ok bytes => keypair_from_bytes bytes
  end.
End Conversions.

(** A peer id starts with the two bytes of a multihash, an uncompressed key
    with a tag, and a hash has the length of a node id. *)
Class KeyTotal `{PeerIdLib} := {
  peer_id_bytes_long : forall p, (2 <= length (peer_id_bytes p))%nat;
  uncompressed_tag : forall pk, encode_uncompressed pk <> [];
  hash_parses : forall bs, exists n, node_id_parse (keccak256 bs) = Ok n;
}.

(** What the program relies on: an encoded key decodes to itself, also the
    public keys inside peer ids (which hold the whole key, after two bytes of
    multihash), and the node id of a record is the hash of its public key. *)
Class KeyLaws `{KeyTotal} := {
  secp_bytes_roundtrip : forall s, secp_from_bytes (secp_to_bytes s) = Ok s;
  enr_secp_parse_valid : forall s, exists k, enr_secp_parse (secp_to_bytes s) = Ok k;
  ed_encode_length : forall k, (32 <= length (ed_encode k))%nat;
  enr_ed_valid : forall k, exists c, enr_ed_from_bytes (take 32 (ed_encode k)) = Ok c;
  (** The same point of the curve as a libp2p key, and the record's node id. *)
  secp_convert : EnrSecpPublic -> SecpPublic;
  ed_convert : EnrEdPublic -> EdPublic;
  record_node_id : CombinedPublicKey -> NodeId;
  secp_decode_serialize : forall pk, secp_decode (serialize_compressed pk) = Ok (secp_convert pk);
  ed_decode_bytes : forall pk, ed_decode (ed_to_bytes pk) = Ok (ed_convert pk);
  peer_id_holds_key : forall pk, (forall r, pk <> Public_Rsa r) ->
    exists a b rest, peer_id_bytes (peer_id_from_public_key pk) = a :: b :: rest /\
      from_protobuf_encoding rest = Ok pk;
  node_id_secp : forall pk,
    node_id_parse (keccak256 (tail (encode_uncompressed (secp_convert pk)))) = Ok (record_node_id (Combined_Secp256k1 pk));
  node_id_ed : forall pk,
    node_id_parse (keccak256 (ed_public_encode (ed_convert pk))) = Ok (record_node_id (Combined_Ed25519 pk));
}.

(** A record carries the public key it was built with; its node id is the hash
    of that key, which stands for no other key. *)
Class RecordLaws `{KeyLaws} := {
  enr_peer_id_value : forall e, EnrExt_peer_id e = Ret (enr_peer_id e);
  enr_build_key : forall s k f e, enr_secp_parse (secp_to_bytes s) = Ok k -> enr_build f k = Ok e ->
    exists pk, enr_public_key e = Combined_Secp256k1 pk /\ secp_convert pk = secp_public s;
  enr_node_id_key : forall e, enr_node_id e = record_node_id (enr_public_key e);
  record_node_id_inj : forall k k', record_node_id k = record_node_id k' -> k = k';
}.

Section Lemmas.
Context `{KeyTotal}.

Lemma slice_from_cons n b bs : slice_from (S n) (b :: bs) = slice_from n bs.
Proof. unfold slice_from. cbn [length drop]. repeat case_decide; try done; lia. Qed.

Lemma slice_from_0 bs : slice_from 0 bs = Ret bs.
Proof. unfold slice_from. rewrite decide_True by lia. done. Qed.

Lemma slice_from_tail bs : bs <> [] -> slice_from 1 bs = Ret (tail bs).
Proof. destruct bs; [done|]. intros _. by rewrite slice_from_cons, slice_from_0. Qed.

Lemma slice_from_short n bs : (n <= length bs)%nat -> slice_from n bs = Ret (drop n bs).
Proof. intros Hn. unfold slice_from. by rewrite decide_True. Qed.

(** No peer id makes the conversion panic. *)
Lemma peer_id_to_node_id_returns p : exists r, peer_id_to_node_id p = Ret r.
Proof.
  unfold peer_id_to_node_id. rewrite slice_from_short by apply peer_id_bytes_long.
  cbn [mbind Outcome_bind]. destruct (from_protobuf_encoding _) as [[pk|pk|pk]|e]; [|by eexists| |by eexists].
  - destruct (hash_parses (ed_public_encode pk)) as [n ->]. by eexists.
  - rewrite slice_from_tail by apply uncompressed_tag. cbn [mbind Outcome_bind].
    destruct (hash_parses (tail (encode_uncompressed pk))) as [n ->]. by eexists.
Qed.

Context `{!KeyLaws}.

(** A key of the node never makes the conversion panic. *)
Lemma from_libp2p_returns key : exists r, from_libp2p key = Ret r.
Proof.
  destruct key as [k|k|s]; cbn [from_libp2p].
  - unfold slice_to. rewrite decide_True by apply ed_encode_length. cbn [mbind Outcome_bind].
    destruct (enr_ed_valid k) as [c ->]. by eexists.
  - by eexists.
  - destruct (enr_secp_parse_valid s) as [k ->]. by eexists.
Qed.

Lemma from_libp2p_secp s : exists k, from_libp2p (Pair_Secp256k1 s) = Ret (Ok k).
Proof. cbn [from_libp2p]. destruct (enr_secp_parse_valid s) as [k ->]. by exists k. Qed.

Context `{!RecordLaws}.

(** The record of a key has the peer id of the key. *)
Lemma record_peer s k f e :
  enr_secp_parse (secp_to_bytes s) = Ok k -> enr_build f k = Ok e ->
  enr_peer_id e = peer_id_from_public_key (Public_Secp256k1 (secp_public s)).
Proof.
  intros Hk Hb. destruct (enr_build_key s k f e Hk Hb) as (pk & Hpk & Hs).
  pose proof (enr_peer_id_value e) as Hp. unfold EnrExt_peer_id in Hp. rewrite Hpk in Hp. cbn [into_peer_id] in Hp.
  rewrite secp_decode_serialize in Hp. injection Hp as <-. by rewrite Hs.
Qed.

(** Records with the same node id belong to the same peer. *)
Lemma node_peer e e' : enr_node_id e = enr_node_id e' -> enr_peer_id e = enr_peer_id e'.
Proof.
  rewrite !enr_node_id_key. intros Hk%record_node_id_inj.
  pose proof (enr_peer_id_value e) as Hp. pose proof (enr_peer_id_value e') as Hp'.
  unfold EnrExt_peer_id in *. rewrite Hk in Hp. congruence.
Qed.

(** The file holds a key. *)
Definition holds_key (file : KeyFile) : Prop :=
  exists bytes s, file = Some (Some bytes) /\ secp_from_bytes bytes = Ok s.

(** What is written, or was there, is read back. *)
Lemma load_private_key_again g g' w w' file file' :
  file' = (load_private_key g w file).2 -> w = Written \/ holds_key file ->
  load_private_key g' w' file' = load_private_key g w file.
Proof.
  intros -> [->|(bytes & s & -> & Hs)]; unfold load_private_key; [|by rewrite Hs; cbn; rewrite Hs].
  destruct file as [[bytes|]|]; cbn; [|by rewrite secp_bytes_roundtrip..].
  destruct (secp_from_bytes bytes) as [s|e] eqn:E; cbn; [by rewrite E|by rewrite secp_bytes_roundtrip].
Qed.

(** ** Properties *)

(** C28: the node id computed from a peer id is the node id of the record with
    the same key: discovery, which looks records up by node id, finds the record
    of the peer, and neither conversion panics. *)
Theorem node_id_of_peer_id (key : CombinedPublicKey) :
  exists peer_id, into_peer_id key = Ret peer_id /\
    peer_id_to_node_id peer_id = Ret (Ok (record_node_id key)).
Proof.
  destruct key as [pk|pk]; cbn [into_peer_id].
  - rewrite secp_decode_serialize. eexists. split; [done|]. unfold peer_id_to_node_id.
    destruct (peer_id_holds_key (Public_Secp256k1 (secp_convert pk))) as (a & b & rest & -> & Hd); [done|].
    rewrite !slice_from_cons, slice_from_0. cbn [mbind Outcome_bind]. rewrite Hd.
    rewrite slice_from_tail by apply uncompressed_tag. cbn [mbind Outcome_bind].
    by rewrite node_id_secp.
  - rewrite ed_decode_bytes. eexists. split; [done|]. unfold peer_id_to_node_id.
    destruct (peer_id_holds_key (Public_Ed25519 (ed_convert pk))) as (a & b & rest & -> & Hd); [done|].
    rewrite !slice_from_cons, slice_from_0. cbn [mbind Outcome_bind]. rewrite Hd.
    by rewrite node_id_ed.
Qed.

(** The node keeps its identity: once a start has used a key that is in
    its file, every later start uses the same key and leaves the file alone,
    whatever it would have generated. A key that could not be written lives for
    one run only (a write that fails halfway leaves an empty or partial file, in
    place of what was there); and a file that does not hold a valid key is overwritten
    with a new one without an error. *)
Theorem identity_survives (generated generated' : SecpSecret) (w w' : FileWrite) (file : KeyFile) :
  let '(key, file') := load_private_key generated w file in
  (file' = file -> key = Pair_Secp256k1 generated \/
     exists bytes s, file = Some (Some bytes) /\ secp_from_bytes bytes = Ok s /\ key = Pair_Secp256k1 s) /\
  (w = Written -> load_private_key generated' w' file' = (key, file')) /\
  (w = Written -> (forall bytes s, file = Some (Some bytes) -> secp_from_bytes bytes <> Ok s) ->
     key = Pair_Secp256k1 generated /\ file' = Some (Some (secp_to_bytes generated))).
Proof.
  pose proof (fun file' => load_private_key_again generated generated' w w' file file') as Hagain.
  destruct (load_private_key generated w file) as [key file'] eqn:El. cbn [snd] in Hagain.
  unfold load_private_key in El. split; [|split].
  - intros _. destruct file as [[bytes|]|]; [|injection El as <- _; by left..].
    destruct (secp_from_bytes bytes) as [s|e] eqn:E; injection El as <- _; [|by left].
    right. by exists bytes, s.
  - intros Hw. apply Hagain; [done|by left].
  - intros -> Hn. destruct file as [[bytes|]|]; [|by injection El as <- <-..].
    destruct (secp_from_bytes bytes) as [s|e] eqn:E; [by destruct (Hn bytes s eq_refl)|]. by injection El as <- <-.
Qed.
End Lemmas.

(** ** A concrete instance: a key is one byte, encoded with a tag; a peer id is
    the number of the key and its kind. *)
Definition demo_keys : @KeyLib demo_libp2p demo_enrs := {|
  SecpSecret := byte;
  secp_from_bytes := fun bs => match bs with [b] => Ok b | _ => Err "bad key"%string end;
  secp_to_bytes := fun b => [b];
  EdKeypair := byte;
  ed_encode := fun b => replicate 64 b;
  RsaKeypair := unit;
  enr_secp_parse := fun bs => match bs with [b] => Ok ((b, true) : @CombinedKey demo_libp2p demo_enrs) | _ => Err "bad key"%string end;
  enr_ed_from_bytes := fun bs =>
    if decide (length bs = 32%nat)
    then Ok ((default x00 (head bs), false) : @CombinedKey demo_libp2p demo_enrs)
    else Err "bad key"%string;
  EnrSecpPublic := byte;
  serialize_compressed := fun b => [x02; b];
  EnrEdPublic := byte;
  ed_to_bytes := fun b => [b];
  SecpPublic := byte;
  secp_decode := fun bs => match bs with [_; b] => Ok b | _ => Err "bad key"%string end;
  encode_uncompressed := fun b => [x04; b; b];
  EdPublic := byte;
  ed_decode := fun bs => match bs with [b] => Ok b | _ => Err "bad key"%string end;
  ed_public_encode := fun b => [b];
  RsaPublic := unit;
  secp_public := fun b => b;
  ed_public := fun b => b;
  rsa_public := fun _ => tt;
  keccak256 := fun bs => bs;
  node_id_parse := fun bs =>
    Ok (match bs with
        | [b; _] => (Byte.to_N b * 4 + 1)%N
        | [b] => (Byte.to_N b * 4 + 2)%N
        | _ => 0%N
        end : @NodeId demo_libp2p demo_enrs);
  hex_decode := fun _ => Err "odd length"%string;
  peer_id_bytes := fun p : N =>
    match Byte.of_N (p / 4) with
    | Some b => [x00; x24; if decide (p mod 4 = 1)%N then x08 else x09; b]
    | None => [x00; x24]
    end;
|}.

Section Demo.
#[local] Existing Instance demo_libp2p.
#[local] Existing Instance demo_enrs.
#[local] Existing Instance demo_keys.

Definition demo_peer_ids : @PeerIdLib demo_libp2p demo_enrs demo_keys := {|
  peer_id_from_public_key := fun pk : PublicKey =>
    match pk with
    | Public_Secp256k1 b => (Byte.to_N b * 4 + 1)%N
    | Public_Ed25519 b => (Byte.to_N b * 4 + 2)%N
    | Public_Rsa _ => 3%N
    end : @PeerId demo_libp2p;
  from_protobuf_encoding := fun bs =>
    match bs with
    | [x08; b] => Ok (Public_Secp256k1 (b : @SecpPublic _ _ demo_keys))
    | [x09; b] => Ok (Public_Ed25519 (b : @EdPublic _ _ demo_keys))
    | _ => Err "bad key"%string
    end;
  enr_public_key := fun e : @Enr demo_libp2p demo_enrs =>
    let '(b, secp) := demo_pair e in
    if secp then Combined_Secp256k1 (b : @EnrSecpPublic _ _ demo_keys)
    else Combined_Ed25519 (b : @EnrEdPublic _ _ demo_keys);
|}.
#[local] Existing Instance demo_peer_ids.

Lemma demo_peer_id_bytes (b : byte) (k : N) : (k < 4)%N ->
  @peer_id_bytes _ _ demo_keys (Byte.to_N b * 4 + k)%N = [x00; x24; if decide (k = 1)%N then x08 else x09; b].
Proof.
  intros Hk. cbn [peer_id_bytes demo_keys].
  replace ((Byte.to_N b * 4 + k) / 4)%N with (Byte.to_N b)
    by (rewrite N.div_add_l, N.div_small by lia; lia).
  replace ((Byte.to_N b * 4 + k) mod 4)%N with k
    by (rewrite N.add_comm, N.Div0.mod_add, N.mod_small by lia; done).
  by rewrite Byte.of_to_N.
Qed.

Lemma demo_key_total : @KeyTotal demo_libp2p demo_enrs demo_keys demo_peer_ids.
Proof.
  split; cbn.
  - intros p. destruct (Byte.of_N _); cbn; lia.
  - done.
  - intros bs. by eexists.
Qed.
#[local] Existing Instance demo_key_total.

Definition demo_key_laws : KeyLaws.
Proof.
  unshelve esplit; cbn.
  - exact (fun b => b).
  - exact (fun b => b).
  - exact (fun key => match key with
      | Combined_Secp256k1 b => (Byte.to_N b * 4 + 1)%N
      | Combined_Ed25519 b => (Byte.to_N b * 4 + 2)%N
      end).
  - done.
  - by eexists.
  - intros k. lia.
  - by eexists.
  - done.
  - done.
  - intros [b|[]|b] Hr; [|by destruct (Hr tt)|].
    + exists x00, x24, [x09; b]. split; [exact (demo_peer_id_bytes b 2 eq_refl)|done].
    + exists x00, x24, [x08; b]. split; [exact (demo_peer_id_bytes b 1 eq_refl)|done].
  - done.
  - done.
Defined.
#[local] Existing Instance demo_key_laws.

Lemma demo_record_laws : RecordLaws.
Proof.
  split.
  - intros [f n [b []]]; done.
  - intros s k f e Hk Hb. injection Hk as <-. injection Hb as <-. by exists s.
  - intros [f n [b []]]; done.
  - assert (Hinj : forall b b', Byte.to_N b = Byte.to_N b' -> b = b')
      by (intros b b' Hb; apply (f_equal Byte.of_N) in Hb; rewrite !Byte.of_to_N in Hb; by injection Hb).
    intros [b|b] [b'|b']; cbn; intros Hb; try lia; f_equal; apply Hinj; lia.
Qed.

Definition demo_public : CombinedPublicKey := Combined_Secp256k1 (x07 : @EnrSecpPublic _ _ demo_keys).

Lemma node_id_of_peer_id_witness :
  exists peer_id, into_peer_id demo_public = Ret peer_id /\
    peer_id_to_node_id peer_id = Ret (Ok (29%N : @NodeId demo_libp2p demo_enrs)).
Proof. exact (node_id_of_peer_id demo_public). Defined.

(** A file with garbage is replaced, and the second start finds the new key. *)
Lemma identity_survives_witness :
  load_private_key (x09 : @SecpSecret _ _ demo_keys) Written (Some (Some [x01; x01]))
    = (Pair_Secp256k1 x09, Some (Some [x09])) /\
  load_private_key (x0a : @SecpSecret _ _ demo_keys) Written (Some (Some [x09]))
    = (Pair_Secp256k1 x09, Some (Some [x09])).
Proof.
  split; [reflexivity|].
  exact (proj1 (proj2 (identity_survives (x09 : @SecpSecret _ _ demo_keys) x0a Written Written (Some (Some [x01; x01]))))
           eq_refl).
Defined.
End Demo.
