(* ===== verification/Config.v ===== *)
(** * Configuration (src/core/src/config.rs, src/core/src/cli.rs,
      src/core/network/src/config.rs)

    The defaults, the command line the program declares, and what
    [apply_cli_args] makes of it.  clap (which parses the command line), the
    builders of gossipsub and discv5, the hash of message identifiers and the
    operating system (home directory, free ports) are members of classes. *)
From Stdlib Require Import NArith Strings.String Strings.Ascii Strings.Byte.
From S2P Require Import Prelude Env Client EnrExt.

Open Scope list_scope.
Open Scope string_scope.

(** ** Libraries and environment *)

(** One [Arg] of [cli_app]: its name, what it accepts and its default. *)
Record Arg := mkArg {
  arg_name : string;
  takes_value : bool;
  default_value : option string;
  possible_values : list string;
}.

Class Clap := {
  (** [clap::ArgMatches], [value_of] and [is_present]. *)
  ArgMatches : Type;
  value_of : string -> ArgMatches -> option string;
  is_present : string -> ArgMatches -> bool;
}.

Class ConfigLibs `{Enrs} := {
  (** [GossipsubConfigBuilder] with the calls the program makes; [build] is the
      last of them.  [message_id_fn] is given the data of the message. *)
  GossipsubConfig : Type;
  GossipsubConfigBuilder : Type;
  gs_builder_new : GossipsubConfigBuilder;
  max_transmit_size : N -> GossipsubConfigBuilder -> GossipsubConfigBuilder;
  heartbeat_interval : N -> GossipsubConfigBuilder -> GossipsubConfigBuilder;
  manual_propagation : GossipsubConfigBuilder -> GossipsubConfigBuilder;
  no_source_id : GossipsubConfigBuilder -> GossipsubConfigBuilder;
  message_id_fn : (list byte -> string) -> GossipsubConfigBuilder -> GossipsubConfigBuilder;
  gs_build : GossipsubConfigBuilder -> GossipsubConfig;
  (** [Discv5ConfigBuilder], likewise. *)
  Discv5Config : Type;
  Discv5ConfigBuilder : Type;
  dc_builder_new : Discv5ConfigBuilder;
  enable_packet_filter : Discv5ConfigBuilder -> Discv5ConfigBuilder;
  session_cache_capacity : N -> Discv5ConfigBuilder -> Discv5ConfigBuilder;
  request_timeout : N -> Discv5ConfigBuilder -> Discv5ConfigBuilder;
  request_retries : N -> Discv5ConfigBuilder -> Discv5ConfigBuilder;
  enr_peer_update_min : N -> Discv5ConfigBuilder -> Discv5ConfigBuilder;
  query_parallelism : N -> Discv5ConfigBuilder -> Discv5ConfigBuilder;
  query_timeout : N -> Discv5ConfigBuilder -> Discv5ConfigBuilder;
  query_peer_timeout : N -> Discv5ConfigBuilder -> Discv5ConfigBuilder;
  ip_limit : Discv5ConfigBuilder -> Discv5ConfigBuilder;
  ping_interval : N -> Discv5ConfigBuilder -> Discv5ConfigBuilder;
  dc_build : Discv5ConfigBuilder -> Discv5Config;
  (** The assignment [discv5_config.enr_update = b]. *)
  set_enr_update : bool -> Discv5Config -> Discv5Config;
  (** [Sha256::digest] and [base64::encode_config(_, URL_SAFE)]. *)
  sha256 : list byte -> list byte;
  base64_url_safe : list byte -> string;
  (** [Multiaddr::from_str] *)
  multiaddr_from_str : string -> Result Multiaddr string;
}.

(** What the build and the operating system answer.  Which texts [IpAddr]
    accepts depends on the release of the standard library. *)
Class Platform := {
  CARGO_PKG_VERSION : string;
  target_arch : string;
  target_os : string;
  home_dir : option string;
  ip_from_str : string -> option IpAddr;
  (** The [Debug] form of a string. *)
  str_debug : string -> string;
  (** Binding port 0 of 127.0.0.1, then [local_addr]: the port, or the text of
      the failure of either step. *)
  tcp_bind : Result unit string;
  tcp_local_port : Result N string;
  udp_bind : Result unit string;
  udp_local_port : Result N string;
}.

(** ** Values of the standard library *)

(** [PathBuf::push] of a relative path, on Unix. *)
Definition path_join (dir name : string) : string :=
  match String.get (String.length dir - 1) dir with
  | None => name
  | Some c => if Ascii.eqb c "/" then dir +:+ name else dir +:+ "/" +:+ name
  end.

(** [char::to_digit(10)] *)
Definition to_digit (c : ascii) : option N :=
  let n := N_of_ascii c in
  if ((48 <=? n) && (n <=? 57))%N then Some (n - 48)%N else None.

(** The digits of [from_str], with a checked multiplication and addition for each. *)
Fixpoint parse_digits (bits : N) (acc : N) (s : string) : option N :=
  match s with
  | "" => Some acc
  | String c s =>
    d ← to_digit c;
    if (acc * 10 <? 2 ^ bits)%N then
      if (acc * 10 + d <? 2 ^ bits)%N then parse_digits bits (acc * 10 + d)%N s else None
    else None
  end.

(** [u16::from_str] and [usize::from_str]: a sign [+] is accepted, and an
    empty string of digits is not. *)
Definition parse_uint (bits : N) (s : string) : option N :=
  let digits := match s with
                | String c rest => if Ascii.eqb c "+" then rest else s
                | "" => s
                end in
  match digits with "" => None | _ => parse_digits bits 0 digits end.

Definition parse_u16 : string -> option N := parse_uint 16.
Definition parse_usize : string -> option N := parse_uint 64.

(** [collect::<Result<Vec<_>, _>>()]: the first error, or all the values. *)
Fixpoint collect {A B E} (f : A -> Result B E) (l : list A) : Result (list B) E :=
  match l with
  | [] => Ok []
  | a :: l =>
    match f a with
    | Err e => Err e
    | Ok b => match collect f l with Ok bs => Ok (b :: bs) | Err e => Err e end
    end
  end.

(** ** The command line *)

Definition with_name (name : string) : Arg := mkArg name true None [].
Definition arg_flag (name : string) : Arg := mkArg name false None [].
Definition arg_default (v : string) (a : Arg) : Arg :=
  mkArg (arg_name a) (takes_value a) (Some v) (possible_values a).
Definition arg_values (vs : list string) (a : Arg) : Arg :=
  mkArg (arg_name a) (takes_value a) (default_value a) vs.

Definition cli_app : list Arg := [
  with_name "datadir";
  arg_flag "auto-ports";
  arg_default "127.0.0.1" (with_name "listen-address");
  arg_default "9000" (with_name "port");
  with_name "discovery-port";
  arg_default "50" (with_name "maxpeers");
  with_name "boot-nodes";
  arg_flag "disable-enr-auto-update";
  with_name "topics";
  with_name "libp2p-addresses";
  arg_default "info" (arg_values ["info"; "debug"; "trace"; "warn"; "error"; "crit"] (with_name "debug-level"))
].

Section Config.
Context `{Enrs} `{!ConfigLibs} `{!Clap} `{!Platform}.

(** What clap documents about the matches of an application: an argument that
    is not declared is never found, one without a value has none, one with a
    default always has one, and a value is one of the possible ones. *)
Definition matches_of (app : list Arg) (m : ArgMatches) : Prop :=
  (forall name, name ∉ arg_name <$> app -> value_of name m = None /\ is_present name m = false) /\
  (forall a, a ∈ app ->
    (takes_value a = false -> value_of (arg_name a) m = None) /\
    (default_value a <> None -> value_of (arg_name a) m <> None) /\
    (forall v, possible_values a <> [] -> value_of (arg_name a) m = Some v -> v ∈ possible_values a)).

(** ** Network configuration *)

Definition DEFAULT_CLIENT_NAME : string := "mothra".
Definition GOSSIP_MAX_SIZE : N := 1048576.

Record NetworkConfig := mkNetworkConfig {
  agent_version : string;
  protocol_version : string;
  network_dir : string;
  listen_address : IpAddr;
  libp2p_port : N;
  discovery_port : N;
  enr_address : option IpAddr;
  enr_udp_port : option N;
  enr_tcp_port : option N;
  max_peers : N;
  secret_key_hex : option string;
  gs_config : GossipsubConfig;
  discv5_config : Discv5Config;
  boot_nodes : list Enr;
  libp2p_nodes : list Multiaddr;
  disable_discovery : bool;
  topics : list string;
  propagation_percentage : option N;
}.

(** The message id is the content address of the data. *)
Definition gossip_message_id (data : list byte) : string := base64_url_safe (sha256 data).

(** Durations are in milliseconds. *)
Definition default_gs_config : GossipsubConfig :=
  gs_build (message_id_fn gossip_message_id (no_source_id (manual_propagation
    (heartbeat_interval 1000 (max_transmit_size GOSSIP_MAX_SIZE gs_builder_new))))).

Definition default_discv5_config : Discv5Config :=
  dc_build (ping_interval 300000 (ip_limit (query_peer_timeout 2000 (query_timeout 30000
    (query_parallelism 5 (enr_peer_update_min 2 (request_retries 2 (request_timeout 4000
    (session_cache_capacity 1000 (enable_packet_filter dc_builder_new)))))))))).

(** [Default for NetworkConfig]; 2130706433 is 127.0.0.1. *)
Definition NetworkConfig_default : NetworkConfig := {|
  agent_version := DEFAULT_CLIENT_NAME +:+ "/" +:+ ("v" +:+ CARGO_PKG_VERSION) +:+ "/" +:+
                   (target_arch +:+ "-" +:+ target_os);
  protocol_version := DEFAULT_CLIENT_NAME +:+ "/libp2p";
  network_dir := path_join (path_join (default "." home_dir) ("." +:+ DEFAULT_CLIENT_NAME)) "network";
  listen_address := V4 2130706433;
  libp2p_port := 9000;
  discovery_port := 9000;
  enr_address := None;
  enr_udp_port := None;
  enr_tcp_port := None;
  max_peers := 50;
  secret_key_hex := None;
  gs_config := default_gs_config;
  discv5_config := default_discv5_config;
  boot_nodes := [];
  libp2p_nodes := [];
  disable_discovery := false;
  topics := [];
  propagation_percentage := None;
|}.

(** [unused_port]: a port the operating system chooses for a listener bound to
    port 0. *)
Definition unused_port (transport : string) : Result N string :=
  if String.eqb transport "tcp" then
    match tcp_bind with
    | Err e => Err ("Failed to create TCP listener to find unused port: " +:+ e)
    | Ok _ =>
      match tcp_local_port with
      | Err e => Err ("Failed to read TCP listener local_addr to find unused port: " +:+ e)
      | Ok port => Ok port
      end
    end
  else if String.eqb transport "udp" then
    match udp_bind with
    | Err e => Err ("Failed to create UDP socket to find unused port: " +:+ e)
    | Ok _ =>
      match udp_local_port with
      | Err e => Err ("Failed to read UDP socket local_addr to find unused port: " +:+ e)
      | Ok port => Ok port
      end
    end
  else Err "Invalid transport to find unused port".

(** The part of the configuration the node record is made from. *)
Definition enr_config (n : NetworkConfig) : EnrConfig :=
  mkEnrConfig (enr_address n) (enr_udp_port n) (enr_tcp_port n) (libp2p_port n).

(** ** Configuration of the service *)

Definition DEFAULT_DEBUG_LEVEL : string := "info".

Record Config := mkConfig {
  client_name : string;
  client_version : string;
  debug_level : string;
  network_config : NetworkConfig;
}.

Definition Config_default : Config := {|
  client_name := DEFAULT_CLIENT_NAME;
  client_version := "v" +:+ CARGO_PKG_VERSION;
  debug_level := DEFAULT_DEBUG_LEVEL;
  network_config := NetworkConfig_default;
|}.

(** Assignments to the fields the program writes. *)
Definition set_network_config (f : NetworkConfig -> NetworkConfig) (c : Config) : Config :=
  mkConfig (client_name c) (client_version c) (debug_level c) (f (network_config c)).
Definition set_client_name (x : string) (c : Config) : Config :=
  mkConfig x (client_version c) (debug_level c) (network_config c).
Definition set_client_version (x : string) (c : Config) : Config :=
  mkConfig (client_name c) x (debug_level c) (network_config c).
Definition set_debug_level (x : string) (c : Config) : Config :=
  mkConfig (client_name c) (client_version c) x (network_config c).
Definition set_protocol_version (x : string) (n : NetworkConfig) : NetworkConfig :=
  mkNetworkConfig (agent_version n) x (network_dir n) (listen_address n) (libp2p_port n)
    (discovery_port n) (enr_address n) (enr_udp_port n) (enr_tcp_port n) (max_peers n)
    (secret_key_hex n) (gs_config n) (discv5_config n) (boot_nodes n) (libp2p_nodes n)
    (disable_discovery n) (topics n) (propagation_percentage n).
Definition set_network_dir (x : string) (n : NetworkConfig) : NetworkConfig :=
  mkNetworkConfig (agent_version n) (protocol_version n) x (listen_address n) (libp2p_port n)
    (discovery_port n) (enr_address n) (enr_udp_port n) (enr_tcp_port n) (max_peers n)
    (secret_key_hex n) (gs_config n) (discv5_config n) (boot_nodes n) (libp2p_nodes n)
    (disable_discovery n) (topics n) (propagation_percentage n).
Definition set_listen_address (x : IpAddr) (n : NetworkConfig) : NetworkConfig :=
  mkNetworkConfig (agent_version n) (protocol_version n) (network_dir n) x (libp2p_port n)
    (discovery_port n) (enr_address n) (enr_udp_port n) (enr_tcp_port n) (max_peers n)
    (secret_key_hex n) (gs_config n) (discv5_config n) (boot_nodes n) (libp2p_nodes n)
    (disable_discovery n) (topics n) (propagation_percentage n).
Definition set_libp2p_port (x : N) (n : NetworkConfig) : NetworkConfig :=
  mkNetworkConfig (agent_version n) (protocol_version n) (network_dir n) (listen_address n) x
    (discovery_port n) (enr_address n) (enr_udp_port n) (enr_tcp_port n) (max_peers n)
    (secret_key_hex n) (gs_config n) (discv5_config n) (boot_nodes n) (libp2p_nodes n)
    (disable_discovery n) (topics n) (propagation_percentage n).
Definition set_discovery_port (x : N) (n : NetworkConfig) : NetworkConfig :=
  mkNetworkConfig (agent_version n) (protocol_version n) (network_dir n) (listen_address n)
    (libp2p_port n) x (enr_address n) (enr_udp_port n) (enr_tcp_port n) (max_peers n) (secret_key_hex n)
    (gs_config n) (discv5_config n) (boot_nodes n) (libp2p_nodes n) (disable_discovery n) (topics n)
    (propagation_percentage n).
Definition set_enr_address (x : option IpAddr) (n : NetworkConfig) : NetworkConfig :=
  mkNetworkConfig (agent_version n) (protocol_version n) (network_dir n) (listen_address n)
    (libp2p_port n) (discovery_port n) x (enr_udp_port n) (enr_tcp_port n) (max_peers n)
    (secret_key_hex n) (gs_config n) (discv5_config n) (boot_nodes n) (libp2p_nodes n)
    (disable_discovery n) (topics n) (propagation_percentage n).
Definition set_enr_udp_port (x : option N) (n : NetworkConfig) : NetworkConfig :=
  mkNetworkConfig (agent_version n) (protocol_version n) (network_dir n) (listen_address n)
    (libp2p_port n) (discovery_port n) (enr_address n) x (enr_tcp_port n) (max_peers n)
    (secret_key_hex n) (gs_config n) (discv5_config n) (boot_nodes n) (libp2p_nodes n)
    (disable_discovery n) (topics n) (propagation_percentage n).
Definition set_enr_tcp_port (x : option N) (n : NetworkConfig) : NetworkConfig :=
  mkNetworkConfig (agent_version n) (protocol_version n) (network_dir n) (listen_address n)
    (libp2p_port n) (discovery_port n) (enr_address n) (enr_udp_port n) x (max_peers n)
    (secret_key_hex n) (gs_config n) (discv5_config n) (boot_nodes n) (libp2p_nodes n)
    (disable_discovery n) (topics n) (propagation_percentage n).
Definition set_max_peers (x : N) (n : NetworkConfig) : NetworkConfig :=
  mkNetworkConfig (agent_version n) (protocol_version n) (network_dir n) (listen_address n)
    (libp2p_port n) (discovery_port n) (enr_address n) (enr_udp_port n) (enr_tcp_port n) x
    (secret_key_hex n) (gs_config n) (discv5_config n) (boot_nodes n) (libp2p_nodes n)
    (disable_discovery n) (topics n) (propagation_percentage n).
Definition set_discv5_config (x : Discv5Config) (n : NetworkConfig) : NetworkConfig :=
  mkNetworkConfig (agent_version n) (protocol_version n) (network_dir n) (listen_address n)
    (libp2p_port n) (discovery_port n) (enr_address n) (enr_udp_port n) (enr_tcp_port n) (max_peers n)
    (secret_key_hex n) (gs_config n) x (boot_nodes n) (libp2p_nodes n) (disable_discovery n) (topics n)
    (propagation_percentage n).
Definition set_boot_nodes (x : list Enr) (n : NetworkConfig) : NetworkConfig :=
  mkNetworkConfig (agent_version n) (protocol_version n) (network_dir n) (listen_address n)
    (libp2p_port n) (discovery_port n) (enr_address n) (enr_udp_port n) (enr_tcp_port n) (max_peers n)
    (secret_key_hex n) (gs_config n) (discv5_config n) x (libp2p_nodes n) (disable_discovery n)
    (topics n) (propagation_percentage n).
Definition set_libp2p_nodes (x : list Multiaddr) (n : NetworkConfig) : NetworkConfig :=
  mkNetworkConfig (agent_version n) (protocol_version n) (network_dir n) (listen_address n)
    (libp2p_port n) (discovery_port n) (enr_address n) (enr_udp_port n) (enr_tcp_port n) (max_peers n)
    (secret_key_hex n) (gs_config n) (discv5_config n) (boot_nodes n) x (disable_discovery n) (topics n)
    (propagation_percentage n).
Definition set_topics (x : list string) (n : NetworkConfig) : NetworkConfig :=
  mkNetworkConfig (agent_version n) (protocol_version n) (network_dir n) (listen_address n)
    (libp2p_port n) (discovery_port n) (enr_address n) (enr_udp_port n) (enr_tcp_port n) (max_peers n)
    (secret_key_hex n) (gs_config n) (discv5_config n) (boot_nodes n) (libp2p_nodes n)
    (disable_discovery n) x (propagation_percentage n).

(** [Config::new] *)
Definition Config_new (name version protocol : option string) : Config :=
  let config := Config_default in
  let config := match name with Some x => set_client_name x config | None => config end in
  let config := match version with Some x => set_client_version x config | None => config end in
  match protocol with
  | Some x => set_network_config (set_protocol_version x) config
  | None => config
  end.

(** ** The command line applied to the configuration *)

(** The errors of [apply_cli_args], one constructor per message, with the
    text the message shows. *)
Inductive ConfigError :=
| InvalidListenAddress (s : string)
| InvalidMaxPeers (s : string)
| InvalidPort (s : string)
| InvalidDiscoveryPort (s : string)
| InvalidEnr (s : string)
| InvalidMultiaddr (s : string)
| InvalidEnrAddress (s : string)
| InvalidEnrUdpPort (s : string)
| InvalidEnrTcpPort (s : string)
| NoLibp2pPort (e : string)
| NoDiscoveryPort (e : string).

Definition ConfigError_fmt (e : ConfigError) : string :=
  match e with
  | InvalidListenAddress s => "Invalid listen address: " +:+ str_debug s
  | InvalidMaxPeers s => "Invalid number of max peers: " +:+ s
  | InvalidPort s => "Invalid port: " +:+ s
  | InvalidDiscoveryPort s => "Invalid discovery port: " +:+ s
  | InvalidEnr s => "Invalid ENR: " +:+ s
  | InvalidMultiaddr s => "Invalid Multiaddr: " +:+ s
  | InvalidEnrAddress s => "Invalid discovery address: " +:+ str_debug s
  | InvalidEnrUdpPort s => "Invalid discovery port: " +:+ s
  | InvalidEnrTcpPort s => "Invalid ENR TCP port: " +:+ s
  | NoLibp2pPort e => "Failed to get port for libp2p: " +:+ e
  | NoDiscoveryPort e => "Failed to get port for discovery: " +:+ e
  end.

(** A method of [&mut Config] that can fail: what was assigned before the
    failure stays assigned. *)
Definition ConfigM (A : Type) : Type := Config -> Result A ConfigError * Config.

#[local] Instance ConfigM_ret : MRet ConfigM := fun A a c => (Ok a, c).
#[local] Instance ConfigM_bind : MBind ConfigM := fun A B f m c =>
  match m c with
  | (Ok a, c) => f a c
  | (Err e, c) => (Err e, c)
  end.

(** The operator [?] and an assignment. *)
Definition try_ok {A} (r : Result A ConfigError) : ConfigM A := fun c => (r, c).
Definition assign (f : NetworkConfig -> NetworkConfig) : ConfigM unit := fun c =>
  (Ok tt, set_network_config f c).

(** [map_err] of a parser. *)
Definition parsed {A} (o : option A) (e : ConfigError) : Result A ConfigError :=
  match o with Some a => Ok a | None => Err e end.
Definition map_err {A E F} (f : E -> F) (r : Result A E) : Result A F :=
  match r with Ok a => Ok a | Err e => Err (f e) end.

(** [if let Some(x) = args.value_of(name)] *)
Definition if_let {A} (o : option A) (f : A -> ConfigM unit) : ConfigM unit :=
  match o with Some x => f x | None => mret tt end.

(** The last block of [apply_cli_args]. *)
Definition apply_auto_ports (args : ArgMatches) : ConfigM unit :=
  if is_present "auto-ports" args then
    _ ← assign (fun n => if decide (enr_address n = Some (V4 0)) then set_enr_address None n else n);
    tcp ← try_ok (map_err NoLibp2pPort (unused_port "tcp"));
    _ ← assign (set_libp2p_port tcp);
    udp ← try_ok (map_err NoDiscoveryPort (unused_port "udp"));
    _ ← assign (set_discovery_port udp);
    _ ← assign (fun n => set_enr_tcp_port (Some (libp2p_port n)) n);
    assign (fun n => set_enr_udp_port (Some (discovery_port n)) n)
  else mret tt.

Definition apply_cli_args (args : ArgMatches) : ConfigM unit :=
  _ ← if_let (value_of "datadir" args) (fun dir =>
    assign (set_network_dir (path_join dir "network")));
  _ ← if_let (value_of "listen-address" args) (fun listen_address_str =>
    listen ← try_ok (parsed (ip_from_str listen_address_str) (InvalidListenAddress listen_address_str));
    _ ← assign (set_listen_address listen);
    assign (set_enr_address (Some listen)));
  _ ← if_let (value_of "maxpeers" args) (fun max_peers_str =>
    max ← try_ok (parsed (parse_usize max_peers_str) (InvalidMaxPeers max_peers_str));
    assign (set_max_peers max));
  _ ← if_let (value_of "port" args) (fun port_str =>
    port ← try_ok (parsed (parse_u16 port_str) (InvalidPort port_str));
    _ ← assign (set_libp2p_port port);
    _ ← assign (set_discovery_port port);
    _ ← assign (set_enr_tcp_port (Some port));
    assign (set_enr_udp_port (Some port)));
  _ ← if_let (value_of "discovery-port" args) (fun disc_port_str =>
    port ← try_ok (parsed (parse_u16 disc_port_str) (InvalidDiscoveryPort disc_port_str));
    _ ← assign (set_discovery_port port);
    assign (fun n => set_enr_udp_port (Some (discovery_port n)) n));
  _ ← if_let (value_of "boot-nodes" args) (fun boot_enr_str =>
    nodes ← try_ok (collect (fun enr => map_err (fun _ => InvalidEnr enr) (enr_from_str enr))
                            (split "," boot_enr_str));
    assign (set_boot_nodes nodes));
  _ ← if_let (value_of "libp2p-addresses" args) (fun libp2p_addresses_str =>
    nodes ← try_ok (collect (fun addr => map_err (fun _ => InvalidMultiaddr addr) (multiaddr_from_str addr))
                            (split "," libp2p_addresses_str));
    assign (set_libp2p_nodes nodes));
  _ ← if_let (value_of "enr-address" args) (fun enr_address_str =>
    a ← try_ok (parsed (ip_from_str enr_address_str) (InvalidEnrAddress enr_address_str));
    assign (set_enr_address (Some a)));
  _ ← if_let (value_of "enr-udp-port" args) (fun enr_udp_port_str =>
    port ← try_ok (parsed (parse_u16 enr_udp_port_str) (InvalidEnrUdpPort enr_udp_port_str));
    assign (set_enr_udp_port (Some port)));
  _ ← if_let (value_of "enr-tcp-port" args) (fun enr_tcp_port_str =>
    port ← try_ok (parsed (parse_u16 enr_tcp_port_str) (InvalidEnrTcpPort enr_tcp_port_str));
    assign (set_enr_tcp_port (Some port)));
  _ ← (if is_present "disable_enr_auto_update" args
       then assign (fun n => set_discv5_config (set_enr_update false (discv5_config n)) n)
       else mret tt);
  _ ← if_let (value_of "topics" args) (fun topics_str =>
    assign (set_topics (split "," topics_str)));
  _ ← if_let (value_of "debug-level" args) (fun debug_level_str c =>
    (Ok tt, set_debug_level debug_level_str c));
  apply_auto_ports args.

(** ** Lemmas *)

Lemma to_digit_bound c d : to_digit c = Some d -> (d < 10)%N.
Proof.
  unfold to_digit. destruct ((48 <=? _) && (_ <=? 57))%N eqn:E; [|done]. intros [= <-].
  apply andb_prop in E as [?%N.leb_le ?%N.leb_le]. lia.
Qed.

(** A number that is read fits the width. *)
Lemma parse_uint_bound bits s n : parse_uint bits s = Some n -> (n < 2 ^ bits)%N.
Proof.
  assert (Hd : forall t acc, (acc < 2 ^ bits)%N -> parse_digits bits acc t = Some n -> (n < 2 ^ bits)%N).
  { intros t. induction t as [|c t IH]; cbn; intros acc Hacc; [congruence|].
    destruct (to_digit c) as [d|]; cbn; [|done]. destruct (_ <? _)%N; [|done].
    destruct (acc * 10 + d <? 2 ^ bits)%N eqn:E; [|done]. apply N.ltb_lt in E. by apply IH. }
  unfold parse_uint.
  assert (Hpos : (0 < 2 ^ bits)%N) by (apply N.neq_0_lt_0, N.pow_nonzero; lia).
  destruct (match s with "" => s | String c rest => if Ascii.eqb c "+" then rest else s end) as [|c t]; [done|].
  intros Hp. by eapply Hd.
Qed.

Lemma collect_spec {A B E} (f : A -> Result B E) (l : list A) :
  match collect f l with
  | Ok bs => Forall2 (fun a b => f a = Ok b) l bs
  | Err e => exists a, a ∈ l /\ f a = Err e
  end.
Proof.
  induction l as [|a l IH]; cbn; [constructor|]. destruct (f a) as [b|e] eqn:Hf.
  - destruct (collect f l) as [bs|e]; [by constructor|].
    destruct IH as (x & Hx & He). exists x. split; [by right|done].
  - exists a. split; [left|done].
Qed.

Lemma undeclared m name :
  matches_of cli_app m -> bool_decide (name ∈ arg_name <$> cli_app) = false ->
  value_of name m = None /\ is_present name m = false.
Proof. intros [Hu _] Hn. apply Hu. by apply bool_decide_eq_false in Hn. Qed.

Lemma defaulted m a :
  matches_of cli_app m -> a ∈ cli_app -> default_value a <> None ->
  exists v, value_of (arg_name a) m = Some v.
Proof.
  intros [_ Hd] Ha Hn. destruct (Hd a Ha) as (_ & Hv & _).
  destruct (value_of (arg_name a) m) as [v|]; [by exists v|]. by destruct (Hv Hn).
Qed.

(** What an error says about the arguments. *)
Definition rejected (args : ArgMatches) (e : ConfigError) : Prop :=
  match e with
  | InvalidListenAddress s => value_of "listen-address" args = Some s /\ ip_from_str s = None
  | InvalidMaxPeers s => value_of "maxpeers" args = Some s /\ parse_usize s = None
  | InvalidPort s => value_of "port" args = Some s /\ parse_u16 s = None
  | InvalidDiscoveryPort s => value_of "discovery-port" args = Some s /\ parse_u16 s = None
  | InvalidEnr s => exists l err, value_of "boot-nodes" args = Some l /\ s ∈ split "," l /\
      enr_from_str s = Err err
  | InvalidMultiaddr s => exists l err, value_of "libp2p-addresses" args = Some l /\ s ∈ split "," l /\
      multiaddr_from_str s = Err err
  | InvalidEnrAddress _ | InvalidEnrUdpPort _ | InvalidEnrTcpPort _ => False
  | NoLibp2pPort err => is_present "auto-ports" args = true /\ unused_port "tcp" = Err err
  | NoDiscoveryPort err => is_present "auto-ports" args = true /\ unused_port "udp" = Err err
  end.

(** A list given on the command line, read piece by piece; without the
    argument the list stays. *)
Definition list_setting {A} (o : option string) (read : string -> Result A string) (old new : list A) : Prop :=
  match o with
  | None => new = old
  | Some s => Forall2 (fun piece a => read piece = Ok a) (split "," s) new
  end.

(** The fields no argument of the command line reaches. *)
Definition untouched (n : NetworkConfig) :=
  (agent_version n, protocol_version n, secret_key_hex n, gs_config n, discv5_config n,
   disable_discovery n, propagation_percentage n).

Lemma collect_map_err {A B E F} (read : A -> Result B E) (err : A -> F) (l : list A) :
  match collect (fun a => map_err (fun _ => err a) (read a)) l with
  | Ok bs => Forall2 (fun a b => read a = Ok b) l bs
  | Err e => exists a x, a ∈ l /\ read a = Err x /\ e = err a
  end.
Proof.
  pose proof (collect_spec (fun a => map_err (fun _ => err a) (read a)) l) as Hc.
  destruct (collect _ l) as [bs|e].
  - eapply Forall2_impl; [exact Hc|]. cbn. intros a b. by destruct (read a); intros [= ->].
  - destruct Hc as (a & Ha & He). destruct (read a) as [b|x] eqn:Hr; [done|].
    exists a, x. cbn in He. split; [done|]. split; [done|]. congruence.
Qed.

Lemma topics_setting (l : list string) : Forall2 (fun piece a => @Ok string string piece = Ok a) l l.
Proof. induction l; by constructor. Qed.

Lemma cli_facts (m : ArgMatches) :
  matches_of cli_app m ->
  value_of "enr-address" m = None /\ value_of "enr-udp-port" m = None /\
  value_of "enr-tcp-port" m = None /\ is_present "disable_enr_auto_update" m = false /\
  (exists v, value_of "listen-address" m = Some v) /\ (exists v, value_of "port" m = Some v) /\
  (exists v, value_of "maxpeers" m = Some v) /\
  (exists v, value_of "debug-level" m = Some v /\ v ∈ ["info"; "debug"; "trace"; "warn"; "error"; "crit"]).
Proof.
  intros Hm.
  split; [apply (undeclared m "enr-address" Hm eq_refl)|].
  split; [apply (undeclared m "enr-udp-port" Hm eq_refl)|].
  split; [apply (undeclared m "enr-tcp-port" Hm eq_refl)|].
  split; [apply (undeclared m "disable_enr_auto_update" Hm eq_refl)|].
  split_and!.
  - apply (defaulted m (arg_default "127.0.0.1" (with_name "listen-address")) Hm); [set_solver|done].
  - apply (defaulted m (arg_default "9000" (with_name "port")) Hm); [set_solver|done].
  - apply (defaulted m (arg_default "50" (with_name "maxpeers")) Hm); [set_solver|done].
  - destruct Hm as [_ Hd]. edestruct (Hd (List.last cli_app (with_name ""))) as (_ & Hn & Hv); [set_solver|].
    cbn in Hn, Hv. destruct (value_of "debug-level" m) as [v|]; [|by destruct Hn].
    exists v. split; [done|]. by apply Hv.
Qed.

(** *** Rules for the steps of [apply_cli_args]: [Q] holds of the result, and
    errors are explained by the arguments. *)

Definition ends (args : ArgMatches) (Q : Config -> Prop) (r : Result unit ConfigError * Config) : Prop :=
  match r with
  | (Ok _, c') => Q c'
  | (Err e, _) => rejected args e
  end.

Lemma ends_bind args Q (m : ConfigM unit) (k : unit -> ConfigM unit) c :
  ends args (fun c' => ends args Q (k tt c')) (m c) -> ends args Q ((m ≫= k) c).
Proof. unfold ends, mbind, ConfigM_bind. by destruct (m c) as [[[]|e] c']. Qed.

Lemma ends_try {A} args Q (r : Result A ConfigError) (k : A -> ConfigM unit) c :
  match r with Ok a => ends args Q (k a c) | Err e => rejected args e end ->
  ends args Q ((try_ok r ≫= k) c).
Proof. unfold ends, mbind, ConfigM_bind, try_ok. by destruct r. Qed.

Lemma ends_parsed {A} args Q (o : option A) e (k : A -> ConfigM unit) c :
  (o = None -> rejected args e) -> (forall a, o = Some a -> ends args Q (k a c)) ->
  ends args Q ((try_ok (parsed o e) ≫= k) c).
Proof. intros He Hk. apply ends_try. destruct o as [a|]; cbn; [by apply Hk|by apply He]. Qed.

Lemma ends_assign args Q f c : Q (set_network_config f c) -> ends args Q (assign f c).
Proof. done. Qed.

Lemma ends_set {A B} args Q (o : option A) (g : A -> B) (set : B -> NetworkConfig -> NetworkConfig)
    (get : NetworkConfig -> B) c :
  (forall n, set (get n) n = n) ->
  Q (set_network_config (set (match o with Some x => g x | None => get (network_config c) end)) c) ->
  ends args Q (if_let o (fun x => assign (set (g x))) c).
Proof.
  intros Hid HQ. destruct o as [x|]; cbn [if_let]; [by apply ends_assign|].
  cbn. revert HQ. unfold set_network_config. rewrite Hid. by destruct c.
Qed.

(** The discovery port is settled, by its own argument or by [port]. *)
Lemma ends_discovery args Q s port c :
  parse_u16 s = Some port -> discovery_port (network_config c) = port ->
  enr_udp_port (network_config c) = Some port ->
  (forall d, (union (value_of "discovery-port" args) (Some s) ≫= parse_u16) = Some d ->
     Q (set_network_config (fun n => set_enr_udp_port (Some d) (set_discovery_port d n)) c)) ->
  ends args Q (if_let (value_of "discovery-port" args) (fun s =>
    port ← try_ok (parsed (parse_u16 s) (InvalidDiscoveryPort s));
    _ ← assign (set_discovery_port port);
    assign (fun n => set_enr_udp_port (Some (discovery_port n)) n)) c).
Proof.
  intros Hs Hd Hu HQ. destruct (value_of "discovery-port" args) as [t|] eqn:Ed; cbn [if_let].
  - apply ends_parsed; [done|]. intros d Ht. apply ends_bind, ends_assign, ends_assign. by apply HQ.
  - specialize (HQ port Hs). revert HQ. destruct c as [name version level []]. cbn in *. by subst.
Qed.

(** A list setting assigns a list that satisfies [list_setting]. *)
Lemma ends_list {A} args Q (o : option string) (read : string -> Result A string) (err : string -> ConfigError)
    (set : list A -> NetworkConfig -> NetworkConfig) (get : NetworkConfig -> list A) c :
  (forall n, set (get n) n = n) ->
  (forall l s x, o = Some l -> s ∈ split "," l -> read s = Err x -> rejected args (err s)) ->
  (forall new, list_setting o read (get (network_config c)) new -> Q (set_network_config (set new) c)) ->
  ends args Q (if_let o (fun l =>
    nodes ← try_ok (collect (fun s => map_err (fun _ => err s) (read s)) (split "," l));
    assign (set nodes)) c).
Proof.
  intros Hid Herr HQ. destruct o as [l|]; cbn [if_let].
  - apply ends_try. pose proof (collect_map_err read err (split "," l)) as Hc.
    destruct (collect _ _) as [new|e]; [by apply ends_assign, HQ|].
    destruct Hc as (s & x & Hs & Hr & ->). by eapply Herr.
  - cbn. specialize (HQ (get (network_config c)) eq_refl). revert HQ.
    unfold set_network_config. rewrite Hid. by destruct c.
Qed.

(** What the configuration [c] becomes. *)
Definition configured (args : ArgMatches) (c c' : Config) : Prop :=
  let n := network_config c in
  let n' := network_config c' in
  let auto := is_present "auto-ports" args in
  (value_of "listen-address" args ≫= ip_from_str) = Some (listen_address n') /\
  (value_of "maxpeers" args ≫= parse_usize) = Some (max_peers n') /\
  (if auto then unused_port "tcp" = Ok (libp2p_port n') /\ unused_port "udp" = Ok (discovery_port n')
   else (value_of "port" args ≫= parse_u16) = Some (libp2p_port n') /\
        (union (value_of "discovery-port" args) (value_of "port" args) ≫= parse_u16)
          = Some (discovery_port n') /\
        (libp2p_port n' < 2 ^ 16)%N /\ (discovery_port n' < 2 ^ 16)%N) /\
  enr_tcp_port n' = Some (libp2p_port n') /\ enr_udp_port n' = Some (discovery_port n') /\
  enr_address n' = (if auto && bool_decide (listen_address n' = V4 0) then None
                    else Some (listen_address n')) /\
  list_setting (value_of "boot-nodes" args) enr_from_str (boot_nodes n) (boot_nodes n') /\
  list_setting (value_of "libp2p-addresses" args) multiaddr_from_str (libp2p_nodes n) (libp2p_nodes n') /\
  list_setting (value_of "topics" args) Ok (topics n) (topics n') /\
  network_dir n' = match value_of "datadir" args with
                   | Some dir => path_join dir "network"
                   | None => network_dir n
                   end /\
  value_of "debug-level" args = Some (debug_level c') /\
  debug_level c' ∈ ["info"; "debug"; "trace"; "warn"; "error"; "crit"] /\
  untouched n' = untouched n /\
  (client_name c', client_version c') = (client_name c, client_version c).

(** The state before [auto-ports] is considered: everything else is settled. *)
Definition settled (args : ArgMatches) (c c' : Config) : Prop :=
  let n := network_config c in
  let n' := network_config c' in
  (value_of "listen-address" args ≫= ip_from_str) = Some (listen_address n') /\
  (value_of "maxpeers" args ≫= parse_usize) = Some (max_peers n') /\
  (value_of "port" args ≫= parse_u16) = Some (libp2p_port n') /\
  (union (value_of "discovery-port" args) (value_of "port" args) ≫= parse_u16) = Some (discovery_port n') /\
  enr_tcp_port n' = Some (libp2p_port n') /\ enr_udp_port n' = Some (discovery_port n') /\
  enr_address n' = Some (listen_address n') /\
  list_setting (value_of "boot-nodes" args) enr_from_str (boot_nodes n) (boot_nodes n') /\
  list_setting (value_of "libp2p-addresses" args) multiaddr_from_str (libp2p_nodes n) (libp2p_nodes n') /\
  list_setting (value_of "topics" args) Ok (topics n) (topics n') /\
  network_dir n' = match value_of "datadir" args with
                   | Some dir => path_join dir "network"
                   | None => network_dir n
                   end /\
  value_of "debug-level" args = Some (debug_level c') /\
  untouched n' = untouched n /\
  (client_name c', client_version c') = (client_name c, client_version c).

Lemma auto_ports_ends args c c1 :
  settled args c c1 -> debug_level c1 ∈ ["info"; "debug"; "trace"; "warn"; "error"; "crit"] ->
  ends args (configured args c) (apply_auto_ports args c1).
Proof.
  intros (Hl & Hm & Hp & Hd & Ht & Hu & He & Hb & Hn & Hs & Hdir & Hv & Hun & Hc) Hlv.
  unfold apply_auto_ports. destruct (is_present "auto-ports" args) eqn:Hauto.
  - apply ends_bind, ends_assign, ends_try.
    destruct (unused_port "tcp") as [tcp|e] eqn:Htcp; [|done].
    apply ends_bind, ends_assign, ends_try.
    destruct (unused_port "udp") as [udp|e] eqn:Hudp; [|done].
    apply ends_bind, ends_assign, ends_bind, ends_assign, ends_assign.
    unfold configured. rewrite Hauto, <-Hdir, <-Hun.
    set (n1 := network_config c1) in *.
    assert (Hz : bool_decide (listen_address n1 = V4 0) = bool_decide (enr_address n1 = Some (V4 0))).
    { apply bool_decide_ext. rewrite He. split; congruence. }
    destruct (decide (enr_address n1 = Some (V4 0))) as [Hd0|Hd0] eqn:Hcase;
      repeat (unfold set_network_config; cbn [network_config]; fold n1); rewrite ?Hcase; cbn;
      rewrite Hz; [rewrite bool_decide_true by done|rewrite bool_decide_false by done]; by split_and!.
  - unfold configured. cbn. rewrite Hauto. cbn [andb]. split_and!; try done.
    + destruct (value_of "port" args) as [s|]; [|done]. by eapply (parse_uint_bound 16 s).
    + destruct (union _ _) as [s|]; [|done]. by eapply (parse_uint_bound 16 s).
Qed.

(** ** Property *)

(** C39: the configuration a command line of [cli_app] gives. It is rejected
    only for a value that cannot be read or a port the system does not give,
    and then with that value in the error. Otherwise the listening address and
    the number of peers are the ones given; [auto-ports] overrides [port] and
    [discovery-port], and the latter overrides [port] for discovery; the ports
    and the address of the node record are always the ones listened on (no
    address for 0.0.0.0 with [auto-ports]), so the options [enr-address],
    [enr-udp-port] and [enr-tcp-port] the code reads cannot be given; and the
    discv5 configuration stays as it was, also under
    [--disable-enr-auto-update], whose name the code misspells. *)
Theorem cli_settings (args : ArgMatches) (c : Config) :
  matches_of cli_app args ->
  match apply_cli_args args c with
  | (Err e, _) => rejected args e
  | (Ok _, c') => configured args c c'
  end.
Proof.
  intros Hm. destruct (cli_facts args Hm) as (Ha & Hu & Ht & Hd & (sl & Hl) & (sp & Hp) & (sm & Hx) & (lv & Hv & Hlv)).
  change (ends args (configured args c) (apply_cli_args args c)).
  unfold apply_cli_args. rewrite Ha, Hu, Ht, Hd, Hl, Hp, Hx, Hv. cbn [if_let].
  apply ends_bind, (ends_set _ _ _ (fun dir => path_join dir "network") set_network_dir network_dir);
    [by intros []|].
  apply ends_bind, ends_parsed; [done|]. intros listen El.
  apply ends_bind, ends_assign, ends_assign.
  apply ends_bind, ends_parsed; [done|]. intros max Em.
  apply ends_assign.
  apply ends_bind, ends_parsed; [done|]. intros port Ep.
  do 3 apply ends_bind, ends_assign. apply ends_assign.
  apply ends_bind, (ends_discovery _ _ _ _ _ Ep); [done|done|]. intros disc Edisc.
  apply ends_bind, (ends_list _ _ _ enr_from_str InvalidEnr set_boot_nodes boot_nodes);
    [by intros []|by intros l s x ???; exists l, x|]. intros boot Eboot.
  apply ends_bind, (ends_list _ _ _ multiaddr_from_str InvalidMultiaddr set_libp2p_nodes libp2p_nodes);
    [by intros []|by intros l s x ???; exists l, x|]. intros addrs Eaddrs.
  do 4 apply (ends_bind _ _ (mret tt)).
  apply ends_bind, (ends_set _ _ _ (split ",") set_topics topics); [by intros []|].
  apply ends_bind. apply auto_ports_ends; [|done].
  unfold settled. rewrite Hl, Hp, Hx, Hv. split_and!; try done.
  by destruct (value_of "topics" args); [apply topics_setting|].
Qed.
End Config.

(** ** A concrete instance: matches are the values and the flags that were
    given, the builders keep nothing, and the discv5 configuration is the
    [enr_update] setting. *)
Definition demo_clap : Clap := {|
  ArgMatches := (list (string * string) * list string)%type;
  value_of := fun name m => snd <$> List.find (fun kv => String.eqb name kv.1) m.1;
  is_present := fun name m => bool_decide (name ∈ m.2) || bool_decide (name ∈ m.1.*1);
|}.

Definition demo_config_libs : @ConfigLibs demo_libp2p demo_enrs := {|
  GossipsubConfig := unit;
  GossipsubConfigBuilder := unit;
  gs_builder_new := tt;
  max_transmit_size := fun _ b => b;
  heartbeat_interval := fun _ b => b;
  manual_propagation := fun b => b;
  no_source_id := fun b => b;
  message_id_fn := fun _ b => b;
  gs_build := fun _ => tt;
  Discv5Config := bool;
  Discv5ConfigBuilder := unit;
  dc_builder_new := tt;
  enable_packet_filter := fun b => b;
  session_cache_capacity := fun _ b => b;
  request_timeout := fun _ b => b;
  request_retries := fun _ b => b;
  enr_peer_update_min := fun _ b => b;
  query_parallelism := fun _ b => b;
  query_timeout := fun _ b => b;
  query_peer_timeout := fun _ b => b;
  ip_limit := fun b => b;
  ping_interval := fun _ b => b;
  dc_build := fun _ => true;
  set_enr_update := fun b _ => b;
  sha256 := fun data => data;
  base64_url_safe := fun _ => "";
  multiaddr_from_str := fun s => if String.eqb s "" then Err "empty" else Ok ([] : @Multiaddr demo_libp2p);
|}.

(** A system that gives the port 40000 to TCP and 40001 to UDP listeners. *)
Definition demo_platform : Platform := {|
  CARGO_PKG_VERSION := "0.1.0";
  target_arch := "x86_64";
  target_os := "linux";
  home_dir := Some "/home/node";
  ip_from_str := fun s =>
    if String.eqb s "127.0.0.1" then Some (V4 2130706433)
    else if String.eqb s "0.0.0.0" then Some (V4 0) else None;
  str_debug := fun s => s;
  tcp_bind := Ok tt;
  tcp_local_port := Ok 40000%N;
  udp_bind := Ok tt;
  udp_local_port := Ok 40001%N;
|}.

Section ConfigWitness.
#[local] Existing Instance demo_libp2p.
#[local] Existing Instance demo_enrs.
#[local] Existing Instance demo_clap.
#[local] Existing Instance demo_config_libs.
#[local] Existing Instance demo_platform.

(** [--listen-address 0.0.0.0 --discovery-port 9001 --topics a,b
     --auto-ports --disable-enr-auto-update] *)
Definition demo_args : @ArgMatches demo_clap :=
  ([("listen-address", "0.0.0.0"); ("port", "9000"); ("discovery-port", "9001"); ("maxpeers", "50");
    ("topics", "a,b"); ("debug-level", "info")], ["auto-ports"; "disable-enr-auto-update"]).

Example parse_u16_ex :
  parse_u16 "9000" = Some 9000%N /\ parse_u16 "+80" = Some 80%N /\ parse_u16 "65536" = None /\
  parse_u16 "" = None /\ parse_u16 "+" = None /\ parse_u16 "-1" = None.
Proof. by vm_compute. Qed.

Example default_dir : network_dir NetworkConfig_default = "/home/node/.mothra/network".
Proof. reflexivity. Qed.

Lemma demo_args_match : matches_of cli_app demo_args.
Proof.
  split.
  - intros name Hn. cbn in Hn. rewrite !not_elem_of_cons in Hn. destruct Hn as (?&?&?&?&?&?&?&?&?&?&?&_).
    split.
    + cbn. by rewrite !(proj2 (String.eqb_neq name _)) by done.
    + cbn. rewrite !bool_decide_false; [done|..]; rewrite ?not_elem_of_cons; cbn;
        split_and?; try done; apply not_elem_of_nil.
  - intros a Ha. unfold cli_app in Ha. rewrite !elem_of_cons in Ha.
    destruct_or? Ha; subst; try (by apply not_elem_of_nil in Ha); cbn; split_and!; try done.
    intros v _ [= <-]. left.
Qed.

Lemma cli_settings_witness :
  is_present "disable-enr-auto-update" demo_args = true /\
  exists c', apply_cli_args demo_args Config_default = (Ok tt, c') /\
    discv5_config (network_config c') = true /\ enr_udp_port (network_config c') = Some 40001%N /\
    enr_address (network_config c') = None.
Proof.
  split; [reflexivity|]. pose proof (cli_settings demo_args Config_default demo_args_match) as Hs.
  destruct (apply_cli_args demo_args Config_default) as [[[]|e] c'] eqn:E; [|vm_compute in E; discriminate E].
  exists c'. split; [reflexivity|]. destruct Hs as (Hl & _ & [_ Hudp] & _ & Hu & Ha & _ & _ & _ & _ & _ & _ & Hn & _).
  injection Hn as _ _ _ _ Hd _ _. injection Hl as Hl. injection Hudp as Hudp.
  rewrite Hd, Hu, Ha, <-Hl, <-Hudp. split; [reflexivity|]. split; reflexivity.
Defined.
End ConfigWitness.
