(* ===== verification/Discovery.v ===== *)
(** * Peer discovery (src/core/network/src/discovery/mod.rs)

    The queue of discovery queries, the queries being run and the cache of
    records.  discv5, the cache of the [lru] crate, [FuturesUnordered] and the
    channel of discv5's events are libraries: the class [Discv5Lib] lists
    their operations and [Discv5Laws] what the component relies on. *)
From Stdlib Require Import NArith Strings.String.
From S2P Require Import Prelude Env PeerInfo EnrExt Keys.

Open Scope list_scope.

Definition MAX_CONCURRENT_QUERIES : nat := 1.
Definition FIND_NODE_QUERY_CLOSEST_PEERS : nat := 16.

(** [std::net::SocketAddr] *)
Record SocketAddr := mkSocketAddr { socket_ip : IpAddr; socket_port : N }.

Inductive QueryType :=
| Subnet (subnet_id : SubnetId) (query_min_ttl : option Instant) (retries : N)
| FindPeers.

#[export] Instance QueryType_eq_dec : EqDecision QueryType.
Proof. solve_decision. Defined.

(** [QueryType::expired] *)
Definition expired (now : Instant) (q : QueryType) : bool :=
  match q with
  | FindPeers => false
  | Subnet _ ttl _ =>
    match ttl with
    | Some ttl => bool_decide (now < ttl)%N
    | None => true
    end
  end.

(** [QueryType::min_ttl] *)
Definition query_ttl (q : QueryType) : option Instant :=
  match q with
  | FindPeers => None
  | Subnet _ ttl _ => ttl
  end.

Class Discv5Lib `{PeerIdLib} := {
  (** [lru::LruCache<PeerId, Enr>] *)
  Cache : Type;
  cache_new : nat -> Cache;
  cache_put : PeerId -> Enr -> Cache -> Cache;
  cache_get : PeerId -> Cache -> option Enr * Cache;
  (** The discv5 server; [find_node] gives the future of a query. *)
  Discv5 : Type;
  QueryFuture : Type;
  find_node : Discv5 -> QueryFuture * Discv5;
  discv5_add_enr : Enr -> Discv5 -> Result unit string * Discv5;
  discv5_find_enr : NodeId -> Discv5 -> option Enr;
  discv5_local_enr : Discv5 -> Enr;
  discv5_enr_insert : string -> list Byte.byte -> Discv5 -> Result unit string * Discv5;
  discv5_table_entries : Discv5 -> list Enr;
  discv5_start : SocketAddr -> Discv5 -> Discv5;
  (** [FuturesUnordered] of queries, each tagged with its type; [None] is
      [Poll::Pending], [Some None] the end of the stream. *)
  Queries : Type;
  queries_new : Queries;
  queries_len : Queries -> nat;
  queries_push : QueryType -> QueryFuture -> Queries -> Queries;
  queries_poll : Queries -> option (option (QueryType * Result (list Enr) string)) * Queries;
  (** The types of the queries that are running. *)
  running : Queries -> list QueryType;
  (** The future of the event stream and the receiver it yields; [try_recv]
      answers the socket addresses of [SocketUpdated] events, and [Some None]
      for any other event. *)
  StreamFuture : Type;
  Receiver : Type;
  discv5_event_stream : Discv5 -> StreamFuture;
  stream_poll : StreamFuture -> Poll (Result Receiver string) * StreamFuture;
  try_recv : Receiver -> option (option SocketAddr) * Receiver;
  (** The number of events waiting in the channel. *)
  waiting : Receiver -> nat;
}.

Class Discv5Laws `{Discv5Lib} `{!KeyTotal} := {
  queries_new_running : running queries_new = [];
  queries_len_running : forall qs, queries_len qs = length (running qs);
  queries_push_running : forall q f qs, running (queries_push q f qs) ≡ₚ q :: running qs;
  queries_poll_running : forall qs r qs', queries_poll qs = (r, qs') ->
    match r with
    | Some (Some (q, _)) => running qs ≡ₚ q :: running qs'
    | Some None | None => running qs' ≡ₚ running qs
    end;
  try_recv_waiting : forall r e r', try_recv r = (e, r') ->
    (waiting r' + (match e with Some _ => 1 | None => 0 end) <= waiting r)%nat;
}.

Section Discovery.
Context `{Discv5Lib}.

(** [enum DiscoveryEvent] *)
Inductive DiscoveryEvent :=
| QueryResult (min_ttl : option Instant) (peers : list Enr)
| SocketUpdated (socket : SocketAddr).

(** [enum EventStream] *)
Inductive EventStream :=
| Awaiting (fut : StreamFuture)
| Present (stream : Receiver)
| InActive.

(** [struct Discovery]; [saved_enr] is the record last written to disk, and
    [global_enr] the one in the network globals. *)
Record Discovery := mkDiscovery {
  cached_enrs : Cache;
  discv5 : Discv5;
  find_peer_active : bool;
  queued_queries : list QueryType;
  active_queries : Queries;
  event_stream : EventStream;
  started : bool;
  global_enr : Enr;
  saved_enr : option Enr;
}.

Definition set_cached_enrs v d :=
  mkDiscovery v (discv5 d) (find_peer_active d) (queued_queries d) (active_queries d)
    (event_stream d) (started d) (global_enr d) (saved_enr d).
Definition set_discv5 v d :=
  mkDiscovery (cached_enrs d) v (find_peer_active d) (queued_queries d) (active_queries d)
    (event_stream d) (started d) (global_enr d) (saved_enr d).
Definition set_find_peer_active v d :=
  mkDiscovery (cached_enrs d) (discv5 d) v (queued_queries d) (active_queries d)
    (event_stream d) (started d) (global_enr d) (saved_enr d).
Definition set_queued_queries v d :=
  mkDiscovery (cached_enrs d) (discv5 d) (find_peer_active d) v (active_queries d)
    (event_stream d) (started d) (global_enr d) (saved_enr d).
Definition set_active_queries v d :=
  mkDiscovery (cached_enrs d) (discv5 d) (find_peer_active d) (queued_queries d) v
    (event_stream d) (started d) (global_enr d) (saved_enr d).
Definition set_event_stream v d :=
  mkDiscovery (cached_enrs d) (discv5 d) (find_peer_active d) (queued_queries d)
    (active_queries d) v (started d) (global_enr d) (saved_enr d).
Definition set_global_enr v d :=
  mkDiscovery (cached_enrs d) (discv5 d) (find_peer_active d) (queued_queries d)
    (active_queries d) (event_stream d) (started d) v (saved_enr d).
Definition set_saved_enr v d :=
  mkDiscovery (cached_enrs d) (discv5 d) (find_peer_active d) (queued_queries d)
    (active_queries d) (event_stream d) (started d) (global_enr d) v.

(** [Discovery::new], once the discv5 server is built from the local record:
    the boot nodes are added and the server is started. *)
Definition new (server : Discv5) (local_enr : Enr) (boot_nodes : list Enr) (listen_socket : SocketAddr)
    (disable_discovery : bool) : Discovery :=
  let server := foldl (fun s e => (discv5_add_enr e s).2) server boot_nodes in
  let '(server, stream) :=
    if disable_discovery then (server, InActive)
    else
      let server := discv5_start listen_socket server in
      (server, Awaiting (discv5_event_stream server)) in
  mkDiscovery (cache_new 50) server false [] queries_new stream (negb disable_discovery)
    local_enr None.

Definition local_enr (d : Discovery) : Enr := discv5_local_enr (discv5 d).

Definition discover_peers (d : Discovery) : Discovery :=
  if (negb (started d) || find_peer_active d)%bool then d
  else
    let query := FindPeers in
    if decide (query ∈ queued_queries d) then d
    else set_queued_queries (queued_queries d ++ [query]) d.

Definition add_enr (e : Enr) (d : Discovery) : Discovery :=
  let d := set_cached_enrs (cache_put (enr_peer_id e) e (cached_enrs d)) d in
  set_discv5 (discv5_add_enr e (discv5 d)).2 d.

Definition table_entries_enr (d : Discovery) : list Enr := discv5_table_entries (discv5 d).

Definition enr_of_peer (peer_id : PeerId) (d : Discovery) : Outcome (option Enr * Discovery) :=
  let '(cached, cache) := cache_get peer_id (cached_enrs d) in
  let d := set_cached_enrs cache d in
  match cached with
  | Some e => mret (Some e, d)
  | None =>
    node_id ← peer_id_to_node_id peer_id;
    match node_id with
    | Ok node_id => mret (discv5_find_enr node_id (discv5 d), d)
    | Err _ => mret (None, d)
    end
  end.

Definition update_eth2_enr (enr_fork_id : list Byte.byte) (d : Discovery) : Discovery :=
  let d := set_discv5 (discv5_enr_insert ETH2_ENR_KEY enr_fork_id (discv5 d)).2 d in
  set_global_enr (discv5_local_enr (discv5 d)) d.

Definition at_capacity (d : Discovery) : bool :=
  bool_decide (MAX_CONCURRENT_QUERIES <= queries_len (active_queries d))%nat.

(** [start_query]: the target is a random node. *)
Definition start_query (query : QueryType) (d : Discovery) : Discovery :=
  let '(query_future, server) := find_node (discv5 d) in
  set_active_queries (queries_push query query_future (active_queries d)) (set_discv5 server d).

(** The loop of [process_queue]. *)
Fixpoint process_loop (fuel : nat) (d : Discovery) : Outcome Discovery :=
  match fuel with
  | O => OutOfFuel
  | S fuel =>
    if at_capacity d then mret d
    else
      match queued_queries d with
      | [] => mret d
      | FindPeers :: rest =>
        let d := set_queued_queries rest d in
        if find_peer_active d then
          process_loop fuel (set_queued_queries (queued_queries d ++ [FindPeers]) d)
        else process_loop fuel (start_query FindPeers (set_find_peer_active true d))
      | Subnet _ _ _ :: rest => process_loop fuel (set_queued_queries rest d)
      end
  end.

Definition process_queue (now : Instant) (d : Discovery) : Outcome Discovery :=
  let d := set_queued_queries (filter (fun q => expired now q = false) (queued_queries d)) d in
  process_loop (S (length (queued_queries d))) d.

(** [poll_queries] *)
Fixpoint poll_queries (fuel : nat) (d : Discovery)
    : Outcome (option (option Instant * list Enr) * Discovery) :=
  match fuel with
  | O => OutOfFuel
  | S fuel =>
    let '(r, qs) := queries_poll (active_queries d) in
    let d := set_active_queries qs d in
    match r with
    | Some (Some (FindPeers, result)) =>
      let d := set_find_peer_active false d in
      match result with
      | Ok [] => poll_queries fuel d
      | Ok r => mret (Some (None, r), d)
      | Err _ => poll_queries fuel d
      end
    | Some (Some (Subnet _ _ _, _)) => poll_queries fuel d
    | Some None | None => mret (None, d)
    end
  end.

(** The events of the server: only a new socket address is passed on. *)
Fixpoint receive_events (fuel : nat) (stream : Receiver) (d : Discovery)
    : Outcome (option DiscoveryEvent * Discovery) :=
  match fuel with
  | O => OutOfFuel
  | S fuel =>
    let '(r, stream) := try_recv stream in
    let d := set_event_stream (Present stream) d in
    match r with
    | Some (Some socket) =>
      mret (Some (SocketUpdated socket), set_saved_enr (Some (discv5_local_enr (discv5 d))) d)
    | Some None => receive_events fuel stream d
    | None => mret (None, d)
    end
  end.

Definition poll_event_stream (d : Discovery) : Outcome (option DiscoveryEvent * Discovery) :=
  match event_stream d with
  | Awaiting fut =>
    let '(r, fut) := stream_poll fut in
    match r with
    | Ready (Ok stream) => mret (None, set_event_stream (Present stream) d)
    | Ready (Err _) => mret (None, set_event_stream InActive d)
    | Pending => mret (None, set_event_stream (Awaiting fut) d)
    end
  | InActive => mret (None, d)
  | Present stream => receive_events (S (waiting stream)) stream d
  end.

(** [Discovery::poll]; [None] is [Poll::Pending]. *)
Definition poll (now : Instant) (d : Discovery) : Outcome (option DiscoveryEvent * Discovery) :=
  if started d then
    d ← process_queue now d;
    '(r, d) ← poll_queries (S (queries_len (active_queries d))) d;
    match r with
    | Some (min_ttl, result) =>
      let cache := foldl (fun c e => cache_put (enr_peer_id e) e c) (cached_enrs d) result in
      mret (Some (QueryResult min_ttl result), set_cached_enrs cache d)
    | None => poll_event_stream d
    end
  else mret (None, d).

(** ** Invariant *)

(** Either no query runs and at most one is queued, or one runs and none is
    queued; a disabled service has neither. *)
Definition inv (d : Discovery) : Prop :=
  if find_peer_active d then
    running (active_queries d) = [FindPeers] /\ queued_queries d = [] /\ started d = true
  else
    running (active_queries d) = [] /\
    (queued_queries d = [] \/ queued_queries d = [FindPeers] /\ started d = true).

(** The calls of the peer manager. *)
Inductive DiscoveryCall :=
| CallDiscoverPeers
| CallAddEnr (e : Enr)
| CallEnrOfPeer (peer_id : PeerId)
| CallUpdateEth2Enr (enr_fork_id : list Byte.byte)
| CallDiscoveryPoll (now : Instant).

Definition run_call (c : DiscoveryCall) (d : Discovery)
    : Outcome (option DiscoveryEvent * Discovery) :=
  match c with
  | CallDiscoverPeers => mret (None, discover_peers d)
  | CallAddEnr e => mret (None, add_enr e d)
  | CallEnrOfPeer peer_id => '(_, d) ← enr_of_peer peer_id d; mret (None, d)
  | CallUpdateEth2Enr fork => mret (None, update_eth2_enr fork d)
  | CallDiscoveryPoll now => poll now d
  end.

Definition disc_step (d d' : Discovery) : Prop :=
  exists c event, run_call c d = Ret (event, d').

Definition disc_reachable (d : Discovery) : Prop :=
  exists server enr boot_nodes socket disabled,
    rtc disc_step (new server enr boot_nodes socket disabled) d.

Context `{!KeyTotal} `{!Discv5Laws}.

(** An event taken is one event less. *)
Lemma try_recv_lt r e r' : try_recv r = (Some e, r') -> (waiting r' < waiting r)%nat.
Proof. intros E%try_recv_waiting. lia. Qed.

Lemma running_len d : queries_len (active_queries d) = length (running (active_queries d)).
Proof. apply queries_len_running. Qed.

Lemma disc_inv_new server enr boot_nodes socket disabled :
  inv (new server enr boot_nodes socket disabled).
Proof.
  unfold new, inv. destruct disabled; cbn; (split; [apply queries_new_running|by left]).
Qed.

Lemma inv_discover_peers d : inv d -> inv (discover_peers d).
Proof.
  unfold discover_peers, inv. destruct (find_peer_active d) eqn:Ha.
  - rewrite orb_true_r. by rewrite Ha.
  - destruct (started d) eqn:Hs; cbn; [|by rewrite Ha, Hs].
    intros [Hr Hq]. case_decide as Hin; [by rewrite Ha, Hs|]. cbn. rewrite Ha, Hs.
    split; [done|]. right. split; [|done].
    destruct Hq as [-> | [Hq _]]; [done|]. rewrite Hq in Hin. destruct Hin. left.
Qed.

(** Fields [inv] reads, unchanged. *)
Lemma inv_same d d' :
  inv d -> find_peer_active d' = find_peer_active d -> queued_queries d' = queued_queries d ->
  running (active_queries d') = running (active_queries d) -> started d' = started d -> inv d'.
Proof. unfold inv. intros Hinv -> -> -> ->. done. Qed.

(** A lookup returns, and only uses the cache. *)
Lemma enr_of_peer_ok peer_id d : exists e c, enr_of_peer peer_id d = Ret (e, set_cached_enrs c d).
Proof.
  unfold enr_of_peer. destruct (cache_get _ _) as [[e|] c]; [by eexists _, _|].
  destruct (peer_id_to_node_id_returns peer_id) as [[n|err] ->]; by eexists _, _.
Qed.

#[local] Arguments at_capacity : simpl never.
#[local] Arguments start_query : simpl never.

(** Starting the one query. *)
Lemma start_query_running d :
  running (active_queries d) = [] ->
  running (active_queries (start_query FindPeers d)) = [FindPeers] /\
  queued_queries (start_query FindPeers d) = queued_queries d /\
  find_peer_active (start_query FindPeers d) = find_peer_active d /\
  started (start_query FindPeers d) = started d.
Proof.
  intros Hr. unfold start_query. destruct (find_node (discv5 d)) as [f server]. cbn.
  pose proof (queries_push_running FindPeers f (active_queries d)) as Hp.
  rewrite Hr in Hp. apply Permutation_singleton_r in Hp. done.
Qed.

Lemma at_capacity_running d :
  at_capacity d = bool_decide (MAX_CONCURRENT_QUERIES <= length (running (active_queries d)))%nat.
Proof. unfold at_capacity. by rewrite queries_len_running. Qed.

(** After [process_queue] nothing is queued, and a query runs if one was
    running or queued. *)
Lemma process_loop_full fuel d :
  (1 <= length (running (active_queries d)))%nat -> process_loop (S fuel) d = Ret d.
Proof.
  intros Hlen. cbn [process_loop]. rewrite at_capacity_running.
  by rewrite bool_decide_true.
Qed.

Lemma process_loop_idle fuel d :
  queued_queries d = [] -> process_loop (S fuel) d = Ret d.
Proof. intros Hq. cbn [process_loop]. rewrite Hq. by destruct (at_capacity d). Qed.

Lemma process_loop_start fuel d :
  running (active_queries d) = [] -> queued_queries d = [FindPeers] ->
  find_peer_active d = false ->
  process_loop (S (S fuel)) d =
    Ret (start_query FindPeers (set_find_peer_active true (set_queued_queries [] d))).
Proof.
  intros Hr Hq Ha. remember (S fuel) as n eqn:En. cbn [process_loop].
  rewrite at_capacity_running, Hr, bool_decide_false by (unfold MAX_CONCURRENT_QUERIES; cbn; lia).
  rewrite Hq. cbn [find_peer_active set_queued_queries]. rewrite Ha. subst n.
  apply process_loop_full.
  destruct (start_query_running (set_find_peer_active true (set_queued_queries [] d)) Hr) as [-> _].
  done.
Qed.

Lemma process_queue_ok now d :
  inv d -> exists d', process_queue now d = Ret d' /\ inv d' /\ started d' = started d /\
    queued_queries d' = [] /\ cached_enrs d' = cached_enrs d /\
    find_peer_active d' = (find_peer_active d || bool_decide (queued_queries d = [FindPeers]))%bool.
Proof.
  unfold inv at 1, process_queue. destruct (find_peer_active d) eqn:Ha.
  - intros (Hr & Hq & Hs). rewrite Hq. exists (set_queued_queries [] d).
    split; [apply process_loop_full; cbn; by rewrite Hr|].
    split; [by unfold inv; cbn; rewrite Ha|]. cbn. by rewrite Ha.
  - intros [Hr [Hq | [Hq Hs]]]; rewrite Hq.
    + exists (set_queued_queries [] d). split; [by apply process_loop_idle|].
      split; [unfold inv; cbn; rewrite Ha; auto|]. cbn. by rewrite Ha.
    + change (filter _ [FindPeers]) with [FindPeers].
      set (d1 := set_find_peer_active true (set_queued_queries [] (set_queued_queries [FindPeers] d))).
      destruct (start_query_running d1 Hr) as (Hr1 & Hq1 & Ha1 & Hs1).
      exists (start_query FindPeers d1).
      split; [by apply process_loop_start|].
      split; [unfold inv; by rewrite Ha1, Hr1, Hq1, Hs1|].
      split; [by rewrite Hs1|]. split; [by rewrite Hq1|]. split; [|by rewrite Ha1].
      unfold start_query. by destruct (find_node _).
Qed.

Lemma poll_queries_empty fuel d :
  running (active_queries d) = [] ->
  exists qs, poll_queries (S fuel) d = Ret (None, set_active_queries qs d) /\ running qs = [].
Proof.
  intros Hr. cbn [poll_queries]. destruct (queries_poll (active_queries d)) as [r qs] eqn:E.
  apply queries_poll_running in E. rewrite Hr in E. exists qs.
  destruct r as [[[q result]|]|].
  - by apply Permutation_nil_l in E.
  - by apply Permutation_nil_r in E.
  - by apply Permutation_nil_r in E.
Qed.

Lemma poll_queries_ok d :
  inv d -> queued_queries d = [] ->
  exists r d', poll_queries (S (queries_len (active_queries d))) d = Ret (r, d') /\ inv d' /\
    cached_enrs d' = cached_enrs d /\ queued_queries d' = [] /\
    (find_peer_active d' = true -> find_peer_active d = true) /\
    match r with
    | Some (ttl, peers) => ttl = None /\ peers <> [] /\
        find_peer_active d = true /\ find_peer_active d' = false
    | None => True
    end.
Proof.
  intros Hinv Hq. unfold inv in Hinv. destruct (find_peer_active d) eqn:Ha.
  - destruct Hinv as (Hr & _ & Hs). rewrite queries_len_running, Hr. cbn [length poll_queries].
    destruct (queries_poll (active_queries d)) as [r qs] eqn:E.
    apply queries_poll_running in E. rewrite Hr in E.
    destruct r as [[[q result]|]|].
    + apply Permutation_singleton_l in E. injection E as <- Hnil. symmetry in Hnil.
      set (d1 := set_find_peer_active false (set_active_queries qs d)).
      assert (Hinv1 : inv d1) by (unfold inv; cbn; rewrite Hnil, Hq; auto).
      destruct (poll_queries_empty 0 d1 Hnil) as (qs2 & Hrun & Hnil2).
      assert (Hinv2 : inv (set_active_queries qs2 d1)) by (unfold inv; cbn; rewrite Hnil2, Hq; auto).
      destruct result as [[|p peers]|e].
      * exists None, (set_active_queries qs2 d1). by split_and!.
      * exists (Some (None, p :: peers)), d1. by split_and!.
      * exists None, (set_active_queries qs2 d1). by split_and!.
    + exists None, (set_active_queries qs d). apply Permutation_singleton_r in E.
      split_and!; try done. unfold inv. cbn. by rewrite Ha.
    + exists None, (set_active_queries qs d). apply Permutation_singleton_r in E.
      split_and!; try done. unfold inv. cbn. by rewrite Ha.
  - destruct Hinv as [Hr _]. rewrite queries_len_running, Hr.
    destruct (poll_queries_empty 0 d Hr) as (qs & Hrun & Hnil).
    exists None, (set_active_queries qs d). split_and!; try done; [|cbn; congruence].
    unfold inv. cbn. rewrite Ha, Hnil. auto.
Qed.

Lemma receive_events_ok fuel stream d :
  inv d -> (waiting stream < fuel)%nat ->
  exists event d', receive_events fuel stream d = Ret (event, d') /\ inv d' /\
    forall ttl peers, event <> Some (QueryResult ttl peers).
Proof.
  revert stream d; induction fuel as [|fuel IH]; intros stream d Hinv Hfuel; [lia|].
  cbn [receive_events]. destruct (try_recv stream) as [r stream'] eqn:E.
  destruct r as [[socket|]|].
  - eexists _, _. split; [done|]. by split; [apply (inv_same d)|].
  - apply try_recv_lt in E. apply IH; [by apply (inv_same d)|lia].
  - eexists _, _. split; [done|]. by split; [apply (inv_same d)|].
Qed.

Lemma poll_event_stream_ok d :
  inv d -> exists event d', poll_event_stream d = Ret (event, d') /\ inv d' /\
    forall ttl peers, event <> Some (QueryResult ttl peers).
Proof.
  intros Hinv. unfold poll_event_stream. destruct (event_stream d) as [fut|stream|].
  - destruct (stream_poll fut) as [[[stream|e]|] fut'];
      (eexists _, _; split; [done|]; by split; [apply (inv_same d)|]).
  - apply receive_events_ok; [done|lia].
  - by eexists _, _.
Qed.

(** What [poll] answers from a state of the invariant. *)
Lemma disc_poll_ok now d :
  inv d -> exists event d', poll now d = Ret (event, d') /\ inv d' /\
    (forall ttl peers, event = Some (QueryResult ttl peers) ->
       ttl = None /\ peers <> [] /\ find_peer_active d' = false /\
       cached_enrs d' = foldl (fun c e => cache_put (enr_peer_id e) e c) (cached_enrs d) peers).
Proof.
  intros Hinv. unfold poll. destruct (started d) eqn:Hs; [|by eexists _, _].
  destruct (process_queue_ok now d Hinv) as (d1 & -> & Hinv1 & Hs1 & Hq1 & Hc1 & Ha1). cbn -[poll_queries].
  destruct (poll_queries_ok d1 Hinv1 Hq1) as (r & d2 & -> & Hinv2 & Hc2 & _ & _ & Hr). cbn.
  destruct r as [[ttl peers]|].
  - destruct Hr as (-> & Hne & _ & Ha2). eexists _, _. split; [done|].
    split; [by apply (inv_same d2)|]. intros ttl' peers' [= <- <-].
    split; [done|]. split; [done|]. split; [done|]. cbn. by rewrite Hc2, Hc1.
  - destruct (poll_event_stream_ok d2 Hinv2) as (event & d3 & Hr3 & Hinv3 & Hne).
    exists event, d3. split; [done|]. split; [done|]. intros ttl peers Hev. by apply Hne in Hev.
Qed.

(** The work left to [poll]: the queries running or queued and the events
    waiting.  Every event it reports uses some up. *)
Definition work (d : Discovery) : nat :=
  (length (running (active_queries d)) + length (queued_queries d) +
   match event_stream d with Present stream => waiting stream | _ => 0 end)%nat.

Lemma inv_running d :
  inv d -> length (running (active_queries d)) = if find_peer_active d then 1%nat else 0%nat.
Proof. unfold inv. destruct (find_peer_active d); [by intros (-> & _)|by intros [-> _]]. Qed.

Lemma process_queue_stream now d d' :
  process_queue now d = Ret d' -> event_stream d' = event_stream d.
Proof.
  unfold process_queue. generalize (S (length (queued_queries (set_queued_queries
    (filter (fun q => expired now q = false) (queued_queries d)) d)))) as fuel.
  intros fuel Hr.
  assert (Hgen : forall n d1, process_loop n d1 = Ret d' -> event_stream d' = event_stream d1).
  { induction n as [|n IH]; intros d1; cbn [process_loop]; [done|].
    destruct (at_capacity d1); [by intros [= <-]|].
    destruct (queued_queries d1) as [|[sid ttl n'|] rest]; [by intros [= <-]|by intros ->%IH|].
    destruct (find_peer_active _); intros ->%IH; [done|].
    unfold start_query. by destruct (find_node _). }
  by rewrite (Hgen _ _ Hr).
Qed.

Lemma poll_queries_stream fuel d r d' :
  poll_queries fuel d = Ret (r, d') -> event_stream d' = event_stream d.
Proof.
  revert d; induction fuel as [|fuel IH]; intros d; cbn [poll_queries]; [done|].
  destruct (queries_poll _) as [[[[[sid ttl n|] result]|]|] qs]; try (by intros [= _ <-]).
  - by intros ->%IH.
  - destruct result as [[|e l]|e]; [by intros ->%IH|by intros [= _ <-]|by intros ->%IH].
Qed.

Lemma poll_event_stream_work d event d' :
  poll_event_stream d = Ret (event, d') ->
  active_queries d' = active_queries d /\ queued_queries d' = queued_queries d /\
  (is_Some event -> work d' < work d)%nat.
Proof.
  unfold poll_event_stream. destruct (event_stream d) as [fut|stream|] eqn:Hs.
  - destruct (stream_poll fut) as [[[stream|e]|] fut']; intros [= <- <-];
      (split_and!; [done|done|by intros [? [=]]]).
  - intros Hr.
    assert (Hgen : forall n st d1, receive_events n st d1 = Ret (event, d') ->
      active_queries d' = active_queries d1 /\ queued_queries d' = queued_queries d1 /\
      (is_Some event -> exists st', event_stream d' = Present st' /\ waiting st' < waiting st)%nat).
    { induction n as [|n IH]; intros st d1; cbn [receive_events]; [done|].
      destruct (try_recv st) as [[[socket|]|] st'] eqn:E.
      - intros [= <- <-]. apply try_recv_lt in E. split_and!; try done. intros _. by exists st'.
      - intros (Ha & Hq & Hev)%IH. apply try_recv_lt in E. split_and!; [done..|].
        intros (st2 & Hst & Hlt)%Hev. exists st2. split; [done|lia].
      - intros [= <- <-]. split_and!; [done..|by intros [? [=]]]. }
    apply Hgen in Hr as (Ha & Hq & Hev). split_and!; [done..|].
    intros (st' & Hst & Hlt)%Hev. unfold work. rewrite Ha, Hq, Hs, Hst. lia.
  - intros [= <- <-]. split_and!; [done..|by intros [? [=]]].
Qed.

(** Running queries come from the queue. *)
Lemma work_after_queries d d1 d2 :
  inv d -> inv d2 -> event_stream d2 = event_stream d -> queued_queries d2 = [] ->
  find_peer_active d1 = (find_peer_active d || bool_decide (queued_queries d = [FindPeers]))%bool ->
  (find_peer_active d2 = true -> find_peer_active d1 = true) -> (work d2 <= work d)%nat.
Proof.
  intros Hinv Hi2 Hs2 Hq2 Ha1 Hact. unfold work.
  rewrite Hs2, Hq2, (inv_running d), (inv_running d2) by done. cbn [length].
  destruct (find_peer_active d2) eqn:E2; [|lia]. rewrite (Hact eq_refl) in Ha1.
  destruct (find_peer_active d); [lia|]. cbn in Ha1. symmetry in Ha1.
  apply bool_decide_eq_true in Ha1 as ->. cbn. lia.
Qed.

(** Polling never adds work, and every event it reports uses some up. *)
Lemma poll_work now d event d' :
  inv d -> poll now d = Ret (event, d') -> is_Some event -> (work d' < work d)%nat.
Proof.
  intros Hinv. unfold poll. destruct (started d); [|by intros [= <- <-] [? [=]]].
  destruct (process_queue_ok now d Hinv) as (d1 & Hr1 & Hi1 & _ & Hq1 & _ & Ha1).
  pose proof (process_queue_stream _ _ _ Hr1) as Hs1. rewrite Hr1. cbn -[poll_queries].
  destruct (poll_queries_ok d1 Hi1 Hq1) as (r & d2 & Hr2 & Hi2 & _ & Hq2 & Hact & Hr).
  pose proof (poll_queries_stream _ _ _ _ Hr2) as Hs2. rewrite Hr2. cbn.
  assert (Hle : (work d2 + (match r with Some _ => 1 | None => 0 end) <= work d)%nat).
  { unfold work. rewrite Hs2, Hs1, Hq2, (inv_running d), (inv_running d2) by done. cbn [length].
    destruct r as [[ttl peers]|].
    - destruct Hr as (_ & _ & Ha & Ha2). rewrite Ha2. rewrite Ha in Ha1.
      destruct (find_peer_active d); [lia|]. cbn in Ha1. symmetry in Ha1.
      apply bool_decide_eq_true in Ha1 as ->. cbn. lia.
    - destruct (find_peer_active d2) eqn:E2; [|lia]. rewrite (Hact eq_refl) in Ha1.
      destruct (find_peer_active d); [lia|]. cbn in Ha1. symmetry in Ha1.
      apply bool_decide_eq_true in Ha1 as ->. cbn. lia. }
  destruct r as [[ttl peers]|].
  - intros [= <- <-] _. unfold work in *. cbn in *. lia.
  - intros (_ & _ & Hlt)%poll_event_stream_work Hev. specialize (Hlt Hev). lia.
Qed.

(** Waiting for the event stream, which happens once. *)
Definition awaiting (d : Discovery) : nat :=
  match event_stream d with Awaiting _ => 1 | _ => 0 end.

Lemma receive_events_measure n st d event d' :
  receive_events n st d = Ret (event, d') ->
  active_queries d' = active_queries d /\ queued_queries d' = queued_queries d /\
  exists st', event_stream d' = Present st' /\ (waiting st' <= waiting st)%nat.
Proof.
  revert st d; induction n as [|n IH]; intros st d; cbn [receive_events]; [done|].
  destruct (try_recv st) as [[[socket|]|] st'] eqn:E; apply try_recv_waiting in E.
  - intros [= <- <-]. split_and!; try done. exists st'. split; [done|lia].
  - intros (Ha & Hq & st2 & Hst & Hle)%IH. split_and!; [done..|]. exists st2. split; [done|lia].
  - intros [= <- <-]. split_and!; try done. exists st'. split; [done|lia].
Qed.

Lemma poll_event_stream_measure d event d' :
  poll_event_stream d = Ret (event, d') ->
  (awaiting d' < awaiting d)%nat \/ awaiting d' = awaiting d /\ (work d' <= work d)%nat.
Proof.
  unfold poll_event_stream, awaiting, work. destruct (event_stream d) as [fut|stream|] eqn:Hs.
  - destruct (stream_poll fut) as [[[stream|e]|] fut']; intros [= <- <-]; cbn; [left; lia..|by right].
  - intros (Ha & Hq & st' & Hst & Hle)%receive_events_measure. rewrite Ha, Hq, Hst. right. split; [done|lia].
  - intros [= <- <-]. rewrite Hs. by right.
Qed.

(** The measure of repeated polling. *)
Lemma poll_measure now d event d' :
  inv d -> poll now d = Ret (event, d') ->
  (awaiting d' < awaiting d)%nat \/ awaiting d' = awaiting d /\ (work d' <= work d)%nat.
Proof.
  intros Hinv. unfold poll. destruct (started d); [|intros [= <- <-]; by right].
  destruct (process_queue_ok now d Hinv) as (d1 & Hr1 & Hi1 & _ & Hq1 & _ & Ha1).
  pose proof (process_queue_stream _ _ _ Hr1) as Hs1. rewrite Hr1. cbn -[poll_queries].
  destruct (poll_queries_ok d1 Hi1 Hq1) as (r & d2 & Hr2 & Hi2 & _ & Hq2 & Hact & _).
  pose proof (poll_queries_stream _ _ _ _ Hr2) as Hs2. rewrite Hr2. cbn.
  assert (Haw : awaiting d2 = awaiting d) by (unfold awaiting; by rewrite Hs2, Hs1).
  assert (Hle : (work d2 <= work d)%nat) by (apply work_after_queries with (d1 := d1); congruence || done).
  destruct r as [[ttl peers]|].
  - intros [= <- <-]. right. split; [exact Haw|]. exact Hle.
  - intros [Hlt|[Heq Hw]]%poll_event_stream_measure; [left|right]; lia.
Qed.

Lemma discover_peers_queues d :
  inv d -> started d = true ->
  started (discover_peers d) = true /\
  (find_peer_active (discover_peers d) = true \/ queued_queries (discover_peers d) = [FindPeers]).
Proof.
  unfold inv, discover_peers. intros Hinv Hs. destruct (find_peer_active d) eqn:Ha.
  - rewrite orb_true_r. auto.
  - rewrite Hs. cbn. destruct Hinv as [_ [Hq | [Hq _]]]; rewrite Hq.
    + rewrite decide_False by apply not_elem_of_nil. cbn. rewrite Hs. auto.
    + rewrite decide_True by left. auto.
Qed.

Lemma disc_run_call_ok c d :
  inv d -> exists event d', run_call c d = Ret (event, d') /\ inv d'.
Proof.
  intros Hinv. destruct c; cbn [run_call].
  - eexists _, _. split; [done|]. by apply inv_discover_peers.
  - eexists _, _. split; [done|]. by apply (inv_same d).
  - destruct (enr_of_peer_ok peer_id d) as (e & cache & ->). eexists _, _. split; [done|].
    by apply (inv_same d).
  - eexists _, _. split; [done|]. by apply (inv_same d).
  - destruct (disc_poll_ok now d Hinv) as (event & d' & ? & ? & _). by eexists _, _.
Qed.

Lemma disc_reachable_inv d : disc_reachable d -> inv d.
Proof.
  intros (server & enr & boot & socket & disabled & Hr).
  apply rtc_ind_r with (P := inv) in Hr; [done|apply disc_inv_new|].
  intros d1 d2 _ (c & event & Hrun) Hinv.
  destruct (disc_run_call_ok c d1 Hinv) as (event' & d' & Hr' & Hinv').
  rewrite Hr' in Hrun. by injection Hrun as _ <-.
Qed.

(** ** Properties *)

(** C25: in every state discovery can reach, [poll] returns (its three loops
    terminate), at most one query runs, [find_peer_active] says exactly
    whether a search for peers is running, and while one runs none is queued;
    a result that is reported is not empty, its records are cached, and a new
    search can start afterwards. *)
Theorem discovery_single_query (now : Instant) (d : Discovery) :
  disc_reachable d ->
  (length (running (active_queries d)) <= 1)%nat /\
  (find_peer_active d = true <-> FindPeers ∈ running (active_queries d)) /\
  (find_peer_active d = true -> queued_queries d = []) /\
  exists event d', poll now d = Ret (event, d') /\ disc_reachable d' /\
    forall ttl peers, event = Some (QueryResult ttl peers) ->
      ttl = None /\ peers <> [] /\ find_peer_active d' = false /\
      cached_enrs d' = foldl (fun c e => cache_put (enr_peer_id e) e c) (cached_enrs d) peers.
Proof.
  intros Hd. pose proof (disc_reachable_inv d Hd) as Hinv.
  assert (Hstate : (length (running (active_queries d)) <= 1)%nat /\
    (find_peer_active d = true <-> FindPeers ∈ running (active_queries d)) /\
    (find_peer_active d = true -> queued_queries d = [])).
  { unfold inv in Hinv. destruct (find_peer_active d).
    - destruct Hinv as (-> & -> & _). cbn. split; [lia|]. split; [|done]. split; [left|done].
    - destruct Hinv as [-> _]. cbn. split; [lia|]. split; [|done]. split; [done|].
      intros Hin. by apply not_elem_of_nil in Hin. }
  destruct Hstate as (? & ? & ?). split; [done|]. split; [done|]. split; [done|].
  destruct (disc_poll_ok now d Hinv) as (event & d' & Hr & _ & Hev).
  exists event, d'. split; [done|]. split; [|done].
  destruct Hd as (server & enr & boot & socket & disabled & Hd). exists server, enr, boot, socket, disabled.
  eapply rtc_r; [exact Hd|]. by exists (CallDiscoveryPoll now), event.
Qed.

(** C36: asking for peers is never lost and never doubled: on a reachable,
    enabled service, any number of [discover_peers] calls followed by
    [process_queue] leaves exactly one search running and an empty queue; a
    disabled service never queues one. *)
Theorem discover_peers_runs (now : Instant) (n : nat) (d : Discovery) :
  disc_reachable d ->
  if started d then
    exists d', process_queue now (Nat.iter (S n) discover_peers d) = Ret d' /\
      running (active_queries d') = [FindPeers] /\ queued_queries d' = []
  else Nat.iter n discover_peers d = d.
Proof.
  intros Hinv%disc_reachable_inv. destruct (started d) eqn:Hs.
  - assert (Hiter : forall m, let d1 := Nat.iter (S m) discover_peers d in
      inv d1 /\ started d1 = true /\ (find_peer_active d1 = true \/ queued_queries d1 = [FindPeers])).
    { induction m as [|m IH].
      - split; [by apply inv_discover_peers|]. by apply discover_peers_queues.
      - destruct IH as (Hi & Hs1 & _). split; [by apply inv_discover_peers|].
        by apply discover_peers_queues. }
    destruct (Hiter n) as (Hi & Hs1 & Hq). set (d1 := Nat.iter _ _ _) in *.
    destruct (process_queue_ok now d1 Hi) as (d' & Hr & Hi' & _ & Hq' & _ & Ha').
    exists d'. split; [done|]. split; [|done].
    assert (find_peer_active d' = true) as Ht.
    { rewrite Ha'. destruct Hq as [-> | ->]; [done|]. by rewrite orb_true_r. }
    unfold inv in Hi'. rewrite Ht in Hi'. apply Hi'.
  - induction n as [|n IH]; [done|].
    change (discover_peers (Nat.iter n discover_peers d) = d). rewrite IH. unfold discover_peers. by rewrite Hs.
Qed.
End Discovery.

(** ** A concrete instance: a cache is an association list, the server is its
    table (the first record is its own), the future of a query is the answer
    it will give (the table), queries finish in the order they were started,
    and the event channel is a list. *)
Definition demo_discv5 : @Discv5Lib demo_libp2p demo_enrs demo_keys demo_peer_ids := {|
  Cache := list (N * DemoEnr);
  cache_new := fun _ => [];
  cache_put := fun (p : @PeerId demo_libp2p) (e : @Enr demo_libp2p demo_enrs) c => (p, e) :: c;
  cache_get := fun (p : @PeerId demo_libp2p) c =>
    ((snd <$> List.find (fun kv => bool_decide (kv.1 = p)) c
      : option (@Enr demo_libp2p demo_enrs)), c);
  Discv5 := list DemoEnr;
  QueryFuture := Result (list DemoEnr) string;
  find_node := fun s => (Ok (tail s), s);
  discv5_add_enr := fun (e : @Enr demo_libp2p demo_enrs) s => (Ok tt, s ++ [e]);
  discv5_find_enr := fun _ s => (head (tail s) : option (@Enr demo_libp2p demo_enrs));
  discv5_local_enr := fun s => (default demo_stored (head s) : @Enr demo_libp2p demo_enrs);
  discv5_enr_insert := fun _ _ s => (Ok tt, s);
  discv5_table_entries := fun s => (tail s : list (@Enr demo_libp2p demo_enrs));
  discv5_start := fun _ s => s;
  Queries := list (QueryType * Result (list DemoEnr) string);
  queries_new := [];
  queries_len := length;
  queries_push := fun q f qs => qs ++ [(q, f)];
  queries_poll := fun qs =>
    match qs with
    | [] => (Some None, [])
    | (q, r) :: qs =>
      (Some (Some (q, (r : Result (list (@Enr demo_libp2p demo_enrs)) string))), qs)
    end;
  running := fun qs => qs.*1;
  StreamFuture := list (option SocketAddr);
  Receiver := list (option SocketAddr);
  discv5_event_stream := fun _ => [None; Some (mkSocketAddr (V4 1%N) 9000%N)];
  stream_poll := fun l => (Ready (Ok l), l);
  try_recv := fun l => match l with [] => (None, []) | e :: l => (Some e, l) end;
  waiting := length;
|}.

Lemma demo_discv5_laws : @Discv5Laws demo_libp2p demo_enrs demo_keys demo_peer_ids demo_discv5 demo_key_total.
Proof.
  split; cbn.
  - done.
  - intros qs. by rewrite length_fmap.
  - intros q f qs. rewrite fmap_app. cbn. by rewrite Permutation_app_comm.
  - intros [|[q r] qs] r0 qs' [= <- <-]; cbn; done.
  - intros [|e l] e' l' [= <- <-]; cbn; lia.
Qed.

Section Witnesses.
#[local] Existing Instance demo_libp2p.
#[local] Existing Instance demo_enrs.
#[local] Existing Instance demo_keys.
#[local] Existing Instance demo_peer_ids.
#[local] Existing Instance demo_key_total.
#[local] Existing Instance demo_discv5.
#[local] Existing Instance demo_discv5_laws.

Definition demo_node : @Enr demo_libp2p demo_enrs :=
  mkDemoEnr (mkEnrFields (Some (V4 9%N)) None (Some 9001%N) []) 17%N (Byte.x04, true).
Definition demo_server : @Discv5 demo_libp2p demo_enrs demo_keys demo_peer_ids demo_discv5 := [demo_stored].
Definition demo_discovery : Discovery :=
  new demo_server demo_stored [demo_node] (mkSocketAddr (V4 7%N) 9000%N) false.

Lemma demo_discovery_asked : disc_reachable (discover_peers demo_discovery).
Proof.
  exists demo_server, demo_stored, [demo_node], (mkSocketAddr (V4 7%N) 9000%N), false.
  apply rtc_once. by exists CallDiscoverPeers, None.
Defined.

(** One search over a table of one record: it is reported and cached. *)
Lemma discovery_single_query_witness :
  disc_reachable (discover_peers demo_discovery) /\
  exists d', poll 0%N (discover_peers demo_discovery) =
      Ret (Some (QueryResult None [demo_node]), d') /\
    find_peer_active d' = false /\ cached_enrs d' = [(17%N, demo_node)].
Proof.
  split; [apply demo_discovery_asked|].
  destruct (discovery_single_query 0%N _ demo_discovery_asked) as (_ & _ & _ & event & d' & Hr & _ & Hev).
  assert (event = Some (QueryResult None [demo_node])) as ->
    by (transitivity (match poll 0%N (discover_peers demo_discovery) with
                      | Ret (ev, _) => ev | _ => None end); [by rewrite Hr|reflexivity]).
  destruct (Hev None [demo_node] eq_refl) as (_ & _ & Ha & Hc).
  exists d'. split; [exact Hr|]. split; [exact Ha|exact Hc].
Defined.

Lemma discover_peers_runs_witness :
  disc_reachable (discover_peers demo_discovery) /\
  exists d', process_queue 0%N (Nat.iter 4 discover_peers demo_discovery) = Ret d' /\
    running (active_queries d') = [FindPeers].
Proof.
  split; [apply demo_discovery_asked|].
  destruct (discover_peers_runs 0%N 2 _ demo_discovery_asked) as (d' & Hr & Hrun & _).
  exists d'. split; [exact Hr|exact Hrun].
Defined.
End Witnesses.
