(* ===== verification/Globals.v ===== *)
(** * Network globals (src/core/network/src/types/globals.rs, topics.rs)

    The state shared between the components.  Each lock and atomic is a field;
    reading or writing one is a single step of the calling operation. *)
From Stdlib Require Import NArith Strings.String.
From S2P Require Import Prelude Env RpcMethods Client PeerInfo PeerDB EnrExt.

Open Scope list_scope.

(** [struct GossipTopic] *)
Record GossipTopic := mkGossipTopic { topic : string }.

#[export] Instance GossipTopic_eq_dec : EqDecision GossipTopic.
Proof. solve_decision. Defined.
#[export] Instance GossipTopic_countable : Countable GossipTopic.
Proof.
  refine (inj_countable' topic mkGossipTopic _). by intros [].
Defined.

(** [EnrForkId] is [Vec<u8>]. *)
Definition EnrForkId := list Byte.byte.

Section Globals.
Context `{Enrs} `{HashOrder} `{BuildProfile}.

(** [struct NetworkGlobals] *)
Record NetworkGlobals := mkNetworkGlobals {
  local_enr : Enr;
  fork_id : EnrForkId;
  meta_data : list Byte.byte;
  ping_data : list Byte.byte;
  peer_id : PeerId;
  listen_multiaddrs : list Multiaddr;
  listen_port_tcp : N;
  listen_port_udp : N;
  peers : PeerDB;
  gossipsub_subscriptions : gset GossipTopic;
}.

(** [NetworkGlobals::new] *)
Definition new_globals (enr : Enr) (fork : EnrForkId) (meta ping : list Byte.byte)
    (tcp_port udp_port : N) : NetworkGlobals :=
  mkNetworkGlobals enr fork meta ping (enr_peer_id enr) [] tcp_port udp_port PeerDB.new ∅.

Definition set_local_enr (v : Enr) (g : NetworkGlobals) : NetworkGlobals :=
  mkNetworkGlobals v (fork_id g) (meta_data g) (ping_data g) (peer_id g) (listen_multiaddrs g)
    (listen_port_tcp g) (listen_port_udp g) (peers g) (gossipsub_subscriptions g).
Definition set_peers (v : PeerDB) (g : NetworkGlobals) : NetworkGlobals :=
  mkNetworkGlobals (local_enr g) (fork_id g) (meta_data g) (ping_data g) (peer_id g)
    (listen_multiaddrs g) (listen_port_tcp g) (listen_port_udp g) v (gossipsub_subscriptions g).
Definition set_gossipsub_subscriptions (v : gset GossipTopic) (g : NetworkGlobals) : NetworkGlobals :=
  mkNetworkGlobals (local_enr g) (fork_id g) (meta_data g) (ping_data g) (peer_id g)
    (listen_multiaddrs g) (listen_port_tcp g) (listen_port_udp g) (peers g) v.
Definition set_listen_multiaddrs (v : list Multiaddr) (g : NetworkGlobals) : NetworkGlobals :=
  mkNetworkGlobals (local_enr g) (fork_id g) (meta_data g) (ping_data g) (peer_id g)
    v (listen_port_tcp g) (listen_port_udp g) (peers g) (gossipsub_subscriptions g).

(** [NetworkGlobals::connected_peers] and [connected_or_dialing_peers] *)
Definition count_connected_peers (g : NetworkGlobals) : nat :=
  length (connected_peer_ids (peers g)).

Definition count_connected_or_dialing_peers (g : NetworkGlobals) : nat :=
  length (connected_or_dialing_peers (peers g)).

(** [NetworkGlobals::client] *)
Definition globals_client (p : PeerId) (g : NetworkGlobals) : Client :=
  default Client_default (client <$> peer_info p (peers g)).

End Globals.
