(* ===== verification/PeerManager.v ===== *)
(** * The peer manager (src/core/network/src/peer_manager/mod.rs)

    The manager owns the ping and status timers, the discovery service and a
    queue of events for the behaviour; it writes the peer database through the
    network globals.  Each method of [impl PeerManager] is a definition from
    the state before to the state after, and [poll_next] is the stream.

    One call of [poll_next] takes one instant [now]; the heartbeat interval is
    tokio's ([IntervalLib]), of which the program relies on a single fact: the
    ticks of one instant are finitely many. *)
From Stdlib Require Import NArith Strings.String.
From S2P Require Import Prelude Env RpcMethods RpcProtocol Client PeerInfo PeerDB DelayQueue.
From S2P Require Import HashSetDelay EnrExt Keys Discovery Globals.

Open Scope list_scope.

(** [_MIN_REP_BEFORE_BAN] is declared and never read. *)
Definition STATUS_INTERVAL : N := 300.
Definition PING_INTERVAL : N := 30.
Definition HEARTBEAT_INTERVAL : N := 30.

(** [tokio::time::Interval] *)
Class IntervalLib := {
  Interval : Type;
  interval : Duration -> Interval;
  (** [true] is [Poll::Ready(Some(_))]. *)
  interval_poll : Instant -> Interval -> bool * Interval;
  (** The ticks not yet taken. *)
  ticks : Instant -> Interval -> nat;
}.

Class IntervalLaws `{IntervalLib} := {
  interval_poll_ticks : forall now i ready i', interval_poll now i = (ready, i') ->
    (ticks now i' + (if ready then 1 else 0) <= ticks now i)%nat;
}.

(** [enum PeerAction] *)
Inductive PeerAction :=
| Fatal
| HighToleranceError
| MidToleranceError
| LowToleranceError
| ValidMessage.

Definition rep_change (a : PeerAction) : RepChange :=
  match a with
  | Fatal => worst
  | LowToleranceError => bad 60
  | MidToleranceError => bad 25
  | HighToleranceError => bad 15
  | ValidMessage => good 20
  end.

(** [enum ConnectingType] *)
Inductive ConnectingType := Connecting_Dialing | IngoingConnected | OutgoingConnected.

Section PeerManager.
Context `{Discv5Lib} `{HashOrder} `{BuildProfile} `{DelayQueue} `{IntervalLib}.

(** [enum PeerManagerEvent] *)
Inductive PeerManagerEvent :=
| Event_Dial (peer_id : PeerId)
| Event_SocketUpdated (address : Multiaddr)
| Event_Status (peer_id : PeerId)
| Event_Ping (peer_id : PeerId)
| Event_MetaData (peer_id : PeerId)
| Event_DisconnectPeer (peer_id : PeerId).

(** [struct PeerManager] *)
Record PeerManager := mkPeerManager {
  network_globals : NetworkGlobals;
  events : list PeerManagerEvent;
  ping_peers : HashSetDelay (K := PeerId);
  status_peers : HashSetDelay (K := PeerId);
  target_peers : nat;
  discovery : Discovery;
  heartbeat_timer : Interval;
}.

(** The database behind [self.network_globals.peers]. *)
Definition peerdb (pm : PeerManager) : PeerDB := Globals.peers (network_globals pm).

Definition set_network_globals v pm :=
  mkPeerManager v (events pm) (ping_peers pm) (status_peers pm) (target_peers pm) (discovery pm)
    (heartbeat_timer pm).
Definition set_events v pm :=
  mkPeerManager (network_globals pm) v (ping_peers pm) (status_peers pm) (target_peers pm)
    (discovery pm) (heartbeat_timer pm).
Definition set_ping_peers v pm :=
  mkPeerManager (network_globals pm) (events pm) v (status_peers pm) (target_peers pm)
    (discovery pm) (heartbeat_timer pm).
Definition set_status_peers v pm :=
  mkPeerManager (network_globals pm) (events pm) (ping_peers pm) v (target_peers pm)
    (discovery pm) (heartbeat_timer pm).
Definition set_discovery v pm :=
  mkPeerManager (network_globals pm) (events pm) (ping_peers pm) (status_peers pm)
    (target_peers pm) v (heartbeat_timer pm).
Definition set_heartbeat_timer v pm :=
  mkPeerManager (network_globals pm) (events pm) (ping_peers pm) (status_peers pm)
    (target_peers pm) (discovery pm) v.
Definition set_peerdb (db : PeerDB) (pm : PeerManager) : PeerManager :=
  set_network_globals (set_peers db (network_globals pm)) pm.
Definition push_event (e : PeerManagerEvent) (pm : PeerManager) : PeerManager :=
  set_events (events pm ++ [e]) pm.

(** [PeerManager::new], with the discv5 server already built. *)
Definition new (server : Discv5) (boot_nodes : list Enr) (listen_socket : SocketAddr)
    (disable_discovery : bool) (max_peers : nat) (globals : NetworkGlobals) : PeerManager :=
  let d := Discovery.new server (local_enr globals) boot_nodes listen_socket disable_discovery in
  let d := discover_peers d in
  mkPeerManager globals [] (HashSetDelay.new (from_secs PING_INTERVAL))
    (HashSetDelay.new (from_secs STATUS_INTERVAL)) max_peers d
    (interval (from_secs HEARTBEAT_INTERVAL)).

Definition peer_statusd (now : Instant) (peer_id : PeerId) (pm : PeerManager) : Outcome PeerManager :=
  s ← insert now peer_id (status_peers pm);
  mret (set_status_peers s pm).

Definition notify_disconnect (now : Instant) (peer_id : PeerId) (pm : PeerManager)
    : Outcome PeerManager :=
  db ← PeerDB.disconnect now peer_id (peerdb pm);
  let pm := set_peerdb db pm in
  '(_, s) ← remove peer_id (ping_peers pm);
  let pm := set_ping_peers s pm in
  '(_, s) ← remove peer_id (status_peers pm);
  mret (set_status_peers s pm).

(** [connect_peer]: the banned case of the source is an empty block. *)
Definition connect_peer (now : Instant) (peer_id : PeerId) (connection : ConnectingType)
    (pm : PeerManager) : Outcome (bool * PeerManager) :=
  db ← match connection with
       | Connecting_Dialing => mret (PeerDB.dialing_peer now peer_id (peerdb pm))
       | IngoingConnected => PeerDB.connect_outgoing peer_id (peerdb pm)
       | OutgoingConnected => PeerDB.connect_ingoing peer_id (peerdb pm)
       end;
  let pm := set_peerdb db pm in
  s ← insert now peer_id (ping_peers pm);
  let pm := set_ping_peers s pm in
  s ← insert now peer_id (status_peers pm);
  mret (true, set_status_peers s pm).

Definition connect_ingoing now peer_id pm := connect_peer now peer_id IngoingConnected pm.
Definition connect_outgoing now peer_id pm := connect_peer now peer_id OutgoingConnected pm.
Definition dialing_peer now peer_id pm := connect_peer now peer_id Connecting_Dialing pm.

Definition report_peer (peer_id : PeerId) (action : PeerAction) (pm : PeerManager) : PeerManager :=
  set_peerdb (add_reputation peer_id (rep_change action) (peerdb pm)) pm.

Definition identify (peer_id : PeerId) (info : IdentifyInfo) (pm : PeerManager) : PeerManager :=
  match peer_info peer_id (peerdb pm) with
  | Some _ =>
    set_peerdb
      (peer_info_mut peer_id
         (fun i => set_listening_addresses (listen_addrs info) (set_client (from_identify_info info) i))
         (peerdb pm)) pm
  | None => pm
  end.

(** The action [handle_rpc_error] maps an error to; [None] is a return. *)
Definition peer_action (protocol : Protocol) (err : RPCError) : option PeerAction :=
  match err with
  | IncompleteStream => Some MidToleranceError
  | InternalError _ | HandlerRejected => None
  | InvalidData => Some Fatal
  | IoError _ => Some HighToleranceError
  | ErrorResponse code _ =>
    match code with
    | Code_Unknown => Some HighToleranceError
    | Code_ServerError => Some MidToleranceError
    | Code_InvalidRequest => Some LowToleranceError
    end
  | DecodeError => Some Fatal
  | UnsupportedProtocol =>
    match protocol with
    | Protocol_Ping => Some Fatal
    | Protocol_Goodbye => None
    | Protocol_MetaData => Some LowToleranceError
    | Protocol_Status => Some LowToleranceError
    end
  | StreamTimeout =>
    match protocol with
    | Protocol_Ping => Some LowToleranceError
    | Protocol_Goodbye => None
    | Protocol_MetaData => None
    | Protocol_Status => None
    end
  | NegotiationTimeout => Some HighToleranceError
  end.

Definition handle_rpc_error (peer_id : PeerId) (protocol : Protocol) (err : RPCError)
    (pm : PeerManager) : PeerManager :=
  match peer_action protocol err with
  | Some action => report_peer peer_id action pm
  | None => pm
  end.

Definition ping_request (now : Instant) (peer_id : PeerId) (seq : N) (pm : PeerManager)
    : Outcome PeerManager :=
  match peer_info peer_id (peerdb pm) with
  | Some peer_info =>
    s ← insert now peer_id (ping_peers pm);
    let pm := set_ping_peers s pm in
    match PeerInfo.meta_data peer_info with
    | Some meta_data =>
      mret (if decide (seq_number meta_data < seq)%N then push_event (Event_MetaData peer_id) pm else pm)
    | None => mret (push_event (Event_MetaData peer_id) pm)
    end
  | None => mret pm
  end.

Definition pong_response (peer_id : PeerId) (seq : N) (pm : PeerManager) : PeerManager :=
  match peer_info peer_id (peerdb pm) with
  | Some peer_info =>
    match PeerInfo.meta_data peer_info with
    | Some meta_data =>
      if decide (seq_number meta_data < seq)%N then push_event (Event_MetaData peer_id) pm else pm
    | None => push_event (Event_MetaData peer_id) pm
    end
  | None => pm
  end.

Definition meta_data_response (peer_id : PeerId) (meta_data : MetaData) (pm : PeerManager)
    : PeerManager :=
  match peer_info peer_id (peerdb pm) with
  | Some peer_info =>
    match PeerInfo.meta_data peer_info with
    | Some known_meta_data =>
      if decide (seq_number known_meta_data < seq_number meta_data)%N then
        set_peerdb (peer_info_mut peer_id (set_meta_data (Some meta_data)) (peerdb pm)) pm
      else pm
    | None => set_peerdb (peer_info_mut peer_id (set_meta_data (Some meta_data)) (peerdb pm)) pm
    end
  | None => pm
  end.

Definition addresses_of_peer (peer_id : PeerId) (pm : PeerManager)
    : Outcome (list Multiaddr * PeerManager) :=
  '(enr, d) ← enr_of_peer peer_id (discovery pm);
  let pm := set_discovery d pm in
  match enr with
  | Some enr =>
    let out_list := enr_multiaddr enr in
    mret (filter (fun addr => has_udp addr = false) out_list, pm)
  | None => mret ([], pm)
  end.

Definition socket_updated (socket : SocketAddr) (pm : PeerManager) : PeerManager :=
  let multiaddr := ma_from_ip (socket_ip socket) in
  let multiaddr := ma_push (M_Tcp (listen_port_tcp (network_globals pm))) multiaddr in
  push_event (Event_SocketUpdated multiaddr) pm.

(** The guard of the loop of [peers_discovered]. *)
Definition should_dial (peer_id : PeerId) (pm : PeerManager) : bool :=
  bool_decide (count_connected_or_dialing_peers (network_globals pm) < target_peers pm)%nat &&
  negb (is_connected_or_dialing peer_id (peerdb pm)) &&
  negb (peer_banned peer_id (peerdb pm)).

Definition peer_discovered (min_ttl : option Instant) (pm : PeerManager) (enr : Enr) : PeerManager :=
  let peer_id := enr_peer_id enr in
  if should_dial peer_id pm then
    let pm :=
      match min_ttl with
      | Some min_ttl => set_peerdb (update_min_ttl peer_id min_ttl (peerdb pm)) pm
      | None => pm
      end in
    push_event (Event_Dial peer_id) pm
  else pm.

Definition peers_discovered (peers : list Enr) (min_ttl : option Instant) (pm : PeerManager)
    : PeerManager := foldl (peer_discovered min_ttl) pm peers.

Definition heartbeat (pm : PeerManager) : PeerManager :=
  let peer_count := count_connected_or_dialing_peers (network_globals pm) in
  if decide (peer_count < target_peers pm)%nat then
    set_discovery (discover_peers (discovery pm)) pm
  else pm.

(** ** [poll_next] *)

Fixpoint heartbeat_loop (fuel : nat) (now : Instant) (pm : PeerManager) : Outcome PeerManager :=
  match fuel with
  | O => OutOfFuel
  | S fuel =>
    let '(ready, i) := interval_poll now (heartbeat_timer pm) in
    let pm := set_heartbeat_timer i pm in
    if ready then heartbeat_loop fuel now (heartbeat pm) else mret pm
  end.

Fixpoint discovery_loop (fuel : nat) (now : Instant) (pm : PeerManager) : Outcome PeerManager :=
  match fuel with
  | O => OutOfFuel
  | S fuel =>
    '(event, d) ← Discovery.poll now (discovery pm);
    let pm := set_discovery d pm in
    match event with
    | Some (SocketUpdated socket_addr) => discovery_loop fuel now (socket_updated socket_addr pm)
    | Some (QueryResult min_ttl peers) =>
      discovery_loop fuel now (peers_discovered peers min_ttl pm)
    | None => mret pm
    end
  end.

Fixpoint ping_loop (fuel : nat) (now : Instant) (pm : PeerManager) : Outcome PeerManager :=
  match fuel with
  | O => OutOfFuel
  | S fuel =>
    let '(r, s) := HashSetDelay.poll_next now (ping_peers pm) in
    let pm := set_ping_peers s pm in
    match r with
    | Some (Some (Ok peer_id)) =>
      s ← insert now peer_id (ping_peers pm);
      ping_loop fuel now (push_event (Event_Ping peer_id) (set_ping_peers s pm))
    | Some (Some (Err _)) => ping_loop fuel now pm
    | Some None | None => mret pm
    end
  end.

Fixpoint status_loop (fuel : nat) (now : Instant) (pm : PeerManager) : Outcome PeerManager :=
  match fuel with
  | O => OutOfFuel
  | S fuel =>
    let '(r, s) := HashSetDelay.poll_next now (status_peers pm) in
    let pm := set_status_peers s pm in
    match r with
    | Some (Some (Ok peer_id)) =>
      s ← insert now peer_id (status_peers pm);
      status_loop fuel now (push_event (Event_Status peer_id) (set_status_peers s pm))
    | Some (Some (Err _)) => status_loop fuel now pm
    | Some None | None => mret pm
    end
  end.

(** [None] is [Poll::Pending]. *)
Definition poll_next (now : Instant) (pm : PeerManager)
    : Outcome (option PeerManagerEvent * PeerManager) :=
  pm ← heartbeat_loop (S (ticks now (heartbeat_timer pm))) now pm;
  pm ← discovery_loop (S (work (discovery pm))) now pm;
  pm ← ping_loop (S (due now (ping_peers pm))) now pm;
  pm ← status_loop (S (due now (status_peers pm))) now pm;
  match events pm with
  | e :: rest => mret (Some e, set_events rest pm)
  | [] => mret (None, pm)
  end.

(** The calls the behaviour makes through [discovery_mut]; discovery writes the
    [local_enr] of the globals. *)
Definition discovery_mut (call : DiscoveryCall) (pm : PeerManager) : Outcome PeerManager :=
  '(_, d) ← run_call call (discovery pm);
  mret (set_network_globals (set_local_enr (global_enr d) (network_globals pm)) (set_discovery d pm)).

(** The calls of the rest of the program. *)
Inductive ManagerCall :=
| Call_peer_statusd (peer_id : PeerId)
| Call_notify_disconnect (peer_id : PeerId)
| Call_connect (peer_id : PeerId) (connection : ConnectingType)
| Call_report_peer (peer_id : PeerId) (action : PeerAction)
| Call_identify (peer_id : PeerId) (info : IdentifyInfo)
| Call_handle_rpc_error (peer_id : PeerId) (protocol : Protocol) (err : RPCError)
| Call_ping_request (peer_id : PeerId) (seq : N)
| Call_pong_response (peer_id : PeerId) (seq : N)
| Call_meta_data_response (peer_id : PeerId) (meta_data : MetaData)
| Call_addresses_of_peer (peer_id : PeerId)
| Call_discovery (call : DiscoveryCall)
| Call_poll_next.

Definition run_manager (now : Instant) (c : ManagerCall) (pm : PeerManager) : Outcome PeerManager :=
  match c with
  | Call_peer_statusd p => peer_statusd now p pm
  | Call_notify_disconnect p => notify_disconnect now p pm
  | Call_connect p connection => snd <$> connect_peer now p connection pm
  | Call_report_peer p action => mret (report_peer p action pm)
  | Call_identify p info => mret (identify p info pm)
  | Call_handle_rpc_error p protocol err => mret (handle_rpc_error p protocol err pm)
  | Call_ping_request p seq => ping_request now p seq pm
  | Call_pong_response p seq => mret (pong_response p seq pm)
  | Call_meta_data_response p m => mret (meta_data_response p m pm)
  | Call_addresses_of_peer p => '(_, pm) ← addresses_of_peer p pm; mret pm
  | Call_discovery call => discovery_mut call pm
  | Call_poll_next => snd <$> poll_next now pm
  end.

(** ** Invariant *)

Record mwf (pm : PeerManager) : Prop := {
  mwf_db : PeerDB.wf (peerdb pm);
  mwf_ping : HashSetDelay.wf (ping_peers pm);
  mwf_status : HashSetDelay.wf (status_peers pm);
  mwf_ping_timeout : default_entry_timeout (ping_peers pm) = from_secs PING_INTERVAL;
  mwf_status_timeout : default_entry_timeout (status_peers pm) = from_secs STATUS_INTERVAL;
  mwf_discovery : Discovery.inv (discovery pm);
}.

(** A connection can be counted: its [u8] counter has room, or the build wraps
    around. *)
Definition has_room (peer_id : PeerId) (connection : ConnectingType) (pm : PeerManager) : Prop :=
  let '(n_in, n_out) := connections (connection_status (entry_or_default peer_id (peerdb pm))) in
  overflow_checks = false \/
  match connection with
  | Connecting_Dialing => True
  | IngoingConnected => (n_out < 255)%Z
  | OutgoingConnected => (n_in < 255)%Z
  end.

Definition call_has_room (c : ManagerCall) (pm : PeerManager) : Prop :=
  match c with Call_connect p connection => has_room p connection pm | _ => True end.

Definition manager_step (pm pm' : PeerManager) : Prop :=
  exists now c, run_manager now c pm = Ret pm'.

(** The managers of a running node: fresh globals, then any calls. *)
Definition manager_reachable (pm : PeerManager) : Prop :=
  exists server boot_nodes socket disabled max enr fork meta ping tcp udp,
    rtc manager_step
      (new server boot_nodes socket disabled max (new_globals enr fork meta ping tcp udp)) pm.

Context `{!KeyTotal} `{!Discv5Laws} `{!DelayQueueLaws} `{!DelayQueueAlive} `{!IntervalLaws}.

Lemma addresses_of_peer_ok peer_id pm :
  exists addrs c, addresses_of_peer peer_id pm =
    Ret (addrs, set_discovery (set_cached_enrs c (discovery pm)) pm).
Proof.
  unfold addresses_of_peer. destruct (enr_of_peer_ok peer_id (discovery pm)) as ([e|] & c & ->);
    by eexists _, _.
Qed.

Create HintDb manager.

Lemma mwf_set_peerdb db pm : PeerDB.wf db -> mwf pm -> mwf (set_peerdb db pm).
Proof. intros Hdb []. by split. Qed.
Lemma mwf_set_events v pm : mwf pm -> mwf (set_events v pm).
Proof. intros []. by split. Qed.
Lemma mwf_set_discovery v pm : Discovery.inv v -> mwf pm -> mwf (set_discovery v pm).
Proof. intros Hd []. by split. Qed.
Lemma mwf_set_heartbeat v pm : mwf pm -> mwf (set_heartbeat_timer v pm).
Proof. intros []. by split. Qed.
Lemma mwf_set_ping v pm :
  HashSetDelay.wf v -> default_entry_timeout v = from_secs PING_INTERVAL -> mwf pm ->
  mwf (set_ping_peers v pm).
Proof. intros Hv Ht []. by split. Qed.
Lemma mwf_set_status v pm :
  HashSetDelay.wf v -> default_entry_timeout v = from_secs STATUS_INTERVAL -> mwf pm ->
  mwf (set_status_peers v pm).
Proof. intros Hv Ht []. by split. Qed.
#[local] Hint Resolve mwf_set_peerdb mwf_set_events mwf_set_discovery mwf_set_heartbeat mwf_set_ping mwf_set_status : manager.
#[local] Hint Resolve mwf_db mwf_ping mwf_status mwf_discovery : manager.

Lemma mwf_set_globals g pm :
  Globals.peers g = Globals.peers (network_globals pm) -> mwf pm -> mwf (set_network_globals g pm).
Proof. intros Hg []. split; try done. unfold peerdb. cbn. by rewrite Hg. Qed.

Lemma mwf_new server boot_nodes socket disabled max enr fork meta ping tcp udp :
  mwf (new server boot_nodes socket disabled max (new_globals enr fork meta ping tcp udp)).
Proof.
  split; cbn; [apply PeerDB.wf_new|apply set_wf_new..|done|done|].
  by apply inv_discover_peers, disc_inv_new.
Qed.

(** *** Timers *)

Lemma ping_accepted pm : mwf pm -> (default_entry_timeout (ping_peers pm) <= dq_limit)%N.
Proof. intros Hm. rewrite mwf_ping_timeout by done. by apply within_day. Qed.

Lemma status_accepted pm : mwf pm -> (default_entry_timeout (status_peers pm) <= dq_limit)%N.
Proof. intros Hm. rewrite mwf_status_timeout by done. by apply within_day. Qed.

(** Restarting a peer's timer. *)
Lemma insert_ok now p (s : HashSetDelay (K := PeerId)) :
  HashSetDelay.wf s -> (default_entry_timeout s <= dq_limit)%N -> exists s', insert now p s = Ret s' /\ HashSetDelay.wf s' /\
    default_entry_timeout s' = default_entry_timeout s /\
    forall q, deadline s' q = if decide (q = p) then Some (now + default_entry_timeout s)%N
                              else deadline s q.
Proof. intros Hwf Hlim. by apply insert_at_spec. Qed.

Lemma ping_loop_refresh fuel now pm :
  ping_loop fuel now pm =
  ('(ks, s) ← refresh_loop fuel now (ping_peers pm);
   mret (set_events (events pm ++ (Event_Ping <$> ks)) (set_ping_peers s pm))).
Proof.
  revert pm; induction fuel as [|fuel IH]; intros pm; [done|]. cbn [ping_loop refresh_loop].
  destruct (HashSetDelay.poll_next now (ping_peers pm)) as [[[[k|e]|]|] s]; cbn.
  - destruct (insert now k s) as [s'| |]; cbn; [|done..]. rewrite IH. cbn.
    destruct (refresh_loop fuel now s') as [[ks s2]| |]; cbn; [|done..]. by rewrite <-app_assoc.
  - by rewrite IH.
  - by rewrite app_nil_r.
  - by rewrite app_nil_r.
Qed.

Lemma status_loop_refresh fuel now pm :
  status_loop fuel now pm =
  ('(ks, s) ← refresh_loop fuel now (status_peers pm);
   mret (set_events (events pm ++ (Event_Status <$> ks)) (set_status_peers s pm))).
Proof.
  revert pm; induction fuel as [|fuel IH]; intros pm; [done|]. cbn [status_loop refresh_loop].
  destruct (HashSetDelay.poll_next now (status_peers pm)) as [[[[k|e]|]|] s]; cbn.
  - destruct (insert now k s) as [s'| |]; cbn; [|done..]. rewrite IH. cbn.
    destruct (refresh_loop fuel now s') as [[ks s2]| |]; cbn; [|done..]. by rewrite <-app_assoc.
  - by rewrite IH.
  - by rewrite app_nil_r.
  - by rewrite app_nil_r.
Qed.

(** What a timer loop did: the peers it reports, each due, each restarted. *)
Definition refreshed (now : Instant) (s s' : HashSetDelay (K := PeerId)) (ks : list PeerId) : Prop :=
  NoDup ks /\
  (forall p, p ∈ ks -> exists t, deadline s p = Some t /\ (t <= now)%N) /\
  forall p, deadline s' p =
    if decide (p ∈ ks) then Some (now + default_entry_timeout s)%N else deadline s p.

Lemma ping_loop_ok now pm :
  mwf pm -> exists ks s', ping_loop (S (due now (ping_peers pm))) now pm =
      Ret (set_events (events pm ++ (Event_Ping <$> ks)) (set_ping_peers s' pm)) /\
    mwf (set_events (events pm ++ (Event_Ping <$> ks)) (set_ping_peers s' pm)) /\
    refreshed now (ping_peers pm) s' ks.
Proof.
  intros Hm. destruct (refresh_loop_ok (S (due now (ping_peers pm))) now (ping_peers pm))
    as (ks & s' & Hr & Hwf & Ht & Hspec); [apply Hm|by rewrite mwf_ping_timeout|by apply ping_accepted|apply Nat.lt_succ_diag_r|].
  exists ks, s'. rewrite ping_loop_refresh, Hr. split; [done|]. split; [|done].
  rewrite (mwf_ping_timeout _ Hm) in Ht. auto with manager.
Qed.

Lemma status_loop_ok now pm :
  mwf pm -> exists ks s', status_loop (S (due now (status_peers pm))) now pm =
      Ret (set_events (events pm ++ (Event_Status <$> ks)) (set_status_peers s' pm)) /\
    mwf (set_events (events pm ++ (Event_Status <$> ks)) (set_status_peers s' pm)) /\
    refreshed now (status_peers pm) s' ks.
Proof.
  intros Hm. destruct (refresh_loop_ok (S (due now (status_peers pm))) now (status_peers pm))
    as (ks & s' & Hr & Hwf & Ht & Hspec); [apply Hm|by rewrite mwf_status_timeout|by apply status_accepted|apply Nat.lt_succ_diag_r|].
  exists ks, s'. rewrite status_loop_refresh, Hr. split; [done|]. split; [|done].
  rewrite (mwf_status_timeout _ Hm) in Ht. auto with manager.
Qed.

(** *** Dialing discovered peers *)

(** Raising a minimum time to live changes no status. *)
Lemma update_min_ttl_status p ttl q db :
  PeerInfo.connection_status <$> PeerDB.peers (update_min_ttl p ttl db) !! q =
  if decide (q = p) then Some (connection_status (entry_or_default p db))
  else connection_status <$> PeerDB.peers db !! q.
Proof.
  unfold update_min_ttl. cbn. case_decide as Hq; [subst; rewrite lookup_insert_eq|by rewrite lookup_insert_ne].
  cbn. by rewrite (proj1 (ttl_update_status _ _)).
Qed.

Lemma count_status_update_min_ttl (f : PeerInfo -> bool) p ttl db :
  (forall i j, connection_status i = connection_status j -> f i = f j) ->
  f PeerInfo_default = false ->
  count_values f (PeerDB.peers (update_min_ttl p ttl db)) = count_values f (PeerDB.peers db).
Proof.
  intros Hf Hd. unfold update_min_ttl. cbn.
  pose proof (count_values_insert f (PeerDB.peers db) p (ttl_update ttl (entry_or_default p db))) as Hc.
  rewrite (Hf (ttl_update ttl (entry_or_default p db)) (entry_or_default p db)) in Hc
    by apply ttl_update_status.
  unfold entry_or_default in *. destruct (PeerDB.peers db !! p); cbn in *; [|rewrite Hd in Hc]; lia.
Qed.

Lemma count_connected_or_dialing g :
  count_connected_or_dialing_peers g =
  count_values (fun info => is_connected (connection_status info) ||
                            is_dialing (connection_status info))%bool (PeerDB.peers (Globals.peers g)).
Proof.
  unfold count_connected_or_dialing_peers, connected_or_dialing_peers, filter_peers.
  rewrite length_fmap. apply (length_filter_hm_iter (fun info =>
    is_connected (connection_status info) || is_dialing (connection_status info))%bool).
Qed.

Lemma peerdb_set_peerdb db pm : peerdb (set_peerdb db pm) = db.
Proof. done. Qed.

(** The two tests on a peer read its status only. *)
Lemma should_dial_status q pm :
  should_dial q pm =
    (bool_decide (count_connected_or_dialing_peers (network_globals pm) < target_peers pm)%nat &&
     match connection_status <$> PeerDB.peers (peerdb pm) !! q with
     | Some (Connected _ _) | Some (Dialing _) | Some (Banned _) => false
     | _ => true
     end)%bool.
Proof.
  unfold should_dial, is_connected_or_dialing, peer_banned, get_connection_status, peer_info.
  rewrite <-andb_assoc. f_equal. destruct (_ <$> _) as [[]|]; done.
Qed.

Lemma should_dial_update p ttl q pm :
  should_dial q (set_peerdb (update_min_ttl p ttl (peerdb pm)) pm) = should_dial q pm.
Proof.
  rewrite !should_dial_status, !count_connected_or_dialing, peerdb_set_peerdb.
  change (Globals.peers (network_globals (set_peerdb ?db pm))) with db.
  change (target_peers (set_peerdb ?db pm)) with (target_peers pm).
  rewrite count_status_update_min_ttl by (by intros ? ? -> || done). f_equal.
  rewrite update_min_ttl_status. case_decide as Heq; [subst q|done].
  unfold entry_or_default. by destruct (PeerDB.peers _ !! p).
Qed.

Lemma peer_discovered_spec ttl pm enr :
  let pm' := peer_discovered ttl pm enr in
  events pm' = events pm ++ (if should_dial (enr_peer_id enr) pm then [Event_Dial (enr_peer_id enr)] else []) /\
  ping_peers pm' = ping_peers pm /\ status_peers pm' = status_peers pm /\
  target_peers pm' = target_peers pm /\ discovery pm' = discovery pm /\
  (forall q, should_dial q pm' = should_dial q pm) /\
  (ttl = None -> peerdb pm' = peerdb pm) /\ (mwf pm -> mwf pm').
Proof.
  unfold peer_discovered. destruct (should_dial (enr_peer_id enr) pm) eqn:E;
    [|cbn; rewrite app_nil_r; by split_and!].
  destruct ttl as [ttl|]; cbn -[should_dial]; split_and!; try done.
  - intros q. apply (should_dial_update (enr_peer_id enr) ttl).
  - intros Hm. apply mwf_set_events, mwf_set_peerdb; [|done].
    by apply (run_op_wf 0%N (OpUpdateMinTtl (enr_peer_id enr) ttl) (peerdb pm)); [apply Hm| |].
  - apply mwf_set_events.
Qed.

Lemma peers_discovered_ok peers ttl pm :
  let pm' := peers_discovered peers ttl pm in
  events pm' = events pm ++
    (Event_Dial <$> filter (fun p => should_dial p pm = true) (enr_peer_id <$> peers)) /\
  ping_peers pm' = ping_peers pm /\ status_peers pm' = status_peers pm /\
  target_peers pm' = target_peers pm /\ discovery pm' = discovery pm /\
  (forall q, should_dial q pm' = should_dial q pm) /\
  (ttl = None -> peerdb pm' = peerdb pm) /\ (mwf pm -> mwf pm').
Proof.
  unfold peers_discovered. revert pm; induction peers as [|enr peers IH]; intros pm; cbn [foldl].
  { cbn. rewrite app_nil_r. by split_and!. }
  destruct (peer_discovered_spec ttl pm enr) as (He & Hp & Hs & Ht & Hd & Hsd & Hdb & Hm).
  destruct (IH (peer_discovered ttl pm enr)) as (He' & Hp' & Hs' & Ht' & Hd' & Hsd' & Hdb' & Hm').
  split_and!; try congruence; auto.
  - cbv zeta. rewrite He', He, <-app_assoc. f_equal.
    rewrite fmap_cons, filter_cons.
    rewrite (list_filter_iff (fun p => should_dial p (peer_discovered ttl pm enr) = true)
               (fun p => should_dial p pm = true)) by (intros q; by rewrite Hsd).
    destruct (should_dial (enr_peer_id enr) pm); by case_decide.
  - intros Hn. rewrite <-Hdb by done. by apply Hdb'.
Qed.

(** A peer is to be kept until [t] at least. *)
Definition ttl_at_least (t : Instant) (p : PeerId) (db : PeerDB) : Prop :=
  exists info m, PeerDB.peers db !! p = Some info /\ min_ttl info = Some m /\ (t <= m)%N.

Lemma ttl_update_max t info :
  min_ttl (ttl_update t info) = Some (match min_ttl info with Some m => N.max t m | None => t end).
Proof.
  unfold ttl_update, ttl_gt. destruct (min_ttl info) as [m|] eqn:E; cbn; [|done].
  case_bool_decide; cbn; [|rewrite E]; f_equal; unfold Instant in *; lia.
Qed.

Lemma update_min_ttl_at_least t p db : ttl_at_least t p (update_min_ttl p t db).
Proof.
  unfold ttl_at_least, update_min_ttl. cbn. rewrite lookup_insert_eq. eexists _, _.
  split; [done|]. rewrite ttl_update_max. split; [done|]. unfold Instant in *. case_match; lia.
Qed.

Lemma ttl_at_least_update t p q t' db : ttl_at_least t p db -> ttl_at_least t p (update_min_ttl q t' db).
Proof.
  intros (info & m & Hp & Hm & Hle). unfold ttl_at_least, update_min_ttl. cbn.
  destruct (decide (q = p)) as [->|].
  - rewrite lookup_insert_eq. eexists _, _. split; [done|]. rewrite ttl_update_max.
    split; [done|]. unfold entry_or_default. rewrite Hp. cbn. rewrite Hm. unfold Instant in *. lia.
  - rewrite lookup_insert_ne by done. eauto.
Qed.

Lemma peers_discovered_ttl_kept t t' p found pm :
  ttl_at_least t p (peerdb pm) -> ttl_at_least t p (peerdb (peers_discovered found (Some t') pm)).
Proof.
  unfold peers_discovered. revert pm; induction found as [|enr found IH]; intros pm Ht; [done|].
  cbn [foldl]. apply IH. unfold peer_discovered. destruct (should_dial _ pm); [|done].
  by apply ttl_at_least_update.
Qed.

Lemma peers_discovered_ttl t p found pm :
  p ∈ (enr_peer_id <$> found) -> should_dial p pm = true ->
  ttl_at_least t p (peerdb (peers_discovered found (Some t) pm)).
Proof.
  revert pm; induction found as [|enr found IH]; intros pm Hin Hsd; [by apply not_elem_of_nil in Hin|].
  rewrite fmap_cons, elem_of_cons in Hin.
  change (peers_discovered (enr :: found) (Some t) pm)
    with (peers_discovered found (Some t) (peer_discovered (Some t) pm enr)).
  destruct Hin as [->|Hin].
  - apply peers_discovered_ttl_kept. unfold peer_discovered. rewrite Hsd. apply update_min_ttl_at_least.
  - apply IH; [done|]. destruct (peer_discovered_spec (Some t) pm enr) as (_ & _ & _ & _ & _ & Hs & _).
    by rewrite <-Hsd.
Qed.

(** *** The loops of [poll_next] *)

(** What a heartbeat leaves alone. *)
Definition same_but_discovery (pm pm' : PeerManager) : Prop :=
  network_globals pm' = network_globals pm /\ events pm' = events pm /\
  ping_peers pm' = ping_peers pm /\ status_peers pm' = status_peers pm /\
  target_peers pm' = target_peers pm.

Lemma heartbeat_ok pm : mwf pm -> mwf (heartbeat pm) /\ same_but_discovery pm (heartbeat pm).
Proof.
  intros Hm. unfold heartbeat. case_decide; [|done]. split; [|done].
  apply mwf_set_discovery; [|done]. apply inv_discover_peers, Hm.
Qed.

Lemma heartbeat_loop_ok fuel now pm :
  mwf pm -> (ticks now (heartbeat_timer pm) < fuel)%nat ->
  exists pm', heartbeat_loop fuel now pm = Ret pm' /\ mwf pm' /\ same_but_discovery pm pm'.
Proof.
  revert pm; induction fuel as [|fuel IH]; intros pm Hm Hf; [lia|]. cbn [heartbeat_loop].
  destruct (interval_poll now (heartbeat_timer pm)) as [ready i] eqn:E. destruct ready.
  - apply interval_poll_ticks in E.
    destruct (heartbeat_ok (set_heartbeat_timer i pm)) as [Hm' Hsame]; [auto with manager|].
    destruct (IH (heartbeat (set_heartbeat_timer i pm))) as (pm' & Hr & Hm2 & Hsame2); [done| |].
    { unfold heartbeat. case_decide; cbn; lia. }
    exists pm'. split; [done|]. split; [done|].
    unfold same_but_discovery in *. cbn in Hsame. intuition congruence.
  - exists (set_heartbeat_timer i pm). split; [done|]. split; [auto with manager|done].
Qed.

(** The events discovery causes: a new address, or a dial of a peer the
    manager wants. *)
Definition discovery_event_ok (pm : PeerManager) (e : PeerManagerEvent) : Prop :=
  match e with
  | Event_Dial p => should_dial p pm = true
  | Event_SocketUpdated a => exists ip, ma_iter a = [M_Ip ip; M_Tcp (listen_port_tcp (network_globals pm))]
  | _ => False
  end.

Context `{!EnrLaws}.

Lemma should_dial_same q pm pm' :
  network_globals pm' = network_globals pm -> target_peers pm' = target_peers pm ->
  should_dial q pm' = should_dial q pm.
Proof. unfold should_dial, peerdb. by intros -> ->. Qed.

Lemma discovery_event_ok_same pm pm' e :
  network_globals pm' = network_globals pm -> target_peers pm' = target_peers pm ->
  discovery_event_ok pm' e -> discovery_event_ok pm e.
Proof.
  intros Hg Ht. destruct e; cbn; try done; [by rewrite (should_dial_same _ _ _ Hg Ht)|by rewrite Hg].
Qed.

(** With the [None] that discovery answers, dialing does not touch the globals. *)
Lemma peers_discovered_globals peers pm :
  network_globals (peers_discovered peers None pm) = network_globals pm.
Proof.
  unfold peers_discovered. revert pm; induction peers as [|enr peers IH]; intros pm; [done|].
  cbn [foldl]. rewrite IH. unfold peer_discovered. by destruct (should_dial _ pm).
Qed.

Lemma peers_discovered_heartbeat peers ttl pm :
  heartbeat_timer (peers_discovered peers ttl pm) = heartbeat_timer pm.
Proof.
  unfold peers_discovered. revert pm; induction peers as [|enr peers IH]; intros pm; [done|].
  cbn [foldl]. rewrite IH. unfold peer_discovered. destruct (should_dial _ pm), ttl; done.
Qed.

Lemma discovery_loop_ok fuel now pm :
  mwf pm -> (work (discovery pm) < fuel)%nat ->
  exists pm' evs, discovery_loop fuel now pm = Ret pm' /\ mwf pm' /\
    events pm' = events pm ++ evs /\ Forall (discovery_event_ok pm) evs /\
    network_globals pm' = network_globals pm /\ target_peers pm' = target_peers pm /\
    ping_peers pm' = ping_peers pm /\ status_peers pm' = status_peers pm.
Proof.
  revert pm; induction fuel as [|fuel IH]; intros pm Hm Hf; [lia|]. cbn [discovery_loop].
  destruct (disc_poll_ok now (discovery pm)) as (event & d & Hp & Hd & Hev); [apply Hm|].
  rewrite Hp. cbn. pose proof (poll_work now _ _ _ (mwf_discovery _ Hm) Hp) as Hw.
  assert (Hm1 : mwf (set_discovery d pm)) by auto with manager.
  destruct event as [[ttl peers|socket]|].
  - destruct (Hev ttl peers eq_refl) as (-> & _). clear Hev.
    destruct (peers_discovered_ok peers None (set_discovery d pm))
      as (He & Hping & Hst & Ht & Hdisc & _ & _ & Hm2).
    pose proof (peers_discovered_globals peers (set_discovery d pm)) as Hg.
    set (pm1 := peers_discovered _ _ _) in *. cbn in *.
    destruct (IH pm1) as (pm' & evs & Hr & Hm' & He' & Hok & Hg' & Ht' & Hp' & Hs'); [auto| |].
    { rewrite Hdisc. specialize (Hw (mk_is_Some _ _ eq_refl)). lia. }
    exists pm', ((Event_Dial <$> filter (fun p => should_dial p (set_discovery d pm) = true)
                    (enr_peer_id <$> peers)) ++ evs).
    split_and!; [done|done| | |congruence..].
    + by rewrite He', He, <-app_assoc.
    + apply Forall_app. split.
      * apply Forall_fmap, Forall_forall. intros p [Hsd _]%list_elem_of_filter. cbn.
        by rewrite <-Hsd.
      * eapply Forall_impl; [exact Hok|]. intros e. by apply discovery_event_ok_same.
  - destruct (IH (socket_updated socket (set_discovery d pm)))
      as (pm' & evs & Hr & Hm' & He' & Hok & Hg' & Ht' & Hp' & Hs').
    { unfold socket_updated, push_event. auto with manager. }
    { cbn. specialize (Hw (mk_is_Some _ _ eq_refl)). lia. }
    eexists pm', (_ :: evs). split_and!; [done|done| | |done..].
    + rewrite He'. cbn. by rewrite <-app_assoc.
    + constructor; [|eapply Forall_impl; [exact Hok|]; intros e; by apply discovery_event_ok_same].
      cbn. exists (socket_ip socket). by rewrite ma_iter_push, ma_iter_from_ip.
  - exists (set_discovery d pm), []. rewrite app_nil_r. by split_and!.
Qed.

(** All of [poll_next]. *)
Lemma manager_poll_ok now pm :
  mwf pm -> exists pm' e evs pings statuses, poll_next now pm = Ret (e, pm') /\ mwf pm' /\
    option_list e ++ events pm' =
      events pm ++ evs ++ (Event_Ping <$> pings) ++ (Event_Status <$> statuses) /\
    (e = None -> events pm' = []) /\
    Forall (discovery_event_ok pm) evs /\
    network_globals pm' = network_globals pm /\ target_peers pm' = target_peers pm /\
    refreshed now (ping_peers pm) (ping_peers pm') pings /\
    refreshed now (status_peers pm) (status_peers pm') statuses.
Proof.
  intros Hm. unfold poll_next.
  destruct (heartbeat_loop_ok (S (ticks now (heartbeat_timer pm))) now pm Hm)
    as (pm1 & -> & Hm1 & Hg1 & He1 & Hp1 & Hs1 & Ht1); [lia|]. cbn [mbind Outcome_bind].
  destruct (discovery_loop_ok (S (work (discovery pm1))) now pm1 Hm1)
    as (pm2 & evs & -> & Hm2 & He2 & Hok & Hg2 & Ht2 & Hp2 & Hs2); [lia|]. cbn [mbind Outcome_bind].
  destruct (ping_loop_ok now pm2 Hm2) as (pings & sp & -> & Hm3 & Href). cbn [mbind Outcome_bind].
  set (pm3 := set_events _ _) in *.
  destruct (status_loop_ok now pm3 Hm3) as (statuses & ss & -> & Hm4 & Href2). cbn [mbind Outcome_bind].
  set (pm4 := set_events _ (set_status_peers _ _)) in *.
  assert (Hev : events pm4 = events pm ++ evs ++ (Event_Ping <$> pings) ++ (Event_Status <$> statuses)).
  { unfold pm4, pm3. cbn. by rewrite He2, He1, <-!app_assoc. }
  rewrite Hp2, Hp1 in Href. cbn in Href2. rewrite Hs2, Hs1 in Href2.
  assert (Hok' : Forall (discovery_event_ok pm) evs).
  { eapply Forall_impl; [exact Hok|]. intros e. by apply discovery_event_ok_same. }
  rewrite Hev. destruct (events pm ++ evs ++ _) as [|e rest] eqn:E.
  - exists pm4, None, evs, pings, statuses. rewrite E, Hev. split_and!; try done; cbn; congruence.
  - exists (set_events rest pm4), (Some e), evs, pings, statuses. rewrite E.
    split_and!; try done; [auto with manager|cbn; congruence..].
Qed.

(** *** The measure of repeated polling

    Polled again and again at one instant, the manager ends up [Pending]: each
    event it gives lowers one of these, in this order. *)
Definition poll_measures (now : Instant) : list (PeerManager -> nat) :=
  [(fun pm => ticks now (heartbeat_timer pm));
   (fun pm => awaiting (discovery pm));
   (fun pm => work (discovery pm));
   (fun pm => (due now (ping_peers pm) + due now (status_peers pm))%nat);
   (fun pm => length (events pm))].

Lemma heartbeat_loop_measure fuel now pm pm' :
  heartbeat_loop fuel now pm = Ret pm' ->
  (ticks now (heartbeat_timer pm') < ticks now (heartbeat_timer pm))%nat \/
  ticks now (heartbeat_timer pm') = ticks now (heartbeat_timer pm) /\ discovery pm' = discovery pm.
Proof.
  revert pm; induction fuel as [|fuel IH]; intros pm; cbn [heartbeat_loop]; [done|].
  destruct (interval_poll now (heartbeat_timer pm)) as [ready i] eqn:E.
  apply interval_poll_ticks in E. destruct ready.
  - assert (Ht : heartbeat_timer (heartbeat (set_heartbeat_timer i pm)) = i)
      by (unfold heartbeat; by case_decide).
    intros [Hlt|[Heq _]]%IH; rewrite Ht in *; left; lia.
  - intros [= <-]. cbn. destruct (decide (ticks now i = ticks now (heartbeat_timer pm))); [by right|left; lia].
Qed.

Lemma discovery_loop_measure fuel now pm pm' :
  mwf pm -> discovery_loop fuel now pm = Ret pm' ->
  heartbeat_timer pm' = heartbeat_timer pm /\
  ((awaiting (discovery pm') < awaiting (discovery pm))%nat \/
   awaiting (discovery pm') = awaiting (discovery pm) /\
   ((work (discovery pm') < work (discovery pm))%nat \/
    work (discovery pm') = work (discovery pm) /\ events pm' = events pm)).
Proof.
  revert pm; induction fuel as [|fuel IH]; intros pm Hm; cbn [discovery_loop]; [done|].
  destruct (disc_poll_ok now (discovery pm)) as (event & d & Hp & Hd & Hev); [apply Hm|].
  rewrite Hp. cbn. pose proof (poll_work now _ _ _ (mwf_discovery _ Hm) Hp) as Hw.
  pose proof (poll_measure now _ _ _ (mwf_discovery _ Hm) Hp) as Hms.
  assert (Hm1 : mwf (set_discovery d pm)) by auto with manager.
  destruct event as [[ttl peers|socket]|].
  - specialize (Hw (mk_is_Some _ _ eq_refl)).
    destruct (peers_discovered_ok peers ttl (set_discovery d pm)) as (_ & _ & _ & _ & Hdisc & _ & _ & Hm2).
    assert (Hi : heartbeat_timer (peers_discovered peers ttl (set_discovery d pm)) = heartbeat_timer pm)
      by (by rewrite peers_discovered_heartbeat).
    intros Hr. apply IH in Hr as [Ht Hor]; [|by apply Hm2]. rewrite Hdisc, Hi in *. cbn in *.
    split; [done|]. lia.
  - specialize (Hw (mk_is_Some _ _ eq_refl)). intros Hr. apply IH in Hr as [Ht Hor];
      [|unfold socket_updated, push_event; auto with manager].
    cbn in *. split; [done|]. lia.
  - intros [= <-]. cbn. split; [done|]. destruct Hms as [|[-> Hle]]; [by left|right].
    split; [done|]. destruct (decide (work d = work (discovery pm))); [by right|left; lia].
Qed.

Lemma ping_loop_due now fuel pm pm' :
  mwf pm -> ping_loop fuel now pm = Ret pm' ->
  exists ks, (due now (ping_peers pm') + length ks)%nat = due now (ping_peers pm) /\
    events pm' = events pm ++ (Event_Ping <$> ks) /\ status_peers pm' = status_peers pm /\
    discovery pm' = discovery pm /\ heartbeat_timer pm' = heartbeat_timer pm.
Proof.
  intros Hm. rewrite ping_loop_refresh.
  destruct (refresh_loop fuel now (ping_peers pm)) as [[ks s]| |] eqn:E; cbn; [|done..].
  intros [= <-]. exists ks. cbn. split_and!; [|done..].
  eapply refresh_loop_due; [apply Hm|by rewrite mwf_ping_timeout|by apply ping_accepted|done].
Qed.

Lemma status_loop_due now fuel pm pm' :
  mwf pm -> status_loop fuel now pm = Ret pm' ->
  exists ks, (due now (status_peers pm') + length ks)%nat = due now (status_peers pm) /\
    events pm' = events pm ++ (Event_Status <$> ks) /\ ping_peers pm' = ping_peers pm /\
    discovery pm' = discovery pm /\ heartbeat_timer pm' = heartbeat_timer pm.
Proof.
  intros Hm. rewrite status_loop_refresh.
  destruct (refresh_loop fuel now (status_peers pm)) as [[ks s]| |] eqn:E; cbn; [|done..].
  intros [= <-]. exists ks. cbn. split_and!; [|done..].
  eapply refresh_loop_due; [apply Hm|by rewrite mwf_status_timeout|by apply status_accepted|done].
Qed.

Lemma poll_next_measure now pm e pm' :
  mwf pm -> poll_next now pm = Ret (Some e, pm') -> lex (poll_measures now) pm' pm.
Proof.
  intros Hm. unfold poll_next.
  destruct (heartbeat_loop_ok (S (ticks now (heartbeat_timer pm))) now pm Hm)
    as (pm1 & Hr1 & Hm1 & Hg1 & He1 & Hp1 & Hs1 & Ht1); [lia|]. rewrite Hr1. cbn [mbind Outcome_bind].
  apply heartbeat_loop_measure in Hr1.
  destruct (discovery_loop_ok (S (work (discovery pm1))) now pm1 Hm1)
    as (pm2 & evs & Hr2 & Hm2 & He2 & Hok & Hg2 & Ht2 & Hp2 & Hs2); [lia|]. rewrite Hr2.
  cbn [mbind Outcome_bind]. apply discovery_loop_measure in Hr2 as [Hh2 Hr2]; [|done].
  destruct (ping_loop_ok now pm2 Hm2) as (pings & sp & Hr3 & Hm3 & _). rewrite Hr3.
  apply ping_loop_due in Hr3 as (ks3 & Hd3 & He3 & Hs3 & Hdi3 & Hh3); [|done].
  cbn [mbind Outcome_bind]. set (pm3 := set_events _ _) in *.
  destruct (status_loop_ok now pm3 Hm3) as (statuses & ss & Hr4 & Hm4 & _). rewrite Hr4.
  apply status_loop_due in Hr4 as (ks4 & Hd4 & He4 & Hp4 & Hdi4 & Hh4); [|done].
  cbn [mbind Outcome_bind]. set (pm4 := set_events _ (set_status_peers _ _)) in *.
  destruct (events pm4) as [|e' rest] eqn:E; [done|]. intros [= <- <-].
  assert (Hlen : S (length rest) = (length (events pm2) + length ks3 + length ks4)%nat).
  { change (length (e' :: rest) = (length (events pm2) + length ks3 + length ks4)%nat).
    rewrite He4, He3, !length_app, !length_fmap. lia. }
  unfold poll_measures, lex. cbn [ticks heartbeat_timer set_events discovery ping_peers status_peers events].
  rewrite Hh4, Hh3, Hh2, Hdi4, Hdi3, Hp4. rewrite <-He1, <-Hp1, <-Hs1, <-Hp2, <-Hs2, <-Hd3, <-Hs3, <-Hd4.
  destruct Hr1 as [Hlt|[Heq Hd]]; [by left|right]. split; [done|]. rewrite <-Hd.
  destruct Hr2 as [Hlt|[Heqa [Hlt|[Heqw Hev]]]]; [by left|by right; split; [|left]|].
  right. split; [done|]. right. split; [done|]. rewrite <-Hev. lia.
Qed.

(** *** Every call *)

Lemma add_w_room x :
  in_width 8 x -> overflow_checks = false \/ (x < 255)%Z -> add_w 8 x 1 = Ret ((x + 1) mod 256)%Z.
Proof.
  unfold add_w, in_width. intros Hx Hroom. case_decide as Hlt.
  - rewrite Z.mod_small; [done|]. lia.
  - destruct Hroom as [-> | ?]; [done|]. lia.
Qed.

(** The status a connection leaves: the manager counts an ingoing connection
    as outgoing and an outgoing one as ingoing. *)
Definition status_after_connect (now : Instant) (connection : ConnectingType)
    (s : PeerConnectionStatus) : PeerConnectionStatus :=
  let '(n_in, n_out) := connections s in
  match connection with
  | Connecting_Dialing => PeerInfo.Dialing now
  | IngoingConnected => Connected n_in ((n_out + 1) mod 256)
  | OutgoingConnected => Connected ((n_in + 1) mod 256) n_out
  end.

Lemma connect_db_ok now p connection pm :
  PeerDB.wf (peerdb pm) -> has_room p connection pm ->
  exists n db,
    match connection with
    | Connecting_Dialing => mret (PeerDB.dialing_peer now p (peerdb pm))
    | IngoingConnected => PeerDB.connect_outgoing p (peerdb pm)
    | OutgoingConnected => PeerDB.connect_ingoing p (peerdb pm)
    end = Ret db /\ PeerDB.wf db /\
    db = mkPeerDB (<[p := set_connection_status
            (status_after_connect now connection (connection_status (entry_or_default p (peerdb pm))))
            (entry_or_default p (peerdb pm))]> (PeerDB.peers (peerdb pm))) n.
Proof.
  intros Hwf Hroom. destruct (info_wf_entry p _ Hwf) as [_ Hst].
  set (info := entry_or_default p (peerdb pm)) in *.
  set (n := if is_disconnected (connection_status info) then saturating_sub (n_dc (peerdb pm)) 1
            else n_dc (peerdb pm)).
  exists n. eexists. split; [|split; [|reflexivity]].
  - unfold has_room in Hroom. fold info in Hroom.
    destruct connection; unfold PeerDB.dialing_peer, PeerDB.connect_outgoing, PeerDB.connect_ingoing,
      PeerInfo.connect_outgoing, PeerInfo.connect_ingoing, status_after_connect; fold info n;
      destruct (connection_status info) as [a b| | | |]; try done; cbn in Hroom, Hst |- *.
    + by rewrite (add_w_room b) by (tauto || apply Hst).
    + by rewrite (add_w_room a) by (tauto || apply Hst).
  - apply (wf_leave p _ _ Hwf). fold info.
    + split; [by destruct (info_wf_entry p _ Hwf)|]. cbn. unfold status_after_connect.
      destruct (connection_status info) as [a b| | | |], connection; cbn in Hst |- *; unfold in_width;
        repeat split; try (apply Hst); try (apply Z.mod_pos_bound; lia); try lia.
    + unfold disc, status_after_connect. by destruct (connections _), connection.
Qed.

Lemma connect_peer_ok now p connection pm :
  mwf pm -> has_room p connection pm ->
  exists pm', connect_peer now p connection pm = Ret (true, pm') /\ mwf pm' /\ events pm' = events pm /\
    PeerDB.peers (peerdb pm') = <[p := set_connection_status
        (status_after_connect now connection (connection_status (entry_or_default p (peerdb pm))))
        (entry_or_default p (peerdb pm))]> (PeerDB.peers (peerdb pm)) /\
    (forall q, deadline (ping_peers pm') q =
       if decide (q = p) then Some (now + from_secs PING_INTERVAL)%N else deadline (ping_peers pm) q) /\
    (forall q, deadline (status_peers pm') q =
       if decide (q = p) then Some (now + from_secs STATUS_INTERVAL)%N else deadline (status_peers pm) q).
Proof.
  intros Hm Hroom. unfold connect_peer.
  destruct (connect_db_ok now p connection pm (mwf_db _ Hm) Hroom) as (n & db & -> & Hdb & Heq).
  cbn [mbind Outcome_bind].
  destruct (insert_ok now p (ping_peers (set_peerdb db pm))) as (s1 & -> & Hw1 & Ht1 & Hd1);
    [apply Hm|by apply (ping_accepted pm)|].
  cbn [mbind Outcome_bind].
  destruct (insert_ok now p (status_peers (set_ping_peers s1 (set_peerdb db pm))))
    as (s2 & -> & Hw2 & Ht2 & Hd2);
    [apply Hm|by apply (status_accepted pm)|].
  cbn in Ht1, Ht2, Hd1, Hd2. rewrite (mwf_ping_timeout _ Hm) in *. rewrite (mwf_status_timeout _ Hm) in *.
  eexists. split; [done|]. split; [auto with manager|]. split; [done|]. cbn. by rewrite Heq.
Qed.

Lemma notify_disconnect_ok now p pm :
  mwf pm ->
  exists pm' db', notify_disconnect now p pm = Ret pm' /\ mwf pm' /\ events pm' = events pm /\
    PeerDB.disconnect now p (peerdb pm) = Ret db' /\ peerdb pm' = db' /\
    (forall q, deadline (ping_peers pm') q =
       if decide (q = p) then None else deadline (ping_peers pm) q) /\
    (forall q, deadline (status_peers pm') q =
       if decide (q = p) then None else deadline (status_peers pm) q).
Proof.
  intros Hm. unfold notify_disconnect.
  destruct (disconnect_ok now p (peerdb pm) (mwf_db _ Hm)) as (n & db & Hdb & Hwf & _).
  rewrite Hdb. cbn [mbind Outcome_bind].
  destruct (remove_spec p (ping_peers (set_peerdb db pm))) as (s1 & -> & Hw1 & Ht1 & Hd1);
    [apply Hm|].
  cbn [mbind Outcome_bind].
  destruct (remove_spec p (status_peers (set_ping_peers s1 (set_peerdb db pm))))
    as (s2 & -> & Hw2 & Ht2 & Hd2);
    [apply Hm|].
  cbn in Ht1, Ht2, Hd1, Hd2. rewrite (mwf_ping_timeout _ Hm) in *. rewrite (mwf_status_timeout _ Hm) in *.
  eexists _, db. split; [done|]. split; [auto with manager|]. by split_and!.
Qed.

Lemma rep_change_width a : in_width 8 (diff (rep_change a)).
Proof. unfold in_width. destruct a; cbn; lia. Qed.

(** A call on the database alone. *)
Lemma mwf_db_op now op db pm :
  mwf pm -> op_wf op -> run_op now op (peerdb pm) = Ret db -> mwf (set_peerdb db pm).
Proof. intros Hm Hop Hr. apply mwf_set_peerdb; [|done]. by eapply run_op_wf; [apply Hm|..]. Qed.

Lemma mwf_report_peer p a pm : mwf pm -> mwf (report_peer p a pm).
Proof.
  intros Hm. apply (mwf_db_op 0%N (OpAddReputation p (rep_change a))); [done| |done].
  apply rep_change_width.
Qed.

Lemma run_manager_ok now c pm :
  mwf pm -> call_has_room c pm -> exists pm', run_manager now c pm = Ret pm' /\ mwf pm'.
Proof.
  intros Hm Hroom. destruct c; cbn [run_manager].
  - unfold peer_statusd. destruct (insert_ok now peer_id (status_peers pm)) as (s & -> & Hw & Ht & _);
      [apply Hm|by apply status_accepted|]. rewrite (mwf_status_timeout _ Hm) in Ht. eexists. split; [done|]. auto with manager.
  - destruct (notify_disconnect_ok now peer_id pm Hm) as (pm' & _ & Hr & Hm' & _). eauto.
  - destruct (connect_peer_ok now peer_id connection pm Hm Hroom) as (pm' & -> & Hm' & _). by exists pm'.
  - eexists. split; [done|]. by apply mwf_report_peer.
  - eexists. split; [done|]. unfold identify. destruct (peer_info _ _); [|done].
    by apply (mwf_db_op now (OpIdentify peer_id (from_identify_info info) (listen_addrs info))).
  - eexists. split; [done|]. unfold handle_rpc_error. destruct (peer_action _ _); [|done].
    by apply mwf_report_peer.
  - unfold ping_request. destruct (peer_info peer_id (peerdb pm)) as [info|]; [|by exists pm].
    destruct (insert_ok now peer_id (ping_peers pm)) as (s & -> & Hw & Ht & _);
      [apply Hm|by apply ping_accepted|].
    rewrite (mwf_ping_timeout _ Hm) in Ht. cbn [mbind Outcome_bind].
    destruct (PeerInfo.meta_data info); eexists; (split; [done|]); [case_decide|];
      unfold push_event; auto 6 with manager.
  - eexists. split; [done|]. unfold pong_response, push_event.
    repeat case_match; auto with manager.
  - eexists. split; [done|]. unfold meta_data_response.
    destruct (peer_info _ _) as [info|]; [|done]. destruct (PeerInfo.meta_data info); [case_decide; [|done]|];
      by apply (mwf_db_op now (OpSetMetaData peer_id meta_data)).
  - destruct (addresses_of_peer_ok peer_id pm) as (addrs & c & ->). eexists. split; [done|].
    apply mwf_set_discovery; [|done]. by apply (inv_same (discovery pm)); [apply mwf_discovery|..].
  - unfold discovery_mut. destruct (disc_run_call_ok call (discovery pm)) as (event & d & -> & Hd); [apply Hm|].
    eexists. split; [done|]. destruct Hm. by split.
  - destruct (manager_poll_ok now pm Hm) as (pm' & e & _ & _ & _ & -> & Hm' & _). by exists pm'.
Qed.

(** A call that returned had room. *)
Lemma add_w_room_inv x y : add_w 8 x 1 = Ret y -> overflow_checks = false \/ (x < 255)%Z.
Proof. unfold add_w. case_decide; [right; lia|]. by destruct overflow_checks; [|left]. Qed.

Lemma connect_outgoing_room p pm db :
  PeerDB.connect_outgoing p (peerdb pm) = Ret db -> has_room p IngoingConnected pm.
Proof.
  unfold PeerDB.connect_outgoing, has_room, PeerInfo.connect_outgoing.
  destruct (connection_status (entry_or_default p (peerdb pm))) as [a b| | | |]; cbn; try (intros _; right; lia).
  destruct (add_w 8 b 1) eqn:E; [|done..]. intros _. by eapply add_w_room_inv.
Qed.

Lemma run_manager_room now c pm pm' : run_manager now c pm = Ret pm' -> call_has_room c pm.
Proof.
  destruct c; cbn [run_manager call_has_room]; try done.
  unfold connect_peer, has_room, PeerDB.connect_outgoing, PeerDB.connect_ingoing,
    PeerInfo.connect_outgoing, PeerInfo.connect_ingoing.
  destruct (connection_status (entry_or_default peer_id (peerdb pm))) as [a b| | | |], connection;
    cbn; try (intros _; right; lia); try (intros _; by right).
  - destruct (add_w 8 b 1) eqn:E; [|done..]. intros _. by eapply add_w_room_inv.
  - destruct (add_w 8 a 1) eqn:E; [|done..]. intros _. by eapply add_w_room_inv.
Qed.

Lemma manager_reachable_mwf pm : manager_reachable pm -> mwf pm.
Proof.
  intros (server & boot & socket & disabled & max & enr & fork & meta & ping & tcp & udp & Hr).
  apply rtc_ind_r with (P := mwf) in Hr; [done|apply mwf_new|].
  intros pm1 pm2 _ (now & c & Hrun) Hm.
  destruct (run_manager_ok now c pm1 Hm) as (pm' & Hr1 & Hm'); [by eapply run_manager_room|congruence].
Qed.

(** *** Metadata *)

(** The metadata the database knows of a peer, and its sequence number. *)
Definition known_meta (p : PeerId) (db : PeerDB) : option MetaData :=
  info ← PeerDB.peers db !! p; PeerInfo.meta_data info.

Definition known_seq (p : PeerId) (db : PeerDB) : option N := seq_number <$> known_meta p db.

(** What is known stays as it is, as long as the entry is kept. *)
Definition meta_kept (p : PeerId) (db db' : PeerDB) : Prop :=
  is_Some (PeerDB.peers db' !! p) -> known_meta p db' = known_meta p db.

Lemma meta_kept_refl p db : meta_kept p db db.
Proof. by intros _. Qed.

Lemma meta_kept_insert p q db info n :
  (p = q -> PeerInfo.meta_data info = known_meta p db) ->
  meta_kept p db (mkPeerDB (<[q := info]> (PeerDB.peers db)) n).
Proof.
  intros Hq _. unfold known_meta in *. cbn. destruct (decide (p = q)) as [->|].
  - rewrite lookup_insert_eq. cbn. by apply Hq.
  - by rewrite lookup_insert_ne by done.
Qed.

Lemma known_meta_entry p db : known_meta p db = PeerInfo.meta_data (entry_or_default p db).
Proof. unfold known_meta, entry_or_default. by destruct (PeerDB.peers db !! p). Qed.

(** Writing an entry whose metadata is that of the old one. *)
Lemma meta_kept_entry p q db f n :
  (forall info, PeerInfo.meta_data (f info) = PeerInfo.meta_data info) ->
  meta_kept p db (mkPeerDB (<[q := f (entry_or_default q db)]> (PeerDB.peers db)) n).
Proof. intros Hf. apply meta_kept_insert. intros ->. by rewrite known_meta_entry, Hf. Qed.

Lemma meta_kept_alter p q db f :
  (forall info, PeerInfo.meta_data (f info) = PeerInfo.meta_data info) ->
  meta_kept p db (peer_info_mut q f db).
Proof.
  intros Hf _. unfold known_meta, peer_info_mut. cbn. destruct (decide (q = p)) as [->|].
  - rewrite lookup_alter_eq. destruct (PeerDB.peers db !! p) as [info|] eqn:E; cbn; [by apply Hf|done].
  - by rewrite lookup_alter_ne by done.
Qed.

Lemma meta_kept_disconnect now p q db db' :
  PeerDB.wf db -> PeerDB.disconnect now q db = Ret db' -> meta_kept p db db'.
Proof.
  intros Hwf Hr. destruct (disconnect_ok now q db Hwf) as (n & db1 & Hr1 & _ & [Hsub _]).
  assert (db' = db1) as -> by congruence. cbn in Hsub.
  intros [info' Hp]. pose proof (lookup_weaken _ _ _ _ Hp Hsub) as Hl.
  unfold known_meta. rewrite Hp. cbn. apply lookup_insert_Some in Hl as [[-> <-]|[_ Hl]].
  - fold (known_meta p db). rewrite known_meta_entry. unfold after_disconnect. by destruct (_ || _)%bool.
  - by rewrite Hl.
Qed.

Lemma meta_kept_report p q a pm : meta_kept p (peerdb pm) (peerdb (report_peer q a pm)).
Proof.
  unfold report_peer, add_reputation. rewrite peerdb_set_peerdb.
  destruct (PeerDB.peers (peerdb pm) !! q) as [info|] eqn:E; [|apply meta_kept_refl].
  apply meta_kept_insert. intros ->. unfold known_meta. by rewrite E.
Qed.

(** The metadata kept of what is known and a new answer. *)
Definition newer_meta (known : option MetaData) (m : MetaData) : option MetaData :=
  match known with
  | Some k => if decide (seq_number k < seq_number m)%N then Some m else Some k
  | None => Some m
  end.

Lemma meta_data_response_peers p q m pm :
  PeerDB.peers (peerdb (meta_data_response q m pm)) !! p =
    if decide (p = q) then
      (fun info => set_meta_data (newer_meta (PeerInfo.meta_data info) m) info) <$> PeerDB.peers (peerdb pm) !! p
    else PeerDB.peers (peerdb pm) !! p.
Proof.
  unfold meta_data_response, peer_info. case_decide as Hpq.
  - subst q. destruct (PeerDB.peers (peerdb pm) !! p) as [info|] eqn:E; cbn; [|by rewrite E].
    destruct (PeerInfo.meta_data info) as [k|] eqn:Ek; cbn; [case_decide|];
      cbn; rewrite ?lookup_alter_eq, E; cbn; try done.
    f_equal. destruct info. cbn in *. by subst.
  - destruct (PeerDB.peers (peerdb pm) !! q) as [info|]; [|done].
    destruct (PeerInfo.meta_data info) as [k|]; [case_decide|]; cbn; by rewrite ?lookup_alter_ne by done.
Qed.

(** What a call makes of the metadata known of [p]. *)
Definition meta_after (c : ManagerCall) (p : PeerId) (known : option MetaData) : option MetaData :=
  match c with
  | Call_meta_data_response q m => if decide (p = q) then newer_meta known m else known
  | _ => known
  end.

Lemma run_manager_meta now c p pm pm' :
  mwf pm -> run_manager now c pm = Ret pm' -> is_Some (PeerDB.peers (peerdb pm') !! p) ->
  known_meta p (peerdb pm') = meta_after c p (known_meta p (peerdb pm)).
Proof.
  intros Hm Hr. destruct c; cbn [run_manager meta_after] in *;
    try change (meta_kept p (peerdb pm) (peerdb pm')).
  - unfold peer_statusd in Hr. destruct (insert _ _ _); [|done..]. injection Hr as <-. apply meta_kept_refl.
  - destruct (notify_disconnect_ok now peer_id pm Hm) as (pm1 & db & Hr1 & _ & _ & Hdb & Hp & _).
    assert (pm' = pm1) as -> by congruence. rewrite Hp.
    by apply (meta_kept_disconnect now p peer_id); [apply Hm|].
  - destruct (connect_peer_ok now peer_id connection pm Hm) as (pm1 & Hr1 & _ & _ & Hp & _).
    { by apply (run_manager_room now (Call_connect peer_id connection) pm pm'). }
    rewrite Hr1 in Hr. injection Hr as <-. unfold meta_kept, known_meta. rewrite Hp.
    apply (meta_kept_entry p peer_id (peerdb pm) (set_connection_status (status_after_connect now
      connection (connection_status (entry_or_default peer_id (peerdb pm))))) 0). done.
  - injection Hr as <-. apply meta_kept_report.
  - injection Hr as <-. unfold identify. destruct (peer_info _ _); [|apply meta_kept_refl].
    rewrite peerdb_set_peerdb. by apply meta_kept_alter.
  - injection Hr as <-. unfold handle_rpc_error. destruct (peer_action _ _); [|apply meta_kept_refl].
    apply meta_kept_report.
  - unfold ping_request in Hr. destruct (peer_info peer_id (peerdb pm)) as [info|];
      [|injection Hr as <-; apply meta_kept_refl].
    destruct (insert _ _ _); [|done..]. cbn [mbind Outcome_bind] in Hr.
    destruct (PeerInfo.meta_data info); injection Hr as <-; [case_decide|]; apply meta_kept_refl.
  - injection Hr as <-. unfold pong_response. repeat case_match; apply meta_kept_refl.
  - injection Hr as <-. unfold known_meta. rewrite meta_data_response_peers. case_decide; [|done].
    by destruct (PeerDB.peers (peerdb pm) !! p); [|intros [? [=]]].
  - destruct (addresses_of_peer_ok peer_id pm) as (addrs & c & Ha). rewrite Ha in Hr.
    injection Hr as <-. apply meta_kept_refl.
  - unfold discovery_mut in Hr. destruct (run_call call (discovery pm)) as [[ev d]| |]; [|done..].
    injection Hr as <-. apply meta_kept_refl.
  - destruct (manager_poll_ok now pm Hm) as (pm1 & e & _ & _ & _ & Hr1 & _ & _ & _ & _ & Hg & _).
    rewrite Hr1 in Hr. injection Hr as <-. unfold peerdb. rewrite Hg. apply meta_kept_refl.
Qed.

Lemma report_peer_peers q p a pm :
  PeerDB.peers (peerdb (report_peer p a pm)) !! q =
    if decide (q = p) then
      (fun info => set_reputation_field
         (if is_good (rep_change a) then saturating_add 8 (reputation info) (diff (rep_change a))
          else saturating_sub (reputation info) (diff (rep_change a))) info)
      <$> PeerDB.peers (peerdb pm) !! q
    else PeerDB.peers (peerdb pm) !! q.
Proof.
  unfold report_peer, add_reputation. rewrite peerdb_set_peerdb. case_decide as Hq; [subst q|];
    destruct (PeerDB.peers (peerdb pm) !! p) as [info|] eqn:E; cbn; try done;
    by rewrite ?lookup_insert_eq, ?lookup_insert_ne.
Qed.

(** *** The statuses the program can reach *)

(** A condition on the status of each peer, which every status but a
    connection and a ban meets. *)
Section Statuses.
Context (Q : PeerId -> PeerConnectionStatus -> Prop).

Definition statuses (db : PeerDB) : Prop :=
  map_Forall (fun p info => Q p (connection_status info)) (PeerDB.peers db).

Definition idle_statuses : Prop :=
  forall p s, (forall n_in n_out, s <> Connected n_in n_out) -> (forall t, s <> Banned t) -> Q p s.

Context (Hidle : idle_statuses).

Lemma statuses_entry p db : statuses db -> Q p (connection_status (entry_or_default p db)).
Proof.
  intros Hdb. unfold entry_or_default. destruct (PeerDB.peers db !! p) as [info|] eqn:E.
  - by apply (Hdb p).
  - by apply Hidle.
Qed.

Lemma statuses_insert p info db n :
  statuses db -> Q p (connection_status info) ->
  statuses (mkPeerDB (<[p := info]> (PeerDB.peers db)) n).
Proof. intros Hdb Hi. by apply map_Forall_insert_2. Qed.

Lemma statuses_alter p f db :
  (forall info, connection_status (f info) = connection_status info) ->
  statuses db -> statuses (peer_info_mut p f db).
Proof.
  intros Hf Hdb q info. unfold peer_info_mut. cbn. rewrite lookup_alter_Some.
  intros [(_ & i & Hi & ->)|[_ Hi]]; [rewrite Hf|]; by apply (Hdb _ _ Hi).
Qed.

Lemma statuses_disconnect now p db db' :
  PeerDB.wf db -> PeerDB.disconnect now p db = Ret db' -> statuses db -> statuses db'.
Proof.
  intros Hwf Hr Hdb. destruct (disconnect_ok now p db Hwf) as (n & db1 & Hr1 & _ & [Hsub _]).
  assert (db' = db1) as -> by congruence. cbn in Hsub. intros q info Hq.
  pose proof (lookup_weaken _ _ _ _ Hq Hsub) as Hl.
  assert (Hi : statuses (mkPeerDB (<[p := after_disconnect now (entry_or_default p db)]>
    (PeerDB.peers db)) n)).
  { apply statuses_insert; [done|]. unfold after_disconnect. pose proof (statuses_entry p db Hdb).
    destruct (_ || _)%bool; [done|]. by apply Hidle. }
  by apply (Hi q).
Qed.

Lemma statuses_report p a pm :
  statuses (peerdb pm) -> statuses (peerdb (report_peer p a pm)).
Proof.
  intros Hdb q info. rewrite report_peer_peers. case_decide; [|apply Hdb].
  rewrite fmap_Some. intros (i & Hi & ->). by apply (Hdb _ _ Hi).
Qed.

(** The status of a new connection. *)
Definition connect_keeps (now : Instant) (c : ManagerCall) (pm : PeerManager) : Prop :=
  match c with
  | Call_connect _ Connecting_Dialing => True
  | Call_connect p connection =>
    Q p (status_after_connect now connection (connection_status (entry_or_default p (peerdb pm))))
  | _ => True
  end.

Lemma run_manager_statuses now c pm pm' :
  mwf pm -> run_manager now c pm = Ret pm' -> connect_keeps now c pm ->
  statuses (peerdb pm) -> statuses (peerdb pm').
Proof.
  intros Hm Hr Hc Hdb. destruct c; cbn [run_manager] in Hr.
  - unfold peer_statusd in Hr. destruct (insert _ _ _); [|done..]. by injection Hr as <-.
  - destruct (notify_disconnect_ok now peer_id pm Hm) as (pm1 & db & Hr1 & _ & _ & Hdb1 & Hp & _).
    assert (pm' = pm1) as -> by congruence. rewrite Hp.
    by apply (statuses_disconnect now peer_id (peerdb pm)); [apply Hm|..].
  - destruct (connect_peer_ok now peer_id connection pm Hm) as (pm1 & Hr1 & _ & _ & Hp & _).
    { by apply (run_manager_room now (Call_connect peer_id connection) pm pm'). }
    rewrite Hr1 in Hr. injection Hr as <-. unfold statuses. rewrite Hp.
    apply (statuses_insert _ _ (peerdb pm) 0); [done|]. destruct connection; [|done..].
    unfold status_after_connect. destruct (connections _). by apply Hidle.
  - injection Hr as <-. by apply statuses_report.
  - injection Hr as <-. unfold identify. destruct (peer_info _ _); [|done]. by apply statuses_alter.
  - injection Hr as <-. unfold handle_rpc_error. destruct (peer_action _ _); [|done].
    by apply statuses_report.
  - unfold ping_request in Hr. destruct (peer_info peer_id (peerdb pm)) as [info|];
      [|by injection Hr as <-].
    destruct (insert _ _ _); [|done..]. cbn [mbind Outcome_bind] in Hr.
    destruct (PeerInfo.meta_data info); injection Hr as <-; [case_decide|]; done.
  - injection Hr as <-. unfold pong_response. by repeat case_match.
  - injection Hr as <-. unfold meta_data_response.
    repeat case_match; try done; by apply statuses_alter.
  - destruct (addresses_of_peer_ok peer_id pm) as (addrs & c & Ha). rewrite Ha in Hr.
    by injection Hr as <-.
  - unfold discovery_mut in Hr. destruct (run_call call (discovery pm)) as [[ev d]| |]; [|done..].
    by injection Hr as <-.
  - destruct (manager_poll_ok now pm Hm) as (pm1 & e & _ & _ & _ & Hr1 & _ & _ & _ & _ & Hg & _).
    rewrite Hr1 in Hr. injection Hr as <-. unfold peerdb. by rewrite Hg.
Qed.
End Statuses.

(** No connection counted as ingoing, no peer marked as banned. *)
Definition outgoing_only (s : PeerConnectionStatus) : Prop :=
  match s with Connected n_in _ => n_in = 0%Z | Banned _ => False | _ => True end.

Lemma outgoing_idle : idle_statuses (fun _ => outgoing_only).
Proof. intros p [n_in n_out| |t| |] Hc Hb; try done; [by destruct (Hc n_in n_out)|by destruct (Hb t)]. Qed.

(** *** Repeated reports *)


(** The points an error of a protocol costs. *)
Definition penalty (protocol : Protocol) (err : RPCError) : Z :=
  match peer_action protocol err with Some a => diff (rep_change a) | None => 0 end.

Lemma penalty_pos protocol err : (0 <= penalty protocol err)%Z.
Proof. unfold penalty. destruct (peer_action protocol err) as [[]|]; cbn; lia. Qed.

Lemma handle_rpc_error_peers q p protocol err pm :
  mwf pm ->
  PeerDB.peers (peerdb (handle_rpc_error p protocol err pm)) !! q =
    if decide (q = p) then
      (fun info => set_reputation_field (Z.max 0 (reputation info - penalty protocol err)) info)
        <$> PeerDB.peers (peerdb pm) !! q
    else PeerDB.peers (peerdb pm) !! q.
Proof.
  intros Hm. unfold handle_rpc_error, penalty.
  destruct (peer_action protocol err) as [a|] eqn:Ea.
  - rewrite report_peer_peers. case_decide; [|done].
    assert (is_good (rep_change a) = false) as -> by
      (destruct err as [| |[]| | | | | | |]; cbn in Ea; try (destruct protocol); simplify_eq; done).
    done.
  - case_decide as Hq; [|done]. destruct (PeerDB.peers (peerdb pm) !! q) as [info|] eqn:E; [|done].
    cbn. f_equal. destruct (wf_infos _ (mwf_db _ Hm) _ _ E) as [[Hr _] _].
    rewrite Z.sub_0_r, Z.max_r by done. by destruct info.
Qed.

Lemma mwf_handle_rpc_error p protocol err pm : mwf pm -> mwf (handle_rpc_error p protocol err pm).
Proof. unfold handle_rpc_error. destruct (peer_action _ _); [apply mwf_report_peer|done]. Qed.

Lemma mwf_iter_rpc_error n p protocol err pm :
  mwf pm -> mwf (Nat.iter n (handle_rpc_error p protocol err) pm).
Proof. intros Hm. induction n as [|n IH]; [done|]. by apply mwf_handle_rpc_error. Qed.

Lemma iter_rpc_error_peers n q p protocol err pm :
  mwf pm ->
  PeerDB.peers (peerdb (Nat.iter n (handle_rpc_error p protocol err) pm)) !! q =
    if decide (q = p) then
      (fun info => set_reputation_field
         (Z.max 0 (reputation info - Z.of_nat n * penalty protocol err)) info)
        <$> PeerDB.peers (peerdb pm) !! q
    else PeerDB.peers (peerdb pm) !! q.
Proof.
  intros Hm. induction n as [|n IH].
  - cbn. case_decide as Hq; [|done]. destruct (PeerDB.peers (peerdb pm) !! q) as [info|] eqn:E; [|done].
    destruct (wf_infos _ (mwf_db _ Hm) _ _ E) as [[Hr _] _]. cbn. f_equal.
    rewrite Z.sub_0_r, Z.max_r by done. by destruct info.
  - change (Nat.iter (S n) ?f pm) with (f (Nat.iter n f pm)).
    rewrite handle_rpc_error_peers, IH by by apply mwf_iter_rpc_error. case_decide; [|done].
    destruct (PeerDB.peers (peerdb pm) !! q) as [info|]; [|done]. cbn. f_equal.
    unfold set_reputation_field. cbn. f_equal.
    pose proof (penalty_pos protocol err). nia.
Qed.

Lemma elem_of_banned_peers q db :
  q ∈ banned_peers db <->
  match connection_status <$> PeerDB.peers db !! q with Some s => is_banned s = true | None => False end.
Proof.
  unfold banned_peers. rewrite list_elem_of_fmap. split.
  - intros ([q' info] & -> & [Hq Hb]%elem_of_filter_peers). cbn. by rewrite Hq.
  - destruct (PeerDB.peers db !! q) as [info|] eqn:E; cbn; [|done]. intros Hb.
    exists (q, info). split; [done|]. by apply elem_of_filter_peers.
Qed.

(** *** Polling repeatedly *)

Fixpoint polls (nows : list Instant) (pm : PeerManager)
    : Outcome (list PeerManagerEvent * PeerManager) :=
  match nows with
  | [] => mret ([], pm)
  | now :: nows =>
    '(e, pm) ← poll_next now pm;
    '(es, pm) ← polls nows pm;
    mret (app (option_list e) es, pm)
  end.

Lemma not_refreshed now s s' ks p :
  refreshed now s s' ks -> deadline s p = None -> (p ∉ ks) /\ deadline s' p = None.
Proof.
  intros (_ & Hdue & Hd) Hp.
  assert (Hn : p ∉ ks) by (intros Hin; destruct (Hdue p Hin) as (t & Ht & _); congruence).
  split; [done|]. by rewrite Hd, decide_False.
Qed.

Lemma polls_ok p nows pm :
  mwf pm -> deadline (ping_peers pm) p = None -> deadline (status_peers pm) p = None ->
  exists es pm2, polls nows pm = Ret (es, pm2) /\
    forall e, e = Event_Ping p \/ e = Event_Status p -> e ∈ es ++ events pm2 -> e ∈ events pm.
Proof.
  revert pm; induction nows as [|now nows IH]; intros pm Hm Hp Hs.
  { exists [], pm. split; [done|]. by cbn. }
  destruct (manager_poll_ok now pm Hm)
    as (pm1 & e & evs & pings & statuses & Hr & Hm1 & Hq & _ & Hok & _ & _ & Hrp & Hrs).
  destruct (not_refreshed _ _ _ _ p Hrp Hp) as [Hnp Hp1].
  destruct (not_refreshed _ _ _ _ p Hrs Hs) as [Hns Hs1].
  destruct (IH pm1 Hm1 Hp1 Hs1) as (es & pm2 & Hr2 & Hev).
  exists (option_list e ++ es), pm2. cbn [polls]. rewrite Hr.
  cbn [mbind Outcome_bind]. rewrite Hr2. split; [done|]. intros ev Hor. rewrite <-app_assoc, elem_of_app. intros Hin.
  assert (Hin1 : ev ∈ option_list e ++ events pm1).
  { rewrite elem_of_app. destruct Hin as [?|Hin]; [by left|right]. by apply Hev. }
  rewrite Hq, !elem_of_app, !list_elem_of_fmap in Hin1.
  destruct Hin1 as [?|[Hin1|[(x & -> & Hx)|(x & -> & Hx)]]]; [done|..]; exfalso.
  - eapply Forall_forall in Hok; [|exact Hin1]. by destruct Hor as [-> | ->].
  - by destruct Hor as [[= ->]|[=]].
  - by destruct Hor as [[=]|[= ->]].
Qed.

(** ** Properties *)

(** C4: the manager of a running node never panics and never loops: in every
    state its calls can reach, every call returns (a connection unless its
    [u8] counter is full), [poll_next] with its four loops included; the
    database keeps counting its disconnected peers exactly, at most 30, and
    discovery runs at most one query. *)
Theorem manager_calls_return (now : Instant) (c : ManagerCall) (pm : PeerManager) :
  manager_reachable pm -> call_has_room c pm ->
  exists pm', run_manager now c pm = Ret pm' /\ manager_reachable pm' /\
    n_dc (peerdb pm') = Z.of_nat (length (disconnected_peers (peerdb pm'))) /\
    (n_dc (peerdb pm') <= MAX_DC_PEERS)%Z /\
    (length (running (active_queries (discovery pm'))) <= 1)%nat.
Proof.
  intros Hreach Hroom. destruct (run_manager_ok now c pm (manager_reachable_mwf pm Hreach) Hroom)
    as (pm' & Hr & Hm'). exists pm'. split; [done|].
  split.
  { destruct Hreach as (server & boot & socket & disabled & max & enr & fork & meta & ping & tcp & udp & Hs).
    exists server, boot, socket, disabled, max, enr, fork, meta, ping, tcp, udp.
    eapply rtc_r; [exact Hs|]. by exists now, c. }
  split; [by apply exact_disconnected, (wf_exact _ (mwf_db _ Hm'))|].
  split; [apply Hm'|]. rewrite inv_running by apply Hm'. destruct (find_peer_active _); lia.
Qed.

(** C19: [poll_next] is a first-in first-out queue: the event it gives is the
    oldest, and it stays pending only when there is none.  What a poll adds is,
    in this order: addresses and dials from discovery, each dial for a peer
    the manager wants when the poll starts; then one ping for each of some
    peers whose ping timer is due, and one status likewise.  Exactly these
    timers are restarted, and the database is not touched. *)
Theorem poll_next_queue (now : Instant) (pm : PeerManager) :
  manager_reachable pm ->
  exists e pm' evs pings statuses, poll_next now pm = Ret (e, pm') /\
    match e with Some e => [e] | None => [] end ++ events pm' =
      events pm ++ evs ++ (Event_Ping <$> pings) ++ (Event_Status <$> statuses) /\
    (e = None -> events pm' = []) /\
    Forall (discovery_event_ok pm) evs /\ peerdb pm' = peerdb pm /\
    refreshed now (ping_peers pm) (ping_peers pm') pings /\
    refreshed now (status_peers pm) (status_peers pm') statuses.
Proof.
  intros Hm%manager_reachable_mwf.
  destruct (manager_poll_ok now pm Hm)
    as (pm' & e & evs & pings & statuses & Hr & _ & Hq & Hn & Hok & Hg & _ & Hp & Hs).
  exists e, pm', evs, pings, statuses. split_and!; try done. unfold peerdb. by rewrite Hg.
Qed.

(** A connection is always accepted, whatever the peer's reputation and
    even if it is banned; its timers start.  The direction is recorded the
    wrong way round: a peer that dialed us is counted as one we dialed, and
    the other way. *)
Theorem connect_peer_spec (now : Instant) (p : PeerId) (connection : ConnectingType)
    (pm : PeerManager) :
  manager_reachable pm -> has_room p connection pm ->
  exists pm', connect_peer now p connection pm = Ret (true, pm') /\
    (forall q, PeerDB.peers (peerdb pm') !! q =
       if decide (q = p) then
         let info := entry_or_default p (peerdb pm) in
         let '(n_in, n_out) := connections (connection_status info) in
         Some (set_connection_status
           (match connection with
            | Connecting_Dialing => PeerInfo.Dialing now
            | IngoingConnected => Connected n_in ((n_out + 1) mod 256)
            | OutgoingConnected => Connected ((n_in + 1) mod 256) n_out
            end) info)
       else PeerDB.peers (peerdb pm) !! q) /\
    deadline (ping_peers pm') p = Some (now + from_secs 30)%N /\
    deadline (status_peers pm') p = Some (now + from_secs 300)%N.
Proof.
  intros Hm%manager_reachable_mwf Hroom.
  destruct (connect_peer_ok now p connection pm Hm Hroom) as (pm' & Hr & _ & _ & Hp & Hd & Hs).
  exists pm'. split; [done|]. rewrite Hd, Hs, !decide_True by done. split; [|done].
  intros q. rewrite Hp. unfold status_after_connect. case_decide as Hq.
  - subst q. rewrite lookup_insert_eq. by destruct (connections _).
  - by rewrite lookup_insert_ne.
Qed.

(** Of the peers discovery found, exactly those that are not connected,
    dialing or banned are dialed, in order, if the manager is below its
    target, and none otherwise: the target is only compared with the peers
    counted before the batch, so that a batch is dialed whole even when one
    peer is missing.  A dialed peer is known afterwards and keeps at least the
    time to live asked for. *)
Theorem peers_discovered_spec (found : list Enr) (min_ttl : option Instant) (pm : PeerManager) :
  let wanted := filter (fun p => (is_connected_or_dialing p (peerdb pm) ||
                                  peer_banned p (peerdb pm))%bool = false) (enr_peer_id <$> found) in
  let dialed := if decide (length (connected_or_dialing_peers (peerdb pm)) < target_peers pm)%nat
                then wanted else [] in
  events (peers_discovered found min_ttl pm) = events pm ++ (Event_Dial <$> dialed) /\
  forall p t, p ∈ dialed -> min_ttl = Some t ->
    ttl_at_least t p (peerdb (peers_discovered found min_ttl pm)).
Proof.
  intros wanted dialed. destruct (peers_discovered_ok found min_ttl pm) as (He & _).
  assert (Hd : filter (fun p => should_dial p pm = true) (enr_peer_id <$> found) = dialed).
  { unfold dialed, wanted, should_dial, count_connected_or_dialing_peers. fold (peerdb pm).
    case_decide as Hlt.
    - apply list_filter_iff. intros q. rewrite bool_decide_true by done.
      by destruct (is_connected_or_dialing q (peerdb pm)), (peer_banned q (peerdb pm)).
    - rewrite bool_decide_false by done.
      apply elem_of_nil_inv. intros q [Hf _]%list_elem_of_filter. discriminate Hf. }
  split; [rewrite He; by rewrite Hd|]. rewrite <-Hd.
  intros p t [Hp Hin]%list_elem_of_filter ->. by apply peers_discovered_ttl.
Qed.

(** C37: metadata only moves forward: whatever the call, a peer that is kept
    keeps the metadata known of it, whole, unless the call brings an answer to a
    request for it: that answer replaces what is known, whole, exactly when
    nothing is known or its sequence number is higher. So the number never goes
    back. A ping or a pong with a number above the known one (or with none known)
    asks the peer for its metadata, any other does not. An answer of a peer
    changes nothing else: no other field of its entry, no other entry and no
    event. *)
Theorem metadata_forward (now : Instant) (p : PeerId) (pm : PeerManager) :
  manager_reachable pm ->
  (forall c pm', run_manager now c pm = Ret pm' -> is_Some (PeerDB.peers (peerdb pm') !! p) ->
     known_meta p (peerdb pm') =
       match c with
       | Call_meta_data_response q m => if decide (p = q) then newer_meta (known_meta p (peerdb pm)) m
                                        else known_meta p (peerdb pm)
       | _ => known_meta p (peerdb pm)
       end /\
     match known_seq p (peerdb pm) with
     | Some n => exists n', known_seq p (peerdb pm') = Some n' /\ (n <= n')%N
     | None => True
     end) /\
  (is_Some (PeerDB.peers (peerdb pm) !! p) -> forall seq,
     let asks := match known_seq p (peerdb pm) with
                 | Some n => if decide (n < seq)%N then [Event_MetaData p] else []
                 | None => [Event_MetaData p]
                 end in
     (exists pm', ping_request now p seq pm = Ret pm' /\ events pm' = events pm ++ asks /\
        deadline (ping_peers pm') p = Some (now + from_secs 30)%N) /\
     events (pong_response p seq pm) = events pm ++ asks) /\
  (forall m,
     (forall q, PeerDB.peers (peerdb (meta_data_response p m pm)) !! q =
        if decide (q = p) then
          (fun info => set_meta_data (newer_meta (PeerInfo.meta_data info) m) info)
            <$> PeerDB.peers (peerdb pm) !! q
        else PeerDB.peers (peerdb pm) !! q) /\
     events (meta_data_response p m pm) = events pm /\
     (is_Some (PeerDB.peers (peerdb pm) !! p) ->
      known_seq p (peerdb (meta_data_response p m pm)) =
        Some (N.max (seq_number m) (default 0%N (known_seq p (peerdb pm)))))).
Proof.
  intros Hm%manager_reachable_mwf. split; [|split].
  - intros c pm' Hr Hk. pose proof (run_manager_meta now c p pm pm' Hm Hr Hk) as Hle.
    split; [by destruct c|]. unfold known_seq. rewrite Hle.
    destruct (known_meta p (peerdb pm)) as [k|]; [|done]. cbn.
    destruct c; cbn; try (exists (seq_number k); split; [done|lia]).
    repeat case_decide; cbn; eexists; (split; [done|]); lia.
  - intros [info Hi] seq. unfold ping_request, pong_response, peer_info, known_seq, known_meta. rewrite Hi. cbn.
    destruct (insert_ok now p (ping_peers pm)) as (s & -> & _ & _ & Hd);
      [apply Hm|by apply ping_accepted|].
    rewrite (mwf_ping_timeout _ Hm) in Hd. cbn.
    destruct (PeerInfo.meta_data info) as [m|]; cbn; repeat case_decide; try done;
      (split; [|by rewrite ?app_nil_r]); eexists; (split; [done|]); cbn;
      rewrite Hd, decide_True, ?app_nil_r by done; done.
  - intros m. split; [intros q; apply meta_data_response_peers|]. split.
    { unfold meta_data_response. by repeat case_match. }
    intros [info Hi]. unfold known_seq, known_meta. rewrite meta_data_response_peers, decide_True, Hi by done.
    cbn. destruct (PeerInfo.meta_data info) as [m0|]; cbn; [case_decide; cbn|]; f_equal; lia.
Qed.

(** C38: an error of an RPC stream only costs reputation: reported any number
    of times it takes its penalty each time, down to 0 and no further, and
    changes no other peer, no connection and no event; in particular it never
    bans a peer. *)
Theorem rpc_errors_cost_reputation (n : nat) (p : PeerId) (protocol : Protocol) (err : RPCError)
    (pm : PeerManager) :
  manager_reachable pm ->
  let pm' := Nat.iter n (handle_rpc_error p protocol err) pm in
  events pm' = events pm /\ banned_peers (peerdb pm') ≡ₚ banned_peers (peerdb pm) /\
  forall q, PeerDB.peers (peerdb pm') !! q =
    if decide (q = p) then
      (fun info => set_reputation_field
         (Z.max 0 (reputation info - Z.of_nat n * penalty protocol err)) info)
        <$> PeerDB.peers (peerdb pm) !! q
    else PeerDB.peers (peerdb pm) !! q.
Proof.
  intros Hm%manager_reachable_mwf pm'.
  assert (Hpeers : forall q, PeerDB.peers (peerdb pm') !! q =
    if decide (q = p) then
      (fun info => set_reputation_field
         (Z.max 0 (reputation info - Z.of_nat n * penalty protocol err)) info)
        <$> PeerDB.peers (peerdb pm) !! q
    else PeerDB.peers (peerdb pm) !! q) by (intros q; by apply iter_rpc_error_peers).
  split; [|split; [|done]].
  - unfold pm'. clear Hpeers pm'. induction n as [|n IH]; [done|]. cbn [Nat.iter nat_rect].
    rewrite <-IH. unfold handle_rpc_error. by destruct (peer_action protocol err).
  - apply NoDup_Permutation; [apply NoDup_fst_filter_peers..|]. intros q.
    rewrite !elem_of_banned_peers, Hpeers. case_decide; [|done].
    by destruct (PeerDB.peers (peerdb pm) !! q).
Qed.

(** C30: once a peer is disconnected, no poll, however often and whenever,
    queues a ping or a status for it: only those already queued are left. *)
Theorem disconnect_stops_timers (now : Instant) (p : PeerId) (nows : list Instant)
    (pm : PeerManager) :
  manager_reachable pm ->
  exists pm1 es pm2, notify_disconnect now p pm = Ret pm1 /\ polls nows pm1 = Ret (es, pm2) /\
    forall e, e = Event_Ping p \/ e = Event_Status p -> e ∈ es ++ events pm2 -> e ∈ events pm.
Proof.
  intros Hm%manager_reachable_mwf.
  destruct (notify_disconnect_ok now p pm Hm) as (pm1 & db & Hr & Hm1 & He & _ & _ & Hp & Hs).
  destruct (polls_ok p nows pm1 Hm1) as (es & pm2 & Hr2 & Hq).
  { by rewrite Hp, decide_True. } { by rewrite Hs, decide_True. }
  exists pm1, es, pm2. split_and!; [done|done|]. intros e Hor Hin. rewrite <-He. by apply Hq.
Qed.
End PeerManager.

(** ** A concrete instance: an interval is the list of its ticks to come. *)
Definition demo_interval : IntervalLib := {|
  Interval := list Instant;
  interval := fun d => [0%N; d];
  interval_poll := fun now l =>
    match l with
    | t :: l' => if decide (t <= now)%N then (true, l') else (false, l)
    | [] => (false, l)
    end;
  ticks := fun _ l => length l;
|}.

Lemma demo_interval_laws : @IntervalLaws demo_interval.
Proof.
  split; cbn. intros now [|t l] ready i'; [intros [= <- <-]; done|].
  case_decide; intros [= <- <-]; cbn; lia.
Qed.

Section Witnesses.
#[local] Existing Instance demo_libp2p.
#[local] Existing Instance demo_enrs.
#[local] Existing Instance demo_enr_laws.
#[local] Existing Instance demo_keys.
#[local] Existing Instance demo_peer_ids.
#[local] Existing Instance demo_key_total.
#[local] Existing Instance demo_discv5.
#[local] Existing Instance demo_discv5_laws.
#[local] Existing Instance map_to_list_order.
#[local] Existing Instance table_queue.
#[local] Existing Instance table_queue_laws.
#[local] Existing Instance table_queue_alive.
#[local] Existing Instance demo_interval.
#[local] Existing Instance demo_interval_laws.
#[local] Instance demo_profile : BuildProfile := true.

Definition demo_peer : @PeerId demo_libp2p := 5%N.

(** A manager that wants two peers, before any call. *)
Definition demo_manager : PeerManager :=
  new demo_server [demo_node] (mkSocketAddr (V4 7%N) 9000%N) false 2
    (new_globals demo_stored [] [] [] 9000%N 9000%N).

Lemma demo_manager_reachable : manager_reachable demo_manager.
Proof.
  exists demo_server, [demo_node], (mkSocketAddr (V4 7%N) 9000%N), false, 2%nat, demo_stored, [], [], [],
    9000%N, 9000%N. apply rtc_refl.
Defined.

(** The same after [demo_peer] dialed us. *)
Lemma demo_room : has_room demo_peer IngoingConnected demo_manager.
Proof. right. reflexivity. Qed.

Lemma manager_calls_return_witness :
  exists pm', run_manager 7%N (Call_connect demo_peer IngoingConnected) demo_manager = Ret pm' /\
    (n_dc (peerdb pm') <= MAX_DC_PEERS)%Z.
Proof.
  destruct (manager_calls_return 7%N (Call_connect demo_peer IngoingConnected) demo_manager
    demo_manager_reachable demo_room) as (pm' & Hr & _ & _ & Hn & _).
  exists pm'. split; [exact Hr|exact Hn].
Defined.

(** The first poll searches for peers and dials the one it finds. *)
Lemma poll_next_queue_witness :
  exists e pm', poll_next 1%N demo_manager = Ret (e, pm') /\ peerdb pm' = peerdb demo_manager /\
    (match poll_next 1%N demo_manager with Ret (e, _) => e | _ => None end) = Some (Event_Dial 17%N).
Proof.
  destruct (poll_next_queue 1%N demo_manager demo_manager_reachable)
    as (e & pm' & evs & pings & statuses & Hr & _ & _ & _ & Hg & _).
  exists e, pm'. split; [exact Hr|]. split; [exact Hg|]. vm_compute. reflexivity.
Defined.

(** The connection that [demo_peer] opened is counted as ours. *)
Lemma connect_peer_spec_witness :
  exists pm', connect_peer 7%N demo_peer IngoingConnected demo_manager = Ret (true, pm') /\
    connection_status <$> PeerDB.peers (peerdb pm') !! demo_peer = Some (Connected 0 1).
Proof.
  destruct (connect_peer_spec 7%N demo_peer IngoingConnected demo_manager
    demo_manager_reachable demo_room) as (pm' & Hr & Hp & _).
  exists pm'. split; [exact Hr|]. rewrite (Hp demo_peer). reflexivity.
Defined.

(** After [demo_peer] dialed us. *)
Lemma demo_connected :
  exists pm, manager_reachable pm /\
    PeerDB.peers (peerdb pm) !! demo_peer = Some (set_connection_status (Connected 0 1) PeerInfo_default).
Proof.
  destruct (connect_peer_ok 7%N demo_peer IngoingConnected demo_manager
    (manager_reachable_mwf _ demo_manager_reachable) demo_room) as (pm & Hr & _ & _ & Hp & _).
  exists pm. split; [|by rewrite Hp, lookup_insert_eq].
  exists demo_server, [demo_node], (mkSocketAddr (V4 7%N) 9000%N), false, 2%nat, demo_stored, [], [], [],
    9000%N, 9000%N. apply rtc_once. exists 7%N, (Call_connect demo_peer IngoingConnected).
  cbn [run_manager]. fold demo_manager. by rewrite Hr.
Qed.

(** Its first metadata is stored, whole. *)
Lemma metadata_forward_witness :
  exists pm, manager_reachable pm /\
    known_meta demo_peer (peerdb (meta_data_response demo_peer (mkMetaData 3%N [Byte.x05]) pm)) =
      Some (mkMetaData 3%N [Byte.x05]).
Proof.
  destruct demo_connected as (pm & Hreach & Hp). exists pm. split; [exact Hreach|].
  destruct (metadata_forward 7%N demo_peer pm Hreach) as (_ & _ & Hm).
  destruct (Hm (mkMetaData 3%N [Byte.x05])) as (Hq & _). unfold known_meta. rewrite Hq, Hp. reflexivity.
Defined.

(** Two I/O errors cost it 30 of its 50 points. *)
Lemma rpc_errors_cost_reputation_witness :
  exists pm, manager_reachable pm /\
    reputation <$> PeerDB.peers (peerdb
      (Nat.iter 2 (handle_rpc_error demo_peer Protocol_Ping (IoError "reset"%string)) pm)) !! demo_peer =
    Some 20%Z.
Proof.
  destruct demo_connected as (pm & Hreach & Hp). exists pm. split; [exact Hreach|].
  destruct (rpc_errors_cost_reputation 2 demo_peer Protocol_Ping (IoError "reset"%string) pm Hreach)
    as (_ & _ & Hq).
  rewrite (Hq demo_peer), Hp. reflexivity.
Defined.

Lemma disconnect_stops_timers_witness :
  exists pm1 es pm2, notify_disconnect 8%N demo_peer demo_manager = Ret pm1 /\
    polls [9%N; 10%N] pm1 = Ret (es, pm2) /\ (Event_Ping demo_peer ∈ es ++ events pm2 -> False).
Proof.
  destruct (disconnect_stops_timers 8%N demo_peer [9%N; 10%N] demo_manager demo_manager_reachable)
    as (pm1 & es & pm2 & Hr & Hr2 & Hq).
  exists pm1, es, pm2. split; [exact Hr|]. split; [exact Hr2|]. intros Hin.
  exact (not_elem_of_nil _ (Hq _ (or_introl eq_refl) Hin)).
Defined.
End Witnesses.
