(* ===== verification/RpcBehaviour.v ===== *)
(** * The RPC behaviour (src/core/network/src/rpc/mod.rs)

    [RPC] is the queue between the behaviour and the connection handlers:
    requests and responses to send, and messages received.  libp2p's action
    type and connection identifiers are declared here. *)
From Stdlib Require Import NArith.
From S2P Require Import Prelude Env RpcMethods RpcProtocol RpcHandler.

Open Scope list_scope.

(** libp2p's [ConnectionId], opaque to the program. *)
Class Connections := {
  ConnectionId : Type;
  ConnectionId_eq_dec :: EqDecision ConnectionId;
  ListenerId : Type;
}.

Section Actions.
Context `{Libp2p} `{Connections}.

(** libp2p's [NotifyHandler] and [NetworkBehaviourAction]; a dial of a peer is
    always conditional on it being disconnected. *)
Inductive NotifyHandler :=
| Handler_One (conn_id : ConnectionId)
| Handler_Any
| Handler_All.

Inductive NBAction (In Out : Type) :=
| GenerateEvent (event : Out)
| DialAddress (address : Multiaddr)
| DialPeer (peer_id : PeerId)
| Notify (peer_id : PeerId) (handler : NotifyHandler) (event : In)
| ReportObservedAddr (address : Multiaddr).

(** libp2p's [ConnectedPoint]: we dialed, or a peer dialed us. *)
Inductive ConnectedPoint :=
| Dialer (address : Multiaddr)
| Listener (local_addr send_back_addr : Multiaddr).

(** The notifications of the swarm: the methods [inject_*] of libp2p's
    [NetworkBehaviour] and their arguments, an error as its text. *)
Inductive Injection :=
| Inj_connected (peer_id : PeerId)
| Inj_disconnected (peer_id : PeerId)
| Inj_connection_established (peer_id : PeerId) (conn_id : ConnectionId) (endpoint : ConnectedPoint)
| Inj_connection_closed (peer_id : PeerId) (conn_id : ConnectionId) (endpoint : ConnectedPoint)
| Inj_addr_reach_failure (peer_id : option PeerId) (addr : Multiaddr) (error : string)
| Inj_dial_failure (peer_id : PeerId)
| Inj_new_listen_addr (addr : Multiaddr)
| Inj_expired_listen_addr (addr : Multiaddr)
| Inj_new_external_addr (addr : Multiaddr)
| Inj_listener_error (id : ListenerId) (error : string)
| Inj_listener_closed (id : ListenerId) (reason : Result unit string).
End Actions.
Arguments GenerateEvent {_ _ In Out} event.
Arguments DialAddress {_ _ In Out} address.
Arguments DialPeer {_ _ In Out} peer_id.
Arguments Notify {_ _ In Out} peer_id handler event.
Arguments ReportObservedAddr {_ _ In Out} address.

Section RPC.
Context `{Libp2p} `{Connections}.

(** [struct RPCMessage] *)
Record RPCMessage := mkRPCMessage {
  msg_peer_id : PeerId;
  msg_conn_id : ConnectionId;
  msg_event : Result RPCReceived HandlerErr;
}.

#[local] Abbreviation RPCAction := (NBAction RPCSend RPCMessage).

(** [struct RPC] *)
Record RPC := mkRPC { rpc_events : list RPCAction }.

Definition RPC_new : RPC := mkRPC [].

Definition rpc_push (a : RPCAction) (rpc : RPC) : RPC := mkRPC (rpc_events rpc ++ [a]).

Definition rpc_send_response (peer_id : PeerId) (id : ConnectionId * SubstreamId)
    (event : RPCCodedResponse) (rpc : RPC) : RPC :=
  rpc_push (Notify peer_id (Handler_One id.1) (Send_Response id.2 event)) rpc.

Definition rpc_send_request (peer_id : PeerId) (request_id : RequestId) (event : RPCRequest)
    (rpc : RPC) : RPC :=
  rpc_push (Notify peer_id Handler_Any (Send_Request request_id event)) rpc.

(** [impl NetworkBehaviour for RPC]; the injections that are not listed do
    nothing. *)
Definition rpc_inject_connected (peer_id : PeerId) (rpc : RPC) : RPC :=
  let rpc_event := Send_Request RequestId_Behaviour RPCRequest_MetaData in
  rpc_push (Notify peer_id Handler_Any rpc_event) rpc.

Definition rpc_inject (i : Injection) (rpc : RPC) : RPC :=
  match i with Inj_connected peer_id => rpc_inject_connected peer_id rpc | _ => rpc end.

Definition rpc_inject_event (peer_id : PeerId) (conn_id : ConnectionId)
    (event : Result RPCReceived HandlerErr) (rpc : RPC) : RPC :=
  rpc_push (GenerateEvent (mkRPCMessage peer_id conn_id event)) rpc.

(** [None] is [Poll::Pending]. *)
Definition rpc_poll (rpc : RPC) : option RPCAction * RPC :=
  match rpc_events rpc with
  | e :: rest => (Some e, mkRPC rest)
  | [] => (None, rpc)
  end.

(** ** A queue: what goes in comes out in order *)

(** The calls of the behaviour, as the action each queues. *)
Inductive RpcCall :=
| Rpc_send_response (peer_id : PeerId) (id : ConnectionId * SubstreamId) (event : RPCCodedResponse)
| Rpc_send_request (peer_id : PeerId) (request_id : RequestId) (event : RPCRequest)
| Rpc_inject_connected (peer_id : PeerId)
| Rpc_inject_event (peer_id : PeerId) (conn_id : ConnectionId) (event : Result RPCReceived HandlerErr)
| Rpc_poll.

Definition run_rpc (c : RpcCall) (rpc : RPC) : option RPCAction * RPC :=
  match c with
  | Rpc_send_response p id e => (None, rpc_send_response p id e rpc)
  | Rpc_send_request p id e => (None, rpc_send_request p id e rpc)
  | Rpc_inject_connected p => (None, rpc_inject_connected p rpc)
  | Rpc_inject_event p conn e => (None, rpc_inject_event p conn e rpc)
  | Rpc_poll => rpc_poll rpc
  end.

Fixpoint run_rpcs (cs : list RpcCall) (rpc : RPC) : list RPCAction * RPC :=
  match cs with
  | [] => ([], rpc)
  | c :: cs =>
    let '(out, rpc) := run_rpc c rpc in
    let '(outs, rpc) := run_rpcs cs rpc in
    (option_list out ++ outs, rpc)
  end.

(** The specification: each call but [poll] submits one action. *)
Definition submitted (c : RpcCall) : list RPCAction :=
  match c with
  | Rpc_send_response p (conn, id) e => [Notify p (Handler_One conn) (Send_Response id e)]
  | Rpc_send_request p id e => [Notify p Handler_Any (Send_Request id e)]
  | Rpc_inject_connected p =>
    [Notify p Handler_Any (Send_Request RequestId_Behaviour RPCRequest_MetaData)]
  | Rpc_inject_event p conn e => [GenerateEvent (mkRPCMessage p conn e)]
  | Rpc_poll => []
  end.

Lemma run_rpc_queue c rpc :
  let '(out, rpc') := run_rpc c rpc in
  option_list out ++ rpc_events rpc' = rpc_events rpc ++ submitted c.
Proof.
  destruct c as [p [conn id] e|p id e|p|p conn e|]; cbn; try done.
  unfold rpc_poll. destruct rpc as [[|e rest]]; cbn; by rewrite ?app_nil_r.
Qed.

(** Through any sequence of calls, what [poll] has delivered followed by
    what is still queued is exactly what was submitted, in order: no message
    is lost, repeated, changed or overtaken; and a connected peer is asked for
    its metadata before anything submitted later. *)
Theorem rpc_is_a_queue (cs : list RpcCall) :
  (run_rpcs cs RPC_new).1 ++ rpc_events (run_rpcs cs RPC_new).2 = cs ≫= submitted.
Proof.
  assert (Hgen : forall rpc, (run_rpcs cs rpc).1 ++ rpc_events (run_rpcs cs rpc).2 =
    rpc_events rpc ++ (cs ≫= submitted)).
  { induction cs as [|c cs IH]; intros rpc; cbn; [by rewrite app_nil_r|].
    pose proof (run_rpc_queue c rpc) as Hc. destruct (run_rpc c rpc) as [out rpc1].
    specialize (IH rpc1). destruct (run_rpcs cs rpc1) as [outs rpc2]. cbn in *.
    by rewrite <-app_assoc, IH, app_assoc, Hc, <-app_assoc. }
  apply (Hgen RPC_new).
Qed.
End RPC.
