(* ===== verification/Behaviour.v ===== *)
(** * The network behaviour (src/core/network/src/behaviour/mod.rs)

    [Behaviour] joins gossipsub, RPC, identify and the peer manager: it hands
    the swarm's notifications to each, answers pings and metadata requests,
    passes the rest on to the application and drives the peer manager.
    Gossipsub and identify are libp2p's ([SubProtocols]).  The lock of the
    network globals is shared with the peer manager, through which the model
    reads and writes it. *)
From Stdlib Require Import NArith Strings.String.
From S2P Require Import Prelude Env RpcMethods RpcProtocol Client PeerInfo PeerDB DelayQueue.
From S2P Require Import EnrExt Keys Discovery Globals PeerManager RpcHandler RpcBehaviour.

Open Scope list_scope.

Definition MAX_IDENTIFY_ADDRESSES : nat := 10.

(** libp2p's [MessageId] and [TopicHash]. *)
Class GossipTypes := {
  MessageId : Type;
  TopicHash : Type;
}.

Section Events.
Context `{Libp2p} `{GossipTypes}.

(** [libp2p::gossipsub::GossipsubMessage], the fields read. *)
Record GossipsubMessage := mkGossipsubMessage {
  gs_data : list Byte.byte;
  gs_sequence_number : N;
  gs_topics : list TopicHash;
}.

Inductive GossipsubEvent :=
| Gossip_Message (propagation_source : PeerId) (id : MessageId) (message : GossipsubMessage)
| Gossip_Subscribed (peer_id : PeerId) (topic : TopicHash)
| Gossip_Unsubscribed (peer_id : PeerId) (topic : TopicHash).

(** [libp2p::identify::IdentifyEvent] *)
Inductive IdentifyEvent :=
| Identify_Received (peer_id : PeerId) (info : IdentifyInfo) (observed_addr : Multiaddr)
| Identify_Sent (peer_id : PeerId)
| Identify_Error (peer_id : PeerId) (error : string).
End Events.

(** libp2p's gossipsub and identify behaviours. *)
Class SubProtocols `{Libp2p} `{Connections} `{GossipTypes} := {
  Gossipsub : Type;
  GossipsubIn : Type;
  GossipsubOut : Type;
  gs_subscribe : string -> Gossipsub -> bool * Gossipsub;
  gs_unsubscribe : string -> Gossipsub -> bool * Gossipsub;
  gs_publish : string -> list Byte.byte -> Gossipsub -> Gossipsub;
  gs_propagate_message : MessageId -> PeerId -> Gossipsub -> Gossipsub;
  gs_inject : Injection -> Gossipsub -> Gossipsub;
  gs_inject_event : PeerId -> ConnectionId -> GossipsubOut -> Gossipsub -> Gossipsub;
  gs_poll : Gossipsub -> option (NBAction GossipsubIn GossipsubEvent) * Gossipsub;
  Identify : Type;
  IdentifyIn : Type;
  IdentifyOut : Type;
  id_inject : Injection -> Identify -> Identify;
  id_inject_event : PeerId -> ConnectionId -> IdentifyOut -> Identify -> Identify;
  id_poll : Identify -> option (NBAction IdentifyIn IdentifyEvent) * Identify;
  (** The events each has waiting. *)
  gs_waiting : Gossipsub -> nat;
  id_waiting : Identify -> nat;
}.

Class SubProtocolsLaws `{SubProtocols} := {
  gs_poll_waiting : forall g e g', gs_poll g = (Some (GenerateEvent e), g') ->
    (gs_waiting g' < gs_waiting g)%nat;
  id_poll_waiting : forall i e i', id_poll i = (Some (GenerateEvent e), i') ->
    (id_waiting i' < id_waiting i)%nat;
}.

(** [enum Request], [enum Response] and their conversions. *)
Inductive Request :=
| Request_Status (data : list Byte.byte)
| Request_Goodbye (data : list Byte.byte).

Definition RPCRequest_of_Request (req : Request) : RPCRequest :=
  match req with
  | Request_Goodbye r => RPCRequest_Goodbye r
  | Request_Status s => RPCRequest_Status s
  end.

Inductive Response :=
| Response_Status (data : list Byte.byte).

Definition RPCCodedResponse_of_Response (resp : Response) : RPCCodedResponse :=
  match resp with
  | Response_Status s => Success (RPCResponse_Status s)
  end.

Section Behaviour.
Context `{Discv5Lib} `{HashOrder} `{BuildProfile} `{DelayQueue} `{IntervalLib}.
Context `{!Connections} `{!GossipTypes} `{!SubProtocols}.

(** [type PeerRequestId] *)
Definition PeerRequestId : Type := ConnectionId * SubstreamId.

(** [enum BehaviourEvent] *)
Inductive BehaviourEvent :=
| RPCFailed (id : RequestId) (peer_id : PeerId) (error : RPCError)
| RequestReceived (peer_id : PeerId) (id : PeerRequestId) (request : Request)
| ResponseReceived (peer_id : PeerId) (id : RequestId) (response : Response)
| PubsubMessage (id : MessageId) (sequence_number : N) (agent_string : string) (source : PeerId)
    (topics : list TopicHash) (message : list Byte.byte)
| PeerSubscribed (peer_id : PeerId) (topic : TopicHash)
| StatusPeer (peer_id : PeerId).

(** The handler's [DelegateIn], [BehaviourHandlerIn], [DelegateOut] and
    [BehaviourHandlerOut] (behaviour/handler). *)
Inductive DelegateIn :=
| In_Gossipsub (e : GossipsubIn)
| In_RPC (e : RPCSend)
| In_Identify (e : IdentifyIn).

Inductive BehaviourHandlerIn :=
| Delegate (e : DelegateIn)
| Shutdown (last_message : option (RequestId * RPCRequest)).

Inductive DelegateOut :=
| Out_Gossipsub (e : GossipsubOut)
| Out_RPC (e : Result RPCReceived HandlerErr)
| Out_Identify (e : IdentifyOut).

Inductive BehaviourHandlerOut :=
| Out_Delegate (e : DelegateOut)
| Out_Custom.

#[local] Abbreviation Action := (NBAction BehaviourHandlerIn BehaviourEvent).

(** [struct Behaviour] *)
Record Behaviour := mkBehaviour {
  gossipsub : Gossipsub;
  mothra_rpc : RPC;
  identify_protocol : Identify;
  peer_manager : PeerManager;
  b_events : list BehaviourEvent;
  peers_to_dc : list PeerId;
  b_meta_data : list Byte.byte;
  b_ping_data : list Byte.byte;
  enr_fork_id : EnrForkId;
}.

Definition b_globals (b : Behaviour) : NetworkGlobals := network_globals (peer_manager b).

Definition set_gossipsub v b :=
  mkBehaviour v (mothra_rpc b) (identify_protocol b) (peer_manager b) (b_events b) (peers_to_dc b)
    (b_meta_data b) (b_ping_data b) (enr_fork_id b).
Definition set_mothra_rpc v b :=
  mkBehaviour (gossipsub b) v (identify_protocol b) (peer_manager b) (b_events b) (peers_to_dc b)
    (b_meta_data b) (b_ping_data b) (enr_fork_id b).
Definition set_identify v b :=
  mkBehaviour (gossipsub b) (mothra_rpc b) v (peer_manager b) (b_events b) (peers_to_dc b)
    (b_meta_data b) (b_ping_data b) (enr_fork_id b).
Definition set_peer_manager v b :=
  mkBehaviour (gossipsub b) (mothra_rpc b) (identify_protocol b) v (b_events b) (peers_to_dc b)
    (b_meta_data b) (b_ping_data b) (enr_fork_id b).
Definition set_b_events v b :=
  mkBehaviour (gossipsub b) (mothra_rpc b) (identify_protocol b) (peer_manager b) v (peers_to_dc b)
    (b_meta_data b) (b_ping_data b) (enr_fork_id b).
Definition set_peers_to_dc v b :=
  mkBehaviour (gossipsub b) (mothra_rpc b) (identify_protocol b) (peer_manager b) (b_events b) v
    (b_meta_data b) (b_ping_data b) (enr_fork_id b).
Definition push_b_event (e : BehaviourEvent) (b : Behaviour) : Behaviour :=
  set_b_events (b_events b ++ [e]) b.
Definition set_subscriptions (v : gset GossipTopic) (b : Behaviour) : Behaviour :=
  set_peer_manager (set_network_globals (set_gossipsub_subscriptions v (b_globals b)) (peer_manager b)) b.

(** [Behaviour::new], with libp2p's protocols and the peer manager built. *)
Definition new (gs : Gossipsub) (ident : Identify) (pm : PeerManager) : Behaviour :=
  let globals := network_globals pm in
  mkBehaviour gs RPC_new ident pm [] [] (Globals.meta_data globals) (ping_data globals) (fork_id globals).

(** ** [impl NetworkBehaviour for Behaviour] *)

(** The macro [delegate_to_behaviours], used by every [inject_*] method. *)
Definition delegate_to_behaviours (i : Injection) (b : Behaviour) : Behaviour :=
  let b := set_gossipsub (gs_inject i (gossipsub b)) b in
  let b := set_mothra_rpc (rpc_inject i (mothra_rpc b)) b in
  set_identify (id_inject i (identify_protocol b)) b.

Definition b_addresses_of_peer (peer_id : PeerId) (b : Behaviour)
    : Outcome (list Multiaddr * Behaviour) :=
  '(addrs, pm) ← addresses_of_peer peer_id (peer_manager b);
  mret (addrs, set_peer_manager pm b).

Definition inject_event (peer_id : PeerId) (conn_id : ConnectionId) (event : BehaviourHandlerOut)
    (b : Behaviour) : Behaviour :=
  match event with
  | Out_Delegate (Out_Gossipsub ev) =>
    set_gossipsub (gs_inject_event peer_id conn_id ev (gossipsub b)) b
  | Out_Delegate (Out_RPC ev) =>
    set_mothra_rpc (rpc_inject_event peer_id conn_id ev (mothra_rpc b)) b
  | Out_Delegate (Out_Identify ev) =>
    set_identify (id_inject_event peer_id conn_id ev (identify_protocol b)) b
  | Out_Custom => b
  end.

(** ** Pubsub *)

Definition subscribe (topic : GossipTopic) (b : Behaviour) : bool * Behaviour :=
  let b := set_subscriptions ({[ topic ]} ∪ gossipsub_subscriptions (b_globals b)) b in
  let '(ok, gs) := gs_subscribe (Globals.topic topic) (gossipsub b) in
  (ok, set_gossipsub gs b).

Definition unsubscribe (topic : GossipTopic) (b : Behaviour) : bool * Behaviour :=
  let b := set_subscriptions (gossipsub_subscriptions (b_globals b) ∖ {[ topic ]}) b in
  let '(ok, gs) := gs_unsubscribe (Globals.topic topic) (gossipsub b) in
  (ok, set_gossipsub gs b).

Definition subscribe_kind (kind : string) (b : Behaviour) : bool * Behaviour :=
  subscribe (mkGossipTopic kind) b.

Definition unsubscribe_kind (kind : string) (b : Behaviour) : bool * Behaviour :=
  unsubscribe (mkGossipTopic kind) b.

Definition publish (topic : GossipTopic) (message : list Byte.byte) (b : Behaviour) : Behaviour :=
  set_gossipsub (gs_publish (Globals.topic topic) message (gossipsub b)) b.

Definition propagate_message (propagation_source : PeerId) (message_id : MessageId) (b : Behaviour)
    : Behaviour :=
  set_gossipsub (gs_propagate_message message_id propagation_source (gossipsub b)) b.

(** ** RPC *)

Definition send_request (peer_id : PeerId) (request_id : RequestId) (request : Request)
    (b : Behaviour) : Behaviour :=
  set_mothra_rpc (rpc_send_request peer_id request_id (RPCRequest_of_Request request) (mothra_rpc b)) b.

Definition send_successful_response (peer_id : PeerId) (id : PeerRequestId) (response : Response)
    (b : Behaviour) : Behaviour :=
  set_mothra_rpc (rpc_send_response peer_id id (RPCCodedResponse_of_Response response) (mothra_rpc b)) b.

Definition send_error_reponse (peer_id : PeerId) (id : PeerRequestId) (error : RPCResponseErrorCode)
    (reason : string) (b : Behaviour) : Behaviour :=
  set_mothra_rpc (rpc_send_response peer_id id (from_error_code error reason) (mothra_rpc b)) b.

Definition b_discovery_mut (call : DiscoveryCall) (b : Behaviour) : Outcome Behaviour :=
  pm ← discovery_mut call (peer_manager b);
  mret (set_peer_manager pm b).

(** [Behaviour::add_enr] *)
Definition b_add_enr (e : Enr) (b : Behaviour) : Outcome Behaviour := b_discovery_mut (CallAddEnr e) b.

Definition enr_entries (b : Behaviour) : list Enr := table_entries_enr (discovery (peer_manager b)).

Definition ping (id : RequestId) (peer_id : PeerId) (b : Behaviour) : Behaviour :=
  set_mothra_rpc (rpc_send_request peer_id id (RPCRequest_Ping (b_ping_data b)) (mothra_rpc b)) b.

Definition pong (id : PeerRequestId) (peer_id : PeerId) (b : Behaviour) : Behaviour :=
  let event := Success (RPCResponse_Pong (b_ping_data b)) in
  set_mothra_rpc (rpc_send_response peer_id id event (mothra_rpc b)) b.

Definition send_meta_data_request (peer_id : PeerId) (b : Behaviour) : Behaviour :=
  let event := RPCRequest_MetaData in
  set_mothra_rpc (rpc_send_request peer_id RequestId_Behaviour event (mothra_rpc b)) b.

Definition send_meta_data_response (id : PeerRequestId) (peer_id : PeerId) (b : Behaviour) : Behaviour :=
  let event := Success (RPCResponse_MetaData (b_meta_data b)) in
  set_mothra_rpc (rpc_send_response peer_id id event (mothra_rpc b)) b.

Definition on_gossip_event (event : GossipsubEvent) (b : Behaviour) : Behaviour :=
  match event with
  | Gossip_Message propagation_source id gs_msg =>
    let client := globals_client propagation_source (b_globals b) in
    let agent_string := default EmptyString (agent_string client) in
    push_b_event (PubsubMessage id (gs_sequence_number gs_msg) agent_string propagation_source
      (gs_topics gs_msg) (gs_data gs_msg)) b
  | Gossip_Subscribed peer_id topic => push_b_event (PeerSubscribed peer_id topic) b
  | Gossip_Unsubscribed _ _ => b
  end.

Definition propagate_response (id : RequestId) (peer_id : PeerId) (response : Response)
    (b : Behaviour) : Behaviour :=
  if decide (id = RequestId_Behaviour) then b
  else push_b_event (ResponseReceived peer_id id response) b.

Definition propagate_request (id : PeerRequestId) (peer_id : PeerId) (request : Request)
    (b : Behaviour) : Behaviour :=
  push_b_event (RequestReceived peer_id id request) b.

Definition on_rpc_event (now : Instant) (message : RPCMessage) (b : Behaviour) : Outcome Behaviour :=
  let peer_id := msg_peer_id message in
  let handler_id := msg_conn_id message in
  match msg_event message with
  | Err (Inbound_err _ proto error) =>
    mret (set_peer_manager (handle_rpc_error peer_id proto error (peer_manager b)) b)
  | Err (Outbound_err id proto error) =>
    let b := set_peer_manager (handle_rpc_error peer_id proto error (peer_manager b)) b in
    if decide (id = RequestId_Behaviour) then mret b
    else mret (push_b_event (RPCFailed id peer_id error) b)
  | Ok (Received_Request id request) =>
    let peer_request_id := (handler_id, id) in
    match request with
    | RPCRequest_Ping _ => mret (pong peer_request_id peer_id b)
    | RPCRequest_MetaData => mret (send_meta_data_response (handler_id, id) peer_id b)
    | RPCRequest_Goodbye _ => mret (set_peers_to_dc (peers_to_dc b ++ [peer_id]) b)
    | RPCRequest_Status msg =>
      pm ← peer_statusd now peer_id (peer_manager b);
      mret (propagate_request peer_request_id peer_id (Request_Status msg) (set_peer_manager pm b))
    end
  | Ok (Received_Response id resp) =>
    match resp with
    | RPCResponse_Pong _ => mret b
    | RPCResponse_MetaData _ => mret b
    | RPCResponse_Status msg =>
      pm ← peer_statusd now peer_id (peer_manager b);
      mret (propagate_response id peer_id (Response_Status msg) (set_peer_manager pm b))
    end
  end.

Definition on_identify_event (event : IdentifyEvent) (b : Behaviour) : Behaviour :=
  match event with
  | Identify_Received peer_id info observed_addr =>
    let info :=
      if decide (MAX_IDENTIFY_ADDRESSES < length (listen_addrs info))%nat
      then set_listen_addrs (take MAX_IDENTIFY_ADDRESSES (listen_addrs info)) info
      else info in
    set_peer_manager (identify peer_id info (peer_manager b)) b
  | Identify_Sent _ | Identify_Error _ _ => b
  end.

(** ** Polling *)

(** The action of a sub-behaviour other than an event, passed on with its
    handler event wrapped: the macro [poll_behaviour]. *)
Definition forward_action {In Out} (wrap : In -> DelegateIn) (action : NBAction In Out)
    : option Action :=
  match action with
  | GenerateEvent _ => None
  | DialAddress address => Some (DialAddress address)
  | DialPeer peer_id => Some (DialPeer peer_id)
  | Notify peer_id handler event => Some (Notify peer_id handler (Delegate (wrap event)))
  | ReportObservedAddr address => Some (ReportObservedAddr address)
  end.

Fixpoint poll_gossipsub (fuel : nat) (b : Behaviour) : Outcome (option Action * Behaviour) :=
  match fuel with
  | O => OutOfFuel
  | S fuel =>
    let '(r, gs) := gs_poll (gossipsub b) in
    let b := set_gossipsub gs b in
    match r with
    | Some (GenerateEvent event) => poll_gossipsub fuel (on_gossip_event event b)
    | Some action => mret (forward_action In_Gossipsub action, b)
    | None => mret (None, b)
    end
  end.

Fixpoint poll_rpc (fuel : nat) (now : Instant) (b : Behaviour) : Outcome (option Action * Behaviour) :=
  match fuel with
  | O => OutOfFuel
  | S fuel =>
    let '(r, rpc) := rpc_poll (mothra_rpc b) in
    let b := set_mothra_rpc rpc b in
    match r with
    | Some (GenerateEvent event) =>
      b ← on_rpc_event now event b;
      poll_rpc fuel now b
    | Some action => mret (forward_action In_RPC action, b)
    | None => mret (None, b)
    end
  end.

Fixpoint poll_identify (fuel : nat) (b : Behaviour) : Outcome (option Action * Behaviour) :=
  match fuel with
  | O => OutOfFuel
  | S fuel =>
    let '(r, ident) := id_poll (identify_protocol b) in
    let b := set_identify ident b in
    match r with
    | Some (GenerateEvent event) => poll_identify fuel (on_identify_event event b)
    | Some action => mret (forward_action In_Identify action, b)
    | None => mret (None, b)
    end
  end.

(** The loop of [custom_poll] over the peer manager. *)
Fixpoint poll_manager (fuel : nat) (now : Instant) (b : Behaviour)
    : Outcome (option Action * Behaviour) :=
  match fuel with
  | O => OutOfFuel
  | S fuel =>
    '(event, pm) ← PeerManager.poll_next now (peer_manager b);
    let b := set_peer_manager pm b in
    match event with
    | Some (Event_Dial peer_id) => mret (Some (DialPeer peer_id), b)
    | Some (Event_SocketUpdated address) => mret (Some (ReportObservedAddr address), b)
    | Some (Event_Status peer_id) => mret (Some (GenerateEvent (StatusPeer peer_id)), b)
    | Some (Event_Ping peer_id) => poll_manager fuel now (ping RequestId_Behaviour peer_id b)
    | Some (Event_MetaData peer_id) => poll_manager fuel now (send_meta_data_request peer_id b)
    | Some (Event_DisconnectPeer peer_id) =>
      let b := set_peers_to_dc (peers_to_dc b ++ [peer_id]) b in
      mret (Some (Notify peer_id Handler_Any
        (Shutdown (Some (RequestId_Behaviour, RPCRequest_Goodbye [])))), b)
    | None => mret (None, b)
    end
  end.

Definition custom_poll (fuel : nat) (now : Instant) (b : Behaviour)
    : Outcome (option Action * Behaviour) :=
  match peers_to_dc b with
  | peer_id :: rest =>
    mret (Some (Notify peer_id Handler_All (Shutdown None)), set_peers_to_dc rest b)
  | [] =>
    '(r, b) ← poll_manager fuel now b;
    match r with
    | Some action => mret (Some action, b)
    | None =>
      match b_events b with
      | event :: rest => mret (Some (GenerateEvent event), set_b_events rest b)
      | [] => mret (None, b)
      end
    end
  end.

(** [fuel] bounds the iterations over the peer manager; the other loops take
    as many as there are events waiting. *)
Definition poll (fuel : nat) (now : Instant) (b : Behaviour) : Outcome (option Action * Behaviour) :=
  '(r, b) ← poll_gossipsub (S (gs_waiting (gossipsub b))) b;
  match r with
  | Some action => mret (Some action, b)
  | None =>
    '(r, b) ← poll_rpc (S (length (rpc_events (mothra_rpc b)))) now b;
    match r with
    | Some action => mret (Some action, b)
    | None =>
      '(r, b) ← poll_identify (S (id_waiting (identify_protocol b))) b;
      match r with
      | Some action => mret (Some action, b)
      | None => custom_poll fuel now b
      end
    end
  end.

(** The calls of the swarm and of the service; [BC_db_connect_outgoing] is the
    service's own write to the shared database. *)
Inductive BehaviourCall :=
| BC_inject (i : Injection)
| BC_inject_event (peer_id : PeerId) (conn_id : ConnectionId) (event : BehaviourHandlerOut)
| BC_addresses_of_peer (peer_id : PeerId)
| BC_subscribe (topic : GossipTopic)
| BC_unsubscribe (topic : GossipTopic)
| BC_publish (topic : GossipTopic) (message : list Byte.byte)
| BC_propagate (source : PeerId) (id : MessageId)
| BC_send_request (peer_id : PeerId) (id : RequestId) (request : Request)
| BC_send_response (peer_id : PeerId) (id : PeerRequestId) (response : Response)
| BC_send_error (peer_id : PeerId) (id : PeerRequestId) (error : RPCResponseErrorCode) (reason : string)
| BC_discovery (call : DiscoveryCall)
| BC_connect_ingoing (peer_id : PeerId)
| BC_dialing (peer_id : PeerId)
| BC_notify_disconnect (peer_id : PeerId)
| BC_db_connect_outgoing (peer_id : PeerId)
| BC_poll (fuel : nat).

(** A call through [peer_manager()]. *)
Definition b_manager (now : Instant) (c : ManagerCall) (b : Behaviour) : Outcome Behaviour :=
  pm ← run_manager now c (peer_manager b);
  mret (set_peer_manager pm b).

Definition b_db_connect_outgoing (peer_id : PeerId) (b : Behaviour) : Outcome Behaviour :=
  db ← PeerDB.connect_outgoing peer_id (peerdb (peer_manager b));
  mret (set_peer_manager (set_peerdb db (peer_manager b)) b).

Definition run_behaviour (now : Instant) (c : BehaviourCall) (b : Behaviour)
    : Outcome (option Action * Behaviour) :=
  match c with
  | BC_inject i => mret (None, delegate_to_behaviours i b)
  | BC_inject_event p conn e => mret (None, inject_event p conn e b)
  | BC_addresses_of_peer p => '(_, b) ← b_addresses_of_peer p b; mret (None, b)
  | BC_subscribe t => mret (None, (subscribe t b).2)
  | BC_unsubscribe t => mret (None, (unsubscribe t b).2)
  | BC_publish t m => mret (None, publish t m b)
  | BC_propagate p id => mret (None, propagate_message p id b)
  | BC_send_request p id r => mret (None, send_request p id r b)
  | BC_send_response p id r => mret (None, send_successful_response p id r b)
  | BC_send_error p id e reason => mret (None, send_error_reponse p id e reason b)
  | BC_discovery call => pair None <$> b_discovery_mut call b
  | BC_connect_ingoing p => pair None <$> b_manager now (Call_connect p IngoingConnected) b
  | BC_dialing p => pair None <$> b_manager now (Call_connect p Connecting_Dialing) b
  | BC_notify_disconnect p => pair None <$> b_manager now (Call_notify_disconnect p) b
  | BC_db_connect_outgoing p => pair None <$> b_db_connect_outgoing p b
  | BC_poll fuel => poll fuel now b
  end.

Definition behaviour_step (b b' : Behaviour) : Prop :=
  exists now c action, run_behaviour now c b = Ret (action, b').

(** The behaviours of a running node. *)
Definition behaviour_reachable (b : Behaviour) : Prop :=
  exists gs ident server boot_nodes socket disabled max enr fork meta ping tcp udp,
    rtc behaviour_step
      (new gs ident (PeerManager.new server boot_nodes socket disabled max
                       (new_globals enr fork meta ping tcp udp))) b.

(** ** Invariant *)

Context `{!KeyTotal} `{!Discv5Laws} `{!DelayQueueLaws} `{!DelayQueueAlive} `{!IntervalLaws} `{!EnrLaws}.
Context `{!SubProtocolsLaws}.

(** The invariant, with a condition [Q] on the status of each peer. *)
Section Invariant.
Context (Q : PeerId -> PeerConnectionStatus -> Prop) (HQ : idle_statuses Q).

Definition bwf (b : Behaviour) : Prop :=
  mwf (peer_manager b) /\ statuses Q (peerdb (peer_manager b)).

(** A call that connects a peer leaves it a status as [Q] asks. *)
Definition call_keeps (now : Instant) (c : BehaviourCall) (b : Behaviour) : Prop :=
  match c with
  | BC_connect_ingoing p | BC_db_connect_outgoing p =>
    Q p (status_after_connect now IngoingConnected
           (connection_status (entry_or_default p (peerdb (peer_manager b)))))
  | _ => True
  end.

Lemma bwf_manager now c b pm :
  bwf b -> run_manager now c (peer_manager b) = Ret pm ->
  connect_keeps Q now c (peer_manager b) -> bwf (set_peer_manager pm b).
Proof.
  intros [Hm Hs] Hr Hc. split; cbn.
  - destruct (run_manager_ok now c (peer_manager b) Hm) as (pm' & Hr' & Hm');
      [by eapply run_manager_room|congruence].
  - by eapply run_manager_statuses.
Qed.

(** A manager call that always returns. *)
Lemma manager_call_ok now c b :
  bwf b -> call_has_room c (peer_manager b) -> connect_keeps Q now c (peer_manager b) ->
  exists pm, run_manager now c (peer_manager b) = Ret pm /\ bwf (set_peer_manager pm b).
Proof.
  intros Hb Hroom Hc. destruct (run_manager_ok now c (peer_manager b)) as (pm & Hr & _); [apply Hb|done|].
  exists pm. split; [done|]. by eapply bwf_manager.
Qed.

Lemma bwf_set_subscriptions v b : bwf b -> bwf (set_subscriptions v b).
Proof. intros [Hm Hs]. split; [by apply mwf_set_globals|done]. Qed.

Lemma bwf_on_gossip_event event b : bwf b -> bwf (on_gossip_event event b).
Proof. by destruct event. Qed.

Lemma bwf_on_identify_event event b : bwf b -> bwf (on_identify_event event b).
Proof.
  intros Hb. destruct event as [p info addr|p|p e]; [|done..]. cbn [on_identify_event].
  set (info' := if decide _ then _ else info). by apply (bwf_manager 0%N (Call_identify p info') b).
Qed.

(** What one message leaves in the RPC queue: at most one answer, never an
    event. *)
Lemma on_rpc_event_ok now message b :
  bwf b -> exists b' answers, on_rpc_event now message b = Ret b' /\ bwf b' /\
    rpc_events (mothra_rpc b') = rpc_events (mothra_rpc b) ++ answers /\
    Forall (fun a => forall e, a <> GenerateEvent e) answers.
Proof.
  intros Hb. destruct message as [p conn event]. unfold on_rpc_event. cbn [msg_peer_id msg_conn_id msg_event].
  assert (Herr : forall proto error, bwf (set_peer_manager (handle_rpc_error p proto error (peer_manager b)) b)).
  { intros proto error. by apply (bwf_manager now (Call_handle_rpc_error p proto error) b). }
  assert (Hst : exists pm, peer_statusd now p (peer_manager b) = Ret pm /\ bwf (set_peer_manager pm b)).
  { by apply (manager_call_ok now (Call_peer_statusd p) b). }
  destruct Hst as (pm & Hpm & Hbpm).
  destruct event as [[id [msg|msg|msg|]|id [msg|msg|msg]]|[id proto error|id proto error]].
  - rewrite Hpm. eexists _, []. rewrite app_nil_r. by split_and!.
  - eexists _, []. rewrite app_nil_r. by split_and!.
  - eexists _, [_]. split; [done|]. split; [done|]. split; [done|]. by repeat constructor.
  - eexists _, [_]. split; [done|]. split; [done|]. split; [done|]. by repeat constructor.
  - rewrite Hpm. cbn. eexists _, []. rewrite app_nil_r. split; [done|].
    unfold propagate_response. by case_decide.
  - eexists _, []. rewrite app_nil_r. by split_and!.
  - eexists _, []. rewrite app_nil_r. by split_and!.
  - eexists _, []. rewrite app_nil_r. split; [done|]. by split_and!.
  - case_decide; eexists _, []; rewrite app_nil_r; (split; [done|]); split_and!; try done; apply Herr.
Qed.

Lemma poll_gossipsub_ok fuel b :
  bwf b -> (gs_waiting (gossipsub b) < fuel)%nat ->
  exists r b', poll_gossipsub fuel b = Ret (r, b') /\ bwf b'.
Proof.
  revert b; induction fuel as [|fuel IH]; intros b Hb Hf; [lia|]. cbn [poll_gossipsub].
  destruct (gs_poll (gossipsub b)) as [[action|] gs] eqn:E; [|by eexists _, _].
  destruct action; try (by eexists _, _). apply gs_poll_waiting in E.
  apply IH; [by apply bwf_on_gossip_event|].
  assert (Hw : (gs_waiting gs < fuel)%nat) by lia. by destruct event.
Qed.

Lemma poll_identify_ok fuel b :
  bwf b -> (id_waiting (identify_protocol b) < fuel)%nat ->
  exists r b', poll_identify fuel b = Ret (r, b') /\ bwf b'.
Proof.
  revert b; induction fuel as [|fuel IH]; intros b Hb Hf; [lia|]. cbn [poll_identify].
  destruct (id_poll (identify_protocol b)) as [[action|] ident] eqn:E; [|by eexists _, _].
  destruct action; try (by eexists _, _). apply id_poll_waiting in E.
  assert (Hw : (id_waiting ident < fuel)%nat) by lia.
  apply IH; [by apply bwf_on_identify_event|]. by destruct event.
Qed.

(** The messages waiting in the RPC queue. *)
Definition is_event (a : NBAction RPCSend RPCMessage) : bool :=
  match a with GenerateEvent _ => true | _ => false end.

Definition messages (rpc : RPC) : nat := length (filter (fun a => is_event a = true) (rpc_events rpc)).

Lemma messages_le rpc : (messages rpc <= length (rpc_events rpc))%nat.
Proof. apply length_filter. Qed.

Lemma poll_rpc_ok fuel now b :
  bwf b -> (messages (mothra_rpc b) < fuel)%nat ->
  exists r b', poll_rpc fuel now b = Ret (r, b') /\ bwf b'.
Proof.
  revert b; induction fuel as [|fuel IH]; intros b Hb Hf; [lia|]. cbn [poll_rpc].
  unfold messages, rpc_poll in *. destruct (rpc_events (mothra_rpc b)) as [|action rest] eqn:E.
  { by eexists _, _. }
  destruct action; try (by eexists _, _).
  destruct (on_rpc_event_ok now event (set_mothra_rpc (mkRPC rest) b) Hb)
    as (b1 & answers & Hr & Hb1 & Hev & Hans).
  rewrite Hr. cbn [mbind Outcome_bind]. apply IH; [done|]. rewrite Hev. cbn in *.
  rewrite filter_app, length_app.
  assert (Hn : filter (fun a => is_event a = true) answers = []).
  { apply elem_of_nil_inv. intros a [Ha Hin]%list_elem_of_filter.
    eapply Forall_forall in Hans; [|done]. destruct a; try done. by destruct (Hans event0). }
  rewrite Hn. cbn. rewrite Nat.add_0_r. by apply Nat.succ_lt_mono.
Qed.

(** The loop over the peer manager ends: every event it takes lowers the
    manager's measures. *)
Lemma poll_manager_ok now b :
  bwf b -> exists n r b', bwf b' /\ forall fuel, (n <= fuel)%nat -> poll_manager fuel now b = Ret (r, b').
Proof.
  remember (peer_manager b) as pm eqn:Hpm. revert b Hpm.
  induction pm as [pm IH] using (well_founded_induction (lex_wf (poll_measures now))).
  intros b -> Hb.
  destruct (manager_poll_ok now (peer_manager b) (proj1 Hb)) as (pm & e & _ & _ & _ & Hr & Hm & _).
  assert (Hb1 : bwf (set_peer_manager pm b)).
  { apply (bwf_manager now Call_poll_next b pm Hb); [|done]. cbn [run_manager]. by rewrite Hr. }
  assert (Hlex : forall ev, e = Some ev -> lex (poll_measures now) pm (peer_manager b)).
  { intros ev ->. apply (poll_next_measure now _ ev); [apply Hb|done]. }
  assert (Hstep : forall fuel, poll_manager (S fuel) now b = '(event, pm) ← Ret (e, pm);
    let b := set_peer_manager pm b in
    match event with
    | Some (Event_Dial peer_id) => mret (Some (DialPeer peer_id), b)
    | Some (Event_SocketUpdated address) => mret (Some (ReportObservedAddr address), b)
    | Some (Event_Status peer_id) => mret (Some (GenerateEvent (StatusPeer peer_id)), b)
    | Some (Event_Ping peer_id) => poll_manager fuel now (ping RequestId_Behaviour peer_id b)
    | Some (Event_MetaData peer_id) => poll_manager fuel now (send_meta_data_request peer_id b)
    | Some (Event_DisconnectPeer peer_id) =>
      let b := set_peers_to_dc (peers_to_dc b ++ [peer_id]) b in
      mret (Some (Notify peer_id Handler_Any
        (Shutdown (Some (RequestId_Behaviour, RPCRequest_Goodbye [])))), b)
    | None => mret (None, b)
    end) by (intros fuel; cbn [poll_manager]; by rewrite Hr).
  cbn [mbind Outcome_bind] in Hstep. cbv zeta in Hstep.
  assert (Hdone : forall r b', bwf b' -> (forall fuel, poll_manager (S fuel) now b = Ret (r, b')) ->
    exists n r b', bwf b' /\ forall fuel, (n <= fuel)%nat -> poll_manager fuel now b = Ret (r, b')).
  { intros r b' Hb' Hall. exists 1%nat, r, b'. split; [done|]. intros [|fuel] Hf; [lia|apply Hall]. }
  assert (Hmore : forall b1, bwf b1 -> lex (poll_measures now) (peer_manager b1) (peer_manager b) ->
    (forall fuel, poll_manager (S fuel) now b = poll_manager fuel now b1) ->
    exists n r b', bwf b' /\ forall fuel, (n <= fuel)%nat -> poll_manager fuel now b = Ret (r, b')).
  { intros b1 Hw Hl Hall. destruct (IH (peer_manager b1) Hl b1 eq_refl Hw) as (n & r & b' & Hb' & Hn).
    exists (S n), r, b'. split; [done|]. intros [|fuel] Hf; [lia|]. rewrite Hall. apply Hn. lia. }
  destruct e as [[p|a|p|p|p|p]|].
  - by eapply Hdone; [exact Hb1|].
  - by eapply Hdone; [exact Hb1|].
  - by eapply Hdone; [exact Hb1|].
  - by eapply Hmore; [..|exact Hstep]; [exact Hb1|eapply Hlex].
  - by eapply Hmore; [..|exact Hstep]; [exact Hb1|eapply Hlex].
  - by eapply Hdone; [|exact Hstep].
  - by eapply Hdone; [exact Hb1|].
Qed.

Lemma custom_poll_ok now b :
  bwf b -> exists n r b', bwf b' /\ forall fuel, (n <= fuel)%nat -> custom_poll fuel now b = Ret (r, b').
Proof.
  intros Hb. unfold custom_poll. destruct (peers_to_dc b) as [|p rest].
  - destruct (poll_manager_ok now b Hb) as (n & r & b' & Hb' & Hn).
    destruct r as [action|]; [|destruct (b_events b') as [|event rest] eqn:E].
    + exists n, (Some action), b'. split; [done|]. intros fuel Hf. by rewrite Hn.
    + exists n, None, b'. split; [done|]. intros fuel Hf. rewrite Hn by done. cbn. by rewrite E.
    + exists n, (Some (GenerateEvent event)), (set_b_events rest b'). split; [done|].
      intros fuel Hf. rewrite Hn by done. cbn. by rewrite E.
  - by exists 0%nat, (Some (Notify p Handler_All (Shutdown None))), (set_peers_to_dc rest b).
Qed.

Lemma behaviour_poll_ok now b :
  bwf b -> exists n r b', bwf b' /\ forall fuel, (n <= fuel)%nat -> poll fuel now b = Ret (r, b').
Proof.
  intros Hb. unfold poll.
  destruct (poll_gossipsub_ok (S (gs_waiting (gossipsub b))) b Hb) as (r & b1 & Hr1 & Hb1); [lia|].
  rewrite Hr1. cbn [mbind Outcome_bind]. destruct r as [action|]; [by eexists 0%nat, _, b1|].
  destruct (poll_rpc_ok (S (length (rpc_events (mothra_rpc b1)))) now b1 Hb1) as (r & b2 & Hr2 & Hb2).
  { pose proof (messages_le (mothra_rpc b1)). lia. }
  rewrite Hr2. cbn [mbind Outcome_bind]. destruct r as [action|]; [by eexists 0%nat, _, b2|].
  destruct (poll_identify_ok (S (id_waiting (identify_protocol b2))) b2 Hb2) as (r & b3 & Hr3 & Hb3); [lia|].
  rewrite Hr3. cbn [mbind Outcome_bind]. destruct r as [action|]; [by eexists 0%nat, _, b3|].
  by apply custom_poll_ok.
Qed.

(** More fuel does not change an answer. *)
Lemma poll_manager_mono fuel fuel' now b x :
  poll_manager fuel now b = Ret x -> (fuel <= fuel')%nat -> poll_manager fuel' now b = Ret x.
Proof.
  revert fuel' b; induction fuel as [|fuel IH]; intros [|fuel'] b; cbn [poll_manager]; try done; [lia|].
  intros Hr Hle. destruct (PeerManager.poll_next now (peer_manager b)) as [[e pm]| |]; try done.
  cbn [mbind Outcome_bind] in *. destruct e as [[p|a|p|p|p|p]|]; try done; apply IH; done || lia.
Qed.

Lemma poll_mono fuel fuel' now b x :
  poll fuel now b = Ret x -> (fuel <= fuel')%nat -> poll fuel' now b = Ret x.
Proof.
  unfold poll. intros Hr Hle.
  destruct (poll_gossipsub _ b) as [[[a|] b1]| |]; try done; cbn [mbind Outcome_bind] in *.
  destruct (poll_rpc _ now b1) as [[[a|] b2]| |]; try done; cbn [mbind Outcome_bind] in *.
  destruct (poll_identify _ b2) as [[[a|] b3]| |]; try done; cbn [mbind Outcome_bind] in *.
  unfold custom_poll in *. destruct (peers_to_dc b3); [|done].
  destruct (poll_manager fuel now b3) as [[r b4]| |] eqn:E; try done.
  by rewrite (poll_manager_mono _ _ _ _ _ E Hle).
Qed.

(** A returned poll is the one enough fuel gives. *)
Lemma bwf_poll fuel now b r b' : bwf b -> poll fuel now b = Ret (r, b') -> bwf b'.
Proof.
  intros Hb Hr. destruct (behaviour_poll_ok now b Hb) as (n & r1 & b1 & Hb1 & Hn).
  assert (Heq : poll (Nat.max n fuel) now b = Ret (r, b')) by (eapply poll_mono; [exact Hr|lia]).
  rewrite Hn in Heq by lia. injection Heq as _ <-. done.
Qed.

Lemma bwf_db_connect_outgoing now p b b' :
  bwf b -> b_db_connect_outgoing p b = Ret b' -> call_keeps now (BC_db_connect_outgoing p) b -> bwf b'.
Proof.
  intros [Hm Hs] Hr Hk. unfold b_db_connect_outgoing in Hr.
  destruct (PeerDB.connect_outgoing p (peerdb (peer_manager b))) as [db| |] eqn:E; [|done..].
  injection Hr as <-. split.
  - apply mwf_set_peerdb; [|done]. eapply wf_connect_outgoing; [apply Hm|exact E].
  - destruct (connect_db_ok now p IngoingConnected (peer_manager b)) as (n & db1 & E1 & _ & ->);
      [apply Hm|by eapply connect_outgoing_room|].
    rewrite E in E1. injection E1 as ->. by apply statuses_insert.
Qed.

Lemma run_behaviour_bwf now c b action b' :
  bwf b -> run_behaviour now c b = Ret (action, b') -> call_keeps now c b -> bwf b'.
Proof.
  intros Hb Hr Hk.
  assert (Hman : forall mc, connect_keeps Q now mc (peer_manager b) ->
    pair None <$> b_manager now mc b = Ret (action, b') -> bwf b').
  { intros mc Hc. unfold b_manager. destruct (run_manager now mc (peer_manager b)) as [pm| |] eqn:E; [|done..].
    intros [= _ <-]. by eapply bwf_manager. }
  destruct c; cbn [run_behaviour] in Hr; try (injection Hr as _ <-); try done.
  - by destruct event as [[]|].
  - unfold b_addresses_of_peer in Hr.
    destruct (addresses_of_peer peer_id (peer_manager b)) as [[addrs pm]| |] eqn:E; [|done..]. injection Hr as _ <-.
    apply (bwf_manager now (Call_addresses_of_peer peer_id) b pm Hb); [|done]. cbn [run_manager]. by rewrite E.
  - unfold subscribe. destruct (gs_subscribe _ _). by apply bwf_set_subscriptions.
  - unfold unsubscribe. destruct (gs_unsubscribe _ _). by apply bwf_set_subscriptions.
  - unfold b_discovery_mut in Hr.
    destruct (discovery_mut call (peer_manager b)) as [pm| |] eqn:E; [|done..]. injection Hr as _ <-.
    by apply (bwf_manager now (Call_discovery call) b pm Hb).
  - by apply (Hman (Call_connect peer_id IngoingConnected)).
  - by apply (Hman (Call_connect peer_id Connecting_Dialing)).
  - by apply (Hman (Call_notify_disconnect peer_id)).
  - destruct (b_db_connect_outgoing peer_id b) as [b1| |] eqn:E; [|done..]. injection Hr as _ <-.
    by eapply bwf_db_connect_outgoing.
  - by eapply bwf_poll.
Qed.

(** Nothing of what comes back under the behaviour's own id is shown. *)
Lemma own_response_hidden now p conn out b :
  bwf b ->
  match out with
  | Ok (Received_Response id _) | Err (Outbound_err id _ _) => id = RequestId_Behaviour
  | _ => False
  end ->
  exists b', on_rpc_event now (mkRPCMessage p conn out) b = Ret b' /\ b_events b' = b_events b.
Proof.
  intros Hb Hout. unfold on_rpc_event. cbn [msg_peer_id msg_conn_id msg_event].
  destruct out as [[id req|id [msg|msg|msg]]|[id proto error|id proto error]]; try done; subst id.
  - destruct (manager_call_ok now (Call_peer_statusd p) b Hb) as (pm & Hr & _); [done..|].
    cbn [run_manager] in Hr. rewrite Hr. by eexists.
  - by eexists.
  - by eexists.
  - by eexists.
Qed.
End Invariant.

(** Every connection is counted as outgoing, and no peer is banned. *)
Lemma behaviour_reachable_bwf b : behaviour_reachable b -> bwf (fun _ => outgoing_only) b.
Proof.
  intros (gs & ident & server & boot & socket & disabled & max & enr & fork & meta & ping & tcp & udp & Hr).
  apply rtc_ind_r with (P := bwf (fun _ => outgoing_only)) in Hr; [done| |].
  - split; [apply mwf_new|]. intros p info. cbn. by rewrite lookup_empty.
  - intros b1 b2 _ (now & c & action & Hrun) Hb. eapply run_behaviour_bwf; [apply outgoing_idle|done..|].
    destruct c; try done; cbn; unfold status_after_connect;
      pose proof (statuses_entry _ outgoing_idle peer_id _ (proj2 Hb)) as He;
      by destruct (connection_status _).
Qed.

(** ** Properties *)

(** C3: polling the behaviour always returns: the loops over gossipsub, the
    RPC queue, identify and the peer manager end, in every state a running
    node can reach, whatever has happened and at any time; more fuel gives the
    same answer.  A peer queued for disconnection is handled before anything
    of the peer manager. *)
Theorem behaviour_poll_returns (now : Instant) (b : Behaviour) :
  behaviour_reachable b ->
  exists n r b', behaviour_reachable b' /\
    (forall fuel, (n <= fuel)%nat -> poll fuel now b = Ret (r, b')) /\
    forall p rest fuel, peers_to_dc b = p :: rest ->
      custom_poll fuel now b = Ret (Some (Notify p Handler_All (Shutdown None)), set_peers_to_dc rest b).
Proof.
  intros Hreach. destruct (behaviour_poll_ok _ outgoing_idle now b (behaviour_reachable_bwf b Hreach))
    as (n & r & b' & _ & Hn).
  exists n, r, b'. split; [|split; [done|]].
  - destruct Hreach as (gs & ident & server & boot & socket & disabled & max & enr & fork & meta & ping & tcp & udp & Hr).
    exists gs, ident, server, boot, socket, disabled, max, enr, fork, meta, ping, tcp, udp.
    eapply rtc_r; [exact Hr|]. exists now, (BC_poll n), r. by apply Hn.
  - intros p rest fuel Hdc. unfold custom_poll. by rewrite Hdc.
Qed.

(** C26: no peer is ever recorded as having dialed us, and none as banned,
    in any state a running node can reach: ingoing connections are counted as
    outgoing, and nothing writes the banned status the dialing of discovered
    peers checks for. *)
Theorem never_ingoing_never_banned (b : Behaviour) (p : PeerId) :
  behaviour_reachable b ->
  let db := peerdb (peer_manager b) in
  banned_peers db = [] /\ peer_banned p db = false /\
  forall status, get_connection_status p db = Some status -> (connections status).1 = 0%Z.
Proof.
  intros [_ Hs]%behaviour_reachable_bwf db. split; [|split].
  - apply elem_of_nil_inv. intros q. rewrite elem_of_banned_peers.
    destruct (PeerDB.peers db !! q) as [info|] eqn:E; cbn; [|by intros []].
    pose proof (Hs q info E) as Ho. cbn in Ho. by destruct (connection_status info).
  - unfold peer_banned. destruct (PeerDB.peers db !! p) as [info|] eqn:E; cbn; [|done].
    pose proof (Hs p info E) as Ho. cbn in Ho. by destruct (connection_status info).
  - intros status. unfold get_connection_status, peer_info.
    destruct (PeerDB.peers db !! p) as [info|] eqn:E; cbn; [|done]. intros [= <-].
    pose proof (Hs p info E) as Ho. cbn in Ho. by destruct (connection_status info).
Qed.

(** C20: who sees a request: a ping or a metadata request is answered at once
    on the connection and substream it came from, with the node's data, and
    never shown to the application; a status request is shown to it once, and
    what the application answers under the id it was shown goes to the same
    peer, connection and substream; a goodbye only queues the peer for
    disconnection. *)
Theorem request_route (now : Instant) (p : PeerId) (conn : ConnectionId) (id : SubstreamId)
    (request : RPCRequest) (b : Behaviour) :
  behaviour_reachable b ->
  exists b', on_rpc_event now (mkRPCMessage p conn (Ok (Received_Request id request))) b = Ret b' /\
  let answer resp := Notify p (Handler_One conn) (Send_Response id (Success resp)) in
  match request with
  | RPCRequest_Ping _ =>
    rpc_events (mothra_rpc b') = rpc_events (mothra_rpc b) ++ [answer (RPCResponse_Pong (b_ping_data b))] /\
    b_events b' = b_events b /\ peers_to_dc b' = peers_to_dc b
  | RPCRequest_MetaData =>
    rpc_events (mothra_rpc b') = rpc_events (mothra_rpc b) ++ [answer (RPCResponse_MetaData (b_meta_data b))] /\
    b_events b' = b_events b /\ peers_to_dc b' = peers_to_dc b
  | RPCRequest_Goodbye _ =>
    mothra_rpc b' = mothra_rpc b /\ b_events b' = b_events b /\ peers_to_dc b' = peers_to_dc b ++ [p]
  | RPCRequest_Status msg =>
    mothra_rpc b' = mothra_rpc b /\ peers_to_dc b' = peers_to_dc b /\
    exists shown_id, b_events b' = b_events b ++ [RequestReceived p shown_id (Request_Status msg)] /\
      forall data later,
        rpc_events (mothra_rpc (send_successful_response p shown_id (Response_Status data) later)) =
        rpc_events (mothra_rpc later) ++ [answer (RPCResponse_Status data)]
  end.
Proof.
  intros Hb%behaviour_reachable_bwf. unfold on_rpc_event. cbn [msg_peer_id msg_conn_id msg_event].
  destruct request as [msg|msg|msg|].
  - destruct (manager_call_ok _ outgoing_idle now (Call_peer_statusd p) b Hb) as (pm & Hr & _); [done..|].
    cbn [run_manager] in Hr. rewrite Hr. eexists. split; [done|]. split; [done|]. split; [done|].
    by exists (conn, id).
  - by eexists.
  - by eexists.
  - by eexists.
Qed.

(** C21: what becomes of a response: a status response or a failed request is
    queued, once and last, as an event of the behaviour for the network service,
    with the id and the peer of its request, except when the request went out
    under [RequestId::Behaviour], the id of the node's own requests; pongs and
    metadata are never queued, under no id. In no case is anything sent, and the
    rest of the behaviour changes only by its peer manager: a status restarts the
    status timer of the peer, a failure takes its penalty, a pong and a metadata
    answer change nothing. (What the service makes of the events is
    [Mothra.responses_stop_at_the_service]: it only logs them.) *)
Theorem response_route (now : Instant) (p : PeerId) (conn : ConnectionId) (id : RequestId)
    (outcome : RPCResponse + Protocol * RPCError) (b : Behaviour) :
  behaviour_reachable b ->
  exists b' pm,
    on_rpc_event now (mkRPCMessage p conn
      (match outcome with
       | inl resp => Ok (Received_Response id resp)
       | inr (proto, error) => Err (Outbound_err id proto error)
       end)) b = Ret b' /\
    match outcome with
    | inl (RPCResponse_Status _) => peer_statusd now p (peer_manager b) = Ret pm
    | inl _ => pm = peer_manager b
    | inr (proto, error) => pm = handle_rpc_error p proto error (peer_manager b)
    end /\
    b' = set_b_events
      (b_events b ++
       (if decide (id = RequestId_Behaviour) then []
        else match outcome with
             | inl (RPCResponse_Status msg) => [ResponseReceived p id (Response_Status msg)]
             | inl _ => []
             | inr (_, error) => [RPCFailed id p error]
             end)) (set_peer_manager pm b) /\
    mothra_rpc b' = mothra_rpc b /\ peers_to_dc b' = peers_to_dc b.
Proof.
  intros Hb%behaviour_reachable_bwf. unfold on_rpc_event. cbn [msg_peer_id msg_conn_id msg_event].
  destruct outcome as [[msg|msg|msg]|[proto error]].
  - destruct (manager_call_ok _ outgoing_idle now (Call_peer_statusd p) b Hb) as (pm & Hr & _); [done..|].
    cbn [run_manager] in Hr. rewrite Hr. eexists _, pm. split; [done|]. split; [done|].
    unfold propagate_response. case_decide; split_and!; try done; by rewrite app_nil_r; destruct b.
  - eexists _, _. split; [done|]. split; [done|]. case_decide; split_and!; try done; by rewrite app_nil_r; destruct b.
  - eexists _, _. split; [done|]. split; [done|]. case_decide; split_and!; try done; by rewrite app_nil_r; destruct b.
  - case_decide; eexists _, _; (split; [done|]); (split; [done|]); split_and!; try done; by rewrite app_nil_r; destruct b.
Qed.
End Behaviour.

(** ** A concrete instance: gossipsub and identify are the lists of the events
    they have waiting. *)
Definition demo_connections : Connections := {|
  ConnectionId := N;
  ConnectionId_eq_dec := _;
  ListenerId := N;
|}.

Definition demo_gossip_types : GossipTypes := {| MessageId := N; TopicHash := string |}.

Definition demo_protocols : @SubProtocols demo_libp2p demo_connections demo_gossip_types := {|
  Gossipsub := list (@GossipsubEvent demo_libp2p demo_gossip_types);
  GossipsubIn := unit;
  GossipsubOut := unit;
  gs_subscribe := fun _ g => (true, g);
  gs_unsubscribe := fun _ g => (true, g);
  gs_publish := fun _ _ g => g;
  gs_propagate_message := fun _ _ g => g;
  gs_inject := fun _ g => g;
  gs_inject_event := fun _ _ _ g => g;
  gs_poll := fun g => match g with [] => (None, []) | e :: g => (Some (GenerateEvent e), g) end;
  Identify := list (@IdentifyEvent demo_libp2p);
  IdentifyIn := unit;
  IdentifyOut := unit;
  id_inject := fun _ i => i;
  id_inject_event := fun _ _ _ i => i;
  id_poll := fun i => match i with [] => (None, []) | e :: i => (Some (GenerateEvent e), i) end;
  gs_waiting := length;
  id_waiting := length;
|}.

Lemma demo_protocols_laws : @SubProtocolsLaws demo_libp2p demo_connections demo_gossip_types demo_protocols.
Proof.
  split; cbn.
  - intros [|e' g] e g'; [done|]. intros [= _ <-]. cbn. lia.
  - intros [|e' i] e i'; [done|]. intros [= _ <-]. cbn. lia.
Qed.

Section Witnesses.
#[local] Existing Instance demo_libp2p.
#[local] Existing Instance demo_enrs.
#[local] Existing Instance demo_enr_laws.
#[local] Existing Instance demo_keys.
#[local] Existing Instance demo_peer_ids.
#[local] Existing Instance demo_key_total.
#[local] Existing Instance demo_discv5.
#[local] Existing Instance demo_discv5_laws.
#[local] Existing Instance map_to_list_order.
#[local] Existing Instance table_queue.
#[local] Existing Instance table_queue_laws.
#[local] Existing Instance table_queue_alive.
#[local] Existing Instance demo_interval.
#[local] Existing Instance demo_interval_laws.
#[local] Existing Instance demo_connections.
#[local] Existing Instance demo_gossip_types.
#[local] Existing Instance demo_protocols.
#[local] Existing Instance demo_protocols_laws.
#[local] Existing Instance PeerManager.demo_profile.

Definition demo_conn : @ConnectionId demo_connections := 3%N.

(** A behaviour with one gossip message waiting. *)
Definition demo_gossip : @Gossipsub _ _ _ demo_protocols :=
  [Gossip_Subscribed (5%N : @PeerId demo_libp2p) ("blocks"%string : @TopicHash demo_gossip_types)].

Definition demo_behaviour : Behaviour := new demo_gossip [] demo_manager.

Lemma demo_behaviour_reachable : behaviour_reachable demo_behaviour.
Proof.
  exists demo_gossip, [], demo_server, [demo_node], (mkSocketAddr (V4 7%N) 9000%N), false, 2%nat,
    demo_stored, [], [], [], 9000%N, 9000%N. apply rtc_refl.
Defined.

(** A poll: the manager's search for peers ends in a dial. *)
Lemma behaviour_poll_returns_witness :
  exists n b', poll n 1%N demo_behaviour = Ret (Some (DialPeer (17%N : @PeerId demo_libp2p)), b').
Proof.
  destruct (behaviour_poll_returns 1%N demo_behaviour demo_behaviour_reachable)
    as (n & r & b' & _ & Hn & _).
  exists (Nat.max n 3), b'. rewrite Hn by lia.
  assert (Hr : poll (Nat.max n 3) 1%N demo_behaviour = Ret (r, b')) by (apply Hn; lia).
  assert (H3 : (match poll 3 1%N demo_behaviour with Ret (a, _) => a | _ => None end) =
               Some (DialPeer (17%N : @PeerId demo_libp2p))) by (vm_compute; reflexivity).
  destruct (poll 3 1%N demo_behaviour) as [[a b3]| |] eqn:E3; [|discriminate H3..].
  rewrite (poll_mono 3 (Nat.max n 3) 1%N demo_behaviour (a, b3) E3) in Hr by lia.
  injection Hr as <- _. by rewrite H3.
Defined.

(** After [demo_peer] dialed us. *)
Lemma never_ingoing_never_banned_witness :
  exists b, behaviour_reachable b /\
    get_connection_status demo_peer (peerdb (peer_manager b)) = Some (Connected 0 1) /\
    banned_peers (peerdb (peer_manager b)) = [].
Proof.
  destruct (connect_peer_ok 7%N demo_peer IngoingConnected demo_manager
    (manager_reachable_mwf _ demo_manager_reachable) demo_room) as (pm & Hr & _ & _ & Hp & _).
  exists (set_peer_manager pm demo_behaviour).
  assert (Hreach : behaviour_reachable (set_peer_manager pm demo_behaviour)).
  { exists demo_gossip, [], demo_server, [demo_node], (mkSocketAddr (V4 7%N) 9000%N), false, 2%nat,
      demo_stored, [], [], [], 9000%N, 9000%N. apply rtc_once.
    exists 7%N, (BC_connect_ingoing demo_peer), None.
    change (pair (None : option (NBAction BehaviourHandlerIn BehaviourEvent)) <$> (pm' ← snd <$> connect_peer 7%N demo_peer IngoingConnected demo_manager;
              mret (set_peer_manager pm' demo_behaviour)) =
            Ret (None, set_peer_manager pm demo_behaviour)).
    by rewrite Hr. }
  split; [exact Hreach|]. split.
  - unfold get_connection_status, peer_info. cbn [peer_manager set_peer_manager]. rewrite Hp, lookup_insert_eq.
    reflexivity.
  - apply (never_ingoing_never_banned _ demo_peer Hreach).
Defined.

Lemma request_route_witness :
  exists b', on_rpc_event 2%N (mkRPCMessage demo_peer demo_conn
      (Ok (Received_Request 4%Z (RPCRequest_Ping [])))) demo_behaviour = Ret b' /\
    rpc_events (mothra_rpc b') =
      [Notify demo_peer (Handler_One demo_conn) (Send_Response 4%Z (Success (RPCResponse_Pong [])))].
Proof.
  destruct (request_route 2%N demo_peer demo_conn 4%Z (RPCRequest_Ping []) demo_behaviour
    demo_behaviour_reachable) as (b' & Hr & Hq & _).
  exists b'. split; [exact Hr|exact Hq].
Defined.

Lemma response_route_witness :
  exists b', on_rpc_event 2%N (mkRPCMessage demo_peer demo_conn
      (Ok (Received_Response RequestId_Router (RPCResponse_Status [])))) demo_behaviour = Ret b' /\
    b_events b' = [ResponseReceived demo_peer RequestId_Router (Response_Status [])].
Proof.
  destruct (response_route 2%N demo_peer demo_conn RequestId_Router (inl (RPCResponse_Status []))
    demo_behaviour demo_behaviour_reachable) as (b' & pm & Hr & _ & Hev & _).
  exists b'. split; [exact Hr|]. rewrite Hev. reflexivity.
Defined.
End Witnesses.
