(* ===== verification/ProtocolsHandler.v ===== *)
(** * The interface of connection handlers (libp2p's [ProtocolsHandler])

    Each protocol handles a connection by an object that implements libp2p's
    trait [ProtocolsHandler].  [ProtocolsHandler] is the trait: its associated
    types and its methods as functions on the state of the object.  A run is a
    sequence of calls of these methods; [ph_runs] gives the events the polls
    answered.  The types around the trait are libp2p's. *)
From Stdlib Require Import NArith Strings.String.
From S2P Require Import Prelude RpcHandler.

Open Scope list_scope.

(** ** Types of libp2p *)

(** [core::either::EitherOutput], [core::either::EitherError] and
    [core::upgrade::EitherUpgrade]. *)
Inductive EitherOutput (A B : Type) := First (a : A) | Second (b : B).
Arguments First {A B} a.
Arguments Second {A B} b.

Inductive EitherError (A B : Type) := EitherError_A (a : A) | EitherError_B (b : B).
Arguments EitherError_A {A B} a.
Arguments EitherError_B {A B} b.

Inductive EitherUpgrade (A B : Type) := EitherUpgrade_A (a : A) | EitherUpgrade_B (b : B).
Arguments EitherUpgrade_A {A B} a.
Arguments EitherUpgrade_B {A B} b.

(** [SelectUpgrade::new(a, b)] *)
Record SelectUpgrade (A B : Type) := mkSelectUpgrade { select_a : A; select_b : B }.
Arguments mkSelectUpgrade {A B}.
Arguments select_a {A B}.
Arguments select_b {A B}.

(** [NegotiationError], with the protocol errors of multistream-select. *)
Inductive NegotiationError :=
| Neg_Failed
| Neg_IoError (io_err : string)
| Neg_InvalidProtocol
| Neg_InvalidMessage
| Neg_TooManyProtocols.

Inductive UpgradeError (E : Type) := UpgradeError_Select (e : NegotiationError) | UpgradeError_Apply (e : E).
Arguments UpgradeError_Select {E} e.
Arguments UpgradeError_Apply {E} e.

Inductive ProtocolsHandlerUpgrErr (E : Type) :=
| UpgrErr_Timeout
| UpgrErr_Timer
| UpgrErr_Upgrade (e : UpgradeError E).
Arguments UpgrErr_Timeout {E}.
Arguments UpgrErr_Timer {E}.
Arguments UpgrErr_Upgrade {E} e.

(** [SubstreamProtocol]: an upgrade and the time it may take.  [into_upgrade]
    gives the upgrade, [map_upgrade] changes it, [with_timeout] the time. *)
Record SubstreamProtocol (U : Type) := mkSubstreamProtocol { sp_upgrade : U; sp_timeout : Duration }.
Arguments mkSubstreamProtocol {U}.
Arguments sp_upgrade {U}.
Arguments sp_timeout {U}.

Definition map_upgrade {U V} (f : U -> V) (p : SubstreamProtocol U) : SubstreamProtocol V :=
  mkSubstreamProtocol (f (sp_upgrade p)) (sp_timeout p).

Inductive ProtocolsHandlerEvent (P I O E : Type) :=
| PHE_Custom (event : O)
| PHE_Close (error : E)
| PHE_OutboundSubstreamRequest (protocol : SubstreamProtocol P) (info : I).
Arguments PHE_Custom {P I O E} event.
Arguments PHE_Close {P I O E} error.
Arguments PHE_OutboundSubstreamRequest {P I O E} protocol info.

(** The order of [KeepAlive]: [Yes] is the greatest and [No] the least value,
    two instants compare as such.  [substream_timeout] is the timeout
    [SubstreamProtocol::new] starts with. *)
Class SwarmTypes := {
  substream_timeout : Duration;
  ka_max : KeepAlive -> KeepAlive -> KeepAlive;
}.

Class SwarmTypesLaws `{SwarmTypes} := {
  ka_max_comm : forall a b, ka_max a b = ka_max b a;
  ka_max_yes : forall a, ka_max KeepAlive_Yes a = KeepAlive_Yes;
  ka_max_no : forall a, ka_max KeepAlive_No a = a;
  ka_max_until : forall s t, ka_max (KeepAlive_Until s) (KeepAlive_Until t) = KeepAlive_Until (N.max s t);
}.

Definition demo_swarm_types : SwarmTypes := {|
  substream_timeout := 10%N;
  ka_max := fun a b =>
    match a, b with
    | KeepAlive_Yes, _ | _, KeepAlive_Yes => KeepAlive_Yes
    | KeepAlive_No, k | k, KeepAlive_No => k
    | KeepAlive_Until s, KeepAlive_Until t => KeepAlive_Until (N.max s t)
    end;
|}.

Lemma demo_swarm_types_laws : @SwarmTypesLaws demo_swarm_types.
Proof. split; intros; cbn; try by repeat case_match. repeat case_match; try done. by rewrite N.max_comm. Qed.

(** ** The trait *)

(** Times are arguments of the methods that read a clock; [ph_poll] answers
    [None] for [Poll::Pending]. *)
Record ProtocolsHandler (InEvent OutEvent : Type) := mkProtocolsHandler {
  ph_state : Type;
  ph_error : Type;
  ph_in_proto : Type;
  ph_in_output : Type;
  ph_out_proto : Type;
  ph_out_output : Type;
  ph_out_error : Type;
  ph_info : Type;
  ph_listen_protocol : ph_state -> SubstreamProtocol ph_in_proto;
  ph_inbound : Instant -> ph_in_output -> ph_state -> Outcome ph_state;
  ph_outbound : Instant -> ph_out_output -> ph_info -> ph_state -> Outcome ph_state;
  ph_event : Instant -> InEvent -> ph_state -> Outcome ph_state;
  ph_dial_error : Instant -> ph_info -> ProtocolsHandlerUpgrErr ph_out_error -> ph_state -> Outcome ph_state;
  ph_keep_alive : ph_state -> KeepAlive;
  ph_poll : Instant -> ph_state ->
    Outcome (option (ProtocolsHandlerEvent ph_out_proto ph_info OutEvent ph_error) * ph_state);
}.
Arguments ph_state {_ _}.
Arguments ph_error {_ _}.
Arguments ph_in_proto {_ _}.
Arguments ph_in_output {_ _}.
Arguments ph_out_proto {_ _}.
Arguments ph_out_output {_ _}.
Arguments ph_out_error {_ _}.
Arguments ph_info {_ _}.
Arguments ph_listen_protocol {_ _}.
Arguments ph_inbound {_ _}.
Arguments ph_outbound {_ _}.
Arguments ph_event {_ _}.
Arguments ph_dial_error {_ _}.
Arguments ph_keep_alive {_ _}.
Arguments ph_poll {_ _}.

(** ** Runs *)
Section Runs.
Context {InEvent OutEvent : Type} (H : ProtocolsHandler InEvent OutEvent).

Definition PHEvent : Type := ProtocolsHandlerEvent (ph_out_proto H) (ph_info H) OutEvent (ph_error H).

Inductive PHCall :=
| PHC_inbound (out : ph_in_output H)
| PHC_outbound (protocol : ph_out_output H) (info : ph_info H)
| PHC_event (event : InEvent)
| PHC_dial_error (info : ph_info H) (error : ProtocolsHandlerUpgrErr (ph_out_error H))
| PHC_poll.

Definition is_poll (c : PHCall) : bool := match c with PHC_poll => true | _ => false end.

Definition ph_call (now : Instant) (c : PHCall) (h : ph_state H) : Outcome (option PHEvent * ph_state H) :=
  match c with
  | PHC_inbound out => h ← ph_inbound H now out h; mret (None, h)
  | PHC_outbound protocol info => h ← ph_outbound H now protocol info h; mret (None, h)
  | PHC_event event => h ← ph_event H now event h; mret (None, h)
  | PHC_dial_error info error => h ← ph_dial_error H now info error h; mret (None, h)
  | PHC_poll => ph_poll H now h
  end.

(** The events a sequence of calls answers, and the state it ends in. *)
Fixpoint ph_runs (cs : list (Instant * PHCall)) (h : ph_state H) : Outcome (list PHEvent * ph_state H) :=
  match cs with
  | [] => mret ([], h)
  | (now, c) :: cs =>
    '(e, h) ← ph_call now c h;
    '(es, h) ← ph_runs cs h;
    mret (app (option_list e) es, h)
  end.

Lemma ph_runs_cons now c cs h es h' :
  ph_runs ((now, c) :: cs) h = Ret (es, h') <->
  exists e h1 es1, ph_call now c h = Ret (e, h1) /\ ph_runs cs h1 = Ret (es1, h') /\ es = option_list e ++ es1.
Proof.
  cbn [ph_runs]. split.
  - destruct (ph_call now c h) as [[e h1]| |]; cbn [mbind Outcome_bind]; [|done..].
    destruct (ph_runs cs h1) as [[es1 h2]| |] eqn:E; cbn [mbind Outcome_bind]; [|done..].
    intros [= <- <-]. by exists e, h1, es1.
  - intros (e & h1 & es1 & Hc & Hr & ->). rewrite Hc. cbn [mbind Outcome_bind]. by rewrite Hr.
Qed.

(** Only polls answer events. *)
Lemma ph_call_silent now c h e h' : is_poll c = false -> ph_call now c h = Ret (e, h') -> e = None.
Proof.
  destruct c; cbn [is_poll ph_call]; try done; intros _;
    match goal with |- (mbind _ ?m = _) -> _ => destruct m; cbn; by intros [= <- _] || done end.
Qed.

(** The history of a run: each call at its time with what it answered. *)
Definition PHStep : Type := (Instant * PHCall) * option PHEvent.

Inductive ph_history : ph_state H -> list PHStep -> ph_state H -> Prop :=
| history_nil h : ph_history h [] h
| history_cons now c e h h1 st h' :
    ph_call now c h = Ret (e, h1) -> ph_history h1 st h' -> ph_history h ((now, c, e) :: st) h'.

Definition step_calls (st : list PHStep) : list (Instant * PHCall) := fst <$> st.
Definition step_events (st : list PHStep) : list PHEvent := omap snd st.

(** A run is its history. *)
Lemma ph_runs_history cs h es h' :
  ph_runs cs h = Ret (es, h') <->
  exists st, ph_history h st h' /\ step_calls st = cs /\ step_events st = es.
Proof.
  split.
  - revert h es; induction cs as [|[now c] cs IH]; intros h es.
    + intros [= <- ->]. exists []. by split; [constructor|].
    + intros (e & h1 & es1 & Hc & Hr & ->)%ph_runs_cons. destruct (IH h1 es1 Hr) as (st & Hst & <- & <-).
      exists ((now, c, e) :: st). split; [by eapply history_cons|]. split; [done|]. by destruct e.
  - intros (st & Hst & <- & <-). induction Hst as [|now c e h h1 st h' Hc Hst IH]; [done|].
    cbn [step_calls fmap list_fmap fst]. apply ph_runs_cons. exists e, h1, (step_events st).
    split; [done|]. split; [exact IH|]. by destruct e.
Qed.

Lemma ph_history_app h st1 h1 st2 h2 :
  ph_history h st1 h1 -> ph_history h1 st2 h2 -> ph_history h (st1 ++ st2) h2.
Proof. induction 1; [done|]. intros. by eapply history_cons; eauto. Qed.

Lemma ph_history_one now c e h h' : ph_call now c h = Ret (e, h') -> ph_history h [(now, c, e)] h'.
Proof. intros Hc. eapply history_cons; [exact Hc|constructor]. Qed.
End Runs.
Arguments step_calls {_ _ H} st.
Arguments step_events {_ _ H} st.
Arguments PHC_inbound {_ _ H} out.
Arguments PHC_outbound {_ _ H} protocol info.
Arguments PHC_event {_ _ H} event.
Arguments PHC_dial_error {_ _ H} info error.
Arguments PHC_poll {_ _ H}.
Arguments is_poll {_ _ H} c.

(** ** A concrete handler: it answers an event for each it is given. *)
Definition echo_ph {In Out : Type} (f : In -> Out) : ProtocolsHandler In Out := {|
  ph_state := list Out;
  ph_error := unit;
  ph_in_proto := unit;
  ph_in_output := unit;
  ph_out_proto := unit;
  ph_out_output := unit;
  ph_out_error := unit;
  ph_info := unit;
  ph_listen_protocol := fun _ => mkSubstreamProtocol tt 5%N;
  ph_inbound := fun _ _ h => mret h;
  ph_outbound := fun _ _ _ h => mret h;
  ph_event := fun _ e h => mret (h ++ [f e]);
  ph_dial_error := fun _ _ _ h => mret h;
  ph_keep_alive := fun h => match h with [] => KeepAlive_No | _ => KeepAlive_Yes end;
  ph_poll := fun _ h => match h with [] => mret (None, []) | o :: h => mret (Some (PHE_Custom o), h) end;
|}.

Lemma echo_returns {In Out : Type} (f : In -> Out) now c h : returns (ph_call (echo_ph f) now c h).
Proof. destruct c, h; by eexists. Qed.
