(* ===== verification/Delegate.v ===== *)
(** * The delegating handler (src/core/network/src/behaviour/handler/delegate.rs)

    One handler per connection that holds the handlers of gossipsub, RPC and
    identify and passes every call on.  It implements [ProtocolsHandler] itself
    ([delegating_ph]); gossipsub's and identify's handlers are libp2p's
    ([SubHandlers]).  [part_gossip], [part_rpc] and [part_identify] project a
    step of it onto the three. *)
From Stdlib Require Import NArith Strings.String.
From S2P Require Import Prelude Env RpcMethods RpcProtocol DelayQueue HashSetDelay EnrExt Keys Discovery PeerManager.
From S2P Require Import RpcHandler RpcBehaviour Behaviour ProtocolsHandler.

Open Scope list_scope.

(** The handlers of gossipsub and identify, and the [Display] of their errors. *)
Class SubHandlers `{SubProtocols} := {
  gossip_ph : ProtocolsHandler GossipsubIn GossipsubOut;
  identify_ph : ProtocolsHandler IdentifyIn IdentifyOut;
  gossip_new_handler : Gossipsub -> ph_state gossip_ph * Gossipsub;
  identify_new_handler : Identify -> ph_state identify_ph * Identify;
  gossip_error_fmt : ph_error gossip_ph -> string;
  identify_error_fmt : ph_error identify_ph -> string;
}.

Section Delegate.
Context `{SubHandlers} `{Streams} `{DelayQueue} `{HashOrder} `{BuildProfile} `{SwarmTypes}.

(** ** The handler of RPC as a [ProtocolsHandler] *)

Definition to_upgr_err (error : ProtocolsHandlerUpgrErr RPCError) : UpgrErr :=
  match error with
  | UpgrErr_Timeout => Upgr_Timeout
  | UpgrErr_Timer => Upgr_Timer
  | UpgrErr_Upgrade (UpgradeError_Apply e) => Upgr_Apply e
  | UpgrErr_Upgrade (UpgradeError_Select Neg_Failed) => Upgr_Select_Failed
  | UpgrErr_Upgrade (UpgradeError_Select (Neg_IoError e)) => Upgr_Select_IoError e
  | UpgrErr_Upgrade (UpgradeError_Select Neg_InvalidProtocol) => Upgr_Select_InvalidProtocol
  | UpgrErr_Upgrade (UpgradeError_Select Neg_InvalidMessage) => Upgr_Select_InvalidMessage
  | UpgrErr_Upgrade (UpgradeError_Select Neg_TooManyProtocols) => Upgr_Select_TooManyProtocols
  end.

(** [SubstreamProtocol::new], for the protocol listened to and the requests dialed. *)
Definition substream_protocol_new {U} (u : U) : SubstreamProtocol U := mkSubstreamProtocol u substream_timeout.

Definition to_ph_event (e : HandlerEvent) :
    ProtocolsHandlerEvent RPCRequest (RequestId * RPCRequest) (Result RPCReceived HandlerErr) RPCError :=
  match e with
  | Custom out => PHE_Custom out
  | Close error => PHE_Close error
  | OutboundSubstreamRequest protocol info => PHE_OutboundSubstreamRequest (substream_protocol_new protocol) info
  end.

Definition connection_keep_alive (h : RPCHandler) : KeepAlive := keep_alive h.

Definition rpc_ph_poll (now : Instant) (h : RPCHandler) :
    Outcome (option (ProtocolsHandlerEvent RPCRequest (RequestId * RPCRequest)
                       (Result RPCReceived HandlerErr) RPCError) * RPCHandler) :=
  '(e, h) ← RpcHandler.poll now h;
  mret (option_map to_ph_event e, h).

Definition rpc_ph : ProtocolsHandler RPCSend (Result RPCReceived HandlerErr) := {|
  ph_state := RPCHandler;
  ph_error := RPCError;
  ph_in_proto := unit;
  ph_in_output := (RPCRequest * Inbound)%type;
  ph_out_proto := RPCRequest;
  ph_out_output := Outbound;
  ph_out_error := RPCError;
  ph_info := (RequestId * RPCRequest)%type;
  ph_listen_protocol := fun _ => substream_protocol_new tt;
  ph_inbound := fun now out => inject_fully_negotiated_inbound now out.1 out.2;
  ph_outbound := inject_fully_negotiated_outbound;
  ph_event := RpcHandler.inject_event;
  ph_dial_error := fun now info error => inject_dial_upgrade_error now info (to_upgr_err error);
  ph_keep_alive := connection_keep_alive;
  ph_poll := rpc_ph_poll;
|}.

(** ** [DelegatingHandler] *)

Record DelegatingHandler := mkDelegatingHandler {
  gossip_handler : ph_state gossip_ph;
  rpc_handler : RPCHandler;
  identify_handler : ph_state identify_ph;
}.

Definition set_gossip_handler (g : ph_state gossip_ph) (d : DelegatingHandler) : DelegatingHandler :=
  mkDelegatingHandler g (rpc_handler d) (identify_handler d).
Definition set_rpc_handler (r : RPCHandler) (d : DelegatingHandler) : DelegatingHandler :=
  mkDelegatingHandler (gossip_handler d) r (identify_handler d).
Definition set_identify_handler (i : ph_state identify_ph) (d : DelegatingHandler) : DelegatingHandler :=
  mkDelegatingHandler (gossip_handler d) (rpc_handler d) i.

(** [RPC::new_handler]: an inactivity timeout of 30 seconds. *)
Definition rpc_new_handler : RPCHandler := RpcHandler.new (from_secs 30).

(** [DelegatingHandler::new], with the behaviours after they gave a handler. *)
Definition new (gossipsub : Gossipsub) (identify : Identify) : DelegatingHandler * Gossipsub * Identify :=
  let '(g, gossipsub) := gossip_new_handler gossipsub in
  let '(i, identify) := identify_new_handler identify in
  (mkDelegatingHandler g rpc_new_handler i, gossipsub, identify).

Inductive DelegateError :=
| Err_Gossipsub (err : ph_error gossip_ph)
| Err_RPC (err : RPCError)
| Err_Identify (err : ph_error identify_ph).

Definition DelegateError_fmt (e : DelegateError) : string :=
  match e with
  | Err_Gossipsub err => gossip_error_fmt err
  | Err_RPC err => RPCError_fmt err
  | Err_Identify err => identify_error_fmt err
  end.

Definition DelegateInProto : Type :=
  SelectUpgrade (ph_in_proto gossip_ph) (SelectUpgrade (ph_in_proto rpc_ph) (ph_in_proto identify_ph)).
Definition DelegateOutProto : Type :=
  EitherUpgrade (ph_out_proto gossip_ph) (EitherUpgrade (ph_out_proto rpc_ph) (ph_out_proto identify_ph)).
Definition DelegateOutInfo : Type :=
  EitherOutput (ph_info gossip_ph) (EitherOutput (ph_info rpc_ph) (ph_info identify_ph)).

(** The outputs and errors of the combined upgrades. *)
Definition DelegateInOutput : Type :=
  EitherOutput (ph_in_output gossip_ph) (EitherOutput (ph_in_output rpc_ph) (ph_in_output identify_ph)).
Definition DelegateOutOutput : Type :=
  EitherOutput (ph_out_output gossip_ph) (EitherOutput (ph_out_output rpc_ph) (ph_out_output identify_ph)).
Definition DelegateOutError : Type :=
  EitherError (ph_out_error gossip_ph) (EitherError (ph_out_error rpc_ph) (ph_out_error identify_ph)).

Definition listen_protocol (d : DelegatingHandler) : SubstreamProtocol DelegateInProto :=
  let gossip_proto := ph_listen_protocol gossip_ph (gossip_handler d) in
  let rpc_proto := ph_listen_protocol rpc_ph (rpc_handler d) in
  let identify_proto := ph_listen_protocol identify_ph (identify_handler d) in
  let timeout := N.max (N.max (sp_timeout gossip_proto) (sp_timeout rpc_proto)) (sp_timeout identify_proto) in
  mkSubstreamProtocol
    (mkSelectUpgrade (sp_upgrade gossip_proto)
       (mkSelectUpgrade (sp_upgrade rpc_proto) (sp_upgrade identify_proto)))
    timeout.

Definition d_inbound (now : Instant) (out : DelegateInOutput) (d : DelegatingHandler)
    : Outcome DelegatingHandler :=
  match out with
  | First out => g ← ph_inbound gossip_ph now out (gossip_handler d); mret (set_gossip_handler g d)
  | Second (First out) => r ← ph_inbound rpc_ph now out (rpc_handler d); mret (set_rpc_handler r d)
  | Second (Second out) =>
    i ← ph_inbound identify_ph now out (identify_handler d); mret (set_identify_handler i d)
  end.

Definition d_outbound (now : Instant) (protocol : DelegateOutOutput) (info : DelegateOutInfo)
    (d : DelegatingHandler) : Outcome DelegatingHandler :=
  match protocol, info with
  | First protocol, First info =>
    g ← ph_outbound gossip_ph now protocol info (gossip_handler d); mret (set_gossip_handler g d)
  | Second (First protocol), Second (First info) =>
    r ← ph_outbound rpc_ph now protocol info (rpc_handler d); mret (set_rpc_handler r d)
  | Second (Second protocol), Second (Second info) =>
    i ← ph_outbound identify_ph now protocol info (identify_handler d); mret (set_identify_handler i d)
  | _, _ => Panic "output and protocol don't match"
  end.

Definition d_event (now : Instant) (event : DelegateIn) (d : DelegatingHandler) : Outcome DelegatingHandler :=
  match event with
  | In_Gossipsub ev => g ← ph_event gossip_ph now ev (gossip_handler d); mret (set_gossip_handler g d)
  | In_RPC ev => r ← ph_event rpc_ph now ev (rpc_handler d); mret (set_rpc_handler r d)
  | In_Identify ev => i ← ph_event identify_ph now ev (identify_handler d); mret (set_identify_handler i d)
  end.

Definition d_dial_error (now : Instant) (info : DelegateOutInfo)
    (error : ProtocolsHandlerUpgrErr DelegateOutError) (d : DelegatingHandler) : Outcome DelegatingHandler :=
  match info with
  | First info =>
    let inject e := g ← ph_dial_error gossip_ph now info e (gossip_handler d); mret (set_gossip_handler g d) in
    match error with
    | UpgrErr_Upgrade (UpgradeError_Select err) => inject (UpgrErr_Upgrade (UpgradeError_Select err))
    | UpgrErr_Timer => inject UpgrErr_Timer
    | UpgrErr_Timeout => inject UpgrErr_Timeout
    | UpgrErr_Upgrade (UpgradeError_Apply (EitherError_A err)) => inject (UpgrErr_Upgrade (UpgradeError_Apply err))
    | UpgrErr_Upgrade (UpgradeError_Apply _) => Panic "info and error don't match"
    end
  | Second (First info) =>
    let inject e := r ← ph_dial_error rpc_ph now info e (rpc_handler d); mret (set_rpc_handler r d) in
    match error with
    | UpgrErr_Upgrade (UpgradeError_Select err) => inject (UpgrErr_Upgrade (UpgradeError_Select err))
    | UpgrErr_Timer => inject UpgrErr_Timer
    | UpgrErr_Timeout => inject UpgrErr_Timeout
    | UpgrErr_Upgrade (UpgradeError_Apply (EitherError_B (EitherError_A err))) =>
      inject (UpgrErr_Upgrade (UpgradeError_Apply err))
    | UpgrErr_Upgrade (UpgradeError_Apply _) => Panic "info and error don't match"
    end
  | Second (Second info) =>
    let inject e :=
      i ← ph_dial_error identify_ph now info e (identify_handler d); mret (set_identify_handler i d) in
    match error with
    | UpgrErr_Upgrade (UpgradeError_Select err) => inject (UpgrErr_Upgrade (UpgradeError_Select err))
    | UpgrErr_Timer => inject UpgrErr_Timer
    | UpgrErr_Timeout => inject UpgrErr_Timeout
    | UpgrErr_Upgrade (UpgradeError_Apply (EitherError_B (EitherError_B err))) =>
      inject (UpgrErr_Upgrade (UpgradeError_Apply err))
    | UpgrErr_Upgrade (UpgradeError_Apply _) => Panic "info and error don't match"
    end
  end.

Definition d_keep_alive (d : DelegatingHandler) : KeepAlive :=
  ka_max (ka_max (ph_keep_alive gossip_ph (gossip_handler d)) (ph_keep_alive rpc_ph (rpc_handler d)))
    (ph_keep_alive identify_ph (identify_handler d)).

(** The three arms of a [match] on a handler's event. *)
Definition wrap_event {P I O E} (upgrade : P -> DelegateOutProto) (to_info : I -> DelegateOutInfo)
    (to_out : O -> DelegateOut) (to_error : E -> DelegateError) (e : ProtocolsHandlerEvent P I O E)
    : ProtocolsHandlerEvent DelegateOutProto DelegateOutInfo DelegateOut DelegateError :=
  match e with
  | PHE_Custom event => PHE_Custom (to_out event)
  | PHE_Close event => PHE_Close (to_error event)
  | PHE_OutboundSubstreamRequest protocol info =>
    PHE_OutboundSubstreamRequest (map_upgrade upgrade protocol) (to_info info)
  end.

Definition wrap_gossip (e : PHEvent gossip_ph) :=
  wrap_event EitherUpgrade_A First Out_Gossipsub Err_Gossipsub e.
Definition wrap_rpc (e : PHEvent rpc_ph) :=
  wrap_event (fun u => EitherUpgrade_B (EitherUpgrade_A u)) (fun i => Second (First i)) Out_RPC Err_RPC e.
Definition wrap_identify (e : PHEvent identify_ph) :=
  wrap_event (fun u => EitherUpgrade_B (EitherUpgrade_B u)) (fun i => Second (Second i)) Out_Identify Err_Identify e.

Definition d_poll (now : Instant) (d : DelegatingHandler)
    : Outcome (option (ProtocolsHandlerEvent DelegateOutProto DelegateOutInfo DelegateOut DelegateError)
               * DelegatingHandler) :=
  '(e, g) ← ph_poll gossip_ph now (gossip_handler d);
  let d := set_gossip_handler g d in
  match e with
  | Some e => mret (Some (wrap_gossip e), d)
  | None =>
    '(e, r) ← ph_poll rpc_ph now (rpc_handler d);
    let d := set_rpc_handler r d in
    match e with
    | Some e => mret (Some (wrap_rpc e), d)
    | None =>
      '(e, i) ← ph_poll identify_ph now (identify_handler d);
      let d := set_identify_handler i d in
      match e with
      | Some e => mret (Some (wrap_identify e), d)
      | None => mret (None, d)
      end
    end
  end.

Definition delegating_ph : ProtocolsHandler DelegateIn DelegateOut := {|
  ph_state := DelegatingHandler;
  ph_error := DelegateError;
  ph_in_proto := DelegateInProto;
  ph_in_output := DelegateInOutput;
  ph_out_proto := DelegateOutProto;
  ph_out_output := DelegateOutOutput;
  ph_out_error := DelegateOutError;
  ph_info := DelegateOutInfo;
  ph_listen_protocol := listen_protocol;
  ph_inbound := d_inbound;
  ph_outbound := d_outbound;
  ph_event := d_event;
  ph_dial_error := d_dial_error;
  ph_keep_alive := d_keep_alive;
  ph_poll := d_poll;
|}.

(** ** What a call means for each of the three handlers *)

Definition gossip_upgr_err (error : ProtocolsHandlerUpgrErr DelegateOutError)
    : option (ProtocolsHandlerUpgrErr (ph_out_error gossip_ph)) :=
  match error with
  | UpgrErr_Timeout => Some UpgrErr_Timeout
  | UpgrErr_Timer => Some UpgrErr_Timer
  | UpgrErr_Upgrade (UpgradeError_Select e) => Some (UpgrErr_Upgrade (UpgradeError_Select e))
  | UpgrErr_Upgrade (UpgradeError_Apply (EitherError_A e)) => Some (UpgrErr_Upgrade (UpgradeError_Apply e))
  | UpgrErr_Upgrade (UpgradeError_Apply _) => None
  end.

Definition rpc_upgr_err (error : ProtocolsHandlerUpgrErr DelegateOutError)
    : option (ProtocolsHandlerUpgrErr (ph_out_error rpc_ph)) :=
  match error with
  | UpgrErr_Timeout => Some UpgrErr_Timeout
  | UpgrErr_Timer => Some UpgrErr_Timer
  | UpgrErr_Upgrade (UpgradeError_Select e) => Some (UpgrErr_Upgrade (UpgradeError_Select e))
  | UpgrErr_Upgrade (UpgradeError_Apply (EitherError_B (EitherError_A e))) =>
    Some (UpgrErr_Upgrade (UpgradeError_Apply e))
  | UpgrErr_Upgrade (UpgradeError_Apply _) => None
  end.

Definition identify_upgr_err (error : ProtocolsHandlerUpgrErr DelegateOutError)
    : option (ProtocolsHandlerUpgrErr (ph_out_error identify_ph)) :=
  match error with
  | UpgrErr_Timeout => Some UpgrErr_Timeout
  | UpgrErr_Timer => Some UpgrErr_Timer
  | UpgrErr_Upgrade (UpgradeError_Select e) => Some (UpgrErr_Upgrade (UpgradeError_Select e))
  | UpgrErr_Upgrade (UpgradeError_Apply (EitherError_B (EitherError_B e))) =>
    Some (UpgrErr_Upgrade (UpgradeError_Apply e))
  | UpgrErr_Upgrade (UpgradeError_Apply _) => None
  end.

Definition to_gossip (c : PHCall delegating_ph) : option (PHCall gossip_ph) :=
  match c with
  | PHC_inbound (First out) => Some (PHC_inbound out)
  | PHC_outbound (First protocol) (First info) => Some (PHC_outbound protocol info)
  | PHC_event (In_Gossipsub ev) => Some (PHC_event ev)
  | PHC_dial_error (First info) error => PHC_dial_error info <$> gossip_upgr_err error
  | PHC_poll => Some PHC_poll
  | _ => None
  end.

Definition to_rpc (c : PHCall delegating_ph) : option (PHCall rpc_ph) :=
  match c with
  | PHC_inbound (Second (First out)) => Some (PHC_inbound out)
  | PHC_outbound (Second (First protocol)) (Second (First info)) =>
    Some (PHC_outbound (H := rpc_ph) protocol info)
  | PHC_event (In_RPC ev) => Some (PHC_event ev)
  | PHC_dial_error (Second (First info)) error => PHC_dial_error (H := rpc_ph) info <$> rpc_upgr_err error
  | PHC_poll => Some PHC_poll
  | _ => None
  end.

Definition to_identify (c : PHCall delegating_ph) : option (PHCall identify_ph) :=
  match c with
  | PHC_inbound (Second (Second out)) => Some (PHC_inbound out)
  | PHC_outbound (Second (Second protocol)) (Second (Second info)) => Some (PHC_outbound protocol info)
  | PHC_event (In_Identify ev) => Some (PHC_event ev)
  | PHC_dial_error (Second (Second info)) error => PHC_dial_error info <$> identify_upgr_err error
  | PHC_poll => Some PHC_poll
  | _ => None
  end.

(** The events a handler sees answered. *)
Definition of_gossip (e : PHEvent delegating_ph) : option (PHEvent gossip_ph) :=
  match e with
  | PHE_Custom (Out_Gossipsub o) => Some (PHE_Custom o)
  | PHE_Close (Err_Gossipsub x) => Some (PHE_Close x)
  | PHE_OutboundSubstreamRequest (mkSubstreamProtocol (EitherUpgrade_A u) t) (First i) =>
    Some (PHE_OutboundSubstreamRequest (mkSubstreamProtocol u t) i)
  | _ => None
  end.

Definition of_rpc (e : PHEvent delegating_ph) : option (PHEvent rpc_ph) :=
  match e with
  | PHE_Custom (Out_RPC o) => Some (PHE_Custom o)
  | PHE_Close (Err_RPC x) => Some (PHE_Close (x : ph_error rpc_ph))
  | PHE_OutboundSubstreamRequest (mkSubstreamProtocol (EitherUpgrade_B (EitherUpgrade_A u)) t) (Second (First i)) =>
    Some (PHE_OutboundSubstreamRequest (mkSubstreamProtocol u t) i)
  | _ => None
  end.

Definition of_identify (e : PHEvent delegating_ph) : option (PHEvent identify_ph) :=
  match e with
  | PHE_Custom (Out_Identify o) => Some (PHE_Custom o)
  | PHE_Close (Err_Identify x) => Some (PHE_Close x)
  | PHE_OutboundSubstreamRequest (mkSubstreamProtocol (EitherUpgrade_B (EitherUpgrade_B u)) t) (Second (Second i)) =>
    Some (PHE_OutboundSubstreamRequest (mkSubstreamProtocol u t) i)
  | _ => None
  end.

Lemma of_wrap_gossip e : of_gossip (wrap_gossip e) = Some e /\ of_rpc (wrap_gossip e) = None /\
  of_identify (wrap_gossip e) = None.
Proof. by destruct e as [| |[]]. Qed.

Lemma of_wrap_rpc e : of_rpc (wrap_rpc e) = Some e /\ of_gossip (wrap_rpc e) = None /\
  of_identify (wrap_rpc e) = None.
Proof. by destruct e as [| |[]]. Qed.

Lemma of_wrap_identify e : of_identify (wrap_identify e) = Some e /\ of_gossip (wrap_identify e) = None /\
  of_rpc (wrap_identify e) = None.
Proof. by destruct e as [| |[]]. Qed.

(** ** One call *)

Definition shown {A} (o : option A) : bool := match o with Some _ => true | None => false end.

(** What a step of the combined handler is for each of the three, if it
    reaches it.  A poll reaches gossipsub's handler always, RPC's when
    gossipsub's had nothing to answer, identify's when RPC's had nothing either. *)
Definition part_gossip (st : PHStep delegating_ph) : option (PHStep gossip_ph) :=
  c ← to_gossip st.1.2; Some (st.1.1, c, st.2 ≫= of_gossip).

Definition answered_before_rpc (st : PHStep delegating_ph) : bool :=
  is_poll st.1.2 && shown (st.2 ≫= of_gossip).

Definition part_rpc (st : PHStep delegating_ph) : option (PHStep rpc_ph) :=
  if answered_before_rpc st then None
  else c ← to_rpc st.1.2; Some (st.1.1, c, st.2 ≫= of_rpc).

Definition part_identify (st : PHStep delegating_ph) : option (PHStep identify_ph) :=
  if answered_before_rpc st || is_poll st.1.2 && shown (st.2 ≫= of_rpc) then None
  else c ← to_identify st.1.2; Some (st.1.1, c, st.2 ≫= of_identify).

Lemma delegate_poll_cases now d e d' :
  d_poll now d = Ret (e, d') ->
  exists ge g, ph_poll gossip_ph now (gossip_handler d) = Ret (ge, g) /\
  match ge with
  | Some ge => e = Some (wrap_gossip ge) /\ d' = set_gossip_handler g d
  | None => exists re r, ph_poll rpc_ph now (rpc_handler d) = Ret (re, r) /\
    match re with
    | Some re => e = Some (wrap_rpc re) /\ d' = set_rpc_handler r (set_gossip_handler g d)
    | None => exists ie i, ph_poll identify_ph now (identify_handler d) = Ret (ie, i) /\
        e = wrap_identify <$> ie /\ d' = mkDelegatingHandler g r i
    end
  end.
Proof.
  unfold d_poll.
  destruct (ph_poll gossip_ph now (gossip_handler d)) as [[ge g]| |] eqn:Hg; cbn [mbind Outcome_bind]; [|done..].
  intros Hr. exists ge, g. split; [done|]. revert Hr.
  destruct ge as [ge|]; [by intros [= <- <-]|]. cbn [rpc_handler set_gossip_handler].
  destruct (ph_poll rpc_ph now (rpc_handler d)) as [[re r]| |] eqn:Hr; cbn [mbind Outcome_bind]; [|done..].
  intros Hi. exists re, r. split; [done|]. revert Hi.
  destruct re as [re|]; [by intros [= <- <-]|]. cbn [identify_handler set_rpc_handler set_gossip_handler].
  destruct (ph_poll identify_ph now (identify_handler d)) as [[ie i]| |] eqn:Hi; cbn [mbind Outcome_bind]; [|done..].
  intros He. exists ie, i. split; [done|]. by destruct ie; injection He as <- <-.
Qed.

(** A call that returned and went to one handler. *)
Ltac routed :=
  match goal with Hr : ph_call delegating_ph _ _ _ = Ret _ |- _ =>
    cbn [ph_call delegating_ph ph_inbound ph_outbound ph_event ph_dial_error
         d_inbound d_outbound d_event d_dial_error] in Hr;
    match type of Hr with
    | (mbind _ (mbind _ ?m) = _) =>
      destruct m eqn:E; cbn [mbind Outcome_bind mret Outcome_ret] in Hr; [|done..]; injection Hr as <-;
      first [apply history_nil | apply ph_history_one; cbn [ph_call]; rewrite E; done]
    | _ => done
    end
  end.

(** The three histories of one call. *)
Definition three_histories (st : list (PHStep delegating_ph)) (d d' : DelegatingHandler) : Prop :=
  ph_history gossip_ph (gossip_handler d) (omap part_gossip st) (gossip_handler d') /\
  ph_history rpc_ph (rpc_handler d) (omap part_rpc st) (rpc_handler d') /\
  ph_history identify_ph (identify_handler d) (omap part_identify st) (identify_handler d').

Ltac one_step :=
  unfold part_gossip, part_rpc, part_identify, answered_before_rpc, shown;
  cbn [omap list_omap is_poll fst snd mbind option_bind andb orb to_gossip to_rpc to_identify
       gossip_upgr_err rpc_upgr_err identify_upgr_err fmap option_fmap option_map].

Lemma poll_step now d e d' :
  d_poll now d = Ret (e, d') -> three_histories [(now, PHC_poll, e)] d d'.
Proof.
  intros Hr. destruct (delegate_poll_cases now d e d' Hr) as (ge & g & Hg & Hge).
  apply (ph_history_one gossip_ph now PHC_poll) in Hg. unfold three_histories.
  destruct ge as [ge|].
  - destruct Hge as [-> ->]. destruct (of_wrap_gossip ge) as (Eg & Er & Ei).
    one_step. rewrite Eg. one_step. split; [exact Hg|]. split; apply history_nil.
  - destruct Hge as (re & r & Hrr & Hre). apply (ph_history_one rpc_ph now PHC_poll) in Hrr.
    destruct re as [re|].
    + destruct Hre as [-> ->]. destruct (of_wrap_rpc re) as (Er & Eg & Ei).
      one_step. rewrite Eg, Er. one_step. split; [exact Hg|]. split; [exact Hrr|apply history_nil].
    + destruct Hre as (ie & i & Hi & -> & ->). apply (ph_history_one identify_ph now PHC_poll) in Hi.
      destruct ie as [ie|]; cbn [fmap option_fmap option_map].
      * destruct (of_wrap_identify ie) as (Ei & Eg & Er). one_step. rewrite Eg, Er, Ei. one_step.
        split; [exact Hg|]. split; [exact Hrr|exact Hi].
      * one_step. split; [exact Hg|]. split; [exact Hrr|exact Hi].
Qed.

Lemma delegate_step now c d e d' :
  ph_call delegating_ph now c d = Ret (e, d') -> three_histories [(now, c, e)] d d'.
Proof.
  destruct (is_poll c) eqn:Hp.
  { destruct c; try done. cbn [ph_call ph_poll delegating_ph]. apply poll_step. }
  intros Hr. pose proof (ph_call_silent _ _ _ _ _ _ Hp Hr) as ->. unfold three_histories.
  destruct c as [[o|[o|o]]|[p|[p|p]] [i|[i|i]]|[ev|ev|ev]|[i|[i|i]] [| |[n|[a|[b|b]]]]|]; try done.
  all: one_step.
  all: split; [|split]; routed.
Qed.

(** ** Property *)

(** C8: the handler that delegates is three independent handlers. In every run
    of it, with the history of its calls and what each answered, each of the
    three goes through exactly the calls meant for it, in order and at their
    times, and answers in each exactly the event of its own that the run shows
    there. A poll reaches gossipsub's handler always, RPC's exactly when
    gossipsub's handler had nothing to answer, and identify's exactly when RPC's
    had nothing either, each of them with no event where the run shows none of
    its own. *)
Theorem delegation_history (cs : list (Instant * PHCall delegating_ph)) (d : DelegatingHandler)
    (es : list (PHEvent delegating_ph)) (d' : DelegatingHandler) :
  ph_runs delegating_ph cs d = Ret (es, d') ->
  exists st, ph_history delegating_ph d st d' /\ step_calls st = cs /\ step_events st = es /\
    ph_history gossip_ph (gossip_handler d) (omap part_gossip st) (gossip_handler d') /\
    ph_history rpc_ph (rpc_handler d) (omap part_rpc st) (rpc_handler d') /\
    ph_history identify_ph (identify_handler d) (omap part_identify st) (identify_handler d').
Proof.
  intros (st & Hst & Hc & He)%ph_runs_history. exists st. split; [done|]. split; [done|]. split; [done|].
  clear Hc He. induction Hst as [d|now c e d d1 st d' Hc Hst IH]; [split; [|split]; apply history_nil|].
  destruct (delegate_step now c d e d1 Hc) as (Hg1 & Hr1 & Hi1). destruct IH as (Hg2 & Hr2 & Hi2).
  change ((now, c, e) :: st) with ([(now, c, e)] ++ st). rewrite !omap_app.
  split; [|split]; by eapply ph_history_app.
Qed.
End Delegate.

(** ** A concrete instance *)
Definition demo_handlers : @SubHandlers demo_libp2p demo_connections demo_gossip_types demo_protocols := {|
  gossip_ph := echo_ph (fun _ : @GossipsubIn demo_libp2p demo_connections demo_gossip_types demo_protocols => (tt : @GossipsubOut demo_libp2p demo_connections demo_gossip_types demo_protocols));
  identify_ph := echo_ph (fun _ : @IdentifyIn demo_libp2p demo_connections demo_gossip_types demo_protocols => (tt : @IdentifyOut demo_libp2p demo_connections demo_gossip_types demo_protocols));
  gossip_new_handler := fun g => ([], g);
  identify_new_handler := fun i => ([], i);
  gossip_error_fmt := fun _ => "gossip"%string;
  identify_error_fmt := fun _ => "identify"%string;
|}.

Section Witnesses.
#[local] Existing Instance demo_libp2p.
#[local] Existing Instance demo_connections.
#[local] Existing Instance demo_gossip_types.
#[local] Existing Instance demo_protocols.
#[local] Existing Instance demo_handlers.
#[local] Existing Instance demo_streams.
#[local] Existing Instance table_queue.
#[local] Existing Instance map_to_list_order.
#[local] Existing Instance demo_swarm_types.
#[local] Existing Instance PeerManager.demo_profile.

Definition demo_delegate : DelegatingHandler := (new [] []).1.1.

(** A ping is requested while gossipsub has two events: it is dialed by the
    third poll. *)
Definition demo_delegate_run : list (Instant * PHCall delegating_ph) :=
  [(1%N, PHC_event (In_Gossipsub (tt : @GossipsubIn _ _ _ demo_protocols)));
   (2%N, PHC_event (In_RPC (Send_Request demo_request.1 demo_request.2)));
   (3%N, PHC_event (In_Gossipsub (tt : @GossipsubIn _ _ _ demo_protocols)));
   (4%N, PHC_poll); (5%N, PHC_poll); (6%N, PHC_poll)].

(** The number of events the run answers, and of those of the RPC handler. *)
Definition demo_answers : option (nat * nat) :=
  match ph_runs delegating_ph demo_delegate_run demo_delegate with
  | Ret (es, _) => Some (length es, length (omap of_rpc es))
  | _ => None
  end.

Lemma demo_answers_eq : demo_answers = Some (3, 1)%nat.
Proof. vm_compute. reflexivity. Qed.

Lemma delegation_history_witness :
  exists es d' st, ph_runs delegating_ph demo_delegate_run demo_delegate = Ret (es, d') /\
    ph_history delegating_ph demo_delegate st d' /\
    ph_history rpc_ph (rpc_handler demo_delegate) (omap part_rpc st) (rpc_handler d') /\
    length es = 3%nat /\ length (omap of_rpc es) = 1%nat /\ length st = 6%nat.
Proof.
  pose proof demo_answers_eq as Ha. unfold demo_answers in Ha.
  destruct (ph_runs delegating_ph demo_delegate_run demo_delegate) as [[es d']| |] eqn:E; [|discriminate Ha..].
  injection Ha as H3 H1.
  destruct (delegation_history demo_delegate_run demo_delegate es d' E) as (st & Hst & Hcs & _ & _ & Hr & _).
  exists es, d', st. split; [reflexivity|]. split; [exact Hst|]. split; [exact Hr|].
  split; [exact H3|]. split; [exact H1|].
  apply (f_equal length) in Hcs. unfold step_calls in Hcs. rewrite length_fmap in Hcs. exact Hcs.
Defined.
End Witnesses.
