(* ===== verification/ConnHandler.v ===== *)
(** * The connection handler (src/core/network/src/behaviour/handler/mod.rs)

    [BehaviourHandler] is what the swarm holds for a connection: the delegating
    handler and a flag for the shutdown, which decides whether the connection
    is kept.  [Connection] adds the outbound upgrades the swarm is performing
    for it; its steps are the calls the swarm makes. *)
From Stdlib Require Import NArith Strings.String.
From S2P Require Import Prelude Env RpcMethods RpcProtocol DelayQueue HashSetDelay EnrExt Keys Discovery PeerManager.
From S2P Require Import RpcHandler RpcShutdown RpcBehaviour Behaviour ProtocolsHandler Delegate.

Open Scope list_scope.

Section ConnHandler.
Context `{SubHandlers} `{Streams} `{DelayQueue} `{HashOrder} `{BuildProfile} `{SwarmTypes}.

(** ** [BehaviourHandler] *)

Record BehaviourHandler := mkBehaviourHandler {
  delegate : DelegatingHandler;
  shutting_down : bool;
}.

Definition set_delegate (d : DelegatingHandler) (h : BehaviourHandler) : BehaviourHandler :=
  mkBehaviourHandler d (shutting_down h).

Definition new (gossipsub : Gossipsub) (identify : Identify) : BehaviourHandler * Gossipsub * Identify :=
  let '(d, gossipsub, identify) := Delegate.new gossipsub identify in
  (mkBehaviourHandler d false, gossipsub, identify).

Definition h_listen_protocol (h : BehaviourHandler) : SubstreamProtocol DelegateInProto :=
  listen_protocol (delegate h).

Definition h_inbound (now : Instant) (out : DelegateInOutput) (h : BehaviourHandler) : Outcome BehaviourHandler :=
  d ← ph_inbound delegating_ph now out (delegate h); mret (set_delegate d h).

Definition h_outbound (now : Instant) (out : DelegateOutOutput) (info : DelegateOutInfo)
    (h : BehaviourHandler) : Outcome BehaviourHandler :=
  d ← ph_outbound delegating_ph now out info (delegate h); mret (set_delegate d h).

Definition h_event (now : Instant) (event : BehaviourHandlerIn) (h : BehaviourHandler) : Outcome BehaviourHandler :=
  match event with
  | Delegate delegated_ev =>
    d ← ph_event delegating_ph now delegated_ev (delegate h); mret (set_delegate d h)
  | Shutdown last_message =>
    let d := delegate h in
    mret (mkBehaviourHandler (set_rpc_handler (shutdown now last_message (rpc_handler d)) d) true)
  end.

Definition h_dial_error (now : Instant) (info : DelegateOutInfo)
    (err : ProtocolsHandlerUpgrErr DelegateOutError) (h : BehaviourHandler) : Outcome BehaviourHandler :=
  d ← ph_dial_error delegating_ph now info err (delegate h); mret (set_delegate d h).

Definition h_keep_alive (h : BehaviourHandler) : KeepAlive :=
  if shutting_down h then
    let rpc_keep_alive := ph_keep_alive rpc_ph (rpc_handler (delegate h)) in
    let identify_keep_alive := ph_keep_alive identify_ph (identify_handler (delegate h)) in
    ka_max rpc_keep_alive identify_keep_alive
  else KeepAlive_Yes.

Definition h_poll (now : Instant) (h : BehaviourHandler)
    : Outcome (option (ProtocolsHandlerEvent DelegateOutProto DelegateOutInfo BehaviourHandlerOut DelegateError)
               * BehaviourHandler) :=
  '(e, d) ← ph_poll delegating_ph now (delegate h);
  let h := set_delegate d h in
  match e with
  | Some (PHE_Custom event) => mret (Some (PHE_Custom (Out_Delegate event)), h)
  | Some (PHE_Close err) => mret (Some (PHE_Close err), h)
  | Some (PHE_OutboundSubstreamRequest protocol info) =>
    mret (Some (PHE_OutboundSubstreamRequest protocol info), h)
  | None => mret (None, h)
  end.

Definition behaviour_ph : ProtocolsHandler BehaviourHandlerIn BehaviourHandlerOut := {|
  ph_state := BehaviourHandler;
  ph_error := DelegateError;
  ph_in_proto := DelegateInProto;
  ph_in_output := DelegateInOutput;
  ph_out_proto := DelegateOutProto;
  ph_out_output := DelegateOutOutput;
  ph_out_error := DelegateOutError;
  ph_info := DelegateOutInfo;
  ph_listen_protocol := h_listen_protocol;
  ph_inbound := h_inbound;
  ph_outbound := h_outbound;
  ph_event := h_event;
  ph_dial_error := h_dial_error;
  ph_keep_alive := h_keep_alive;
  ph_poll := h_poll;
|}.

(** ** The connection and the swarm *)

Record Connection := mkConnection {
  conn : BehaviourHandler;
  dialing : list (DelegateOutProto * DelegateOutInfo);
}.

(** libp2p's combined upgrades: the output and the error of an upgrade carry
    the side the upgrade was on. *)
Definition output_of (u : DelegateOutProto) (out : DelegateOutOutput) : Prop :=
  match u, out with
  | EitherUpgrade_A _, First _
  | EitherUpgrade_B (EitherUpgrade_A _), Second (First _)
  | EitherUpgrade_B (EitherUpgrade_B _), Second (Second _) => True
  | _, _ => False
  end.

Definition error_of (u : DelegateOutProto) (error : ProtocolsHandlerUpgrErr DelegateOutError) : Prop :=
  match u, error with
  | EitherUpgrade_A _, UpgrErr_Upgrade (UpgradeError_Apply (EitherError_A _))
  | EitherUpgrade_B (EitherUpgrade_A _), UpgrErr_Upgrade (UpgradeError_Apply (EitherError_B (EitherError_A _)))
  | EitherUpgrade_B (EitherUpgrade_B _), UpgrErr_Upgrade (UpgradeError_Apply (EitherError_B (EitherError_B _))) => True
  | _, UpgrErr_Upgrade (UpgradeError_Apply _) => False
  | _, _ => True
  end.

(** The upgrades left once a call ended one of them: each request of an
    outbound substream is answered once. *)
Definition settles (c : PHCall behaviour_ph) (ds ds' : list (DelegateOutProto * DelegateOutInfo)) : Prop :=
  match c with
  | PHC_outbound out info => exists u, ds ≡ₚ (u, info) :: ds' /\ output_of u out
  | PHC_dial_error info error => exists u, ds ≡ₚ (u, info) :: ds' /\ error_of u error
  | _ => ds' = ds
  end.

Definition requested (e : option (PHEvent behaviour_ph)) : list (DelegateOutProto * DelegateOutInfo) :=
  match e with
  | Some (PHE_OutboundSubstreamRequest protocol info) => [(sp_upgrade protocol, info)]
  | _ => []
  end.

(** The substream ids of the RPC handler are [usize] and do not wrap. *)
Definition ids_ok (h : RPCHandler) : Prop :=
  (current_inbound_substream_id h + 1 < 2 ^ 64)%Z /\ (current_outbound_substream_id h + 1 < 2 ^ 64)%Z.

Definition conn_call_ok (c : PHCall behaviour_ph) (w : Connection) (ds : list (DelegateOutProto * DelegateOutInfo)) : Prop :=
  settles c (dialing w) ds /\ ids_ok (rpc_handler (delegate (conn w))).

Definition conn_step (w w' : Connection) : Prop :=
  exists now c ds e h', conn_call_ok c w ds /\ ph_call behaviour_ph now c (conn w) = Ret (e, h') /\
    w' = mkConnection h' (requested e ++ ds).

Definition conn_reachable (w : Connection) : Prop :=
  exists gs ident h gs' ident', new gs ident = (h, gs', ident') /\ rtc conn_step (mkConnection h []) w.
End ConnHandler.

(** libp2p's own handlers return from their calls. *)
Class SubHandlersReturn `{SubHandlers} := {
  gossip_returns : forall now c h, returns (ph_call gossip_ph now c h);
  identify_returns : forall now c h, returns (ph_call identify_ph now c h);
}.

Section Lemmas.
Context `{SubHandlers} `{Streams} `{DelayQueue} `{HashOrder} `{BuildProfile} `{SwarmTypes}.
Context `{!DelayQueueLaws} `{!SubHandlersReturn} `{!SwarmTypesLaws}.

(** ** Invariant *)

Definition is_rpc_dial (p : DelegateOutProto * DelegateOutInfo) : Prop :=
  match p.2 with Second (First _) => True | _ => False end.

#[local] Instance is_rpc_dial_dec p : Decision (is_rpc_dial p).
Proof. destruct p as [u [|[]]]; cbn; apply _. Defined.

(** The upgrades in progress that the RPC handler asked for. *)
Definition n_rpc (ds : list (DelegateOutProto * DelegateOutInfo)) : nat := length (filter is_rpc_dial ds).

(** The upgrade and the info of a request belong to the same handler. *)
Definition same_side (p : DelegateOutProto * DelegateOutInfo) : Prop :=
  match p with
  | (EitherUpgrade_A _, First _)
  | (EitherUpgrade_B (EitherUpgrade_A _), Second (First _))
  | (EitherUpgrade_B (EitherUpgrade_B _), Second (Second _)) => True
  | _ => False
  end.

Definition conn_inv (h : BehaviourHandler) (ds : list (DelegateOutProto * DelegateOutInfo)) : Prop :=
  (exists retried, world_reachable (mkWorld (rpc_handler (delegate h)) (n_rpc ds) retried)) /\
  Forall same_side ds.

Lemma n_rpc_perm ds ds' : ds ≡ₚ ds' -> n_rpc ds = n_rpc ds'.
Proof. unfold n_rpc. by intros ->. Qed.

Lemma n_rpc_cons p ds : n_rpc (p :: ds) = ((if decide (is_rpc_dial p) then 1 else 0) + n_rpc ds)%nat.
Proof. unfold n_rpc. rewrite filter_cons. by destruct (decide _). Qed.

(** A call that did not reach the RPC handler. *)
Lemma conn_inv_frame h ds h' ds' :
  conn_inv h ds -> rpc_handler (delegate h') = rpc_handler (delegate h) -> n_rpc ds' = n_rpc ds ->
  Forall same_side ds' -> conn_inv h' ds'.
Proof. intros [[r Hr] _] Hh Hn Hs. split; [|done]. exists r. by rewrite Hh, Hn. Qed.

(** ** The RPC handler's part *)

Definition rpc_to_call (c : PHCall rpc_ph) : HandlerCall :=
  match c with
  | PHC_inbound out => CallNegotiatedInbound out.1 out.2
  | PHC_outbound protocol info => CallNegotiatedOutbound protocol info
  | PHC_event ev => CallEvent ev
  | PHC_dial_error info error => CallDialError info (to_upgr_err error)
  | PHC_poll => CallPoll
  end.

Lemma rpc_ph_call now c h :
  ph_call rpc_ph now c h = '(e, h) ← run_call now (rpc_to_call c) h; mret (option_map to_ph_event e, h).
Proof.
  destruct c; cbn [ph_call run_call rpc_to_call rpc_ph ph_inbound ph_outbound ph_event ph_dial_error ph_poll rpc_ph_poll];
    try done;
    match goal with |- mbind _ ?m = mbind _ (mbind _ ?m) => by destruct m end.
Qed.

(** What a call of the RPC handler leaves of the upgrades in progress. *)
Definition rpc_after (c : HandlerCall) (e : option HandlerEvent) (n : nat) : nat :=
  n - (if ends_upgrade c then 1 else 0) + (if is_dial e then 1 else 0).

Lemma rpc_call_returns now c h ds :
  conn_inv h ds -> ids_ok (rpc_handler (delegate h)) -> (ends_upgrade c = true -> 0 < n_rpc ds)%nat ->
  exists e r, run_call now c (rpc_handler (delegate h)) = Ret (e, r) /\
    forall h' ds', rpc_handler (delegate h') = r -> n_rpc ds' = rpc_after c e (n_rpc ds) ->
      Forall same_side ds' -> conn_inv h' ds'.
Proof.
  intros [[retried Hw] _] [Hin Hout] Hopen.
  destruct (run_call_ok now c _ (proj1 (world_reachable_inv _ Hw)) (conj Hopen (conj Hin Hout))
    (proj2 (world_reachable_inv _ Hw))) as (e & r & Hrun & _).
  exists e, r. split; [done|]. intros h' ds' <- Hn Hs. split; [|done].
  eexists. destruct Hw as [timeout Hw]. exists timeout. rewrite Hn. eapply rtc_r; [exact Hw|].
  exists now, c, e, (rpc_handler (delegate h')). split; [by repeat split|]. by split.
Qed.

(** ** Every call returns *)

Lemma returns_bind {A B} (m : Outcome A) (f : A -> B) : returns (x ← m; mret (f x)) -> exists a, m = Ret a.
Proof. intros [b Hb]. destruct m as [a| |]; [by exists a|done..]. Qed.

Ltac other_returns L :=
  destruct (returns_bind _ _ L) as [? ->]; cbn [mbind Outcome_bind mret Outcome_ret];
  eexists None, _; (split; [done|]).

Ltac rpc_returns now c :=
  match goal with Hi : conn_inv ?h ?ds, Hids : ids_ok _ |- _ =>
    let e := fresh "e" in let r := fresh "r" in let Hr := fresh "Hr" in let Hk := fresh "Hk" in
    destruct (rpc_call_returns now c h ds Hi Hids) as (e & r & Hr & Hk);
    [|cbn [run_call] in Hr;
      match type of Hr with (mbind _ ?m = _) => destruct m as [?h| |] eqn:?E end;
      cbn [mbind Outcome_bind mret Outcome_ret] in Hr; [|done..]; injection Hr as <- <-]
  end.

Ltac count_dials := unfold rpc_after; cbn [requested ends_upgrade is_dial app] in *; lia.

Lemma settled u info ds ds' :
  ds ≡ₚ (u, info) :: ds' -> Forall same_side ds ->
  same_side (u, info) /\ Forall same_side ds' /\
  n_rpc ds = ((if decide (is_rpc_dial (u, info)) then 1 else 0) + n_rpc ds')%nat.
Proof.
  intros Hp Hs. rewrite Hp in Hs. apply Forall_cons in Hs as [? ?]. split; [done|]. split; [done|].
  by rewrite (n_rpc_perm _ _ Hp), n_rpc_cons.
Qed.

Lemma conn_inbound_ok now out h ds :
  conn_inv h ds -> ids_ok (rpc_handler (delegate h)) ->
  exists e h', ph_call behaviour_ph now (PHC_inbound out) h = Ret (e, h') /\ conn_inv h' (requested e ++ ds).
Proof.
  intros Hi Hids. pose proof (proj2 Hi) as Hs.
  cbn [ph_call behaviour_ph ph_inbound h_inbound]. unfold h_inbound. cbn [delegating_ph ph_inbound d_inbound].
  destruct out as [out|[[req sub]|out]]; cbn [d_inbound].
  - other_returns (gossip_returns now (PHC_inbound out) (gossip_handler (delegate h))).
    by eapply conn_inv_frame.
  - rpc_returns now (CallNegotiatedInbound req sub); [done|].
    cbn [rpc_ph ph_inbound fst snd]. rewrite E. eexists None, _. split; [done|]. apply Hk; [done|count_dials|done].
  - other_returns (identify_returns now (PHC_inbound out) (identify_handler (delegate h))).
    by eapply conn_inv_frame.
Qed.

Lemma conn_event_ok now ev h ds :
  conn_inv h ds -> ids_ok (rpc_handler (delegate h)) ->
  exists e h', ph_call behaviour_ph now (PHC_event ev) h = Ret (e, h') /\ conn_inv h' (requested e ++ ds).
Proof.
  intros Hi Hids. pose proof (proj2 Hi) as Hs. cbn [ph_call behaviour_ph ph_event h_event].
  destruct ev as [[ev|ev|ev]|msg]; cbn [h_event delegating_ph ph_event d_event].
  - other_returns (gossip_returns now (PHC_event ev) (gossip_handler (delegate h))).
    by eapply conn_inv_frame.
  - rpc_returns now (CallEvent ev); [done|].
    cbn [rpc_ph ph_event]. rewrite E. eexists None, _. split; [done|]. apply Hk; [done|count_dials|done].
  - other_returns (identify_returns now (PHC_event ev) (identify_handler (delegate h))).
    by eapply conn_inv_frame.
  - destruct (rpc_call_returns now (CallShutdown msg) h ds Hi Hids) as (e & r & Hr & Hk); [done|].
    injection Hr as <- <-. eexists None, _. split; [done|]. apply Hk; [done|count_dials|done].
Qed.

Lemma conn_outbound_ok now out info h ds ds' :
  conn_inv h ds -> ids_ok (rpc_handler (delegate h)) -> settles (PHC_outbound out info) ds ds' ->
  exists e h', ph_call behaviour_ph now (PHC_outbound out info) h = Ret (e, h') /\ conn_inv h' (requested e ++ ds').
Proof.
  intros Hi Hids (u & Hp & Hu).
  destruct (settled u info ds ds' Hp (proj2 Hi)) as (Hsame & Hs & Hn).
  cbn [ph_call behaviour_ph ph_outbound]. unfold h_outbound. cbn [delegating_ph ph_outbound].
  destruct u as [u|[u|u]], out as [out|[out|out]], info as [info|[info|info]]; try done; cbn [d_outbound].
  - other_returns (gossip_returns now (PHC_outbound out info) (gossip_handler (delegate h))).
    by eapply conn_inv_frame.
  - rpc_returns now (CallNegotiatedOutbound out info); [intros _; rewrite Hn, decide_True by done; lia|].
    cbn [rpc_ph ph_outbound]. rewrite E. eexists None, _. split; [done|].
    apply Hk; [done|rewrite Hn, decide_True by done; count_dials|done].
  - other_returns (identify_returns now (PHC_outbound out info) (identify_handler (delegate h))).
    by eapply conn_inv_frame.
Qed.

(** The error the handler of the failed upgrade is given. *)
Lemma conn_dial_error_ok now info err h ds ds' :
  conn_inv h ds -> ids_ok (rpc_handler (delegate h)) -> settles (PHC_dial_error info err) ds ds' ->
  exists e h', ph_call behaviour_ph now (PHC_dial_error info err) h = Ret (e, h') /\ conn_inv h' (requested e ++ ds').
Proof.
  intros Hi Hids (u & Hp & Hu).
  destruct (settled u info ds ds' Hp (proj2 Hi)) as (Hsame & Hs & Hn).
  cbn [ph_call behaviour_ph ph_dial_error]. unfold h_dial_error. cbn [delegating_ph ph_dial_error].
  destruct info as [info|[info|info]], u as [u|[u|u]]; try done.
  - assert (He : exists e1, d_dial_error now (First info) err (delegate h) =
      g ← ph_dial_error gossip_ph now info e1 (gossip_handler (delegate h));
      mret (set_gossip_handler g (delegate h))).
    { destruct err as [| |[err|[err|[err|err]]]]; try done; cbn [d_dial_error]; by eexists. }
    destruct He as [e1 ->].
    other_returns (gossip_returns now (PHC_dial_error info e1) (gossip_handler (delegate h))).
    by eapply conn_inv_frame.
  - assert (He : exists e1, d_dial_error now (Second (First info)) err (delegate h) =
      r ← ph_dial_error rpc_ph now info e1 (rpc_handler (delegate h));
      mret (set_rpc_handler r (delegate h))).
    { destruct err as [| |[err|[err|[err|err]]]]; try done; cbn [d_dial_error]; by eexists. }
    destruct He as [e1 ->].
    rpc_returns now (CallDialError info (to_upgr_err e1)); [intros _; rewrite Hn, decide_True by done; lia|].
    cbn [rpc_ph ph_dial_error]. rewrite E. eexists None, _. split; [done|].
    apply Hk; [done|rewrite Hn, decide_True by done; count_dials|done].
  - assert (He : exists e1, d_dial_error now (Second (Second info)) err (delegate h) =
      i ← ph_dial_error identify_ph now info e1 (identify_handler (delegate h));
      mret (set_identify_handler i (delegate h))).
    { destruct err as [| |[err|[err|[err|err]]]]; try done; cbn [d_dial_error]; by eexists. }
    destruct He as [e1 ->].
    other_returns (identify_returns now (PHC_dial_error info e1) (identify_handler (delegate h))).
    by eapply conn_inv_frame.
Qed.

(** The requests a wrapped event makes. *)
Definition d_requested (e : option (PHEvent delegating_ph)) : list (DelegateOutProto * DelegateOutInfo) :=
  match e with
  | Some (PHE_OutboundSubstreamRequest protocol info) => [(sp_upgrade protocol, info)]
  | _ => []
  end.

Lemma requested_gossip ge : Forall same_side (d_requested (Some (wrap_gossip ge))) /\
  n_rpc (d_requested (Some (wrap_gossip ge))) = 0%nat.
Proof. destruct ge; cbn; split; try done; by repeat constructor. Qed.

Lemma requested_identify ie : Forall same_side (d_requested (wrap_identify <$> ie)) /\
  n_rpc (d_requested (wrap_identify <$> ie)) = 0%nat.
Proof. destruct ie as [[]|]; cbn; split; try done; by repeat constructor. Qed.

Lemma requested_rpc e : Forall same_side (d_requested (Some (wrap_rpc (to_ph_event e)))) /\
  n_rpc (d_requested (Some (wrap_rpc (to_ph_event e)))) = (if is_dial (Some e) then 1 else 0)%nat.
Proof. destruct e; cbn; split; try done; by repeat constructor. Qed.

Lemma n_rpc_app ds ds' : n_rpc (ds ++ ds') = (n_rpc ds + n_rpc ds')%nat.
Proof. unfold n_rpc. by rewrite filter_app, length_app. Qed.

Lemma delegate_poll_ok now h ds :
  conn_inv h ds -> ids_ok (rpc_handler (delegate h)) ->
  exists e d, d_poll now (delegate h) = Ret (e, d) /\
    forall h', delegate h' = d -> conn_inv h' (d_requested e ++ ds).
Proof.
  intros Hi Hids. pose proof (proj2 Hi) as Hs. unfold d_poll.
  destruct (gossip_returns now PHC_poll (gossip_handler (delegate h))) as [[ge g] Hg].
  cbn [ph_call] in Hg. rewrite Hg. cbn [mbind Outcome_bind rpc_handler set_gossip_handler].
  destruct ge as [ge|].
  { destruct (requested_gossip ge) as [Hss Hnn]. eexists _, _. split; [done|]. intros h' Hd.
    apply (conn_inv_frame h ds); [done|by rewrite Hd|by rewrite n_rpc_app, Hnn|by apply Forall_app]. }
  destruct (rpc_call_returns now CallPoll h ds Hi Hids) as (e & r & Hr & Hk); [done|].
  cbn [rpc_ph ph_poll]. unfold rpc_ph_poll. cbn [run_call] in Hr. rewrite Hr.
  cbn [mbind Outcome_bind mret Outcome_ret]. destruct e as [e|]; cbn [option_map].
  { destruct (requested_rpc e) as [Hss Hnn]. eexists _, _. split; [done|]. intros h' Hd.
    apply Hk; [by rewrite Hd|rewrite n_rpc_app, Hnn; count_dials|by apply Forall_app]. }
  cbn [identify_handler set_rpc_handler set_gossip_handler].
  destruct (identify_returns now PHC_poll (identify_handler (delegate h))) as [[ie i] Hie].
  cbn [ph_call] in Hie. rewrite Hie. cbn [mbind Outcome_bind].
  destruct (requested_identify ie) as [Hss Hnn].
  exists (wrap_identify <$> ie), (set_identify_handler i (set_rpc_handler r (set_gossip_handler g (delegate h)))).
  split; [by destruct ie|]. intros h' Hd.
  apply Hk; [by rewrite Hd|rewrite n_rpc_app, Hnn; count_dials|by apply Forall_app].
Qed.

Lemma conn_poll_ok now h ds :
  conn_inv h ds -> ids_ok (rpc_handler (delegate h)) ->
  exists e h', ph_call behaviour_ph now PHC_poll h = Ret (e, h') /\ conn_inv h' (requested e ++ ds).
Proof.
  intros Hi Hids. destruct (delegate_poll_ok now h ds Hi Hids) as (e & d & Hr & Hk).
  cbn [ph_call behaviour_ph ph_poll]. unfold h_poll. cbn [delegating_ph ph_poll]. rewrite Hr.
  destruct e as [[ev|err|proto info]|]; cbn [mbind Outcome_bind];
    (eexists _, _; split; [done|]); by apply Hk.
Qed.

Lemma conn_call_ok_returns now c w ds :
  conn_inv (conn w) (dialing w) -> conn_call_ok c w ds ->
  exists e h', ph_call behaviour_ph now c (conn w) = Ret (e, h') /\ conn_inv h' (requested e ++ ds).
Proof.
  intros Hi [Hset Hids].
  destruct c as [out|out info|ev|info err|].
  - cbn in Hset. subst ds. by apply conn_inbound_ok.
  - by eapply conn_outbound_ok.
  - cbn in Hset. subst ds. by apply conn_event_ok.
  - by eapply conn_dial_error_ok.
  - cbn in Hset. subst ds. by apply conn_poll_ok.
Qed.

Lemma conn_inv_new gs ident h gs' ident' : new gs ident = (h, gs', ident') -> conn_inv h [].
Proof.
  unfold new, Delegate.new. destruct (gossip_new_handler gs), (identify_new_handler ident).
  intros [= <- _ _]. split; [|done]. exists 0%nat. apply new_reachable.
Qed.

Lemma conn_reachable_inv w : conn_reachable w -> conn_inv (conn w) (dialing w).
Proof.
  intros (gs & ident & h & gs' & ident' & Hnew & Hr).
  apply rtc_ind_r with (P := fun w => conn_inv (conn w) (dialing w)) in Hr; [done|by eapply conn_inv_new|].
  intros w1 w2 _ (now & c & ds & e & h' & Hok & Hc & ->) Hi.
  destruct (conn_call_ok_returns now c w1 ds Hi Hok) as (e1 & h1 & Hc1 & Hi1).
  rewrite Hc in Hc1. by injection Hc1 as <- <-.
Qed.

(** ** The shutdown *)

Lemma rpc_history_revival h st h' : ph_history rpc_ph h st h' -> no_revival h h'.
Proof.
  induction 1 as [h|now c e h h1 st h' Hc Hst IH]; [by apply no_revival_same|]. rewrite rpc_ph_call in Hc.
  destruct (run_call now (rpc_to_call c) h) as [[e1 h2]| |] eqn:E; [|done..]. injection Hc as _ <-.
  eapply no_revival_trans; [by eapply run_call_revival|done].
Qed.

(** A call of the handler is the shutdown, or a call of the handler inside. *)
Lemma h_call_cases now c h e h' :
  ph_call behaviour_ph now c h = Ret (e, h') ->
  (exists msg, delegate h' = set_rpc_handler (shutdown now msg (rpc_handler (delegate h))) (delegate h) /\
     shutting_down h' = true) \/
  (shutting_down h' = shutting_down h /\
   exists c1 e1, ph_call delegating_ph now c1 (delegate h) = Ret (e1, delegate h')).
Proof.
  destruct c as [out|out info|[ev|msg]|info err|];
    cbn [ph_call behaviour_ph ph_inbound ph_outbound ph_event ph_dial_error ph_poll h_event];
    unfold h_inbound, h_outbound, h_dial_error, h_poll.
  - destruct (ph_inbound delegating_ph now out (delegate h)) as [d| |] eqn:E; [|done..]. intros [= _ <-].
    right. split; [done|]. exists (PHC_inbound (H := delegating_ph) out), None. cbn [ph_call]. by rewrite E.
  - destruct (ph_outbound delegating_ph now out info (delegate h)) as [d| |] eqn:E; [|done..]. intros [= _ <-].
    right. split; [done|]. exists (PHC_outbound (H := delegating_ph) out info), None. cbn [ph_call]. by rewrite E.
  - destruct (ph_event delegating_ph now ev (delegate h)) as [d| |] eqn:E; [|done..]. intros [= _ <-].
    right. split; [done|]. exists (PHC_event (H := delegating_ph) ev), None. cbn [ph_call]. by rewrite E.
  - intros [= _ <-]. left. by exists msg.
  - destruct (ph_dial_error delegating_ph now info err (delegate h)) as [d| |] eqn:E; [|done..]. intros [= _ <-].
    right. split; [done|]. exists (PHC_dial_error (H := delegating_ph) info err), None. cbn [ph_call]. by rewrite E.
  - destruct (ph_poll delegating_ph now (delegate h)) as [[e1 d]| |] eqn:E; [|done..]. cbn [mbind Outcome_bind].
    intros Hr. right. assert (Hd : h' = set_delegate d h) by (by destruct e1 as [[]|]; injection Hr as _ <-).
    subst h'. split; [done|]. by exists PHC_poll, e1.
Qed.

(** Shutting down is for the rest of the connection. *)
Definition shut (h : BehaviourHandler) : Prop :=
  shutting_down h = true /\ ~ was_active (rpc_handler (delegate h)).

Lemma shut_step w w' : shut (conn w) -> conn_step w w' -> shut (conn w').
Proof.
  intros [Hs Ha] (now & c & ds & e & h' & _ & Hc & ->). cbn [conn].
  destruct (h_call_cases now c (conn w) e h' Hc) as [(msg & Hd & Hs')|[Hs' (c1 & e1 & Hc1)]].
  - split; [done|]. rewrite Hd. cbn [rpc_handler set_rpc_handler]. intros Hact. apply Ha.
    by eapply (run_call_revival now (CallShutdown msg)).
  - destruct (delegate_step now c1 _ e1 _ Hc1) as (_ & Hr & _).
    split; [by rewrite Hs'|]. intros Hact. apply Ha. by eapply rpc_history_revival.
Qed.

Lemma shut_steps w w' : shut (conn w) -> rtc conn_step w w' -> shut (conn w').
Proof. intros Hs Hr. revert Hs. induction Hr; [done|]. eauto using shut_step. Qed.

Lemma shutdown_not_active now msg h : ~ was_active (shutdown now msg h).
Proof.
  unfold was_active, shutdown. rewrite (update_keep_alive_frame state) by done.
  by destruct (state h) eqn:E; cbn; rewrite ?E.
Qed.

(** ** Properties *)

(** C9: no call of a connection's handler panics: the handler of an upgrade
    always gets the output or the error of that upgrade, so the
    [unreachable!]s of the delegation are not reached; the RPC handler inside
    stays in a state its own calls can reach, so its loops end, its counters
    do not overflow and its substreams are never poisoned; and each request for a
    substream is made and answered on the side of one handler. *)
Theorem connection_calls_return (now : Instant) (c : PHCall behaviour_ph) (w : Connection)
    (ds : list (DelegateOutProto * DelegateOutInfo)) :
  conn_reachable w -> conn_call_ok c w ds ->
  exists e h', ph_call behaviour_ph now c (conn w) = Ret (e, h') /\
    conn_reachable (mkConnection h' (requested e ++ ds)) /\
    (exists opening retried, world_reachable (mkWorld (rpc_handler (delegate h')) opening retried)) /\
    Forall same_side (requested e ++ ds).
Proof.
  intros Hw Hok. destruct (conn_call_ok_returns now c w ds (conn_reachable_inv w Hw) Hok)
    as (e & h' & Hc & (r & Hr) & Hs). exists e, h'. split; [done|]. split; [|split; [by eauto|done]].
  destruct Hw as (gs & ident & h & gs' & ident' & Hnew & Hsteps). exists gs, ident, h, gs', ident'.
  split; [done|]. eapply rtc_r; [exact Hsteps|]. by exists now, c, ds, e, h'.
Qed.

(** C27: a connection lives until it is shut down: before, the swarm is told to
    keep it, whatever the three handlers say. The shutdown hands the last
    message to the RPC handler, which rejects what was still queued; from then
    on, for the rest of the connection, gossipsub is not asked any more whether
    to keep it: the answer is the greater of RPC's and identify's votes, both
    asked in every state (so [Yes] as soon as one of them wants it, and RPC's
    alone once identify has nothing to do); RPC is never active again: later requests are rejected, and the
    requests of the peer are dropped. *)
Theorem connection_winds_down (now : Instant) (last_message : option (RequestId * RPCRequest)) (w : Connection) :
  (shutting_down (conn w) = false -> ph_keep_alive behaviour_ph (conn w) = KeepAlive_Yes) /\
  exists h', ph_event behaviour_ph now (Shutdown last_message) (conn w) = Ret h' /\
    (was_active (rpc_handler (delegate (conn w))) ->
       dial_queue (rpc_handler (delegate h')) = option_list last_message /\
       pending_errors (rpc_handler (delegate h')) =
         pending_errors (rpc_handler (delegate (conn w)))
           ++ map rejected (rev (dial_queue (rpc_handler (delegate (conn w)))))) /\
    forall w', rtc conn_step (mkConnection h' (dialing w)) w' ->
      let d := delegate (conn w') in
      shutting_down (conn w') = true /\ ~ was_active (rpc_handler d) /\
      ph_keep_alive behaviour_ph (conn w') =
        ka_max (keep_alive (rpc_handler d)) (ph_keep_alive identify_ph (identify_handler d)) /\
      (keep_alive (rpc_handler d) = KeepAlive_Yes \/
       ph_keep_alive identify_ph (identify_handler d) = KeepAlive_Yes ->
         ph_keep_alive behaviour_ph (conn w') = KeepAlive_Yes) /\
      (ph_keep_alive identify_ph (identify_handler d) = KeepAlive_No ->
         ph_keep_alive behaviour_ph (conn w') = keep_alive (rpc_handler d)) /\
      (forall now' id req, d_event now' (In_RPC (Send_Request id req)) d =
         Ret (set_rpc_handler (push_error (rejected (id, req)) (rpc_handler d)) d)) /\
      (forall now' req substream, d_inbound now' (Second (First (req, substream))) d = Ret d).
Proof.
  split; [by cbn; unfold h_keep_alive; intros ->|].
  eexists. split; [done|]. cbn [delegate rpc_handler set_rpc_handler]. split.
  { intros Hact. split.
    - unfold shutdown. rewrite (update_keep_alive_frame dial_queue), Hact by done. cbn.
      by destruct last_message as [[]|].
    - unfold shutdown. rewrite (update_keep_alive_frame pending_errors), Hact by done. cbn.
      by destruct last_message as [[]|]. }
  intros w' Hr. apply shut_steps in Hr as [Hs Ha]; [|split; [done|apply shutdown_not_active]].
  assert (Hka : ph_keep_alive behaviour_ph (conn w') =
    ka_max (keep_alive (rpc_handler (delegate (conn w'))))
      (ph_keep_alive identify_ph (identify_handler (delegate (conn w'))))).
  { cbn [ph_keep_alive behaviour_ph]. unfold h_keep_alive. by rewrite Hs. }
  split; [done|]. split; [exact Ha|]. split; [exact Hka|]. rewrite Hka. split; [|split; [|split]].
  - intros [->| ->]; [apply ka_max_yes|]. rewrite ka_max_comm. apply ka_max_yes.
  - intros ->. by rewrite ka_max_comm, ka_max_no.
  - intros now' id req. cbn [d_event rpc_ph ph_event RpcHandler.inject_event]. unfold RpcHandler.send_request, was_active in *.
    by destruct (state (rpc_handler (delegate (conn w')))).
  - intros now' req substream. cbn [d_inbound rpc_ph ph_inbound fst snd].
    unfold inject_fully_negotiated_inbound, was_active in *.
    replace (is_active (state (rpc_handler (delegate (conn w'))))) with false
      by (by destruct (state (rpc_handler (delegate (conn w'))))).
    cbn. by destruct (delegate (conn w')).
Qed.
End Lemmas.

(** ** A concrete instance *)
Section Witnesses.
#[local] Existing Instance demo_libp2p.
#[local] Existing Instance demo_connections.
#[local] Existing Instance demo_gossip_types.
#[local] Existing Instance demo_protocols.
#[local] Existing Instance demo_handlers.
#[local] Existing Instance demo_streams.
#[local] Existing Instance table_queue.
#[local] Existing Instance table_queue_laws.
#[local] Existing Instance map_to_list_order.
#[local] Existing Instance demo_swarm_types.
#[local] Existing Instance demo_swarm_types_laws.
#[local] Existing Instance PeerManager.demo_profile.

#[local] Instance demo_handlers_return :
  @SubHandlersReturn demo_libp2p demo_connections demo_gossip_types demo_protocols demo_handlers.
Proof. split; intros; apply echo_returns. Qed.

Definition demo_gossipsub : @Gossipsub _ _ _ demo_protocols := [].
Definition demo_identify : @Identify _ _ _ demo_protocols := [].
Definition demo_connection : Connection := mkConnection (new demo_gossipsub demo_identify).1.1 [].

Lemma demo_connection_reachable : conn_reachable demo_connection.
Proof.
  exists demo_gossipsub, demo_identify, (new demo_gossipsub demo_identify).1.1, demo_gossipsub, demo_identify.
  split; [reflexivity|apply rtc_refl].
Qed.

Definition demo_ask : PHCall behaviour_ph :=
  PHC_event (Delegate (In_RPC (Send_Request demo_request.1 demo_request.2))).

Lemma demo_ask_ok : conn_call_ok demo_ask demo_connection [].
Proof. split; [done|]. split; vm_compute; reflexivity. Qed.

(** A new connection is asked for a ping, and polls. *)
Lemma connection_calls_return_witness :
  exists e h', ph_call behaviour_ph 1%N demo_ask (conn demo_connection) = Ret (e, h') /\
    conn_reachable (mkConnection h' (requested e ++ [])).
Proof.
  destruct (connection_calls_return 1%N demo_ask demo_connection [] demo_connection_reachable demo_ask_ok)
    as (e & h' & Hc & Hw & _).
  exists e, h'. split; [exact Hc|exact Hw].
Defined.

(** It is shut down with a goodbye. *)
Definition demo_goodbye : option (RequestId * RPCRequest) :=
  Some (RequestId_Behaviour, RPCRequest_Goodbye [Byte.x01]).

Lemma connection_winds_down_witness :
  exists h', ph_event behaviour_ph 3%N (Shutdown demo_goodbye) (conn demo_connection) = Ret h' /\
    dial_queue (rpc_handler (delegate h')) = option_list demo_goodbye /\
    ph_keep_alive behaviour_ph h' =
      ka_max (keep_alive (rpc_handler (delegate h')))
        (ph_keep_alive identify_ph (identify_handler (delegate h'))) /\
    ph_keep_alive behaviour_ph h' = KeepAlive_Yes.
Proof.
  destruct (connection_winds_down 3%N demo_goodbye demo_connection) as (_ & h' & He & Hq & Hr).
  exists h'. split; [exact He|]. split; [exact (proj1 (Hq eq_refl))|].
  destruct (Hr (mkConnection h' []) (rtc_refl _ _)) as (_ & _ & Hk & Hy & _).
  cbn [conn] in Hk, Hy. split; [exact Hk|]. apply Hy. left.
  injection He as <-. vm_compute. reflexivity.
Defined.
End Witnesses.
