(* ===== verification/Service.v ===== *)
(** * The libp2p service (src/core/network/src/service.rs)

    [Service] owns the swarm and the two timers of a ban.  [next_event] waits
    on three sources at once; one turn of its loop is [service_arm], and the
    order in which tokio's [select!] takes the sources is any sequence of
    arms.  The swarm itself is libp2p's: it polls the behaviour and notifies
    it, and gives the events of [SwarmEvent]. *)
From Stdlib Require Import NArith Strings.String.
From S2P Require Import Prelude Env RpcMethods RpcProtocol PeerInfo PeerDB DelayQueue HashSetDelay.
From S2P Require Import EnrExt Keys Discovery Globals PeerManager RpcHandler RpcBehaviour Behaviour.

Open Scope list_scope.

(** Milliseconds. *)
Definition BAN_PEER_WAIT_TIMEOUT : N := 200.
Definition MAX_CONNECTIONS_PER_PEER : nat := 1.

(** libp2p's [Swarm], apart from the behaviour it holds. *)
Class SwarmLib `{Libp2p} := {
  Swarm : Type;
  ban_peer_id : PeerId -> Swarm -> Swarm;
  unban_peer_id : PeerId -> Swarm -> Swarm;
}.

Section Service.
Context `{Discv5Lib} `{HashOrder} `{BuildProfile} `{DelayQueue} `{IntervalLib}.
Context `{!Connections} `{!GossipTypes} `{!SubProtocols} `{!SwarmLib}.

(** [enum Libp2pEvent] *)
Inductive Libp2pEvent :=
| LE_Behaviour (event : BehaviourEvent)
| LE_NewListenAddr (addr : Multiaddr)
| LE_PeerConnected (peer_id : PeerId) (endpoint : ConnectedPoint)
| LE_PeerDisconnected (peer_id : PeerId) (endpoint : ConnectedPoint).

(** libp2p's [SwarmEvent], but for the events of the behaviour; an error or a
    cause is its text. *)
Inductive SwarmEvent :=
| ConnectionEstablished (peer_id : PeerId) (endpoint : ConnectedPoint) (num_established : N)
| ConnectionClosed (peer_id : PeerId) (cause : string) (endpoint : ConnectedPoint) (num_established : N)
| NewListenAddr (addr : Multiaddr)
| IncomingConnection (local_addr send_back_addr : Multiaddr)
| IncomingConnectionError (local_addr send_back_addr : Multiaddr) (error : string)
| BannedPeer (peer_id : PeerId)
| UnreachableAddr (peer_id : PeerId) (address : Multiaddr) (error : string) (attempts_remaining : N)
| UnknownPeerUnreachableAddr (address : Multiaddr) (error : string)
| ExpiredListenAddr (addr : Multiaddr)
| ListenerClosed (addresses : list Multiaddr) (reason : string)
| ListenerError (error : string)
| Swarm_Dialing (peer_id : PeerId).

(** [struct Service] *)
Record Service := mkService {
  swarm : Swarm;
  behaviour : Behaviour;
  local_peer_id : PeerId;
  peers_to_ban : DQ PeerId;
  peer_ban_timeout : DQ PeerId;
}.

Definition set_behaviour v s :=
  mkService (swarm s) v (local_peer_id s) (peers_to_ban s) (peer_ban_timeout s).
Definition set_swarm v s :=
  mkService v (behaviour s) (local_peer_id s) (peers_to_ban s) (peer_ban_timeout s).
Definition set_peers_to_ban v s :=
  mkService (swarm s) (behaviour s) (local_peer_id s) v (peer_ban_timeout s).
Definition set_peer_ban_timeout v s :=
  mkService (swarm s) (behaviour s) (local_peer_id s) (peers_to_ban s) v.

(** The record [Service::new] builds, once the swarm listens. *)
Definition new (sw : Swarm) (b : Behaviour) : Service :=
  mkService sw b (Globals.peer_id (b_globals b)) dq_new dq_new.

Definition disconnect_and_ban_peer (now : Instant) (peer_id : PeerId) (timeout : Duration)
    (s : Service) : Outcome Service :=
  '(_, q) ← dq_insert now peer_id (from_millis BAN_PEER_WAIT_TIMEOUT) (peers_to_ban s);
  let s := set_peers_to_ban q s in
  '(_, q) ← dq_insert now peer_id timeout (peer_ban_timeout s);
  mret (set_peer_ban_timeout q s).

Definition s_send_request (peer_id : PeerId) (request_id : RequestId) (request : Request)
    (s : Service) : Service :=
  set_behaviour (send_request peer_id request_id request (behaviour s)) s.

Definition respond_with_error (peer_id : PeerId) (id : PeerRequestId) (error : RPCResponseErrorCode)
    (reason : string) (s : Service) : Service :=
  set_behaviour (send_error_reponse peer_id id error reason (behaviour s)) s.

Definition s_send_response (peer_id : PeerId) (id : PeerRequestId) (response : Response)
    (s : Service) : Service :=
  set_behaviour (send_successful_response peer_id id response (behaviour s)) s.

(** The arm of the swarm, for one of its own events. *)
Definition on_swarm_event (now : Instant) (event : SwarmEvent) (s : Service)
    : Outcome (option Libp2pEvent * Service) :=
  match event with
  | ConnectionEstablished peer_id endpoint num_established =>
    if decide (num_established = 1%N) then
      b ← match endpoint with
          | Listener _ _ => b_manager now (Call_connect peer_id IngoingConnected) (behaviour s)
          | Dialer _ => b_db_connect_outgoing peer_id (behaviour s)
          end;
      mret (Some (LE_PeerConnected peer_id endpoint), set_behaviour b s)
    else mret (None, s)
  | ConnectionClosed peer_id cause endpoint num_established =>
    if decide (num_established = 0%N) then
      b ← b_manager now (Call_notify_disconnect peer_id) (behaviour s);
      mret (Some (LE_PeerDisconnected peer_id endpoint), set_behaviour b s)
    else mret (None, s)
  | NewListenAddr multiaddr => mret (Some (LE_NewListenAddr multiaddr), s)
  | UnreachableAddr peer_id address error attempts_remaining =>
    b ← b_manager now (Call_notify_disconnect peer_id) (behaviour s);
    mret (None, set_behaviour b s)
  | Swarm_Dialing peer_id =>
    b ← b_manager now (Call_connect peer_id Connecting_Dialing) (behaviour s);
    mret (None, set_behaviour b s)
  | IncomingConnection _ _ | IncomingConnectionError _ _ _ | BannedPeer _
  | UnknownPeerUnreachableAddr _ _ | ExpiredListenAddr _ | ListenerClosed _ _ | ListenerError _ =>
    mret (None, s)
  end.

(** The sources of [next_event]: the swarm, which also polls and notifies the
    behaviour, and the two ban timers. *)
Inductive ServiceArm :=
| Arm_poll (fuel : nat)
| Arm_inject (i : Injection)
| Arm_inject_event (peer_id : PeerId) (conn_id : ConnectionId) (event : BehaviourHandlerOut)
| Arm_swarm (event : SwarmEvent)
| Arm_ban
| Arm_unban.

Definition service_arm (now : Instant) (arm : ServiceArm) (s : Service)
    : Outcome (option Libp2pEvent * Service) :=
  match arm with
  | Arm_poll fuel =>
    '(action, b) ← Behaviour.poll fuel now (behaviour s);
    let s := set_behaviour b s in
    match action with
    | Some (GenerateEvent event) => mret (Some (LE_Behaviour event), s)
    | _ => mret (None, s)
    end
  | Arm_inject i => mret (None, set_behaviour (delegate_to_behaviours i (behaviour s)) s)
  | Arm_inject_event p conn e => mret (None, set_behaviour (inject_event p conn e (behaviour s)) s)
  | Arm_swarm event => on_swarm_event now event s
  | Arm_ban =>
    let '(r, q) := dq_poll now (peers_to_ban s) in
    let s := set_peers_to_ban q s in
    match r with
    | Expired peer_id =>
      let s := set_swarm (ban_peer_id peer_id (swarm s)) s in
      mret (None, set_behaviour (delegate_to_behaviours (Inj_disconnected peer_id) (behaviour s)) s)
    | _ => mret (None, s)
    end
  | Arm_unban =>
    let '(r, q) := dq_poll now (peer_ban_timeout s) in
    let s := set_peer_ban_timeout q s in
    match r with
    | Expired unban_peer => mret (None, set_swarm (unban_peer_id unban_peer (swarm s)) s)
    | _ => mret (None, s)
    end
  end.

(** [next_event] along a sequence of arms, up to the first event; [None] when
    the sequence gives none. *)
Fixpoint next_event (arms : list (Instant * ServiceArm)) (s : Service)
    : Outcome (option Libp2pEvent * Service) :=
  match arms with
  | [] => mret (None, s)
  | (now, arm) :: arms =>
    '(event, s) ← service_arm now arm s;
    match event with
    | Some event => mret (Some event, s)
    | None => next_event arms s
    end
  end.

(** The services of a running node: its own loop, and the calls of the layer
    above. *)
Inductive service_step : Service -> Service -> Prop :=
| Step_arm now arm event s s' : service_arm now arm s = Ret (event, s') -> service_step s s'
| Step_ban now p timeout s s' : disconnect_and_ban_peer now p timeout s = Ret s' -> service_step s s'
| Step_behaviour now c action b s :
    run_behaviour now c (behaviour s) = Ret (action, b) -> service_step s (set_behaviour b s).

Definition service_reachable (s : Service) : Prop :=
  exists sw b, behaviour_reachable b /\ rtc service_step (new sw b) s.

Context `{!KeyTotal} `{!Discv5Laws} `{!DelayQueueLaws} `{!DelayQueueAlive} `{!IntervalLaws} `{!EnrLaws}.
Context `{!SubProtocolsLaws}.

Lemma behaviour_reachable_step now c action b b' :
  behaviour_reachable b -> run_behaviour now c b = Ret (action, b') -> behaviour_reachable b'.
Proof.
  intros (gs & ident & server & boot & socket & disabled & max & enr & fork & meta & ping & tcp & udp & Hr) Hrun.
  exists gs, ident, server, boot, socket, disabled, max, enr, fork, meta, ping, tcp, udp.
  eapply rtc_r; [exact Hr|]. by exists now, c, action.
Qed.

(** What the swarm's events do to the behaviour is one of the calls it can
    receive. *)
Lemma service_arm_behaviour now arm event s s' :
  service_arm now arm s = Ret (event, s') ->
  behaviour s' = behaviour s \/
  exists c action, run_behaviour now c (behaviour s) = Ret (action, behaviour s').
Proof.
  destruct arm as [fuel|i|p conn e|e| |]; cbn [service_arm].
  - destruct (Behaviour.poll fuel now (behaviour s)) as [[action b]| |] eqn:E; [|done..].
    cbn [mbind Outcome_bind]. intros Hr. right. exists (BC_poll fuel), action. cbn [run_behaviour].
    rewrite E. by destruct action as [[]|]; injection Hr as _ <-.
  - intros [= _ <-]. right. by exists (BC_inject i), None.
  - intros [= _ <-]. right. by exists (BC_inject_event p conn e), None.
  - assert (Hman : forall c mc ev, (forall b, run_behaviour now c b = pair None <$> b_manager now mc b) ->
      (b ← b_manager now mc (behaviour s); mret (ev, set_behaviour b s)) = Ret (event, s') ->
      exists c action, run_behaviour now c (behaviour s) = Ret (action, behaviour s')).
    { intros c mc ev Hc. destruct (b_manager now mc (behaviour s)) as [b| |] eqn:E; [|done..].
      intros [= _ <-]. exists c, None. by rewrite Hc, E. }
    destruct e; cbn [on_swarm_event]; try (intros [= _ <-]; by left).
    + case_decide; [|intros [= _ <-]; by left]. destruct endpoint.
      * destruct (b_db_connect_outgoing peer_id (behaviour s)) as [b| |] eqn:E; [|done..].
        intros [= _ <-]. right. exists (BC_db_connect_outgoing peer_id), None. cbn [run_behaviour]. by rewrite E.
      * intros Hr. right. by apply (Hman (BC_connect_ingoing peer_id) _ _ (fun _ => eq_refl)) in Hr.
    + case_decide; [|intros [= _ <-]; by left].
      intros Hr. right. by apply (Hman (BC_notify_disconnect peer_id) _ _ (fun _ => eq_refl)) in Hr.
    + intros Hr. right. by apply (Hman (BC_notify_disconnect peer_id) _ _ (fun _ => eq_refl)) in Hr.
    + intros Hr. right. by apply (Hman (BC_dialing peer_id) _ _ (fun _ => eq_refl)) in Hr.
  - destruct (dq_poll now (peers_to_ban s)) as [[p|e| |] q]; intros [= _ <-]; try by left.
    right. by exists (BC_inject (Inj_disconnected p)), None.
  - destruct (dq_poll now (peer_ban_timeout s)) as [[p|e| |] q]; intros [= _ <-]; by left.
Qed.

(** A ban starts its two timers. *)
Lemma ban_spec now p t s s' :
  disconnect_and_ban_peer now p t s = Ret s' ->
  exists k q k' q', dq_insert now p (from_millis BAN_PEER_WAIT_TIMEOUT) (peers_to_ban s) = Ret (k, q) /\
    dq_insert now p t (peer_ban_timeout s) = Ret (k', q') /\
    s' = set_peer_ban_timeout q' (set_peers_to_ban q s).
Proof.
  unfold disconnect_and_ban_peer.
  destruct (dq_insert now p _ (peers_to_ban s)) as [[k q]| |]; cbn [mbind Outcome_bind]; [|done..].
  cbn [peer_ban_timeout set_peers_to_ban].
  destruct (dq_insert now p t (peer_ban_timeout s)) as [[k' q']| |]; cbn; [|done..].
  intros [= <-]. by exists k, q, k', q'.
Qed.

Lemma ban_returns `{!DelayQueueLaws} now p t s :
  (t <= dq_limit)%N -> exists s', disconnect_and_ban_peer now p t s = Ret s' /\ behaviour s' = behaviour s.
Proof.
  intros Ht. unfold disconnect_and_ban_peer. rewrite dq_insert_ret by (by apply within_day).
  destruct (dq_put _ _ _ _) as [k q]. cbn [mbind Outcome_bind]. rewrite dq_insert_ret by done.
  destruct (dq_put _ _ _ _) as [k' q']. by eexists.
Qed.

Lemma service_reachable_behaviour s : service_reachable s -> behaviour_reachable (behaviour s).
Proof.
  intros (sw & b & Hb & Hr).
  apply rtc_ind_r with (P := fun s => behaviour_reachable (behaviour s)) in Hr; [done..|].
  intros s1 s2 _ Hstep Hs1. destruct Hstep as [now arm event s1 s2 Hr1|now p timeout s1 s2 Hr1|now c action b1 s1 Hr1].
  - apply service_arm_behaviour in Hr1 as [->|(c & action & Hc)]; [done|].
    by eapply behaviour_reachable_step.
  - apply ban_spec in Hr1 as (k & q & k' & q' & _ & _ & ->). done.
  - by eapply behaviour_reachable_step.
Qed.

(** ** Properties *)

(** A failed dial marks its peer as not connected, whatever its state
    and however many addresses are left to try: a peer that is connected, for
    instance because it dialed us while we dialed it, is recorded as
    disconnected and loses its timers, and no disconnection is reported. *)
Theorem failed_dial_disconnects (now : Instant) (p : PeerId) (address : Multiaddr) (error : string)
    (attempts_remaining : N) (s : Service) :
  service_reachable s ->
  exists s', on_swarm_event now (UnreachableAddr p address error attempts_remaining) s = Ret (None, s') /\
    service_reachable s' /\
    let pm := peer_manager (behaviour s') in
    peer_is_connected p (peerdb pm) = false /\
    deadline (ping_peers pm) p = None /\ deadline (status_peers pm) p = None.
Proof.
  intros Hs. pose proof (behaviour_reachable_bwf _ (service_reachable_behaviour s Hs)) as [Hm Hout].
  destruct (notify_disconnect_ok now p (peer_manager (behaviour s)) Hm)
    as (pm & db & Hr & _ & _ & Hdb & Hpm & Hp & Hst).
  exists (set_behaviour (set_peer_manager pm (behaviour s)) s).
  assert (Hrun : on_swarm_event now (UnreachableAddr p address error attempts_remaining) s =
    Ret (None, set_behaviour (set_peer_manager pm (behaviour s)) s)).
  { cbn [on_swarm_event]. unfold b_manager. cbn [run_manager]. by rewrite Hr. }
  split; [exact Hrun|]. split; [|split; [|split]].
  - destruct Hs as (sw & b & Hb & Hsteps). exists sw, b. split; [done|].
    eapply rtc_r; [exact Hsteps|]. by eapply (Step_arm now (Arm_swarm _)).
  - cbn [behaviour set_behaviour peer_manager set_peer_manager]. rewrite Hpm.
    by apply (disconnect_not_connected now p _ _ (mwf_db _ Hm) Hdb).
  - cbn. by rewrite Hp, decide_True.
  - cbn. by rewrite Hst, decide_True.
Qed.
End Service.

(** ** A concrete instance: the swarm is the list of its banned peers. *)
Definition demo_swarm_lib : @SwarmLib demo_libp2p := {|
  Swarm := list (@PeerId demo_libp2p);
  ban_peer_id := fun p sw => p :: sw;
  unban_peer_id := fun p sw => filter (fun q => q <> p) sw;
|}.

Section Witnesses.
#[local] Existing Instance demo_libp2p.
#[local] Existing Instance demo_enrs.
#[local] Existing Instance demo_enr_laws.
#[local] Existing Instance demo_keys.
#[local] Existing Instance demo_peer_ids.
#[local] Existing Instance demo_key_total.
#[local] Existing Instance demo_discv5.
#[local] Existing Instance demo_discv5_laws.
#[local] Existing Instance map_to_list_order.
#[local] Existing Instance table_queue.
#[local] Existing Instance table_queue_laws.
#[local] Existing Instance table_queue_alive.
#[local] Existing Instance demo_interval.
#[local] Existing Instance demo_interval_laws.
#[local] Existing Instance demo_connections.
#[local] Existing Instance demo_gossip_types.
#[local] Existing Instance demo_protocols.
#[local] Existing Instance demo_protocols_laws.
#[local] Existing Instance demo_swarm_lib.
#[local] Existing Instance PeerManager.demo_profile.

Definition demo_service : Service := new ([] : @Swarm _ demo_swarm_lib) demo_behaviour.

Lemma demo_service_reachable : service_reachable demo_service.
Proof.
  exists [], demo_behaviour. split; [exact demo_behaviour_reachable|apply rtc_refl].
Defined.

Definition demo_address : @Multiaddr demo_libp2p := [M_Ip (V4 1%N)].

(** The peer that dialed us, and that we then fail to dial. *)
Lemma demo_service_connected :
  exists s, on_swarm_event 7%N (ConnectionEstablished demo_peer (Listener demo_address demo_address) 1%N)
      demo_service = Ret (Some (LE_PeerConnected demo_peer (Listener demo_address demo_address)), s) /\
    service_reachable s /\ peer_is_connected demo_peer (peerdb (peer_manager (behaviour s))) = true.
Proof.
  destruct (connect_peer_ok 7%N demo_peer IngoingConnected demo_manager
    (manager_reachable_mwf _ demo_manager_reachable) demo_room) as (pm & Hr & _ & _ & Hp & _).
  assert (Hrun : on_swarm_event 7%N (ConnectionEstablished demo_peer (Listener demo_address demo_address) 1%N)
      demo_service = Ret (Some (LE_PeerConnected demo_peer (Listener demo_address demo_address)),
        set_behaviour (set_peer_manager pm demo_behaviour) demo_service)).
  { cbn [on_swarm_event]. rewrite decide_True by done. unfold b_manager.
    change (peer_manager (behaviour demo_service)) with demo_manager. cbn [run_manager]. by rewrite Hr. }
  eexists. split; [exact Hrun|]. split.
  - exists [], demo_behaviour. split; [exact demo_behaviour_reachable|]. apply rtc_once.
    by eapply (Step_arm 7%N (Arm_swarm _)).
  - unfold peer_is_connected, get_connection_status, peer_info.
    cbn [behaviour set_behaviour peer_manager set_peer_manager]. by rewrite Hp, lookup_insert_eq.
Qed.

Lemma failed_dial_disconnects_witness :
  exists s s', peer_is_connected demo_peer (peerdb (peer_manager (behaviour s))) = true /\
    on_swarm_event 8%N (UnreachableAddr demo_peer demo_address "refused"%string 2%N) s = Ret (None, s') /\
    peer_is_connected demo_peer (peerdb (peer_manager (behaviour s'))) = false.
Proof.
  destruct demo_service_connected as (s & _ & Hs & Hc).
  destruct (failed_dial_disconnects 8%N demo_peer demo_address "refused"%string 2%N s Hs)
    as (s' & Hr & _ & Hn & _).
  exists s, s'. split; [exact Hc|]. split; [exact Hr|exact Hn].
Defined.
End Witnesses.
