(* ===== verification/Bans.v ===== *)
(** * The bans of the libp2p service (src/core/network/src/service.rs)

    [disconnect_and_ban_peer] starts two timers, and the two timer arms of
    [next_event] ban and unban the peer in the swarm.  A ledger of a run lists
    what was asked, what the swarm was told and which timers are left. *)
From Stdlib Require Import NArith Strings.String.
From S2P Require Import Prelude Env RpcMethods RpcProtocol PeerInfo PeerDB DelayQueue HashSetDelay.
From S2P Require Import EnrExt Keys Discovery Globals PeerManager RpcHandler RpcBehaviour Behaviour Service.

Open Scope list_scope.

Section Bans.
Context `{Discv5Lib} `{HashOrder} `{BuildProfile} `{DelayQueue} `{IntervalLib}.
Context `{!Connections} `{!GossipTypes} `{!SubProtocols} `{!SwarmLib}.

(** ** Runs *)

(** What happens to a service: a turn of its loop, a ban, another call. *)
Inductive ServiceOp :=
| Op_arm (arm : ServiceArm)
| Op_disconnect_and_ban_peer (peer_id : PeerId) (timeout : Duration)
| Op_behaviour (c : BehaviourCall).

(** What the swarm is told. *)
Inductive BanEvent := Banned (peer_id : PeerId) | Unbanned (peer_id : PeerId).

(** The events of a turn: the timers that fire. *)
Definition fired (now : Instant) (op : ServiceOp) (s : Service) : list BanEvent :=
  match op with
  | Op_arm Arm_ban => match (dq_poll now (peers_to_ban s)).1 with Expired p => [Banned p] | _ => [] end
  | Op_arm Arm_unban => match (dq_poll now (peer_ban_timeout s)).1 with Expired p => [Unbanned p] | _ => [] end
  | _ => []
  end.

Definition run_op (now : Instant) (op : ServiceOp) (s : Service) : Outcome Service :=
  match op with
  | Op_arm arm => '(_, s) ← service_arm now arm s; mret s
  | Op_disconnect_and_ban_peer peer_id timeout => disconnect_and_ban_peer now peer_id timeout s
  | Op_behaviour c => '(_, b) ← run_behaviour now c (behaviour s); mret (set_behaviour b s)
  end.

(** A run, and its log of events with their times. *)
Fixpoint run_ops (ops : list (Instant * ServiceOp)) (s : Service)
    : Outcome (list (BanEvent * Instant) * Service) :=
  match ops with
  | [] => mret ([], s)
  | (now, op) :: ops =>
    s' ← run_op now op s;
    '(log, s'') ← run_ops ops s';
    mret (app ((fun e => (e, now)) <$> fired now op s) log, s'')
  end.

Definition apply_event (sw : Swarm) (e : BanEvent * Instant) : Swarm :=
  match e.1 with Banned p => ban_peer_id p sw | Unbanned p => unban_peer_id p sw end.

(** ** The ledger *)

(** When the two timers of each ban that was asked are due. *)
Definition bans_due (ops : list (Instant * ServiceOp)) : list (PeerId * Instant) :=
  omap (fun o => match o.2 with
                 | Op_disconnect_and_ban_peer p _ => Some (p, o.1 + from_millis BAN_PEER_WAIT_TIMEOUT)%N
                 | _ => None end) ops.
Definition unbans_due (ops : list (Instant * ServiceOp)) : list (PeerId * Instant) :=
  omap (fun o => match o.2 with Op_disconnect_and_ban_peer p t => Some (p, o.1 + t)%N | _ => None end) ops.

(** The bans and unbans of a log, with their times. *)
Definition bans (log : list (BanEvent * Instant)) : list (PeerId * Instant) :=
  omap (fun e => match e.1 with Banned p => Some (p, e.2) | _ => None end) log.
Definition unbans (log : list (BanEvent * Instant)) : list (PeerId * Instant) :=
  omap (fun e => match e.1 with Unbanned p => Some (p, e.2) | _ => None end) log.

Definition timers (q : DQ PeerId) : list (PeerId * Instant) := (map_to_list (live q)).*2.

(** Each event of [done] is one of the timers [due], not before its time;
    [left] are the others. *)
Definition settled_by (due done left : list (PeerId * Instant)) : Prop :=
  exists used, due ≡ₚ used ++ left /\ Forall2 (fun d e => d.1 = e.1 /\ (d.2 <= e.2)%N) used done.

Context `{!DelayQueueLaws}.

Lemma timers_new : timers dq_new = [].
Proof. unfold timers. by rewrite dq_new_live, map_to_list_empty. Qed.

Lemma timers_insert now p d q key q' : dq_insert now p d q = Ret (key, q') -> timers q' ≡ₚ (p, now + d)%N :: timers q.
Proof.
  intros Hi. destruct (dq_insert_live _ _ _ _ _ _ Hi) as [Hn Hl]. unfold timers. rewrite Hl.
  by rewrite map_to_list_insert.
Qed.

Lemma timers_poll now q r q' :
  dq_poll now q = (r, q') ->
  match r with
  | Expired p => exists t, (t <= now)%N /\ timers q ≡ₚ (p, t) :: timers q'
  | _ => timers q' = timers q
  end.
Proof.
  intros Hp. pose proof (dq_poll_live _ _ _ _ _ Hp) as Hl. unfold timers.
  destruct r as [p|e| |]; [|by rewrite Hl|by rewrite (proj2 Hl)|by rewrite Hl].
  destruct Hl as (key & t & Hk & Ht & Hl). exists t. split; [done|]. rewrite Hl.
  rewrite <-(map_to_list_delete (live q) key (p, t)) by done. done.
Qed.

Lemma settled_refl l : settled_by l [] l.
Proof. exists []. by split. Qed.

Lemma settled_fire due evs l p t now :
  settled_by due evs ((p, t) :: l) -> (t <= now)%N -> settled_by due (evs ++ [(p, now)]) l.
Proof.
  intros (used & Hp & Hf) Ht. exists (used ++ [(p, t)]). split; [by rewrite <-app_assoc|].
  apply Forall2_app; [done|]. by repeat constructor.
Qed.

Lemma settled_perm due due' evs l l' : due ≡ₚ due' -> l ≡ₚ l' -> settled_by due evs l -> settled_by due' evs l'.
Proof. intros Hd Hl (used & Hp & Hf). exists used. by rewrite <-Hd, <-Hl. Qed.

Lemma settled_cons due evs l x : settled_by due evs l -> settled_by (x :: due) evs (x :: l).
Proof. intros (used & Hp & Hf). exists used. split; [|done]. by rewrite Hp, Permutation_middle. Qed.

(** ** One step *)

Lemma arm_frame now arm event s s' :
  service_arm now arm s = Ret (event, s') ->
  match arm with
  | Arm_ban =>
    let '(r, q) := dq_poll now (peers_to_ban s) in
    peers_to_ban s' = q /\ peer_ban_timeout s' = peer_ban_timeout s /\
    swarm s' = match r with Expired p => ban_peer_id p (swarm s) | _ => swarm s end
  | Arm_unban =>
    let '(r, q) := dq_poll now (peer_ban_timeout s) in
    peer_ban_timeout s' = q /\ peers_to_ban s' = peers_to_ban s /\
    swarm s' = match r with Expired p => unban_peer_id p (swarm s) | _ => swarm s end
  | _ => peers_to_ban s' = peers_to_ban s /\ peer_ban_timeout s' = peer_ban_timeout s /\ swarm s' = swarm s
  end.
Proof.
  destruct arm as [fuel|i|p conn e|e| |]; cbn [service_arm].
  - destruct (Behaviour.poll fuel now (behaviour s)) as [[[[]|] b]| |]; cbn; try done; by intros [= _ <-].
  - by intros [= _ <-].
  - by intros [= _ <-].
  - destruct e; cbn [on_swarm_event]; try (by intros [= _ <-]); try case_decide; try (by intros [= _ <-]);
      try destruct endpoint;
      match goal with |- mbind _ ?m = _ -> _ => destruct m; cbn; try done; by intros [= _ <-] end.
  - destruct (dq_poll now (peers_to_ban s)) as [[p|e| |] q]; by intros [= _ <-].
  - destruct (dq_poll now (peer_ban_timeout s)) as [[p|e| |] q]; by intros [= _ <-].
Qed.

Definition at_time (now : Instant) (es : list BanEvent) : list (BanEvent * Instant) := (fun e => (e, now)) <$> es.

Lemma run_op_swarm now op s s' :
  run_op now op s = Ret s' -> swarm s' = foldl apply_event (swarm s) (at_time now (fired now op s)).
Proof.
  destruct op as [arm|p t|c]; cbn [run_op].
  - destruct (service_arm now arm s) as [[ev s1]| |] eqn:E; [|done..]. intros [= <-].
    apply arm_frame in E. destruct arm; cbn [fired]; try by destruct E as (_ & _ & ->).
    + destruct (dq_poll now (peers_to_ban s)) as [[] q]; cbn; by destruct E as (_ & _ & ->).
    + destruct (dq_poll now (peer_ban_timeout s)) as [[] q]; cbn; by destruct E as (_ & _ & ->).
  - by intros (k & q & k' & q' & _ & _ & ->)%ban_spec.
  - destruct (run_behaviour now c (behaviour s)) as [[a b]| |]; [|done..]. by intros [= <-].
Qed.

(** What one step does to a queue of timers. *)
Lemma run_op_bans now op s s' due evs :
  run_op now op s = Ret s' -> settled_by due evs (timers (peers_to_ban s)) ->
  settled_by (bans_due [(now, op)] ++ due) (evs ++ bans (at_time now (fired now op s))) (timers (peers_to_ban s')).
Proof.
  intros Hr Hs. destruct op as [arm|p t|c]; cbn [run_op] in Hr.
  - destruct (service_arm now arm s) as [[ev s1]| |] eqn:E; [|done..]. injection Hr as <-.
    apply arm_frame in E. destruct arm; cbn [fired]; try (cbn; rewrite app_nil_r; by destruct E as (-> & _)).
    + destruct (dq_poll now (peers_to_ban s)) as [r q] eqn:Hq. destruct E as (-> & _). apply timers_poll in Hq.
      destruct r as [p| | |]; cbn; rewrite ?app_nil_r; [|by rewrite Hq..].
      destruct Hq as (t & Ht & Hp). eapply settled_fire; [|done]. by eapply settled_perm.
    + destruct (dq_poll now (peer_ban_timeout s)) as [r q]. destruct E as (_ & -> & _).
      destruct r; cbn; by rewrite ?app_nil_r.
  - apply ban_spec in Hr as (k & q & k' & q' & Hq & _ & ->). cbn. rewrite app_nil_r. apply timers_insert in Hq. eapply settled_perm; [done|symmetry; exact Hq|].
    by apply settled_cons.
  - destruct (run_behaviour now c (behaviour s)) as [[a b]| |]; [|done..]. injection Hr as <-.
    cbn. by rewrite app_nil_r.
Qed.

Lemma run_op_unbans now op s s' due evs :
  run_op now op s = Ret s' -> settled_by due evs (timers (peer_ban_timeout s)) ->
  settled_by (unbans_due [(now, op)] ++ due) (evs ++ unbans (at_time now (fired now op s)))
    (timers (peer_ban_timeout s')).
Proof.
  intros Hr Hs. destruct op as [arm|p t|c]; cbn [run_op] in Hr.
  - destruct (service_arm now arm s) as [[ev s1]| |] eqn:E; [|done..]. injection Hr as <-.
    apply arm_frame in E. destruct arm; cbn [fired]; try (cbn; rewrite app_nil_r; by destruct E as (_ & -> & _)).
    + destruct (dq_poll now (peers_to_ban s)) as [r q]. destruct E as (_ & -> & _).
      destruct r; cbn; by rewrite ?app_nil_r.
    + destruct (dq_poll now (peer_ban_timeout s)) as [r q] eqn:Hq. destruct E as (-> & _). apply timers_poll in Hq.
      destruct r as [p| | |]; cbn; rewrite ?app_nil_r; [|by rewrite Hq..].
      destruct Hq as (t & Ht & Hp). eapply settled_fire; [|done]. by eapply settled_perm.
  - apply ban_spec in Hr as (k & q & k' & q' & _ & Hq & ->). cbn. rewrite app_nil_r. apply timers_insert in Hq. eapply settled_perm; [done|symmetry; exact Hq|].
    by apply settled_cons.
  - destruct (run_behaviour now c (behaviour s)) as [[a b]| |]; [|done..]. injection Hr as <-.
    cbn. by rewrite app_nil_r.
Qed.

(** ** Runs *)

Lemma run_ops_cons now op ops s log s' :
  run_ops ((now, op) :: ops) s = Ret (log, s') ->
  exists s1 log1, run_op now op s = Ret s1 /\ run_ops ops s1 = Ret (log1, s') /\
    log = at_time now (fired now op s) ++ log1.
Proof.
  cbn [run_ops]. destruct (run_op now op s) as [s1| |]; [|done..]. cbn [mbind Outcome_bind].
  destruct (run_ops ops s1) as [[log1 s2]| |] eqn:E; [|done..]. cbn [mbind Outcome_bind].
  intros [= <- <-]. by exists s1, log1.
Qed.

Lemma omap_cons_app {A B} (f : A -> option B) x l : omap f (x :: l) = omap f [x] ++ omap f l.
Proof. cbn. by destruct (f x). Qed.

Lemma run_ops_ledger ops s log s' :
  run_ops ops s = Ret (log, s') ->
  swarm s' = foldl apply_event (swarm s) log /\
  (forall due evs, settled_by due evs (timers (peers_to_ban s)) ->
     settled_by (bans_due ops ++ due) (evs ++ bans log) (timers (peers_to_ban s'))) /\
  (forall due evs, settled_by due evs (timers (peer_ban_timeout s)) ->
     settled_by (unbans_due ops ++ due) (evs ++ unbans log) (timers (peer_ban_timeout s'))).
Proof.
  revert s log; induction ops as [|[now op] ops IH]; intros s log.
  { intros [= <- <-]. split; [done|]. cbn. by split; intros due evs; rewrite app_nil_r. }
  intros (s1 & log1 & Hop & Hr & ->)%run_ops_cons. destruct (IH s1 log1 Hr) as (Hsw & Hb & Hu).
  split; [|split].
  - by rewrite Hsw, (run_op_swarm _ _ _ _ Hop), foldl_app.
  - intros due evs Hs. unfold bans_due, bans. rewrite omap_cons_app, omap_app, app_assoc.
    eapply settled_perm; [|done|by apply Hb; apply (run_op_bans now op s)].
    unfold bans_due. by rewrite !app_assoc, (Permutation_app_comm (omap _ ops)).
  - intros due evs Hs. unfold unbans_due, unbans. rewrite omap_cons_app, omap_app, app_assoc.
    eapply settled_perm; [|done|by apply Hu; apply (run_op_unbans now op s)].
    unfold unbans_due. by rewrite !app_assoc, (Permutation_app_comm (omap _ ops)).
Qed.

Lemma run_ops_app ops1 ops2 s log1 s1 log2 s2 :
  run_ops ops1 s = Ret (log1, s1) -> run_ops ops2 s1 = Ret (log2, s2) ->
  run_ops (ops1 ++ ops2) s = Ret (log1 ++ log2, s2).
Proof.
  revert s log1; induction ops1 as [|[now op] ops1 IH]; intros s log1; [by intros [= <- <-]|].
  intros (sm & log & Hop & Hr & ->)%run_ops_cons H2'. cbn [app run_ops]. rewrite Hop. cbn [mbind Outcome_bind].
  rewrite (IH sm log Hr H2'). cbn [mbind Outcome_bind mret Outcome_ret]. by rewrite app_assoc.
Qed.

(** The entries of a list that are about a peer. *)
Definition about (p : PeerId) (l : list (PeerId * Instant)) : nat := length (filter (fun e => e.1 = p) l).

Lemma about_app p l1 l2 : about p (l1 ++ l2) = (about p l1 + about p l2)%nat.
Proof. unfold about. by rewrite filter_app, length_app. Qed.

Lemma settled_about p due evs l : settled_by due evs l -> about p due = (about p evs + about p l)%nat.
Proof.
  intros (used & Hp & Hf). unfold about. rewrite Hp, filter_app, length_app. f_equal. clear Hp.
  induction Hf as [|[d t] [e t'] used evs [He _] _ IH]; [done|]. cbn in He. subst e. rewrite !filter_cons. cbn.
  case_decide; cbn; by rewrite IH.
Qed.

(** ** Properties *)

(** C16: in every run of a service from its start, the swarm has been told
    exactly the bans and unbans of the log, in its order; each ban in the log,
    and each unban, is one that [disconnect_and_ban_peer] asked for, not before
    its time and at most once, and the timers that are left are those of the
    others. A ban for a time the delay queue accepts (a day at least) never
    panics. *)
Theorem ban_ledger (ops : list (Instant * ServiceOp)) (sw : Swarm) (b : Behaviour)
    (log : list (BanEvent * Instant)) (s : Service) :
  run_ops ops (new sw b) = Ret (log, s) ->
  swarm s = foldl apply_event sw log /\
  settled_by (bans_due ops) (bans log) (timers (peers_to_ban s)) /\
  settled_by (unbans_due ops) (unbans log) (timers (peer_ban_timeout s)) /\
  forall now p t, (t <= dq_limit)%N -> exists s', run_op now (Op_disconnect_and_ban_peer p t) s = Ret s'.
Proof.
  intros Hr. destruct (run_ops_ledger ops _ _ _ Hr) as (Hsw & Hb & Hu). split; [done|].
  specialize (Hb [] [] ltac:(cbn; rewrite timers_new; apply settled_refl)).
  specialize (Hu [] [] ltac:(cbn; rewrite timers_new; apply settled_refl)).
  rewrite app_nil_r in Hb, Hu. split; [done|]. split; [done|].
  intros now p t Ht. destruct (ban_returns now p t s Ht) as (s' & Hs' & _). by exists s'.
Qed.

(** Once every timer a peer was given has fired, nothing more happens to it,
    whatever the service goes through, until it is banned anew: if the order in
    which the two timers were taken was unban before ban (both are due when the
    loop comes back late, or when the timeout is shorter than the 200 ms the ban
    waits), the peer stays banned in the swarm for good. *)
Theorem late_ban_stays (p : PeerId) (ops ops' : list (Instant * ServiceOp)) (sw : Swarm) (b : Behaviour)
    (log log' : list (BanEvent * Instant)) (s s' : Service) :
  run_ops ops (new sw b) = Ret (log, s) -> run_ops ops' s = Ret (log', s') ->
  about p (bans log) = about p (bans_due ops) -> about p (unbans log) = about p (unbans_due ops) ->
  about p (bans_due ops') = 0%nat ->
  about p (bans log') = 0%nat /\ about p (unbans log') = 0%nat.
Proof.
  intros Hr Hr' Hb Hu Hnone.
  assert (Hnone' : about p (unbans_due ops') = 0%nat).
  { revert Hnone. unfold about, bans_due, unbans_due. clear Hr'. induction ops' as [|[now op] ops' IH]; [done|].
    cbn. destruct op; cbn; try exact IH. case_decide; [done|exact IH]. }
  destruct (run_ops_ledger _ _ _ _ (run_ops_app _ _ _ _ _ _ _ Hr Hr')) as (_ & Hl & Hl').
  specialize (Hl [] [] ltac:(cbn; rewrite timers_new; apply settled_refl)).
  specialize (Hl' [] [] ltac:(cbn; rewrite timers_new; apply settled_refl)).
  rewrite app_nil_r in Hl, Hl'.
  apply (settled_about p) in Hl, Hl'. unfold bans_due, unbans_due, bans, unbans in *.
  rewrite !omap_app, !about_app in Hl, Hl'. lia.
Qed.
End Bans.

(** ** A concrete instance *)

(** ** A concrete instance *)
Section Witnesses.
#[local] Existing Instance demo_libp2p.
#[local] Existing Instance demo_enrs.
#[local] Existing Instance demo_enr_laws.
#[local] Existing Instance demo_keys.
#[local] Existing Instance demo_peer_ids.
#[local] Existing Instance demo_key_total.
#[local] Existing Instance demo_discv5.
#[local] Existing Instance demo_discv5_laws.
#[local] Existing Instance map_to_list_order.
#[local] Existing Instance table_queue.
#[local] Existing Instance table_queue_laws.
#[local] Existing Instance table_queue_alive.
#[local] Existing Instance demo_interval.
#[local] Existing Instance demo_interval_laws.
#[local] Existing Instance demo_connections.
#[local] Existing Instance demo_gossip_types.
#[local] Existing Instance demo_protocols.
#[local] Existing Instance demo_protocols_laws.
#[local] Existing Instance demo_swarm_lib.
#[local] Existing Instance PeerManager.demo_profile.

(** A peer is banned for 30 s at time 0; the loop comes back when both timers
    are due, and takes the unban first. *)
Definition demo_late : list (Instant * ServiceOp) :=
  [(0%N, Op_disconnect_and_ban_peer demo_peer (from_secs 30));
   (from_secs 50, Op_arm Arm_unban); (from_secs 50, Op_arm Arm_ban)].

Definition demo_later : list (Instant * ServiceOp) :=
  [(from_secs 60, Op_arm Arm_unban); (from_secs 70, Op_arm Arm_ban); (from_secs 80, Op_arm Arm_unban)].

(** The log of a run and the peers banned after it. *)
Definition outcome (r : Outcome (list (BanEvent * Instant) * Service)) :
    option (list (BanEvent * Instant) * list (@PeerId demo_libp2p)) :=
  match r with Ret (log, s) => Some (log, swarm s) | _ => None end.

Lemma demo_late_log :
  outcome (run_ops demo_late demo_service) =
    Some ([(Unbanned demo_peer, from_secs 50); (Banned demo_peer, from_secs 50)], [demo_peer]).
Proof. vm_compute. reflexivity. Qed.

Lemma run_op_timer now arm s : arm = Arm_ban \/ arm = Arm_unban -> exists s', run_op now (Op_arm arm) s = Ret s'.
Proof.
  intros [-> | ->]; cbn [run_op service_arm].
  - destruct (dq_poll now (peers_to_ban s)) as [[] q]; by eexists.
  - destruct (dq_poll now (peer_ban_timeout s)) as [[] q]; by eexists.
Qed.

Lemma demo_later_returns s : exists log' s', run_ops demo_later s = Ret (log', s').
Proof.
  unfold demo_later. cbn [run_ops].
  do 3 (match goal with |- context [run_op ?n (Op_arm ?a) ?s] =>
    destruct (run_op_timer n a s) as [? ->]; [by (left + right)|]; cbn [mbind Outcome_bind] end).
  by eexists _, _.
Qed.

Lemma ban_ledger_witness :
  exists log s, run_ops demo_late demo_service = Ret (log, s) /\
    log = [(Unbanned demo_peer, from_secs 50); (Banned demo_peer, from_secs 50)] /\
    swarm s = foldl apply_event ([] : @Swarm _ demo_swarm_lib) log.
Proof.
  pose proof demo_late_log as Hl. unfold outcome in Hl.
  destruct (run_ops demo_late demo_service) as [[log s]| |] eqn:E; [|discriminate Hl..].
  exists log, s. split; [reflexivity|]. split; [injection Hl as -> _; reflexivity|].
  exact (proj1 (ban_ledger demo_late [] demo_behaviour log s E)).
Defined.

(** Nothing that happens later lifts the ban. *)
Lemma late_ban_stays_witness :
  exists log s log' s', run_ops demo_late demo_service = Ret (log, s) /\ swarm s = [demo_peer] /\
    run_ops demo_later s = Ret (log', s') /\ about demo_peer (unbans log') = 0%nat.
Proof.
  pose proof demo_late_log as Hl. unfold outcome in Hl.
  destruct (run_ops demo_late demo_service) as [[log s]| |] eqn:E; [|discriminate Hl..].
  destruct (demo_later_returns s) as (log' & s' & E'). injection Hl as -> Hs.
  exists [(Unbanned demo_peer, from_secs 50); (Banned demo_peer, from_secs 50)], s, log', s'. split; [reflexivity|]. split; [exact Hs|]. split; [exact E'|].
  exact (proj2 (late_ban_stays demo_peer demo_late demo_later [] demo_behaviour _ log' s s' E E'
    eq_refl eq_refl eq_refl)).
Defined.
End Witnesses.
