(* ===== verification/Mothra.v ===== *)
(** * The network service (src/core/src/mothra.rs)

    [Mothra] stands between the application (through the channel of
    [NetworkMessage]s and the callbacks of [Subscriber]) and the libp2p
    service.  Its table of 256 slots remembers where each incoming request came
    from until the application answers it.  The loop of [spawn_mothra] takes
    messages and events in any order; each is one call of [on_message] or
    [on_libp2p_event]. *)
From Stdlib Require Import NArith Strings.String Strings.Byte.
From S2P Require Import Prelude Env RpcMethods RpcProtocol PeerInfo PeerDB DelayQueue.
From S2P Require Import EnrExt Keys Discovery Globals PeerManager RpcHandler RpcBehaviour Behaviour Service.

Open Scope list_scope.

(** Seconds. *)
Definition BAN_PEER_TIMEOUT : N := 30.

(** The texts of libp2p's identifiers: [to_string], and the base58 decoding
    with [PeerId::from_bytes]. *)
Class Texts `{Libp2p} `{GossipTypes} := {
  peer_to_string : PeerId -> string;
  peer_from_string : string -> option PeerId;
  message_id_to_string : MessageId -> string;
  topic_to_string : TopicHash -> string;
}.

Section Mothra.
Context `{Discv5Lib} `{HashOrder} `{BuildProfile} `{DelayQueue} `{IntervalLib}.
Context `{!Connections} `{!GossipTypes} `{!SubProtocols} `{!SwarmLib} `{!Texts}.

(** The callbacks of the trait [Subscriber] the service makes, in their order;
    [discovered_peer] is never called. *)
Inductive ClientCall :=
| Init (fork_id : EnrForkId)
| Receive_gossip (message_id : string) (sequence_number : N) (agent_string peer_id topic : string)
    (data : list byte)
| Receive_rpc (method : string) (req_resp : Z) (peer : string) (data : list Z).

(** [enum NetworkMessage]; [index] is a [u8]. *)
Inductive NetworkMessage :=
| Msg_Subscribe (subscriptions : list GossipTopic)
| Msg_SendRequest (peer_id : PeerId) (request : Request) (request_id : RequestId)
| Msg_SendResponse (peer_id : PeerId) (response : Response) (index : Z)
| Msg_Publish (topic : GossipTopic) (message : list byte)
| Msg_Propagate (propagation_source : PeerId) (message_id : MessageId)
| Msg_Disconnect (peer_id : PeerId).

(** [struct Mothra]; [client_calls] is what the client has been told.
    [propagation_percentage] is never read. *)
Record Mothra := mkMothra {
  client_calls : list ClientCall;
  libp2p : Service;
  requests : list (option PeerRequestId);
  num_requests : Z;
}.

Definition set_client_calls v m := mkMothra v (libp2p m) (requests m) (num_requests m).
Definition set_libp2p v m := mkMothra (client_calls m) v (requests m) (num_requests m).
Definition set_requests v m := mkMothra (client_calls m) (libp2p m) v (num_requests m).
Definition set_num_requests v m := mkMothra (client_calls m) (libp2p m) (requests m) v.
Definition tell_client (c : ClientCall) (m : Mothra) : Mothra :=
  set_client_calls (client_calls m ++ [c]) m.
Definition set_m_behaviour (b : Behaviour) (m : Mothra) : Mothra :=
  set_libp2p (set_behaviour b (libp2p m)) m.
Definition m_behaviour (m : Mothra) : Behaviour := behaviour (libp2p m).

(** The loops over topics, at start and on [Subscribe]. *)
Definition subscribe_all (kinds : list string) (m : Mothra) : Mothra :=
  foldl (fun m kind => set_m_behaviour (subscribe_kind kind (m_behaviour m)).2 m) m kinds.

(** [Mothra::new], with the libp2p service built. *)
Definition new (topics : list string) (enr_fork_id : EnrForkId) (service : Service) : Mothra :=
  subscribe_all topics (mkMothra [Init enr_fork_id] service (replicate 256 None) 0).

(** [fetch_add] and [fetch_sub] of an [AtomicU8] wrap around. *)
Definition fetch_add_u8 (n x : Z) : Z := ((n + x) mod 256)%Z.
Definition fetch_sub_u8 (n x : Z) : Z := ((n - x) mod 256)%Z.

(** [array[index as usize]] *)
Definition slot (index : Z) (m : Mothra) : Outcome (option PeerRequestId) :=
  unwrap (requests m !! Z.to_nat index) "index out of bounds".

Definition set_slot (index : Z) (v : option PeerRequestId) (m : Mothra) : Mothra :=
  set_requests (<[Z.to_nat index := v]> (requests m)) m.

(** The messages of the application. *)
Definition on_message (now : Instant) (message : NetworkMessage) (m : Mothra) : Outcome Mothra :=
  match message with
  | Msg_SendRequest peer_id request request_id =>
    mret (set_libp2p (s_send_request peer_id request_id request (libp2p m)) m)
  | Msg_SendResponse peer_id response index =>
    s ← slot index m;
    let m :=
      match s with
      | Some id =>
        let m := set_num_requests (fetch_sub_u8 (num_requests m) 1) m in
        set_libp2p (s_send_response peer_id id response (libp2p m)) m
      | None => m
      end in
    mret (set_slot index None m)
  | Msg_Propagate propagation_source message_id =>
    mret (set_m_behaviour (propagate_message propagation_source message_id (m_behaviour m)) m)
  | Msg_Publish topic message => mret (set_m_behaviour (publish topic message (m_behaviour m)) m)
  | Msg_Disconnect peer_id =>
    s ← disconnect_and_ban_peer now peer_id (from_secs BAN_PEER_TIMEOUT) (libp2p m);
    mret (set_libp2p s m)
  | Msg_Subscribe subscriptions => mret (subscribe_all (map Globals.topic subscriptions) m)
  end.

(** The events of the libp2p service. *)
Definition on_libp2p_event (event : Libp2pEvent) (m : Mothra) : Outcome Mothra :=
  match event with
  | LE_Behaviour (RequestReceived peer_id id request) =>
    let index := num_requests m in
    _ ← slot index m;
    let m := set_slot index (Some id) m in
    let m := set_num_requests (fetch_add_u8 (num_requests m) 1) m in
    mret (tell_client (Receive_rpc "Status" 1 (peer_to_string peer_id) [index]) m)
  | LE_Behaviour (ResponseReceived _ _ _) => mret m
  | LE_Behaviour (RPCFailed _ _ _) => mret m
  | LE_Behaviour (StatusPeer peer_id) =>
    mret (tell_client (Receive_rpc "Status" 0 (peer_to_string peer_id) []) m)
  | LE_Behaviour (PubsubMessage id sequence_number agent_string source topics message) =>
    topic ← unwrap (head topics) "index out of bounds";
    mret (tell_client (Receive_gossip (message_id_to_string id) sequence_number agent_string
      (peer_to_string source) (topic_to_string topic) message) m)
  | LE_Behaviour (PeerSubscribed _ _) => mret m
  | LE_NewListenAddr multiaddr =>
    let pm := peer_manager (m_behaviour m) in
    let globals := network_globals pm in
    let globals := set_listen_multiaddrs (listen_multiaddrs globals ++ [multiaddr]) globals in
    mret (set_m_behaviour (set_peer_manager (set_network_globals globals pm) (m_behaviour m)) m)
  | LE_PeerConnected peer_id _ =>
    mret (tell_client (Receive_rpc "Status" 0 (peer_to_string peer_id) []) m)
  | LE_PeerDisconnected _ _ => mret m
  end.

(** The helpers the bindings call; each sends the message it returns. *)
Definition gossip (topic : string) (data : list byte) : NetworkMessage :=
  Msg_Publish (mkGossipTopic topic) data.

Definition rpc_request (method peer : string) (data : list byte) : Outcome NetworkMessage :=
  let request_id := RequestId_Behaviour in
  let request := Request_Status data in
  peer_id ← unwrap (peer_from_string peer) "called `Result::unwrap()` on an `Err` value";
  mret (Msg_SendRequest peer_id request request_id).

Definition rpc_response (method peer : string) (data : list byte) : Outcome NetworkMessage :=
  let index := 0%Z in
  let response := Response_Status data in
  peer_id ← unwrap (peer_from_string peer) "called `Result::unwrap()` on an `Err` value";
  mret (Msg_SendResponse peer_id response index).

(** ** Lemmas *)

(** The responses and requests waiting to be sent. *)
Definition outbox (m : Mothra) := rpc_events (mothra_rpc (m_behaviour m)).

(** The response [data] to a request that came in under [id]. *)
Definition response_action (p : PeerId) (id : PeerRequestId) (data : list byte)
    : NBAction RPCSend RPCMessage :=
  Notify p (Handler_One id.1) (Send_Response id.2 (Success (RPCResponse_Status data))).

(** A table as [new] makes it. *)
Definition table_wf (m : Mothra) : Prop :=
  length (requests m) = 256%nat /\ (0 <= num_requests m < 256)%Z.

Lemma slot_ok index m : table_wf m -> (0 <= index < 256)%Z -> exists s, slot index m = Ret s /\ requests m !! Z.to_nat index = Some s.
Proof.
  intros [Hlen _] Hi. destruct (requests m !! Z.to_nat index) as [s|] eqn:E.
  - exists s. unfold slot. by rewrite E.
  - apply lookup_ge_None in E. lia.
Qed.

(** An incoming request takes the slot of the current count. *)
Lemma request_taken p id request m :
  table_wf m -> exists m', on_libp2p_event (LE_Behaviour (RequestReceived p id request)) m = Ret m' /\
    table_wf m' /\ outbox m' = outbox m /\
    requests m' = <[Z.to_nat (num_requests m) := Some id]> (requests m) /\
    num_requests m' = ((num_requests m + 1) mod 256)%Z /\
    client_calls m' = client_calls m ++ [Receive_rpc "Status" 1 (peer_to_string p) [num_requests m]].
Proof.
  intros Hwf. cbn [on_libp2p_event]. destruct (slot_ok (num_requests m) m Hwf) as (s & -> & _); [apply Hwf|].
  cbn [mbind Outcome_bind]. eexists. split; [done|]. split_and!; try done.
  - split; cbn; [rewrite length_insert; apply Hwf|]. unfold fetch_add_u8. by apply Z.mod_pos_bound.
Qed.

(** A response goes where its slot says, and empties it. *)
Lemma response_sent now p data index m :
  table_wf m -> (0 <= index < 256)%Z ->
  exists m', on_message now (Msg_SendResponse p (Response_Status data) index) m = Ret m' /\ table_wf m' /\
    client_calls m' = client_calls m /\
    requests m' = <[Z.to_nat index := None]> (requests m) /\
    match requests m !! Z.to_nat index with
    | Some (Some id) =>
      num_requests m' = ((num_requests m - 1) mod 256)%Z /\
      outbox m' = outbox m ++ [response_action p id data]
    | _ => num_requests m' = num_requests m /\ outbox m' = outbox m
    end.
Proof.
  intros Hwf Hi. cbn [on_message]. destruct (slot_ok index m Hwf Hi) as (s & -> & Hs). rewrite Hs.
  cbn [mbind Outcome_bind]. eexists. split; [done|]. destruct Hwf as [Hlen Hn].
  destruct s as [id|]; cbn; unfold table_wf, fetch_sub_u8; cbn; rewrite length_insert;
    split_and!; try done; try lia; by apply Z.mod_pos_bound.
Qed.

(** *** What the application does with requests

    An incoming status request, and an answer through [rpc_response]. *)
Inductive AppStep :=
| Incoming (p : PeerId) (id : PeerRequestId) (data : list byte)
| Answer (peer : string) (data : list byte).

Definition app_step (now : Instant) (st : AppStep) (m : Mothra) : Outcome Mothra :=
  match st with
  | Incoming p id data => on_libp2p_event (LE_Behaviour (RequestReceived p id (Request_Status data))) m
  | Answer peer data => message ← rpc_response "Status" peer data; on_message now message m
  end.

Fixpoint run_app (now : Instant) (steps : list AppStep) (m : Mothra) : Outcome Mothra :=
  match steps with
  | [] => mret m
  | st :: steps => m ← app_step now st m; run_app now steps m
  end.

(** The peers the application names are peer ids. *)
Definition step_peers_ok (st : AppStep) : Prop :=
  match st with Incoming _ _ _ => True | Answer peer _ => is_Some (peer_from_string peer) end.

Definition is_incoming (st : AppStep) : bool :=
  match st with Incoming _ _ _ => true | Answer _ _ => false end.

(** Nothing outstanding. *)
Definition idle (m : Mothra) : Prop := table_wf m /\ num_requests m = 0%Z /\ requests m = replicate 256 None.

(** The first slot is empty but the count is not zero. *)
Definition jammed (m : Mothra) : Prop :=
  table_wf m /\ requests m !! 0%nat = Some None /\ (1 <= num_requests m)%Z.

Lemma run_app_app now steps1 steps2 m :
  run_app now (steps1 ++ steps2) m = (m ← run_app now steps1 m; run_app now steps2 m).
Proof.
  revert m; induction steps1 as [|st steps1 IH]; intros m; [done|]. cbn.
  destruct (app_step now st m); cbn; [apply IH|done..].
Qed.

Lemma answer_step now peer p data m :
  peer_from_string peer = Some p ->
  app_step now (Answer peer data) m = on_message now (Msg_SendResponse p (Response_Status data) 0) m.
Proof. intros Hp. cbn [app_step]. unfold rpc_response. by rewrite Hp. Qed.

(** While jammed, nothing is answered, and each request fills a later slot. *)
Lemma jammed_step now st m :
  jammed m -> step_peers_ok st -> (is_incoming st = true -> num_requests m < 255)%Z ->
  exists m', app_step now st m = Ret m' /\ jammed m' /\ outbox m' = outbox m /\
    num_requests m' = (num_requests m + (if is_incoming st then 1 else 0))%Z.
Proof.
  intros (Hwf & Hslot & Hn) Hpeers Hroom. destruct st as [p id data|peer data].
  - destruct (request_taken p id (Request_Status data) m Hwf) as (m' & Hr & Hwf' & Ho & Hreq & Hnum & _).
    specialize (Hroom eq_refl). cbn in Hroom.
    exists m'. split; [exact Hr|]. rewrite Hnum, Z.mod_small by lia. split; [|split; [done|cbn; lia]].
    split; [done|]. rewrite Hreq, Hnum, Z.mod_small by lia. split; [|lia].
    rewrite list_lookup_insert_ne; [done|]. lia.
  - destruct Hpeers as [p Hp]. rewrite (answer_step now peer p data m Hp).
    destruct (response_sent now p data 0 m Hwf) as (m' & Hr & Hwf' & _ & Hreq & Hout); [lia|].
    change (Z.to_nat 0) with 0%nat in *. rewrite Hslot in Hout. destruct Hout as [Hnum Ho].
    exists m'. split; [done|]. rewrite Hnum. split; [|split; [done|cbn; lia]].
    split; [done|]. rewrite Hreq, Hnum. split; [|done].
    rewrite list_lookup_insert_eq; [done|]. destruct Hwf as [-> _]. lia.
Qed.

Lemma jammed_run now steps m :
  jammed m -> Forall step_peers_ok steps ->
  (num_requests m + Z.of_nat (length (filter (fun st => is_incoming st = true) steps)) <= 255)%Z ->
  exists m', run_app now steps m = Ret m' /\ jammed m' /\ outbox m' = outbox m.
Proof.
  revert m; induction steps as [|st steps IH]; intros m Hj Hpeers Hroom; [by exists m|].
  inversion Hpeers as [|? ? Hst Hsteps]; subst. cbn [run_app].
  rewrite filter_cons in Hroom.
  destruct (jammed_step now st m Hj Hst) as (m1 & Hr & Hj1 & Ho1 & Hn1).
  { intros Hi. rewrite decide_True in Hroom by done. cbn in Hroom. lia. }
  rewrite Hr. cbn [mbind Outcome_bind]. destruct (IH m1 Hj1 Hsteps) as (m' & Hr' & Hj' & Ho').
  { rewrite Hn1. destruct (is_incoming st); [rewrite decide_True in Hroom by done; cbn in Hroom|
      rewrite decide_False in Hroom by done]; lia. }
  exists m'. split; [done|]. split; [done|]. by rewrite Ho', Ho1.
Qed.

(** A request and its answer, the application naming the peer by a text. *)
Record Exchange := mkExchange {
  ex_peer : PeerId;
  ex_id : PeerRequestId;
  ex_text : string;
  ex_request : list byte;
  ex_response : list byte;
}.

Definition exchange_steps (e : Exchange) : list AppStep :=
  [Incoming (ex_peer e) (ex_id e) (ex_request e); Answer (ex_text e) (ex_response e)].

Lemma first_request now p id data m :
  idle m -> exists m', app_step now (Incoming p id data) m = Ret m' /\ table_wf m' /\ outbox m' = outbox m /\
    num_requests m' = 1%Z /\ requests m' = <[0%nat := Some id]> (replicate 256 None).
Proof.
  intros (Hwf & Hn & Hreq).
  destruct (request_taken p id (Request_Status data) m Hwf) as (m' & Hr & Hwf' & Ho & Hreq' & Hnum & _).
  exists m'. rewrite Hn in *. rewrite Hreq in Hreq'. by split_and!.
Qed.

Lemma exchange_ok now e m :
  idle m -> peer_from_string (ex_text e) = Some (ex_peer e) ->
  exists m', run_app now (exchange_steps e) m = Ret m' /\ idle m' /\
    outbox m' = outbox m ++ [response_action (ex_peer e) (ex_id e) (ex_response e)].
Proof.
  intros Hidle Htext. unfold exchange_steps. cbn [run_app].
  destruct (first_request now (ex_peer e) (ex_id e) (ex_request e) m Hidle) as (m1 & -> & Hwf1 & Ho1 & Hn1 & Hreq1).
  cbn [mbind Outcome_bind]. rewrite (answer_step now _ _ _ m1 Htext).
  destruct (response_sent now (ex_peer e) (ex_response e) 0 m1 Hwf1) as (m2 & -> & Hwf2 & _ & Hreq2 & Hout); [lia|].
  change (Z.to_nat 0) with 0%nat in *. rewrite Hreq1 in Hout, Hreq2.
  rewrite list_lookup_insert_eq in Hout by (rewrite length_replicate; lia). destruct Hout as [Hn2 Ho2].
  exists m2. split; [done|]. rewrite Ho2, Ho1. split; [|done]. split; [done|].
  rewrite Hn2, Hn1. split; [done|]. by rewrite Hreq2, list_insert_insert_eq.
Qed.

(** ** Properties *)

(** C7: an application that answers every request before the next one comes
    is served: however many requests there are, each answer is sent to the
    peer, connection and substream of its request, in order, and the table is
    empty again. *)
Theorem serial_requests_answered (now : Instant) (exchanges : list Exchange) (m : Mothra) :
  idle m -> Forall (fun e => peer_from_string (ex_text e) = Some (ex_peer e)) exchanges ->
  exists m', run_app now (exchanges ≫= exchange_steps) m = Ret m' /\ idle m' /\
    outbox m' = outbox m ++ ((fun e => response_action (ex_peer e) (ex_id e) (ex_response e)) <$> exchanges).
Proof.
  intros Hidle Hex. revert m Hidle; induction Hex as [|e exchanges He Hex IH]; intros m Hidle.
  { exists m. by rewrite app_nil_r. }
  destruct (exchange_ok now e m Hidle He) as (m1 & Hr1 & Hi1 & Ho1).
  destruct (IH m1 Hi1) as (m2 & Hr2 & Hi2 & Ho2).
  exists m2. rewrite bind_cons, run_app_app, Hr1. split; [done|]. split; [done|].
  by rewrite Ho2, Ho1, <-app_assoc.
Qed.

(** C24: two requests that overlap jam the answers: [rpc_response] always
    answers slot 0, so the second answer finds it empty and is dropped while
    the count stays at one; and of the next requests, up to 254 of them, none
    is ever answered, whatever the application does. *)
Theorem overlapping_requests_jam (now : Instant) (pa pb q1 : PeerId) (ida idb : PeerRequestId)
    (da db d1 d2 : list byte) (s1 s2 : string) (later : list AppStep) (m : Mothra) :
  idle m -> peer_from_string s1 = Some q1 -> is_Some (peer_from_string s2) ->
  Forall step_peers_ok later ->
  (length (filter (fun st => is_incoming st = true) later) <= 254)%nat ->
  exists m', run_app now ([Incoming pa ida da; Incoming pb idb db; Answer s1 d1; Answer s2 d2] ++ later) m =
      Ret m' /\ outbox m' = outbox m ++ [response_action q1 ida d1].
Proof.
  intros Hidle Hs1 [q2 Hs2] Hlater Hlen. rewrite run_app_app. cbn [run_app].
  destruct (first_request now pa ida da m Hidle) as (m1 & -> & Hwf1 & Ho1 & Hn1 & Hreq1).
  cbn [mbind Outcome_bind].
  destruct (request_taken pb idb (Request_Status db) m1 Hwf1) as (m2 & Hr2 & Hwf2 & Ho2 & Hreq2 & Hn2 & _).
  cbn [app_step]. rewrite Hr2. cbn [mbind Outcome_bind].
  rewrite Hn1 in *. change (Z.to_nat 1) with 1%nat in *.
  change (rpc_response "Status" s1 d1 ≫= fun message => on_message now message m2)
    with (app_step now (Answer s1 d1) m2).
  rewrite (answer_step now s1 q1 d1 m2 Hs1).
  destruct (response_sent now q1 d1 0 m2 Hwf2) as (m3 & -> & Hwf3 & _ & Hreq3 & Hout3); [lia|].
  change (Z.to_nat 0) with 0%nat in *.
  assert (Hslot : requests m2 !! 0%nat = Some (Some ida)).
  { rewrite Hreq2, Hreq1, list_lookup_insert_ne by done.
    by rewrite list_lookup_insert_eq by (rewrite length_replicate; lia). }
  rewrite Hslot in Hout3. destruct Hout3 as [Hn3 Ho3]. cbn [mbind Outcome_bind].
  assert (Hj : jammed m3).
  { split; [done|]. rewrite Hreq3, Hn3, Hn2. split; [|done].
    rewrite list_lookup_insert_eq; [done|]. destruct Hwf2 as [-> _]. lia. }
  assert (Hnum3 : num_requests m3 = 1%Z) by (by rewrite Hn3, Hn2).
  destruct (jammed_run now (Answer s2 d2 :: later) m3 Hj) as (m' & Hr & _ & Ho).
  { constructor; [by exists q2|done]. }
  { rewrite Hnum3. cbn [filter]. rewrite filter_cons, decide_False by done. lia. }
  exists m'. cbn [run_app] in Hr. split.
  - destruct (app_step now (Answer s2 d2) m3) as [m4| |] eqn:E4; [|done..]. cbn [app_step] in E4.
    by rewrite E4.
  - by rewrite Ho, Ho3, Ho2, Ho1.
Qed.

(** Not even an application that answers under the index it was given is
    safe: the count of outstanding requests is used as the next index, so that
    once the first of two requests is answered a third one takes the slot of
    the second, and the answer to the second goes to the connection and
    substream of the third. *)
Theorem slot_overwritten (now : Instant) (pa pb pc : PeerId) (ida idb idc : PeerRequestId)
    (request : Request) (da db : list byte) (m : Mothra) :
  idle m ->
  let incoming p id m := on_libp2p_event (LE_Behaviour (RequestReceived p id request)) m in
  exists m1 m2 m3 m4 m5,
    incoming pa ida m = Ret m1 /\ incoming pb idb m1 = Ret m2 /\
    on_message now (Msg_SendResponse pa (Response_Status da) 0) m2 = Ret m3 /\
    incoming pc idc m3 = Ret m4 /\
    on_message now (Msg_SendResponse pb (Response_Status db) 1) m4 = Ret m5 /\
    client_calls m4 = client_calls m ++
      [Receive_rpc "Status" 1 (peer_to_string pa) [0%Z]; Receive_rpc "Status" 1 (peer_to_string pb) [1%Z];
       Receive_rpc "Status" 1 (peer_to_string pc) [1%Z]] /\
    outbox m5 = outbox m ++ [response_action pa ida da; response_action pb idc db].
Proof.
  intros (Hwf & Hn & Hreq) incoming. unfold incoming.
  destruct (request_taken pa ida request m Hwf) as (m1 & Hr1 & Hwf1 & Ho1 & Hreq1 & Hn1 & Hc1).
  destruct (request_taken pb idb request m1 Hwf1) as (m2 & Hr2 & Hwf2 & Ho2 & Hreq2 & Hn2 & Hc2).
  destruct (response_sent now pa da 0 m2 Hwf2) as (m3 & Hr3 & Hwf3 & Hc3 & Hreq3 & Hout3); [lia|].
  destruct (request_taken pc idc request m3 Hwf3) as (m4 & Hr4 & Hwf4 & Ho4 & Hreq4 & Hn4 & Hc4).
  destruct (response_sent now pb db 1 m4 Hwf4) as (m5 & Hr5 & _ & _ & _ & Hout5); [lia|].
  exists m1, m2, m3, m4, m5.
  rewrite Hn in *. change ((0 + 1) mod 256)%Z with 1%Z in Hn1. rewrite Hn1 in *.
  change ((1 + 1) mod 256)%Z with 2%Z in Hn2. rewrite Hn2 in *.
  change (Z.to_nat 0) with 0%nat in *. change (Z.to_nat 1) with 1%nat in *.
  assert (Hslot0 : requests m2 !! 0%nat = Some (Some ida)).
  { rewrite Hreq2, Hreq1, Hreq, list_lookup_insert_ne by done.
    by rewrite list_lookup_insert_eq by (rewrite length_replicate; lia). }
  rewrite Hslot0 in Hout3. destruct Hout3 as [Hn3 Ho3]. change ((2 - 1) mod 256)%Z with 1%Z in Hn3.
  rewrite Hn3 in *. change (Z.to_nat 1) with 1%nat in *.
  assert (Hslot1 : requests m4 !! 1%nat = Some (Some idc)).
  { rewrite Hreq4, list_lookup_insert_eq; [done|]. destruct Hwf3 as [-> _]. lia. }
  rewrite Hslot1 in Hout5. destruct Hout5 as [_ Ho5].
  split_and!; try done.
  - by rewrite Hc4, Hc3, Hc2, Hc1, <-!app_assoc.
  - by rewrite Ho5, Ho4, Ho3, Ho2, Ho1, <-!app_assoc.
Qed.

(** The responses and failures the behaviour shows end at the service, which
    logs them: the application is told of none, whatever their id. *)
Lemma responses_stop_at_the_service (p : PeerId) (id : RequestId) (response : Response) (error : RPCError)
    (m : Mothra) :
  on_libp2p_event (LE_Behaviour (ResponseReceived p id response)) m = Ret m /\
  on_libp2p_event (LE_Behaviour (RPCFailed id p error)) m = Ret m.
Proof. done. Qed.

Context `{!KeyTotal} `{!Discv5Laws} `{!DelayQueueLaws} `{!DelayQueueAlive} `{!IntervalLaws} `{!EnrLaws}.
Context `{!SubProtocolsLaws}.

(** C40: an application's request is never answered to it: [rpc_request]
    sends it under [RequestId::Behaviour], and in every state the node can
    reach, whatever comes back under that id, a response or a failure, is not
    shown to the application. *)
Theorem rpc_request_unanswered (now : Instant) (method peer : string) (p : PeerId) (data : list byte)
    (m : Mothra) :
  peer_from_string peer = Some p ->
  exists message m1 id, rpc_request method peer data = Ret message /\ on_message now message m = Ret m1 /\
    outbox m1 = outbox m ++ [Notify p Handler_Any (Send_Request id (RPCRequest_Status data))] /\
    forall s later conn out, service_reachable s ->
      match out with
      | Ok (Received_Response id' _) | Err (Outbound_err id' _ _) => id' = id
      | _ => False
      end ->
      exists b', on_rpc_event later (mkRPCMessage p conn out) (behaviour s) = Ret b' /\
        b_events b' = b_events (behaviour s).
Proof.
  intros Hp. exists (Msg_SendRequest p (Request_Status data) RequestId_Behaviour).
  eexists _, RequestId_Behaviour. split; [unfold rpc_request; by rewrite Hp|].
  split; [done|]. split; [done|]. intros s later conn out Hs Hout.
  apply (own_response_hidden _ outgoing_idle); [|done]. by apply behaviour_reachable_bwf, service_reachable_behaviour.
Qed.
End Mothra.

(** ** A concrete instance: the peers named "a" and "b". *)
Definition demo_texts : @Texts demo_libp2p demo_gossip_types := {|
  peer_to_string := fun p : @PeerId demo_libp2p => if decide (p = 1%N) then "a"%string else "b"%string;
  peer_from_string := fun s =>
    (if decide (s = "a"%string) then Some 1%N
     else if decide (s = "b"%string) then Some 2%N else None) : option (@PeerId demo_libp2p);
  message_id_to_string := fun _ => "id"%string;
  topic_to_string := fun t : @TopicHash demo_gossip_types => t;
|}.

Section Witnesses.
#[local] Existing Instance demo_libp2p.
#[local] Existing Instance demo_enrs.
#[local] Existing Instance demo_enr_laws.
#[local] Existing Instance demo_keys.
#[local] Existing Instance demo_peer_ids.
#[local] Existing Instance demo_key_total.
#[local] Existing Instance demo_discv5.
#[local] Existing Instance demo_discv5_laws.
#[local] Existing Instance map_to_list_order.
#[local] Existing Instance table_queue.
#[local] Existing Instance table_queue_laws.
#[local] Existing Instance table_queue_alive.
#[local] Existing Instance demo_interval.
#[local] Existing Instance demo_interval_laws.
#[local] Existing Instance demo_connections.
#[local] Existing Instance demo_gossip_types.
#[local] Existing Instance demo_protocols.
#[local] Existing Instance demo_protocols_laws.
#[local] Existing Instance demo_swarm_lib.
#[local] Existing Instance demo_texts.
#[local] Existing Instance PeerManager.demo_profile.

Definition demo_mothra : Mothra := new ["blocks"%string] [] demo_service.

Lemma demo_idle : idle demo_mothra.
Proof. split; [split; [reflexivity|cbn; lia]|]. split; reflexivity. Qed.

Definition peer_a : @PeerId demo_libp2p := 1%N.
Definition peer_b : @PeerId demo_libp2p := 2%N.
Definition id_a : PeerRequestId := ((11%N : @ConnectionId demo_connections), 1%Z).
Definition id_b : PeerRequestId := ((12%N : @ConnectionId demo_connections), 2%Z).
Definition id_c : PeerRequestId := ((13%N : @ConnectionId demo_connections), 3%Z).

Lemma serial_requests_answered_witness :
  exists m', run_app 0%N ([mkExchange peer_a id_a "a" [] [x01]; mkExchange peer_b id_b "b" [] [x02]]
      ≫= exchange_steps) demo_mothra = Ret m' /\
    outbox m' = [response_action peer_a id_a [x01]; response_action peer_b id_b [x02]].
Proof.
  destruct (serial_requests_answered 0%N
    [mkExchange peer_a id_a "a" [] [x01]; mkExchange peer_b id_b "b" [] [x02]] demo_mothra demo_idle)
    as (m' & Hr & _ & Ho); [repeat constructor|].
  exists m'. split; [exact Hr|exact Ho].
Defined.

(** A third request comes, and is answered in vain. *)
Lemma overlapping_requests_jam_witness :
  exists m', run_app 0%N ([Incoming peer_a id_a []; Incoming peer_b id_b []; Answer "a" [x01]; Answer "b" [x02]]
      ++ [Incoming peer_a id_c []; Answer "a" [x03]]) demo_mothra = Ret m' /\
    outbox m' = [response_action peer_a id_a [x01]].
Proof.
  destruct (overlapping_requests_jam 0%N peer_a peer_b peer_a id_a id_b [] [] [x01] [x02] "a" "b"
    [Incoming peer_a id_c []; Answer "a" [x03]] demo_mothra demo_idle) as (m' & Hr & Ho);
    [reflexivity|by exists peer_b|repeat constructor; by exists peer_a|vm_compute; lia|].
  exists m'. split; [exact Hr|exact Ho].
Defined.

Lemma slot_overwritten_witness :
  exists m5, outbox m5 = [response_action peer_a id_a [x01]; response_action peer_b id_c [x02]].
Proof.
  destruct (slot_overwritten 0%N peer_a peer_b peer_a id_a id_b id_c (Request_Status []) [x01] [x02]
    demo_mothra demo_idle) as (m1 & m2 & m3 & m4 & m5 & _ & _ & _ & _ & _ & _ & Ho).
  exists m5. exact Ho.
Defined.

Lemma rpc_request_unanswered_witness :
  exists message, rpc_request "Status" "a" [x01] = Ret message /\
    message = Msg_SendRequest peer_a (Request_Status [x01]) RequestId_Behaviour.
Proof.
  destruct (rpc_request_unanswered 0%N "Status" "a" peer_a [x01] demo_mothra) as (message & m1 & id & Hr & _);
    [reflexivity|].
  exists message. split; [exact Hr|]. vm_compute in Hr. by injection Hr as <-.
Defined.
End Witnesses.
