(* ===== verification/NodeLoop.v ===== *)
(** * The loop of the network service (src/core/src/mothra.rs)

    [spawn_mothra] runs a loop over three sources: the shutdown signal, the
    messages of the application and the events of the libp2p service, whose own
    loop is [next_event].  A turn is [loop_step]; an event of the service is
    handled in the turn that gives it.  The swarm counts the connections of
    each peer and shows the count in its events ([swarm_ok]). *)
From Stdlib Require Import NArith Strings.String Strings.Byte.
From S2P Require Import Prelude Env RpcMethods RpcProtocol PeerInfo PeerDB DelayQueue HashSetDelay.
From S2P Require Import EnrExt Keys Discovery Globals PeerManager RpcHandler RpcBehaviour Behaviour Service Mothra.

Open Scope list_scope.

Section NodeLoop.
Context `{Discv5Lib} `{HashOrder} `{BuildProfile} `{DelayQueue} `{IntervalLib}.
Context `{!Connections} `{!GossipTypes} `{!SubProtocols} `{!SwarmLib} `{!Texts}.

(** The branches of [select!]. *)
Inductive LoopArm :=
| Loop_exit
| Loop_message (message : NetworkMessage)
| Loop_service (arm : ServiceArm).

(** One turn; [None] when the loop ends. *)
Definition loop_step (now : Instant) (arm : LoopArm) (m : Mothra) : Outcome (option Mothra) :=
  match arm with
  | Loop_exit => mret None
  | Loop_message message => Some <$> on_message now message m
  | Loop_service arm =>
    '(libp2p_event, s) ← service_arm now arm (libp2p m);
    let m := set_libp2p s m in
    match libp2p_event with
    | Some libp2p_event => Some <$> on_libp2p_event libp2p_event m
    | None => mret (Some m)
    end
  end.

(** ** The swarm's side *)

(** Established connections per peer. *)
Definition Established : Type := PeerId -> N.

(** The number in an event is the number of connections after it, and an index
    is a [u8]. *)
Definition arm_ok (est : Established) (arm : LoopArm) : Prop :=
  match arm with
  | Loop_service (Arm_swarm (ConnectionEstablished p _ n)) => n = (est p + 1)%N
  | Loop_service (Arm_swarm (ConnectionClosed p _ _ n)) => est p = (n + 1)%N
  | Loop_message (Msg_SendResponse _ _ index) => (0 <= index < 256)%Z
  | _ => True
  end.

Definition count (p : PeerId) (n : N) (est : Established) : Established :=
  fun q => if decide (q = p) then n else est q.

Definition after (arm : LoopArm) (est : Established) : Established :=
  match arm with
  | Loop_service (Arm_swarm (ConnectionEstablished p _ n)) => count p n est
  | Loop_service (Arm_swarm (ConnectionClosed p _ _ n)) => count p n est
  | _ => est
  end.

Definition loop_next (x y : Established * Mothra) : Prop :=
  exists now arm, arm_ok x.1 arm /\ loop_step now arm x.2 = Ret (Some y.2) /\ y.1 = after arm x.1.

(** A node as [Mothra::new] makes it. *)
Definition fresh_node (m : Mothra) : Prop :=
  exists topics fork sw gs ident server boot_nodes socket disabled max enr fork' meta ping tcp udp,
    m = Mothra.new topics fork (Service.new sw (Behaviour.new gs ident
          (PeerManager.new server boot_nodes socket disabled max (new_globals enr fork' meta ping tcp udp)))).

(** The states of a running node, with the connections of its swarm. *)
Definition loop_reachable (est : Established) (m : Mothra) : Prop :=
  exists m0, fresh_node m0 /\ rtc loop_next (fun _ => 0%N, m0) (est, m).

(** The poll of the behaviour with other fuel. *)
Definition with_fuel (fuel : nat) (arm : LoopArm) : LoopArm :=
  match arm with Loop_service (Arm_poll _) => Loop_service (Arm_poll fuel) | _ => arm end.

(** ** Lemmas *)

Context `{!KeyTotal} `{!Discv5Laws} `{!DelayQueueLaws} `{!DelayQueueAlive} `{!IntervalLaws} `{!EnrLaws}.
Context `{!SubProtocolsLaws}.

(** A peer recorded as connected has a connection, and one is counted. *)
Definition backed (est : Established) (p : PeerId) (s : PeerConnectionStatus) : Prop :=
  match s with
  | Connected n_in n_out => n_in = 0%Z /\ n_out = 1%Z /\ (1 <= est p)%N
  | Banned _ => False
  | _ => True
  end.

Lemma backed_idle est : idle_statuses (backed est).
Proof. intros p [n_in n_out| |t| |] Hc Hb; try done; [by destruct (Hc n_in n_out)|by destruct (Hb t)]. Qed.

Lemma bwf_mono (Q Q' : PeerId -> PeerConnectionStatus -> Prop) b :
  (forall p s, Q p s -> Q' p s) -> bwf Q b -> bwf Q' b.
Proof. intros HQ [Hm Hs]. split; [done|]. intros p info Hp. by apply HQ, (Hs p). Qed.

Definition loop_inv (est : Established) (m : Mothra) : Prop :=
  table_wf m /\ bwf (backed est) (m_behaviour m).

(** The behaviour of a service, handled by the loop. *)
Lemma backed_grow est p n b :
  (est p <= n)%N -> bwf (backed est) b -> bwf (backed (count p n est)) b.
Proof.
  intros Hn. apply bwf_mono. intros q [] Hq; try done. destruct Hq as (-> & -> & Hq).
  split; [done|]. split; [done|]. unfold count. case_decide; [subst; lia|done].
Qed.

Lemma backed_not_connected est p b :
  bwf (backed est) b -> est p = 0%N ->
  connections (connection_status (entry_or_default p (peerdb (peer_manager b)))) = (0%Z, 0%Z).
Proof.
  intros [_ Hs] Hp. pose proof (statuses_entry _ (backed_idle est) p _ Hs) as Hq.
  destruct (connection_status _) as [a c| | | |]; try done. destruct Hq as (_ & _ & Hq). lia.
Qed.

(** The first connection of a peer. *)
Lemma established_ok now est p endpoint s :
  bwf (backed est) (behaviour s) -> est p = 0%N ->
  exists event s', on_swarm_event now (ConnectionEstablished p endpoint 1) s = Ret (Some event, s') /\
    bwf (backed (count p 1%N est)) (behaviour s').
Proof.
  intros Hb Hp. pose proof (backed_not_connected est p _ Hb Hp) as Hc.
  assert (Hb' : bwf (backed (count p 1%N est)) (behaviour s)) by (apply backed_grow; [lia|done]).
  assert (Hroom : has_room p IngoingConnected (peer_manager (behaviour s))).
  { unfold has_room. rewrite Hc. right. lia. }
  assert (Hk : backed (count p 1%N est) p (status_after_connect now IngoingConnected
    (connection_status (entry_or_default p (peerdb (peer_manager (behaviour s))))))).
  { unfold status_after_connect. rewrite Hc. split; [done|]. split; [done|]. unfold count. by rewrite decide_True. }
  cbn [on_swarm_event]. rewrite decide_True by done. destruct endpoint.
  - unfold b_db_connect_outgoing.
    destruct (connect_db_ok now p IngoingConnected (peer_manager (behaviour s))) as (n & db & Hdb & _);
      [apply Hb|done|].
    rewrite Hdb. cbn [mbind Outcome_bind]. eexists _, _. split; [done|].
    apply (bwf_db_connect_outgoing _ now p (behaviour s)); [done| |exact Hk].
    unfold b_db_connect_outgoing. by rewrite Hdb.
  - unfold b_manager.
    destruct (manager_call_ok _ (backed_idle _) now (Call_connect p IngoingConnected) (behaviour s) Hb')
      as (pm & -> & Hpm); [done|exact Hk|].
    cbn [mbind Outcome_bind]. by eexists _, _.
Qed.

(** The last connection of a peer. *)
Lemma closed_ok now est p cause endpoint s :
  bwf (backed est) (behaviour s) ->
  exists event s', on_swarm_event now (ConnectionClosed p cause endpoint 0) s = Ret (Some event, s') /\
    bwf (backed (count p 0%N est)) (behaviour s').
Proof.
  intros Hb. cbn [on_swarm_event]. rewrite decide_True by done. unfold b_manager.
  destruct (manager_call_ok _ (backed_idle est) now (Call_notify_disconnect p) (behaviour s) Hb)
    as (pm & Hr & Hpm); [done..|].
  rewrite Hr. cbn [mbind Outcome_bind]. eexists _, _. split; [done|].
  cbn [run_manager] in Hr. destruct (notify_disconnect_ok now p (peer_manager (behaviour s)) (proj1 Hb))
    as (pm' & db & Hr' & _ & _ & Hdb & Hpeers & _).
  assert (pm' = pm) as -> by congruence. destruct Hpm as [Hm Hs]. split; [exact Hm|].
  pose proof (disconnect_not_connected now p _ _ (mwf_db _ (proj1 Hb)) Hdb) as Hnot.
  intros q info Hq. pose proof (Hs q info Hq) as Hq'. cbv beta in Hq' |- *.
  destruct (connection_status info) as [a c| | | |] eqn:Es; try done.
  cbn in Hq' |- *. destruct Hq' as (-> & -> & Hest). split; [done|]. split; [done|]. unfold count.
  case_decide; [|done]. subst q. exfalso. revert Hnot.
  rewrite <-Hpeers. unfold peer_is_connected, get_connection_status, peer_info.
  change (PeerDB.peers (peerdb pm) !! p = Some info) in Hq. rewrite Hq. cbn. by rewrite Es.
Qed.

Lemma swarm_event_ok now est event s :
  arm_ok est (Loop_service (Arm_swarm event)) -> bwf (backed est) (behaviour s) ->
  exists e s', on_swarm_event now event s = Ret (e, s') /\
    bwf (backed (after (Loop_service (Arm_swarm event)) est)) (behaviour s').
Proof.
  intros Hok Hb.
  assert (Hman : forall c, call_has_room c (peer_manager (behaviour s)) ->
    connect_keeps (backed est) now c (peer_manager (behaviour s)) ->
    exists b, b_manager now c (behaviour s) = Ret b /\ bwf (backed est) b).
  { intros c Hroom Hk. destruct (manager_call_ok _ (backed_idle est) now c (behaviour s) Hb Hroom Hk)
      as (pm & Hr & Hpm). unfold b_manager. rewrite Hr. cbn. by eexists. }
  destruct event as [p endpoint n|p cause endpoint n| | | | |p address error attempts| | | | |p];
    cbn [arm_ok after] in *; try (by eexists _, _).
  - destruct (decide (n = 1%N)) as [->|Hn].
    + destruct (established_ok now est p endpoint s Hb) as (e & s' & Hr & Hb'); [lia|]. by eexists _, _.
    + cbn [on_swarm_event]. rewrite decide_False by done. eexists _, _. split; [done|].
      apply backed_grow; [lia|done].
  - destruct (decide (n = 0%N)) as [->|Hn].
    + destruct (closed_ok now est p cause endpoint s Hb) as (e & s' & Hr & Hb'). by eexists _, _.
    + cbn [on_swarm_event]. rewrite decide_False by done. eexists _, _. split; [done|].
      revert Hb. apply bwf_mono. intros q [] Hq; try done. destruct Hq as (-> & -> & Hq).
      split; [done|]. split; [done|]. unfold count. case_decide; [lia|done].
  - destruct (Hman (Call_notify_disconnect p)) as (b & Hr & Hb'); [done..|].
    cbn [on_swarm_event]. rewrite Hr. by eexists _, _.
  - destruct (Hman (Call_connect p Connecting_Dialing)) as (b & Hr & Hb'); [|done|].
    { unfold call_has_room, has_room. destruct (connections _). by right. }
    cbn [on_swarm_event]. rewrite Hr. by eexists _, _.
Qed.

(** A turn of the service's own loop, with enough fuel. *)
Lemma service_arm_ok now est arm s :
  arm_ok est (Loop_service arm) -> bwf (backed est) (behaviour s) ->
  exists n event s',
    (forall fuel, (n <= fuel)%nat ->
       service_arm now (match arm with Arm_poll _ => Arm_poll fuel | _ => arm end) s = Ret (event, s')) /\
    bwf (backed (after (Loop_service arm) est)) (behaviour s').
Proof.
  intros Hok Hb. destruct arm as [fuel|i|p conn event|event| |]; cbn [after].
  - destruct (behaviour_poll_ok _ (backed_idle est) now (behaviour s) Hb) as (n & r & b & Hb' & Hn).
    exists n. destruct r as [action|].
    exists (match action with GenerateEvent e => Some (LE_Behaviour e) | _ => None end), (set_behaviour b s).
      split; [|exact Hb'].  intros fuel' Hf. cbn [service_arm]. rewrite Hn by done. by destruct action.
    + exists None, (set_behaviour b s). split; [|exact Hb']. intros fuel' Hf. cbn [service_arm]. by rewrite Hn.
  - exists 0%nat. by eexists _, _.
  - exists 0%nat. eexists _, _. split; [done|]. by destruct event as [[]|].
  - destruct (swarm_event_ok now est event s Hok Hb) as (e & s' & Hr & Hb'). exists 0%nat. by exists e, s'.
  - exists 0%nat. cbn [service_arm]. destruct (dq_poll now (peers_to_ban s)) as [[] q]; by eexists _, _.
  - exists 0%nat. cbn [service_arm]. destruct (dq_poll now (peer_ban_timeout s)) as [[] q]; by eexists _, _.
Qed.

(** An event of the service; only a gossip message without a topic panics. *)
Definition has_topic (event : Libp2pEvent) : Prop :=
  match event with LE_Behaviour (PubsubMessage _ _ _ _ topics _) => topics <> [] | _ => True end.

Lemma on_libp2p_event_ok est event m :
  loop_inv est m -> has_topic event ->
  exists m', on_libp2p_event event m = Ret m' /\ loop_inv est m'.
Proof.
  intros [Ht Hb] Htopic.
  destruct event as [[id p err|p id request|p id response|id seq agent source topics data|p topic|p]|addr|p endpoint|p endpoint];
    try (by eexists).
  - destruct (request_taken p id request m Ht) as (m' & Hr & Ht' & _). exists m'. split; [done|]. split; [done|].
    cbn [on_libp2p_event] in Hr. destruct (slot (num_requests m) m); [|done..]. by injection Hr as <-.
  - destruct topics as [|t topics]; [by destruct Htopic|]. by eexists.
  - eexists. split; [done|]. split; [done|]. destruct Hb as [Hm Hs]. split; [by apply mwf_set_globals|done].
Qed.

Lemma libp2p_event_outcome est event m :
  loop_inv est m ->
  (exists m', on_libp2p_event event m = Ret m') \/
  (exists msg, ~ has_topic event /\ on_libp2p_event event m = Panic msg).
Proof.
  intros Hinv.
  assert (Hdec : has_topic event \/ ~ has_topic event)
    by (destruct event as [[| | |id seq agent source [] data| |]| | |]; cbn; auto).
  destruct Hdec as [Htopic|Htopic].
  - left. destruct (on_libp2p_event_ok est event m Hinv Htopic) as (m' & Hr & _). by exists m'.
  - right. destruct event as [[| | |id seq agent source [] data| |]| | |]; cbn in Htopic |- *; try tauto.
    + by eexists.
    + by destruct Htopic.
Qed.

(** A turn of the loop for the service. *)
Lemma service_turn_ok now est arm m :
  arm_ok est (Loop_service arm) -> loop_inv est m ->
  exists n event s o,
    (forall fuel, (n <= fuel)%nat ->
       service_arm now (match arm with Arm_poll _ => Arm_poll fuel | _ => arm end) (libp2p m) = Ret (event, s)) /\
    (forall fuel, (n <= fuel)%nat -> loop_step now (with_fuel fuel (Loop_service arm)) m = o) /\
    ((exists m', o = Ret (Some m')) \/
     (exists e msg, event = Some e /\ ~ has_topic e /\ o = Panic msg)).
Proof.
  intros Hok [Ht Hb]. destruct (service_arm_ok now est arm (libp2p m) Hok Hb) as (n & event & s & Hn & Hb').
  exists n, event, s, (match event with Some event => Some <$> on_libp2p_event event (set_libp2p s m)
                                | None => Ret (Some (set_libp2p s m)) end).
  split; [exact Hn|]. split.
  { intros fuel Hf. specialize (Hn fuel Hf). destruct arm; cbn [with_fuel loop_step]; by rewrite Hn. }
  destruct event as [event|]; [|by left; eexists].
  destruct (libp2p_event_outcome (after (Loop_service arm) est) event (set_libp2p s m)) as [[m' ->]|(msg & ? & ->)];
    [done| |].
  - left. by eexists.
  - right. by eexists _, _.
Qed.

Lemma subscribe_all_inv est kinds m : loop_inv est m -> loop_inv est (subscribe_all kinds m).
Proof.
  unfold subscribe_all. revert m. induction kinds as [|kind kinds IH]; intros m [Ht Hb]; [done|]. cbn [foldl].
  apply IH. split; [done|]. unfold subscribe_kind, subscribe, m_behaviour. cbn.
  destruct (gs_subscribe _ _). by apply bwf_set_subscriptions.
Qed.

Lemma on_message_ok now est message m :
  arm_ok est (Loop_message message) -> loop_inv est m ->
  exists m', on_message now message m = Ret m' /\ loop_inv est m'.
Proof.
  intros Hok Hinv. destruct message as [subs|p request id|p response index|topic data|p id|p]; cbn [on_message].
  - eexists. split; [done|]. by apply subscribe_all_inv.
  - by eexists.
  - destruct Hinv as [Ht Hb]. destruct (slot_ok index m Ht Hok) as (sl & -> & Hsl). cbn [mbind Outcome_bind].
    eexists. split; [done|]. split; [|by destruct sl]. destruct Ht as [Hlen Hn]. unfold table_wf, fetch_sub_u8.
    destruct sl; cbn; rewrite length_insert; (split; [done|]); [by apply Z.mod_pos_bound|done].
  - by eexists.
  - by eexists.
  - destruct (ban_returns now p (from_secs BAN_PEER_TIMEOUT) (libp2p m)) as (s & -> & Hs); [by apply within_day|].
    eexists. split; [done|]. destruct Hinv as [Ht Hb]. split; [done|].
    unfold m_behaviour in *. cbn. by rewrite Hs.
Qed.

Lemma service_arm_inv now est arm event s s' :
  arm_ok est (Loop_service arm) -> bwf (backed est) (behaviour s) ->
  service_arm now arm s = Ret (event, s') -> bwf (backed (after (Loop_service arm) est)) (behaviour s').
Proof.
  intros Hok Hb Hr. destruct arm as [fuel|i|p conn e|e| |];
    try (destruct (service_arm_ok now est _ s Hok Hb) as (n & event' & s1 & Hn & Hb1);
         specialize (Hn n (le_n n)); rewrite Hn in Hr; by injection Hr as _ <-).
  cbn [service_arm after] in *. destruct (Behaviour.poll fuel now (behaviour s)) as [[r b]| |] eqn:E; [|done..].
  apply (bwf_poll _ (backed_idle est)) in E; [|done]. cbn in Hr.
  destruct r as [[]|]; by injection Hr as _ <-.
Qed.

Lemma loop_step_inv now est arm m m' :
  arm_ok est arm -> loop_inv est m -> loop_step now arm m = Ret (Some m') -> loop_inv (after arm est) m'.
Proof.
  intros Hok Hinv Hr. destruct arm as [|message|arm]; [done|..]; cbn [loop_step] in Hr.
  - destruct (on_message_ok now est message m Hok Hinv) as (m1 & Hr1 & Hinv1). rewrite Hr1 in Hr.
    by injection Hr as <-.
  - destruct (service_arm now arm (libp2p m)) as [[event s]| |] eqn:E; [|done..]. cbn [mbind Outcome_bind] in Hr.
    apply (service_arm_inv now est) in E; [|done|apply Hinv].
    assert (Hinv1 : loop_inv (after (Loop_service arm) est) (set_libp2p s m)) by (split; [apply Hinv|done]).
    destruct event as [event|]; [|by injection Hr as <-].
    destruct (on_libp2p_event_ok _ event _ Hinv1) as (m1 & Hr1 & Hinv2).
    { destruct event as [[]| | |]; try done. intros ->. by cbn in Hr. }
    rewrite Hr1 in Hr. by injection Hr as <-.
Qed.

Lemma loop_reachable_inv est m : loop_reachable est m -> loop_inv est m.
Proof.
  intros (m0 & Hfresh & Hr).
  cut (loop_inv (est, m).1 (est, m).2); [done|]. revert Hr. generalize (est, m). intros x Hr.
  apply rtc_ind_r with (P := fun x => loop_inv x.1 x.2) in Hr; [done| |].
  - destruct Hfresh as (topics & fork & sw & gs & ident & server & boot & socket & disabled & max & enr & fork' &
      meta & ping & tcp & udp & ->). cbn [fst snd]. unfold Mothra.new. apply subscribe_all_inv. split; [done|].
    split; [apply mwf_new|]. intros p info. cbn. by rewrite lookup_empty.
  - intros [est1 m1] [est2 m2] _ (now & arm & Hok & Hstep & Hest) Hinv. cbn in *. subst.
    by eapply loop_step_inv.
Qed.

(** ** Properties *)

(** C6: the loop of the network service never gets stuck: in every state a
    node can reach, whatever the swarm, the application and the clock do next,
    the turn ends (the client's own functions apart, see [Ffi]), in another such
    state or, for the shutdown signal, with the end of the loop; the one turn
    that panics handles a gossip message without a topic. And a peer that is
    recorded as connected is connected: the swarm has a connection to it, and
    exactly one is counted, so that no counter of connections overflows. *)
Theorem node_runs (est : Established) (m : Mothra) :
  loop_reachable est m ->
  (forall p n_in n_out,
     get_connection_status p (peerdb (peer_manager (m_behaviour m))) = Some (Connected n_in n_out) ->
     n_in = 0%Z /\ n_out = 1%Z /\ (1 <= est p)%N) /\
  forall now arm, arm_ok est arm ->
    exists n o, (forall fuel, (n <= fuel)%nat -> loop_step now (with_fuel fuel arm) m = o) /\
      match o with
      | Ret (Some m') => loop_reachable (after arm est) m'
      | Ret None => arm = Loop_exit
      | Panic _ => exists arm' event s, with_fuel n arm = Loop_service arm' /\
          service_arm now arm' (libp2p m) = Ret (Some event, s) /\ ~ has_topic event
      | OutOfFuel => False
      end.
Proof.
  intros Hreach. pose proof (loop_reachable_inv est m Hreach) as [Ht Hb]. split.
  { intros p n_in n_out. unfold get_connection_status, peer_info.
    destruct (PeerDB.peers _ !! p) as [info|] eqn:E; [|done]. cbn. intros [= Hs].
    pose proof (proj2 Hb p info E) as Hq. cbv beta in Hq. by rewrite Hs in Hq. }
  intros now arm Hok.
  assert (Hnext : forall fuel m', loop_step now (with_fuel fuel arm) m = Ret (Some m') ->
    loop_reachable (after arm est) m').
  { intros fuel m' Hr. destruct Hreach as (m0 & Hfresh & Hsteps). exists m0. split; [done|].
    eapply rtc_r; [exact Hsteps|]. exists now, (with_fuel fuel arm). by destruct arm as [| |[]]. }
  destruct arm as [|message|arm].
  - by exists 0%nat, (Ret None).
  - destruct (on_message_ok now est message m Hok) as (m' & Hr & _); [done|].
    exists 0%nat, (Ret (Some m')). assert (Hstep : loop_step now (Loop_message message) m = Ret (Some m'))
      by (cbn [loop_step]; by rewrite Hr).
    split; [done|]. by apply (Hnext 0%nat).
  - destruct (service_turn_ok now est arm m Hok (conj Ht Hb)) as (n & event & s & o & Hn & Hstep & Ho).
    exists n, o. split; [exact Hstep|]. destruct Ho as [[m' ->]|(e & msg & -> & Htopic & ->)].
    + by apply (Hnext n), Hstep.
    + exists (match arm with Arm_poll _ => Arm_poll n | _ => arm end), e, s.
      split; [by destruct arm|]. by split; [apply (Hn n)|].
Qed.
End NodeLoop.

(** ** A concrete run: the first connection of a fresh node. *)
Section Witnesses.
#[local] Existing Instance demo_libp2p.
#[local] Existing Instance demo_enrs.
#[local] Existing Instance demo_enr_laws.
#[local] Existing Instance demo_keys.
#[local] Existing Instance demo_peer_ids.
#[local] Existing Instance demo_key_total.
#[local] Existing Instance demo_discv5.
#[local] Existing Instance demo_discv5_laws.
#[local] Existing Instance map_to_list_order.
#[local] Existing Instance table_queue.
#[local] Existing Instance table_queue_laws.
#[local] Existing Instance table_queue_alive.
#[local] Existing Instance demo_interval.
#[local] Existing Instance demo_interval_laws.
#[local] Existing Instance demo_connections.
#[local] Existing Instance demo_gossip_types.
#[local] Existing Instance demo_protocols.
#[local] Existing Instance demo_protocols_laws.
#[local] Existing Instance demo_swarm_lib.
#[local] Existing Instance demo_texts.
#[local] Existing Instance PeerManager.demo_profile.

Lemma demo_fresh : fresh_node demo_mothra.
Proof.
  exists ["blocks"%string], [], ([] : @Swarm _ demo_swarm_lib), demo_gossip, [], demo_server, [demo_node],
    (mkSocketAddr (V4 7%N) 9000%N), false, 2%nat, demo_stored, [], [], [], 9000%N, 9000%N.
  reflexivity.
Qed.

(** Peer "a" connects, and then only it is backed by a connection. *)
Definition connected_a : LoopArm :=
  Loop_service (Arm_swarm (ConnectionEstablished peer_a (Listener [] []) 1)).

Lemma node_runs_witness :
  exists m, loop_step 0%N connected_a demo_mothra = Ret (Some m) /\
    (forall n_in n_out, get_connection_status peer_a (peerdb (peer_manager (m_behaviour m))) =
       Some (Connected n_in n_out) -> n_in = 0%Z /\ n_out = 1%Z).
Proof.
  assert (Hreach : loop_reachable (fun _ => 0%N) demo_mothra).
  { exists demo_mothra. split; [exact demo_fresh|apply rtc_refl]. }
  destruct (node_runs _ demo_mothra Hreach) as [_ Hturn].
  destruct (Hturn 0%N connected_a eq_refl) as (n & o & Hn & Ho). specialize (Hn n (le_n n)).
  assert (Hsome : match loop_step 0%N connected_a demo_mothra with Ret (Some _) => true | _ => false end = true)
    by (vm_compute; reflexivity).
  cbn [connected_a with_fuel] in Hn. change (with_fuel n connected_a) with connected_a in Hn.
  rewrite Hn in Hsome |- *. destruct o as [[m|]| |]; try discriminate Hsome.
  exists m. split; [reflexivity|]. intros n_in n_out Hs.
  destruct (node_runs _ m Ho) as [Hback _]. destruct (Hback peer_a n_in n_out Hs) as (Hin & Hout & _). by split.
Defined.
End Witnesses.
