(* ===== verification/Executor.v ===== *)
(** * The task executor (src/core/network/src/executor.rs)

    [TaskExecutor] hands futures to the tokio runtime, wrapped so that they end
    with the exit future.  A future is a state [F] with [f_poll], which may
    panic; the runtime is the list of the tasks it was given, each gone once it
    is done or has panicked, and the blocking closures, which its thread pool
    runs to their end. *)
From S2P Require Import Prelude.

Open Scope list_scope.

Section Executor.
Variable F : Type.
Variable f_poll : F -> Outcome (Poll unit * F).

(** What [future::select] answers. *)
Inductive Either := Left | Right.

(** The futures given to the runtime: [future::select(task, exit).then(..)],
    [task.then(..)] and [future::select(join_handle, exit).then(..)]; a
    [JoinHandle] is the number of its closure. *)
Inductive Wrapped :=
| Select_exit (task : F)
| Plain (task : F)
| Select_join (closure : nat).

(** The runtime: the tasks, [None] when gone, whether each closure is done, and
    whether the exit signal was fired or dropped. *)
Record Runtime := mkRuntime {
  tasks : list (option Wrapped);
  closures : list bool;
  exit_fired : bool;
}.

(** [Handle::spawn], [Handle::spawn_blocking] *)
Definition handle_spawn (w : Wrapped) (rt : Runtime) : Runtime :=
  mkRuntime (tasks rt ++ [Some w]) (closures rt) (exit_fired rt).

Definition handle_spawn_blocking (rt : Runtime) : nat * Runtime :=
  (length (closures rt), mkRuntime (tasks rt) (closures rt ++ [false]) (exit_fired rt)).

(** [spawn], also discv5's [Executor::spawn]; the names are for the log. *)
Definition spawn (task : F) (rt : Runtime) : Runtime := handle_spawn (Select_exit task) rt.

Definition spawn_without_exit (task : F) (rt : Runtime) : Runtime := handle_spawn (Plain task) rt.

Definition spawn_blocking (rt : Runtime) : Runtime :=
  let '(join_handle, rt) := handle_spawn_blocking rt in
  handle_spawn (Select_join join_handle) rt.

(** [future::select]: the first future is polled first, the second only when
    the first is pending. *)
Definition select {A} (first : Outcome (Poll unit * A)) (second : Poll unit) : Outcome (Poll Either * A) :=
  '(p, a) ← first;
  match p, second with
  | Ready _, _ => mret (Ready Left, a)
  | Pending, Ready _ => mret (Ready Right, a)
  | Pending, Pending => mret (Pending, a)
  end.

Definition exit_poll (rt : Runtime) : Poll unit := if exit_fired rt then Ready tt else Pending.

(** The [then] closures only log. *)
Definition wrapped_poll (rt : Runtime) (w : Wrapped) : Outcome (option Wrapped) :=
  match w with
  | Select_exit task =>
    '(p, task) ← select (f_poll task) (exit_poll rt);
    mret (match p with Ready _ => None | Pending => Some (Select_exit task) end)
  | Plain task =>
    '(p, task) ← f_poll task;
    mret (match p with Ready _ => None | Pending => Some (Plain task) end)
  | Select_join c =>
    '(p, c) ← select (mret ((if default false (closures rt !! c) then Ready tt else Pending), c)) (exit_poll rt);
    mret (match p with Ready _ => None | Pending => Some (Select_join c) end)
  end.

(** What can happen to the runtime: it polls a task, a closure ends on the pool,
    the signal is fired or dropped. *)
Inductive RuntimeEvent :=
| Poll_task (i : nat)
| Closure_done (c : nat)
| Fire_exit.

Definition runtime_step (e : RuntimeEvent) (rt : Runtime) : Runtime :=
  match e with
  | Poll_task i =>
    match tasks rt !! i with
    | Some (Some w) =>
      let rest := match wrapped_poll rt w with Ret rest => rest | _ => None end in
      mkRuntime (<[i := rest]> (tasks rt)) (closures rt) (exit_fired rt)
    | _ => rt
    end
  | Closure_done c => mkRuntime (tasks rt) (<[c := true]> (closures rt)) (exit_fired rt)
  | Fire_exit => mkRuntime (tasks rt) (closures rt) true
  end.

Definition run_runtime (es : list RuntimeEvent) (rt : Runtime) : Runtime := foldl (fun rt e => runtime_step e rt) rt es.

(** ** Lemmas *)

(** The futures still alive and their kinds. *)
Definition with_exit (w : Wrapped) : bool := match w with Plain _ => false | _ => true end.

Lemma step_exit_fired e rt : exit_fired rt = true -> exit_fired (runtime_step e rt) = true.
Proof. intros Hf. destruct e as [i|c|]; cbn; [|done..]. by destruct (tasks rt !! i) as [[w|]|]. Qed.

(** After the signal, a poll ends every task but a plain one. *)
Lemma poll_ends rt i w :
  exit_fired rt = true -> tasks rt !! i = Some (Some w) -> with_exit w = true ->
  tasks (runtime_step (Poll_task i) rt) !! i = Some None.
Proof.
  intros Hf Hi Hw. cbn [runtime_step]. rewrite Hi. cbn [tasks].
  rewrite list_lookup_insert_eq by (by eapply lookup_lt_Some).
  f_equal. destruct w as [task| |c]; [|done|]; cbn [wrapped_poll]; unfold select, exit_poll; rewrite Hf; cbn.
  - by destruct (f_poll task) as [[[[]|] t]| |].
  - by destruct (default false (closures rt !! c)).
Qed.

(** A task that is gone stays gone. *)
Lemma step_gone e rt i : tasks rt !! i = Some None -> tasks (runtime_step e rt) !! i = Some None.
Proof.
  intros Hi. destruct e as [j|c|]; cbn; [|done..]. destruct (tasks rt !! j) as [[w|]|] eqn:Hj; [|done..]. cbn.
  by rewrite list_lookup_insert_ne by congruence.
Qed.

Lemma run_gone es rt i : tasks rt !! i = Some None -> tasks (run_runtime es rt) !! i = Some None.
Proof. revert rt. induction es as [|e es IH]; intros rt Hi; [done|]. cbn. by apply IH, step_gone. Qed.

(** A task keeps its kind while it is alive. *)
Lemma step_kind e rt i w :
  tasks rt !! i = Some (Some w) -> with_exit w = true ->
  exists o, tasks (runtime_step e rt) !! i = Some o /\ forall w', o = Some w' -> with_exit w' = true.
Proof.
  intros Hi Hw. destruct e as [j|c|]; cbn; [|by eexists; split; [done|]; intros w' [= <-]..].
  destruct (decide (i = j)) as [<-|Hij].
  - rewrite Hi. cbn [tasks]. eexists. split; [apply list_lookup_insert_eq; by eapply lookup_lt_Some|].
    intros w'. destruct w as [task| |k]; [|done|]; cbn [wrapped_poll].
    + destruct (select (f_poll task) _) as [[[]]| |]; [done|by intros [= <-]|done..].
    + destruct (select _ _) as [[[]]| |]; [done|by intros [= <-]|done..].
  - exists (Some w). split; [|by intros w' [= <-]].
    destruct (tasks rt !! j) as [[w'|]|]; [|done..]. cbn. by rewrite list_lookup_insert_ne.
Qed.

(** ** Properties *)

(** After the exit signal every task spawned with [spawn] or [spawn_blocking]
    is gone once the runtime has polled it again, whatever else happens; a task
    that panics or completes is never polled again. The closure of
    [spawn_blocking] is not stopped: what is left running is for its end to
    decide. *)
Theorem exit_ends_tasks (rt : Runtime) (i : nat) (w : Wrapped) (before after : list RuntimeEvent) :
  exit_fired rt = true -> tasks rt !! i = Some (Some w) -> with_exit w = true ->
  tasks (run_runtime (before ++ Poll_task i :: after) rt) !! i = Some None.
Proof.
  intros Hf Hi Hw. unfold run_runtime. rewrite foldl_app. cbn [foldl]. apply run_gone.
  assert (Hst : forall es rt, exit_fired rt = true ->
    (exists o, tasks rt !! i = Some o /\ forall w', o = Some w' -> with_exit w' = true) ->
    let rt' := foldl (fun rt e => runtime_step e rt) rt es in
    exit_fired rt' = true /\ exists o, tasks rt' !! i = Some o /\ forall w', o = Some w' -> with_exit w' = true).
  { induction es as [|e es IH]; intros rt1 Hf1 (o & Ho & Hk); [by split; [|eexists]|]. cbn [foldl]. apply IH.
    - by apply step_exit_fired.
    - destruct o as [w1|]; [by eapply step_kind; eauto|]. exists None. split; [by apply step_gone|done]. }
  destruct (Hst before rt Hf) as (Hf' & [w1|] & Ho & Hk).
  - exists (Some w). split; [done|]. by intros w' [= <-].
  - eapply poll_ends; eauto.
  - by apply step_gone.
Qed.

(** The closure of [spawn_blocking] outlives its task. *)
Theorem blocking_not_stopped (rt : Runtime) :
  let c := length (closures rt) in
  let i := length (tasks rt) in
  let rt' := run_runtime [Fire_exit; Poll_task i] (spawn_blocking rt) in
  tasks rt' !! i = Some None /\ closures rt' !! c = Some false.
Proof.
  intros c i. cbn [run_runtime foldl runtime_step spawn_blocking handle_spawn_blocking handle_spawn tasks closures exit_fired].
  assert (Hnew : (tasks rt ++ [Some (Select_join c)]) !! i = Some (Some (Select_join c))) by by apply list_lookup_middle.
  assert (Hc : (closures rt ++ [false]) !! c = Some false) by by apply list_lookup_middle.
  fold c. rewrite Hnew. split; [cbn [tasks]|exact Hc].
  rewrite list_lookup_insert_eq by (by eapply lookup_lt_Some). cbn. fold c. by rewrite Hc.
Qed.
End Executor.
