(* ===== verification/Startup.v ===== *)
(** * The start of a node (src/core/network/src/service.rs, behaviour/mod.rs,
      peer_manager/mod.rs, discovery/mod.rs, src/core/src/mothra.rs)

    [Mothra::new] builds the libp2p service: it loads the key and the node
    record, builds the transport, the behaviour and the swarm, listens, and
    dials the configured nodes.  The constructors of the libraries and the
    operations of the swarm are the members of [StartLib].  What a start finds
    and leaves on disk is [Disk], the files of each directory, and what the
    environment answers is [StartEnv]. *)
From Stdlib Require Import NArith Strings.String Strings.Byte.
From S2P Require Import Prelude Env RpcMethods RpcProtocol PeerInfo PeerDB DelayQueue HashSetDelay.
From S2P Require Import EnrExt Keys Config Discovery Globals PeerManager RpcHandler RpcBehaviour Behaviour.
From S2P Require Import Service Mothra NodeLoop.

Open Scope list_scope.

(** ** The transport

    The layers [build_transport] stacks, the first one offered first; a
    timeout is in seconds. *)
Inductive Upgrade := Secio | Noise | Mplex | Yamux.

Record Transport `{KeyLib} := mkTransport {
  nodelay : bool;
  websocket : bool;
  auth_key : Keypair;
  authentication : list Upgrade;
  auth_timeout : N;
  multiplexing : list Upgrade;
  mux_timeout : N;
}.

Class StartLib `{Discv5Lib} `{!ConfigLibs} `{Connections} `{GossipTypes} `{!SubProtocols} `{!SwarmLib} := {
  discv5_new : Enr -> CombinedKey -> Discv5Config -> Result Discv5 string;
  (** The assignment [discv5_config.executor = Some(executor)]. *)
  set_executor : Discv5Config -> Discv5Config;
  gossipsub_new : PeerId -> GossipsubConfig -> Gossipsub;
  identify_new : string -> string -> PublicKey -> Identify;
  (** [SwarmBuilder], without the behaviour and the executor. *)
  swarm_build : Transport -> PeerId -> nat -> Swarm;
  listen_on : Multiaddr -> Swarm -> Result unit string * Swarm;
  dial_addr : Multiaddr -> Swarm -> Result unit string * Swarm;
  (** [PartialEq] of records. *)
  enr_eqb : Enr -> Enr -> bool;
}.

Section Startup.
Context `{Discv5Lib} `{HashOrder} `{BuildProfile} `{DelayQueue} `{IntervalLib}.
Context `{!ConfigLibs} `{!Connections} `{!GossipTypes} `{!SubProtocols} `{!SwarmLib} `{!StartLib}.

(** The key and the record file of a directory, [NETWORK_KEY_FILENAME] and
    [ENR_FILENAME] in it, and the directories of a node by their path. *)
Record NodeDir := mkNodeDir { key_file : KeyFile; enr_file : EnrFile }.

Definition Disk : Type := gmap string NodeDir.

(** A directory that is not there holds neither file. *)
Definition node_dir (dir : string) (disk : Disk) : NodeDir := default (mkNodeDir None None) (disk !! dir).

Lemma node_dir_insert dir files disk : node_dir dir (<[dir := files]> disk) = files.
Proof. exact (f_equal (default _) (lookup_insert_eq (M := gmap string) disk dir files)). Qed.

Lemma other_dir dir dir' files (disk : Disk) : dir' <> dir -> (<[dir := files]> disk : Disk) !! dir' = disk !! dir'.
Proof. intros Hd. by apply (lookup_insert_ne (M := gmap string)). Qed.

(** The key that would be generated, what becomes of the writes of the two
    files (of the directory that is created for them too), the answer of
    [DnsConfig::new], and whether the build has websockets. *)
Record StartEnv := mkStartEnv {
  generated_key : SecpSecret;
  key_write : FileWrite;
  enr_write : FileWrite;
  dns_config : Result unit string;
  libp2p_websocket : bool;
}.

Definition build_transport (env : StartEnv) (local_private_key : Keypair) : Result Transport string :=
  match dns_config env with
  | Err e => Err e
  | Ok _ =>
    Ok {| nodelay := true; websocket := libp2p_websocket env;
          auth_key := local_private_key; authentication := [Secio; Noise]; auth_timeout := 20;
          multiplexing := [Mplex; Yamux]; mux_timeout := 20 |}
  end.

(** ** The constructors, from the inside out *)

(** [Discovery::new] up to the discv5 server; the rest is [Discovery.new]. *)
Definition discovery_server (local_key : Keypair) (config : NetworkConfig) (globals : NetworkGlobals)
    : Outcome (Result Discv5 string) :=
  enr_key ← from_libp2p local_key;
  match enr_key with
  | Err e => mret (Err e)
  | Ok enr_key =>
    match discv5_new (Globals.local_enr globals) enr_key (discv5_config config) with
    | Err e => mret (Err ("Discv5 service failed. Error: " +:+ e)%string)
    | Ok server => mret (Ok server)
    end
  end.

(** [PeerManager::new] *)
Definition peer_manager_new (local_key : Keypair) (config : NetworkConfig) (globals : NetworkGlobals)
    : Outcome (Result PeerManager string) :=
  server ← discovery_server local_key config globals;
  match server with
  | Err e => mret (Err e)
  | Ok server =>
    let listen_socket := mkSocketAddr (listen_address config) (discovery_port config) in
    mret (Ok (PeerManager.new server (boot_nodes config) listen_socket (disable_discovery config)
      (N.to_nat (max_peers config)) globals))
  end.

(** [Behaviour::new] *)
Definition behaviour_new (local_key : Keypair) (config : NetworkConfig) (globals : NetworkGlobals)
    : Outcome (Result Behaviour string) :=
  let local_peer_id := peer_id_from_public_key (keypair_public local_key) in
  let identify := identify_new (protocol_version config) (agent_version config) (keypair_public local_key) in
  pm ← peer_manager_new local_key config globals;
  match pm with
  | Err e => mret (Err e)
  | Ok pm => mret (Ok (Behaviour.new (gossipsub_new local_peer_id (gs_config config)) identify pm))
  end.

(** ** Dialing *)

(** [Vec::dedup]: an element equal to the last one kept is dropped. *)
Fixpoint dedup_from (last : Enr) (l : list Enr) : list Enr :=
  match l with
  | [] => []
  | e :: l => if enr_eqb e last then dedup_from last l else e :: dedup_from e l
  end.

Definition dedup (l : list Enr) : list Enr :=
  match l with [] => [] | e :: l => e :: dedup_from e l end.

(** The closure [dial_addr]: a failure is only logged. *)
Definition dial (sw : Swarm) (multiaddr : Multiaddr) : Swarm := (dial_addr multiaddr sw).2.

(** The loop over the addresses of a boot node. *)
Fixpoint dial_boot_node (globals : NetworkGlobals) (peer_id : PeerId) (addrs : list Multiaddr) (sw : Swarm)
    : Outcome Swarm :=
  match addrs with
  | [] => mret sw
  | multiaddr :: addrs =>
    component ← unwrap (ma_iter multiaddr !! 1%nat) "index out of bounds";
    match component with
    | M_Udp _ => dial_boot_node globals peer_id addrs sw
    | _ =>
      let sw :=
        if negb (is_connected_or_dialing peer_id (Globals.peers globals)) then dial sw multiaddr else sw in
      dial_boot_node globals peer_id addrs sw
    end
  end.

Fixpoint dial_boot_nodes (globals : NetworkGlobals) (nodes : list Enr) (sw : Swarm) : Outcome Swarm :=
  match nodes with
  | [] => mret sw
  | e :: nodes =>
    sw ← dial_boot_node globals (enr_peer_id e) (enr_multiaddr e) sw;
    dial_boot_nodes globals nodes sw
  end.

(** ** [Service::new] *)

(** [build_or_load_enr], from the keypair on. *)
Definition load_enr (env : StartEnv) (local_key : Keypair) (config : NetworkConfig)
    (enr_fork_id : EnrForkId) (file : EnrFile) : Outcome (Result Enr string * EnrFile) :=
  enr_key ← from_libp2p local_key;
  match enr_key with
  | Err e => mret (Err e, file)
  | Ok enr_key => mret (build_or_load_enr enr_key (enr_config config) enr_fork_id (enr_write env) file)
  end.

Definition listen_multiaddr (config : NetworkConfig) : Multiaddr :=
  ma_push (M_Tcp (Config.libp2p_port config)) (ma_from_ip (listen_address config)).

Definition service_new (env : StartEnv) (config : NetworkConfig) (enr_fork_id : EnrForkId)
    (meta_data ping_data : list byte) (disk : Disk) : Outcome (Result Service string * Disk) :=
  let files := node_dir (network_dir config) disk in
  let '(local_keypair, keys) := load_private_key (generated_key env) (key_write env) (key_file files) in
  '(enr, records) ← load_enr env local_keypair config enr_fork_id (enr_file files);
  let disk := <[network_dir config := mkNodeDir keys records]> disk in
  match enr with
  | Err e => mret (Err e, disk)
  | Ok enr =>
    let local_peer_id := enr_peer_id enr in
    let network_globals := new_globals enr enr_fork_id meta_data ping_data
      (Config.libp2p_port config) (discovery_port config) in
    match build_transport env local_keypair with
    | Err e => mret (Err ("Failed to build transport: " +:+ e)%string, disk)
    | Ok transport =>
      behaviour ← behaviour_new local_keypair config network_globals;
      match behaviour with
      | Err e => mret (Err e, disk)
      | Ok behaviour =>
        let swarm := swarm_build transport local_peer_id MAX_CONNECTIONS_PER_PEER in
        match listen_on (listen_multiaddr config) swarm with
        | (Err _, _) => mret (Err "Libp2p was unable to listen on the given listen address."%string, disk)
        | (Ok _, swarm) =>
          let swarm := foldl dial swarm (libp2p_nodes config) in
          let boot_nodes := dedup (boot_nodes config) in
          swarm ← dial_boot_nodes network_globals boot_nodes swarm;
          mret (Ok (Service.new swarm behaviour), disk)
        end
      end
    end
  end.

(** ** [Mothra::new] and [Mothra::get_config] *)

(** The client is told of the start before the service is built; an error
    gives what it was told. *)
Definition mothra_new (env : StartEnv) (config : Config) (enr_fork_id : EnrForkId)
    (meta_data ping_data : list byte) (disk : Disk)
    : Outcome (Result Mothra (list ClientCall * string) * Disk) :=
  let client_calls := [Init enr_fork_id] in
  let network_config := network_config config in
  let network_config := set_discv5_config (set_executor (discv5_config network_config)) network_config in
  '(libp2p, disk) ← service_new env network_config enr_fork_id meta_data ping_data disk;
  match libp2p with
  | Err e => mret (Err (client_calls, e), disk)
  | Ok libp2p => mret (Ok (Mothra.new (topics network_config) enr_fork_id libp2p), disk)
  end.

Definition get_config `{!Clap} `{!Platform} (client_name client_version protocol_version : option string)
    (args : ArgMatches) : Outcome Config :=
  let config := Config_new client_name client_version protocol_version in
  match apply_cli_args args config with
  | (Ok _, config) => mret config
  | (Err e, _) => Panic ("called `Result::unwrap()` on an `Err` value: " +:+ ConfigError_fmt e)
  end.

(** ** Lemmas *)

Context `{!KeyTotal} `{!KeyLaws} `{!EnrLaws} `{!RecordLaws}.

Lemma load_private_key_secp g w file : exists s, (load_private_key g w file).1 = Pair_Secp256k1 s.
Proof.
  unfold load_private_key. destruct file as [[bytes|]|]; [|by eexists..].
  destruct (secp_from_bytes bytes); by eexists.
Qed.

(** The record of a start belongs to its key and shows the port of libp2p. *)
Lemma load_enr_ok env s config fork file :
  exists r file', load_enr env (Pair_Secp256k1 s) config fork file = Ret (r, file') /\
    forall e, r = Ok e -> enr_peer_id e = peer_id_from_public_key (Public_Secp256k1 (secp_public s)) /\
      enr_tcp e = Some (Config.libp2p_port config).
Proof.
  unfold load_enr. destruct (enr_secp_parse_valid s) as [k Hk]. cbn [from_libp2p]. rewrite Hk. cbn.
  destruct (build_or_load_enr k (enr_config config) fork (enr_write env) file) as [r file'] eqn:E.
  exists r, file'. split; [done|]. intros e ->.
  split; [|by apply build_or_load_enr_same in E as [? _]].
  apply build_or_load_enr_same in E as (_ & local & Hb & Hn). rewrite (node_peer _ _ Hn).
  unfold build_enr in Hb. destruct (enr_build _ k) eqn:Eb; [|done]. injection Hb as <-.
  by eapply record_peer.
Qed.

(** No constructor panics; the behaviour is one [Behaviour.new] makes. *)
Lemma behaviour_new_ok s config g :
  exists r, behaviour_new (Pair_Secp256k1 s) config g = Ret r /\
    forall b, r = Ok b -> exists gs ident server socket,
      b = Behaviour.new gs ident (PeerManager.new server (boot_nodes config) socket
        (disable_discovery config) (N.to_nat (max_peers config)) g).
Proof.
  unfold behaviour_new, peer_manager_new, discovery_server.
  destruct (from_libp2p_secp s) as [k ->]. cbn.
  destruct (discv5_new (Globals.local_enr g) k (discv5_config config)) as [server|e]; cbn.
  - eexists. split; [done|]. intros b [= <-]. by eexists _, _, _, _.
  - eexists. split; [done|]. done.
Qed.

(** *** Dialing *)

(** With no peers known, the addresses without a UDP component are dialed. *)
Lemma dial_boot_node_ok g p addrs sw :
  Globals.peers g = PeerDB.new ->
  Forall (fun a => exists ip port, ma_iter a = [M_Ip ip; M_Udp port] \/ ma_iter a = [M_Ip ip; M_Tcp port]) addrs ->
  dial_boot_node g p addrs sw = Ret (foldl dial sw (filter (fun a => has_udp a = false) addrs)).
Proof.
  intros Hg Haddrs. revert sw. induction Haddrs as [|a addrs (ip & port & Ha) Haddrs IH]; intros sw; [done|].
  assert (Hp : is_connected_or_dialing p (Globals.peers g) = false) by (rewrite Hg; reflexivity).
  cbn [dial_boot_node]. rewrite filter_cons.
  destruct Ha as [Ha|Ha]; rewrite Ha; cbn [unwrap lookup list_lookup mbind Outcome_bind].
  - assert (Hu : has_udp a = true) by (unfold has_udp; by rewrite Ha).
    by rewrite decide_False by congruence.
  - assert (Hu : has_udp a = false) by (unfold has_udp; by rewrite Ha).
    rewrite decide_True by done. rewrite Hp. cbn [negb foldl]. apply IH.
Qed.

Lemma enr_multiaddr_forms e :
  Forall (fun a => exists ip port, ma_iter a = [M_Ip ip; M_Udp port] \/ ma_iter a = [M_Ip ip; M_Tcp port])
    (enr_multiaddr e).
Proof.
  unfold enr_multiaddr. repeat (apply Forall_app; split); repeat case_match;
    repeat (apply Forall_app; split); repeat constructor;
    eexists _, _; rewrite ma_iter_with_ip; eauto.
Qed.

Lemma dial_boot_nodes_ok g nodes sw :
  Globals.peers g = PeerDB.new ->
  dial_boot_nodes g nodes sw = Ret (foldl dial sw (nodes ≫= enr_multiaddr_tcp)).
Proof.
  intros Hg. revert sw. induction nodes as [|e nodes IH]; intros sw; [done|].
  cbn [dial_boot_nodes]. rewrite dial_boot_node_ok by (done || apply enr_multiaddr_forms).
  cbn [mbind Outcome_bind]. rewrite IH, multiaddr_without_udp. by rewrite bind_cons, foldl_app.
Qed.

(** *** The service *)

(** The key a start uses, and its file afterwards. *)
Definition start_key (env : StartEnv) (config : NetworkConfig) (disk : Disk) : Keypair * KeyFile :=
  load_private_key (generated_key env) (key_write env) (key_file (node_dir (network_dir config) disk)).

(** The whole start: what a service that was built looks like. *)
Lemma service_new_ok env config fork meta ping disk :
  exists r disk', service_new env config fork meta ping disk = Ret (r, disk') /\
    key_file (node_dir (network_dir config) disk') = (start_key env config disk).2 /\
    (forall dir, dir <> network_dir config -> disk' !! dir = disk !! dir) /\
    forall s, r = Ok s ->
      exists e gs ident server socket transport sw,
        enr_peer_id e = peer_id_from_public_key (keypair_public (start_key env config disk).1) /\
        enr_tcp e = Some (Config.libp2p_port config) /\
        listen_on (listen_multiaddr config) (swarm_build transport (enr_peer_id e) MAX_CONNECTIONS_PER_PEER) =
          (Ok tt, sw) /\
        s = Service.new
          (foldl dial sw (libp2p_nodes config ++ (dedup (boot_nodes config) ≫= enr_multiaddr_tcp)))
          (Behaviour.new gs ident (PeerManager.new server (boot_nodes config) socket
            (disable_discovery config) (N.to_nat (max_peers config))
            (new_globals e fork meta ping (Config.libp2p_port config) (discovery_port config)))).
Proof.
  unfold service_new, start_key. set (files := node_dir (network_dir config) disk).
  destruct (load_private_key_secp (generated_key env) (key_write env) (key_file files)) as [s0 Hk].
  destruct (load_private_key _ _ _) as [key keys]. cbn in Hk. subst key. cbn [fst snd].
  destruct (load_enr_ok env s0 config fork (enr_file files)) as (r & records & -> & He). cbn [mbind Outcome_bind].
  set (disk' := <[network_dir config := mkNodeDir keys records]> disk).
  assert (Hfile : key_file (node_dir (network_dir config) disk') = keys)
    by (unfold disk'; by rewrite node_dir_insert).
  assert (Hdirs : forall dir, dir <> network_dir config -> disk' !! dir = disk !! dir)
    by (intros dir Hd; by apply other_dir).
  destruct r as [e|err]; [|by eexists _, disk'].
  destruct (He e eq_refl) as [Hpeer Htcp].
  destruct (build_transport env _) as [transport|err]; [|by eexists _, disk'].
  destruct (behaviour_new_ok s0 config (new_globals e fork meta ping (Config.libp2p_port config)
    (discovery_port config))) as (rb & -> & Hb). cbn [mbind Outcome_bind].
  destruct rb as [b|err]; [|by eexists _, disk'].
  destruct (listen_on _ _) as [[[]|err] sw] eqn:Hl; [|by eexists _, disk'].
  rewrite dial_boot_nodes_ok by done. cbn [mbind Outcome_bind].
  eexists _, disk'. split; [done|]. split; [done|]. split; [done|]. intros s [= <-].
  destruct (Hb b eq_refl) as (gs & ident & server & socket & ->).
  exists e, gs, ident, server, socket, transport, sw. by rewrite foldl_app.
Qed.

Lemma startup_reachable gs ident server boot socket disabled max e fork meta ping tcp udp sw :
  service_reachable (Service.new sw (Behaviour.new gs ident (PeerManager.new server boot socket disabled max
    (new_globals e fork meta ping tcp udp)))).
Proof.
  eexists sw, _. split; [|apply rtc_refl].
  exists gs, ident, server, boot, socket, disabled, max, e, fork, meta, ping, tcp, udp. apply rtc_refl.
Qed.

(** Subscribing only touches the behaviour. *)
Lemma subscribe_all_ok kinds m :
  let m' := subscribe_all kinds m in
  requests m' = requests m /\ num_requests m' = num_requests m /\ client_calls m' = client_calls m /\
  outbox m' = outbox m /\ local_peer_id (libp2p m') = local_peer_id (libp2p m) /\
  (service_reachable (libp2p m) -> service_reachable (libp2p m')).
Proof.
  unfold subscribe_all. revert m. induction kinds as [|kind kinds IH]; intros m; [done|]. cbn [foldl].
  destruct (IH (set_m_behaviour (subscribe_kind kind (m_behaviour m)).2 m)) as (-> & -> & -> & -> & -> & Hr).
  split_and!; try done.
  - unfold outbox, m_behaviour, subscribe_kind, subscribe. cbn. by destruct (gs_subscribe _ _).
  - intros (sw & b & Hb & Hsteps). apply Hr. exists sw, b. split; [done|]. eapply rtc_r; [exact Hsteps|].
    by apply (Step_behaviour 0%N (BC_subscribe (mkGossipTopic kind)) None).
Qed.

(** The start of a node. *)
Context `{!Texts}.

Lemma node_starts_ok (env : StartEnv) (config : Config) (fork : EnrForkId) (meta ping : list byte) (disk : Disk) :
  exists r disk', mothra_new env config fork meta ping disk = Ret (r, disk') /\
    match r with
    | Ok m => idle m /\ client_calls m = [Init fork] /\ outbox m = [] /\ service_reachable (libp2p m) /\
        loop_reachable (fun _ => 0%N) m
    | Err (calls, _) => calls = [Init fork]
    end.
Proof.
  unfold mothra_new.
  destruct (service_new_ok env (set_discv5_config (set_executor (discv5_config (network_config config)))
    (network_config config)) fork meta ping disk) as (r & disk' & -> & _ & _ & Hs). cbn [mbind Outcome_bind].
  destruct r as [s|e]; [|by eexists _, _]. eexists _, disk'. split; [done|].
  destruct (Hs s eq_refl) as (e & gs & ident & server & socket & transport & sw & _ & _ & _ & ->).
  assert (Hloop : forall m, fresh_node m -> loop_reachable (fun _ => 0%N) m)
    by (intros m Hm; exists m; split; [done|apply rtc_refl]).
  split_and!; try (eapply Hloop; do 16 eexists; reflexivity).
  all: unfold Mothra.new; match goal with |- context [subscribe_all ?k ?m] =>
    destruct (subscribe_all_ok k m) as (Hq & Hn & Hc & Ho & _ & Hr) end.
  1: unfold idle, table_wf; by rewrite Hq, Hn.
  1, 2: by rewrite ?Hc, ?Ho.
  apply Hr, startup_reachable.
Qed.
(** ** Properties *)

(** C32: a start returns, whatever is on disk and whatever the libraries
    answer, and its outcome is an error or a service in one of the states all
    the other theorems speak of. Such a service knows itself by one peer id, the
    one of its key: libp2p, the network globals and the record it announces
    agree, also when the record was read from the disk; and the record shows
    the port it listens on. *)
Theorem service_starts (env : StartEnv) (config : NetworkConfig) (fork : EnrForkId)
    (meta ping : list byte) (disk : Disk) :
  exists r disk', service_new env config fork meta ping disk = Ret (r, disk') /\
    forall s, r = Ok s ->
      let files := node_dir (network_dir config) disk in
      let key := (load_private_key (generated_key env) (key_write env) (key_file files)).1 in
      let globals := b_globals (behaviour s) in
      service_reachable s /\
      local_peer_id s = peer_id_from_public_key (keypair_public key) /\
      Globals.peer_id globals = local_peer_id s /\
      enr_peer_id (Globals.local_enr globals) = local_peer_id s /\
      enr_tcp (Globals.local_enr globals) = Some (Config.libp2p_port config) /\
      listen_port_tcp globals = Config.libp2p_port config.
Proof.
  destruct (service_new_ok env config fork meta ping disk) as (r & disk' & Hr & _ & _ & Hs).
  exists r, disk'. split; [done|]. intros s Hok.
  destruct (Hs s Hok) as (e & gs & ident & server & socket & transport & sw & Hp & Ht & _ & ->).
  cbn zeta. fold (start_key env config disk). rewrite <-Hp. split; [apply startup_reachable|]. by split_and!.
Qed.

(** C33: what a start dials: after the swarm listens on the configured address
    and TCP port, every libp2p address of the configuration, then the TCP
    addresses of the boot nodes, in order and never a UDP address. Only boot
    nodes that follow each other are recognised as duplicates: a node that is
    given twice with another one in between is dialed twice. *)
Theorem dialed_at_start (env : StartEnv) (config : NetworkConfig) (fork : EnrForkId)
    (meta ping : list byte) (disk disk' : Disk) (s : Service) :
  service_new env config fork meta ping disk = Ret (Ok s, disk') ->
  exists transport sw,
    listen_on (listen_multiaddr config) (swarm_build transport (local_peer_id s) MAX_CONNECTIONS_PER_PEER) =
      (Ok tt, sw) /\
    ma_iter (listen_multiaddr config) = [M_Ip (listen_address config); M_Tcp (Config.libp2p_port config)] /\
    swarm s = foldl dial sw (libp2p_nodes config ++ (dedup (boot_nodes config) ≫= enr_multiaddr_tcp)) /\
    forall e e', boot_nodes config = [e; e'; e] -> enr_eqb e' e = false -> enr_eqb e e' = false ->
      swarm s = foldl dial sw
        (libp2p_nodes config ++ enr_multiaddr_tcp e ++ enr_multiaddr_tcp e' ++ enr_multiaddr_tcp e).
Proof.
  intros Hnew. destruct (service_new_ok env config fork meta ping disk) as (r & disk1 & Hr & _ & _ & Hs).
  rewrite Hnew in Hr. injection Hr as <- <-.
  destruct (Hs s eq_refl) as (e & gs & ident & server & socket & transport & sw & _ & _ & Hl & ->).
  exists transport, sw. split; [done|]. split.
  { unfold listen_multiaddr. by rewrite ma_iter_push, ma_iter_from_ip. }
  split; [done|]. intros e1 e2 Hboot Hne1 Hne2. rewrite Hboot. cbn [dedup dedup_from]. rewrite Hne1, Hne2.
  cbn [swarm Service.new]. cbn. by rewrite app_nil_r.
Qed.

(** C23: the node is the same peer after a restart with the same data
    directory: a node whose key could be written, or was in its file already,
    comes back under its peer id, whatever else of the configuration is changed, whatever happened to the
    record file and to other directories, as long as the key file was left
    alone. The identity belongs to the directory: a start only touches the files
    of its own directory, and where there is no valid key it is a new peer, the
    one of the key it generates. *)
Theorem restart_keeps_peer_id (env env' : StartEnv) (config config' : NetworkConfig) (fork fork' : EnrForkId)
    (meta ping meta' ping' : list byte) (disk disk1 disk1' disk2 : Disk) (s s' : Service) :
  service_new env config fork meta ping disk = Ret (Ok s, disk1) ->
  service_new env' config' fork' meta' ping' disk1' = Ret (Ok s', disk2) ->
  (key_write env = Written \/ holds_key (key_file (node_dir (network_dir config) disk)) ->
   network_dir config' = network_dir config ->
   key_file (node_dir (network_dir config) disk1') = key_file (node_dir (network_dir config) disk1) ->
   local_peer_id s' = local_peer_id s /\
   key_file (node_dir (network_dir config) disk2) = key_file (node_dir (network_dir config) disk1)) /\
  (forall dir, dir <> network_dir config -> disk1 !! dir = disk !! dir) /\
  (~ holds_key (key_file (node_dir (network_dir config') disk1')) ->
   local_peer_id s' = peer_id_from_public_key (Public_Secp256k1 (secp_public (generated_key env')))).
Proof.
  intros Hr1 Hr2.
  destruct (service_new_ok env config fork meta ping disk) as (r & d & Hr & Hk1 & Hd1 & Hs1).
  rewrite Hr1 in Hr. injection Hr as <- <-.
  destruct (service_new_ok env' config' fork' meta' ping' disk1') as (r & d & Hr & Hk2 & _ & Hs2).
  rewrite Hr2 in Hr. injection Hr as <- <-.
  destruct (Hs1 s eq_refl) as (e1 & ? & ? & ? & ? & ? & ? & Hp1 & _ & _ & ->).
  destruct (Hs2 s' eq_refl) as (e2 & ? & ? & ? & ? & ? & ? & Hp2 & _ & _ & ->).
  split; [|split; [done|]].
  - intros Hw Hdir Hsame.
    assert (Hkey : start_key env' config' disk1' = start_key env config disk).
    { unfold start_key at 1. rewrite Hdir, Hsame. by apply load_private_key_again. }
    rewrite Hkey in Hk2, Hp2. rewrite Hdir in Hk2. split; [|by rewrite Hk2, Hk1]. cbn. by rewrite Hp1, Hp2.
  - intros Hnone. cbn. rewrite Hp2. unfold start_key, load_private_key.
    destruct (key_file (node_dir (network_dir config') disk1')) as [[bytes|]|]; try done.
    destruct (secp_from_bytes bytes) as [k|e] eqn:E; [|done]. destruct Hnone. by exists bytes, k.
Qed.

(** C5: [Mothra::new] returns, and a node that starts is ready: the client has
    been told of the start and of nothing else, no request is outstanding,
    nothing is queued for a peer, its service is reachable, and it is a start of
    the loop, without connections. A failed start still has told the client. *)
Theorem node_starts (env : StartEnv) (config : Config) (fork : EnrForkId) (meta ping : list byte) (disk : Disk) :
  exists r disk', mothra_new env config fork meta ping disk = Ret (r, disk') /\
    match r with
    | Ok m => idle m /\ client_calls m = [Init fork] /\ outbox m = [] /\ service_reachable (libp2p m) /\
        loop_reachable (fun _ => 0%N) m
    | Err (calls, _) => calls = [Init fork]
    end.
Proof. apply node_starts_ok. Qed.
End Startup.

(** ** A concrete instance: the swarm is the list of its banned peers and the
    list of the addresses it was told to listen on or to dial. *)
Definition start_swarm_lib : @SwarmLib demo_libp2p := {|
  Swarm := (list (@PeerId demo_libp2p) * list (@Multiaddr demo_libp2p))%type;
  ban_peer_id := fun p sw => (p :: sw.1, sw.2);
  unban_peer_id := fun p sw => (filter (fun q => q <> p) sw.1, sw.2);
|}.

Section Witnesses.
#[local] Existing Instance demo_libp2p.
#[local] Existing Instance demo_enrs.
#[local] Existing Instance demo_enr_laws.
#[local] Existing Instance demo_keys.
#[local] Existing Instance demo_peer_ids.
#[local] Existing Instance demo_key_total.
#[local] Existing Instance demo_key_laws.
#[local] Existing Instance demo_discv5.
#[local] Existing Instance demo_discv5_laws.
#[local] Existing Instance map_to_list_order.
#[local] Existing Instance table_queue.
#[local] Existing Instance demo_interval.
#[local] Existing Instance demo_connections.
#[local] Existing Instance demo_gossip_types.
#[local] Existing Instance demo_protocols.
#[local] Existing Instance demo_config_libs.
#[local] Existing Instance demo_platform.
#[local] Existing Instance start_swarm_lib.
#[local] Existing Instance demo_texts.
#[local] Existing Instance PeerManager.demo_profile.

Definition demo_start_lib : StartLib := {|
  discv5_new := fun (e : @Enr demo_libp2p demo_enrs) _ _ => Ok ([e] : @Discv5 _ _ _ _ demo_discv5);
  set_executor := fun c => c;
  gossipsub_new := fun _ _ => ([] : @Gossipsub _ _ _ demo_protocols);
  identify_new := fun _ _ _ => ([] : @Identify _ _ _ demo_protocols);
  swarm_build := fun _ _ _ => (([], []) : @Swarm _ start_swarm_lib);
  listen_on := fun a (sw : @Swarm _ start_swarm_lib) => (Ok tt, (sw.1, sw.2 ++ [a]));
  dial_addr := fun a (sw : @Swarm _ start_swarm_lib) => (Ok tt, (sw.1, sw.2 ++ [a]));
  enr_eqb := fun e e' : @Enr demo_libp2p demo_enrs => N.eqb (demo_key_id e) (demo_key_id e');
|}.
#[local] Existing Instance demo_start_lib.

#[local] Existing Instance demo_record_laws.

(** Two boot nodes, the first of them twice. *)
Definition demo_boot (key : Byte.byte) : @Enr demo_libp2p demo_enrs :=
  mkDemoEnr (mkEnrFields (Some (V4 9%N)) (Some 7000%N) (Some (Byte.to_N key)) []) 1%N (key, true).

Definition demo_network (boot : list Enr) : NetworkConfig := set_boot_nodes boot NetworkConfig_default.

Definition demo_env (key : byte) : StartEnv := mkStartEnv (key : @SecpSecret _ _ demo_keys) Written Written (Ok tt) false.

(** No key yet, and a stored record of the key that will be generated. *)
Definition demo_disk : Disk :=
  {[network_dir NetworkConfig_default := mkNodeDir None (Some (Some "stored"%string))]}.

(** A start that succeeds. *)
Definition succeeds {A E} (m : Outcome (Result A E * Disk)) : bool :=
  match m with Ret (Ok _, _) => true | _ => false end.

Lemma succeeds_ok {A E} (m : Outcome (Result A E * Disk)) :
  succeeds m = true -> exists a disk, m = Ret (Ok a, disk).
Proof. destruct m as [[[a|e] disk]| |]; try done. by eexists _, _. Qed.

Definition demo_start (key : byte) (boot : list Enr) (disk : Disk) :=
  service_new (demo_env key) (demo_network boot) [x01] [] [] disk.

Lemma dialed_at_start_witness :
  exists s disk', demo_start x07 [demo_boot x28; demo_boot x29; demo_boot x28] demo_disk = Ret (Ok s, disk') /\
    swarm s = (([], [[M_Ip (V4 2130706433%N); M_Tcp 9000%N]; [M_Ip (V4 9%N); M_Tcp 40%N];
      [M_Ip (V4 9%N); M_Tcp 41%N]; [M_Ip (V4 9%N); M_Tcp 40%N]]) : @Swarm _ start_swarm_lib).
Proof.
  destruct (succeeds_ok (demo_start x07 [demo_boot x28; demo_boot x29; demo_boot x28] demo_disk))
    as (s & disk' & E); [vm_compute; reflexivity|].
  exists s, disk'. split; [exact E|].
  destruct (dialed_at_start _ _ _ _ _ _ _ _ E) as (t & sw & Hl & _ & _ & Hd).
  rewrite (Hd (demo_boot x28) (demo_boot x29)) by reflexivity.
  injection Hl as <-. reflexivity.
Defined.

Lemma service_starts_witness :
  exists s disk', demo_start x07 [] demo_disk = Ret (Ok s, disk') /\
    service_reachable s /\ local_peer_id s = 29%N.
Proof.
  destruct (succeeds_ok (demo_start x07 [] demo_disk)) as (s & disk' & E); [vm_compute; reflexivity|].
  destruct (service_starts (demo_env x07) (demo_network []) [x01] [] [] demo_disk) as (r & disk1 & Hr & Hs).
  unfold demo_start in E. rewrite E in Hr. injection Hr as <- <-.
  exists s, disk'. split; [exact E|]. destruct (Hs s eq_refl) as (Hreach & Hp & _).
  split; [exact Hreach|exact Hp].
Defined.

(** The second start would generate another key, has another
    number of peers and finds no record; one in another directory is the peer of its own key. *)
Definition demo_renamed : NetworkConfig := set_max_peers 9%N (demo_network []).
Definition demo_elsewhere : NetworkConfig := set_network_dir "/elsewhere" (demo_network []).

Definition demo_start_with (config : NetworkConfig) (disk : Disk) :=
  service_new (demo_env x0a) config [x01] [] [] disk.

Definition lose_record (disk : Disk) : Disk :=
  alter (fun d => mkNodeDir (key_file d) None) (network_dir NetworkConfig_default) disk.

(** The disk after a start. *)
Definition disk_of {A E} (m : Outcome (Result A E * Disk)) : Disk :=
  match m with Ret (_, d) => d | _ => ∅ end.

Lemma restart_keeps_peer_id_witness :
  exists s disk1 s' disk2 s'' disk3, demo_start x07 [] demo_disk = Ret (Ok s, disk1) /\
    demo_start_with demo_renamed (lose_record disk1) = Ret (Ok s', disk2) /\
    demo_start_with demo_elsewhere disk1 = Ret (Ok s'', disk3) /\
    local_peer_id s' = local_peer_id s /\ local_peer_id s'' = 41%N.
Proof.
  destruct (succeeds_ok (demo_start x07 [] demo_disk)) as (s & disk1 & E1); [vm_compute; reflexivity|].
  assert (Hd : disk1 = disk_of (demo_start x07 [] demo_disk)) by (by rewrite E1).
  destruct (succeeds_ok (demo_start_with demo_renamed (lose_record disk1))) as (s' & disk2 & E2);
    [rewrite Hd; vm_compute; reflexivity|].
  destruct (succeeds_ok (demo_start_with demo_elsewhere disk1)) as (s'' & disk3 & E3);
    [rewrite Hd; vm_compute; reflexivity|].
  exists s, disk1, s', disk2, s'', disk3. split; [exact E1|]. split; [exact E2|]. split; [exact E3|]. split.
  - apply (restart_keeps_peer_id _ _ _ _ _ _ _ _ _ _ _ _ _ _ _ _ E1 E2); [left; reflexivity|reflexivity|].
    rewrite Hd. vm_compute. reflexivity.
  - rewrite (proj2 (proj2 (restart_keeps_peer_id _ _ _ _ _ _ _ _ _ _ _ _ _ _ _ _ E1 E3))); [reflexivity|].
    intros (bytes & k & Hk & _). revert Hk. rewrite Hd. vm_compute. discriminate.
Defined.

Lemma node_starts_witness :
  exists m disk', mothra_new (demo_env x07) (mkConfig "node" "1" "info" (demo_network [])) [x01] [] [] demo_disk =
      Ret (Ok m, disk') /\ idle m /\ client_calls m = [Init [x01]].
Proof.
  destruct (succeeds_ok (mothra_new (demo_env x07) (mkConfig "node" "1" "info" (demo_network [])) [x01] [] []
    demo_disk)) as (m & disk' & E); [vm_compute; reflexivity|].
  destruct (node_starts (demo_env x07) (mkConfig "node" "1" "info" (demo_network [])) [x01] [] [] demo_disk)
    as (r & disk1 & Hr & Hm).
  rewrite E in Hr. injection Hr as <- <-.
  exists m, disk'. split; [exact E|]. destruct Hm as (Hi & Hc & _). split; [exact Hi|exact Hc].
Defined.
End Witnesses.
