(* ===== verification/Ffi.v ===== *)
(** * The C interface (src/core/ffi/src/lib.rs)

    The functions an application calls from C, the static variables behind
    them, and the [Subscriber] that passes the calls of the network service on
    to the application's C functions.  A C string is the list of its bytes
    before the NUL, a region of memory the list of the bytes that can be read
    from its start; reading outside a region is [Undefined_behaviour]. *)
From Stdlib Require Import NArith Strings.String Strings.Byte.
From S2P Require Import Prelude Utf8 Env RpcMethods RpcProtocol PeerInfo PeerDB DelayQueue HashSetDelay.
From S2P Require Import EnrExt Keys Config Discovery Globals PeerManager RpcHandler RpcBehaviour Behaviour.
From S2P Require Import Service Mothra Startup.

Open Scope list_scope.

(** The types of the C functions, the command-line parser and env_logger, whose
    [init] sets the logger of the process. *)
Class CLibs `{!Clap} := {
  DiscoveredPeerType : Type;
  ReceiveGossipType : Type;
  ReceiveRpcType : Type;
  get_matches_from_safe : list Arg -> list string -> Result ArgMatches string;
  LoggerState : Type;
  logger_initialized : LoggerState -> bool;
  env_logger_init : LoggerState -> Outcome LoggerState;
}.

(** [init] panics when it is called more than once, or when another logger is
    set. *)
Class CLibsLaws `{CLibs} := {
  env_logger_init_spec : forall l,
    if logger_initialized l then exists msg, env_logger_init l = Panic msg
    else exists l', env_logger_init l = Ret l' /\ logger_initialized l' = true;
}.

Section Ffi.
Context `{Discv5Lib} `{HashOrder} `{BuildProfile} `{DelayQueue} `{IntervalLib}.
Context `{!ConfigLibs} `{!Connections} `{!GossipTypes} `{!SubProtocols} `{!SwarmLib} `{!StartLib} `{!Texts}.
Context `{!Clap} `{!Platform} `{!CLibs}.

(** ** The calls to C *)

(** A pointer, as the bytes that can be read from it, and the length passed
    with it. *)
Record CSlice := mkCSlice { ptr : list byte; len : Z }.

(** The calls to the three functions. *)
Inductive CCall :=
| C_discovered_peer (f : DiscoveredPeerType) (peer : CSlice)
| C_receive_gossip (f : ReceiveGossipType) (message_id peer_id topic data : CSlice)
| C_receive_rpc (f : ReceiveRpcType) (method : CSlice) (req_resp : Z) (peer data : CSlice).

(** What the C function reads when it believes the length. *)
Definition c_read (s : CSlice) : option (list byte) :=
  if decide (0 <= len s <= Z.of_nat (length (ptr s)))%Z then Some (take (Z.to_nat (len s)) (ptr s)) else None.

(** [cast::i16] of a [usize], and its [unwrap]. *)
Definition fits_i16 (n : nat) : Prop := (Z.of_nat n <= 32767)%Z.
#[local] Instance fits_i16_dec n : Decision (fits_i16 n) := decide_rel Z.le (Z.of_nat n) 32767.

Definition i16 (n : nat) : Result Z string :=
  if decide (fits_i16 n) then Ok (Z.of_nat n) else Err "Overflow"%string.

Definition i16_unwrap (n : nat) : Outcome Z :=
  expect (i16 n) "called `Result::unwrap()` on an `Err` value: Overflow".

(** The log levels of the terminal. *)
Inductive Level := Level_Info | Level_Debug | Level_Trace | Level_Warning | Level_Error | Level_Critical.

(** [struct Context], with the ends of what it holds: the task of the network
    service, which is gone once it has panicked, the messages sent to it, and
    the calls to C it has made. *)
Record Context := mkContext {
  task : option Mothra;
  channel : list NetworkMessage;
  c_calls : list CCall;
  level : Level;
}.

(** The static variables, and the logger of the process. *)
Record Statics := mkStatics {
  contexts : list Context;
  discovered_peer_ptr : option DiscoveredPeerType;
  receive_gossip_ptr : option ReceiveGossipType;
  receive_rpc_ptr : option ReceiveRpcType;
  logger : LoggerState;
}.

Definition set_contexts v st :=
  mkStatics v (discovered_peer_ptr st) (receive_gossip_ptr st) (receive_rpc_ptr st) (logger st).
Definition set_logger v st :=
  mkStatics (contexts st) (discovered_peer_ptr st) (receive_gossip_ptr st) (receive_rpc_ptr st) v.

Definition register_handlers (discovered_peer : DiscoveredPeerType) (receive_gossip : ReceiveGossipType)
    (receive_rpc : ReceiveRpcType) (st : Statics) : Statics :=
  mkStatics (contexts st) (Some discovered_peer) (Some receive_gossip) (Some receive_rpc) (logger st).

(** ** [impl Subscriber for Client] *)

(** The bytes of a vector of [u8]. *)
Definition u8_bytes (data : list Z) : list byte :=
  (fun z => default x00 (Byte.of_N (Z.to_N z))) <$> data.

Definition NONE_UNWRAP : string := "called `Option::unwrap()` on a `None` value".

Definition discovered_peer (st : Statics) (peer : string) : Outcome CCall :=
  peer_length ← i16_unwrap (String.length peer);
  f ← unwrap (discovered_peer_ptr st) NONE_UNWRAP;
  mret (C_discovered_peer f (mkCSlice (as_bytes peer) peer_length)).

Definition receive_gossip (st : Statics) (message_id : string) (sequence_number : N)
    (agent_string peer_id topic : string) (data : list byte) : Outcome CCall :=
  message_id_length ← i16_unwrap (String.length topic);
  peer_id_length ← i16_unwrap (String.length topic);
  topic_length ← i16_unwrap (String.length topic);
  data_length ← i16_unwrap (length data);
  f ← unwrap (receive_gossip_ptr st) NONE_UNWRAP;
  mret (C_receive_gossip f (mkCSlice (as_bytes message_id) message_id_length)
    (mkCSlice (as_bytes peer_id) peer_id_length) (mkCSlice (as_bytes topic) topic_length)
    (mkCSlice data data_length)).

Definition receive_rpc (st : Statics) (method : string) (req_resp : Z) (peer : string) (data : list Z)
    : Outcome CCall :=
  method_length ← i16_unwrap (String.length method);
  peer_length ← i16_unwrap (String.length peer);
  data_length ← i16_unwrap (length data);
  f ← unwrap (receive_rpc_ptr st) NONE_UNWRAP;
  mret (C_receive_rpc f (mkCSlice (as_bytes method) method_length) req_resp
    (mkCSlice (as_bytes peer) peer_length) (mkCSlice (u8_bytes data) data_length)).

(** A call of the network service; [init] does nothing. *)
Definition callback (st : Statics) (c : ClientCall) : Outcome (option CCall) :=
  match c with
  | Init _ => mret None
  | Receive_gossip message_id sequence_number agent_string peer_id topic data =>
    Some <$> receive_gossip st message_id sequence_number agent_string peer_id topic data
  | Receive_rpc method req_resp peer data => Some <$> receive_rpc st method req_resp peer data
  end.

(** Calls one after the other, up to a panic: what C has been told, and
    whether all returned. *)
Fixpoint callbacks (st : Statics) (calls : list ClientCall) : list CCall * bool :=
  match calls with
  | [] => ([], true)
  | c :: calls =>
    match callback st c with
    | Ret o => let '(told, ok) := callbacks st calls in (option_list o ++ told, ok)
    | _ => ([], false)
    end
  end.

(** One event of the libp2p service in the task: a panic ends the task. *)
Definition task_event (st : Statics) (event : Libp2pEvent) (ctx : Context) : Context :=
  match task ctx with
  | None => ctx
  | Some m =>
    match on_libp2p_event event m with
    | Ret m' =>
      let '(told, ok) := callbacks st (drop (length (client_calls m)) (client_calls m')) in
      mkContext (if ok then Some m' else None) (channel ctx) (c_calls ctx ++ told) (level ctx)
    | _ => mkContext None (channel ctx) (c_calls ctx) (level ctx)
    end
  end.

Definition task_events (st : Statics) (events : list Libp2pEvent) (ctx : Context) : Context :=
  foldl (fun ctx event => task_event st event ctx) ctx events.

(** ** [network_start] *)

(** How a call ends: [process::exit(1)], a panic, or reading outside of what
    the caller passed. *)
Inductive StartEnd := Started | Exited | Panicked (msg : string) | Undefined_behaviour | Diverged.

(** The three constants: a text that is not UTF-8 counts as none. *)
Definition c_constant (c : list byte) : option string :=
  if from_utf8 c then
    match c with [] => None | _ => Some (of_bytes c) end
  else None.

(** [*args.offset(idx)] for [idx] in [0..num_args]: arguments that are not
    UTF-8 are skipped; [None] when there are fewer. *)
Definition c_args (args : list (list byte)) (num_args : Z) : option (list string) :=
  if decide (Z.to_nat num_args <= length args)%nat then
    Some (of_bytes <$> filter (fun c => from_utf8 c = true) (take (Z.to_nat num_args) args))
  else None.

Definition log_level (debug_level : string) : Level :=
  if String.eqb debug_level "info" then Level_Info
  else if String.eqb debug_level "debug" then Level_Debug
  else if String.eqb debug_level "trace" then Level_Trace
  else if String.eqb debug_level "warn" then Level_Warning
  else if String.eqb debug_level "error" then Level_Error
  else if String.eqb debug_level "crit" then Level_Critical
  else Level_Info.

(** What a call is given: the constants and the arguments, what the system
    answers when the runtime is started, and the environment of the node. *)
Record StartCall := mkStartCall {
  client_constants : list (list byte);
  num_client_constants : Z;
  start_args : list (list byte);
  num_args : Z;
  runtime_new : Result unit string;
  start_env : StartEnv;
}.

(** The part after the configuration is known. *)
Definition start_network (call : StartCall) (config : Config) (st : Statics) (disk : Disk)
    : StartEnd * Statics * Disk :=
  match env_logger_init (logger st) with
  | Ret l =>
    let st := set_logger l st in
    let level := log_level (debug_level config) in
    let enr_fork_id := replicate 32 x00 in
    let meta_data := replicate 32 x00 in
    let ping_data := replicate 32 x00 in
    match runtime_new call with
    | Err e =>
      (Panicked ("called `Result::unwrap()` on an `Err` value: Failed to start runtime: " +:+ e), st, disk)
    | Ok _ =>
      match mothra_new (start_env call) config enr_fork_id meta_data ping_data disk with
      | Ret (Ok m, disk) => (Started, set_contexts (contexts st ++ [mkContext (Some m) [] [] level]) st, disk)
      | Ret (Err (_, e), disk) => (Panicked ("called `Result::unwrap()` on an `Err` value: " +:+ e), st, disk)
      | Panic msg => (Panicked msg, st, disk)
      | OutOfFuel => (Diverged, st, disk)
      end
    end
  | Panic msg => (Panicked msg, st, disk)
  | OutOfFuel => (Diverged, st, disk)
  end.

Definition network_start (call : StartCall) (st : Statics) (disk : Disk) : StartEnd * Statics * Disk :=
  match client_constants call !! 0%nat, client_constants call !! 1%nat, client_constants call !! 2%nat,
        c_args (start_args call) (num_args call) with
  | Some name, Some version, Some protocol, Some args_vec =>
    let client_name := c_constant name in
    let client_version := c_constant version in
    let protocol_version := c_constant protocol in
    match get_matches_from_safe cli_app args_vec with
    | Err _ => (Exited, st, disk)
    | Ok matches =>
      match get_config client_name client_version protocol_version matches with
      | Ret config => start_network call config st disk
      | Panic msg => (Panicked msg, st, disk)
      | OutOfFuel => (Diverged, st, disk)
      end
    end
  | _, _, _, _ => (Undefined_behaviour, st, disk)
  end.

(** ** The functions that send *)

(** How a sending function ends. *)
Inductive SendEnd := Sent | Send_panicked (msg : string) | Send_undefined.

(** [slice::from_raw_parts] *)
Definition from_raw_parts (mem : list byte) (n : nat) : option (list byte) :=
  if decide (n <= length mem)%nat then Some (take n mem) else None.

(** [str::from_utf8_unchecked(slice::from_raw_parts(mem, n)).into()] *)
Definition str_from_raw_parts (mem : list byte) (n : nat) : option string :=
  match from_raw_parts mem n with
  | Some bs => if from_utf8 bs then Some (of_bytes bs) else None
  | None => None
  end.

(** [CONTEXT[0].network_send]: an [UnboundedSender] of the first network; the
    message is lost when the task is gone. *)
Definition send_message (message : Outcome NetworkMessage) (st : Statics) : SendEnd * Statics :=
  match contexts st with
  | [] => (Send_panicked "index out of bounds", st)
  | ctx :: rest =>
    match message with
    | Ret message =>
      let channel := match task ctx with Some _ => channel ctx ++ [message] | None => channel ctx end in
      (Sent, set_contexts (mkContext (task ctx) channel (c_calls ctx) (level ctx) :: rest) st)
    | Panic msg => (Send_panicked msg, st)
    | OutOfFuel => (Send_undefined, st)
    end
  end.

Definition send_gossip (topic : list byte) (topic_length : nat) (data : list byte) (data_length : nat)
    (st : Statics) : SendEnd * Statics :=
  match contexts st, str_from_raw_parts topic topic_length, from_raw_parts data data_length with
  | [], _, _ => (Send_panicked "index out of bounds", st)
  | _, Some topic, Some data => send_message (mret (gossip topic data)) st
  | _, _, _ => (Send_undefined, st)
  end.

Definition send_rpc_request (method : list byte) (method_length : nat) (peer : list byte) (peer_length : nat)
    (data : list byte) (data_length : nat) (st : Statics) : SendEnd * Statics :=
  match contexts st, str_from_raw_parts method method_length, str_from_raw_parts peer peer_length,
        from_raw_parts data data_length with
  | [], _, _, _ => (Send_panicked "index out of bounds", st)
  | _, Some method, Some peer, Some data => send_message (rpc_request method peer data) st
  | _, _, _, _ => (Send_undefined, st)
  end.

Definition send_rpc_response (method : list byte) (method_length : nat) (peer : list byte) (peer_length : nat)
    (data : list byte) (data_length : nat) (st : Statics) : SendEnd * Statics :=
  match contexts st, str_from_raw_parts method method_length, str_from_raw_parts peer peer_length,
        from_raw_parts data data_length with
  | [], _, _, _ => (Send_panicked "index out of bounds", st)
  | _, Some method, Some peer, Some data => send_message (rpc_response method peer data) st
  | _, _, _, _ => (Send_undefined, st)
  end.

(** ** Lemmas *)

Lemma length_as_bytes s : length (as_bytes s) = String.length s.
Proof.
  unfold as_bytes, list_byte_of_string. rewrite length_map.
  induction s as [|c s IH]; [done|]. cbn. by rewrite IH.
Qed.

Lemma i16_unwrap_cases n :
  i16_unwrap n = if decide (fits_i16 n) then Ret (Z.of_nat n)
                 else Panic "called `Result::unwrap()` on an `Err` value: Overflow".
Proof. unfold i16_unwrap, i16. by case_decide. Qed.

Lemma i16_unwrap_ok n : fits_i16 n -> i16_unwrap n = Ret (Z.of_nat n).
Proof. intros Hn. by rewrite i16_unwrap_cases, decide_True. Qed.

Lemma c_read_prefix bs n :
  c_read (mkCSlice bs (Z.of_nat n)) = if decide (n <= length bs)%nat then Some (take n bs) else None.
Proof. unfold c_read. cbn. rewrite Nat2Z.id. by repeat case_decide; try lia. Qed.

Lemma c_read_whole bs : c_read (mkCSlice bs (Z.of_nat (length bs))) = Some bs.
Proof. rewrite c_read_prefix, decide_True by lia. by rewrite take_ge. Qed.

(** A task that is gone tells nothing. *)
Lemma task_gone st events ctx : task ctx = None -> task_events st events ctx = ctx.
Proof.
  intros Ht. unfold task_events. induction events as [|e events IH]; [done|]. cbn.
  unfold task_event at 2. rewrite Ht. exact IH.
Qed.

(** What C is told of a callback that is not about gossip. *)
Definition told (st : Statics) (c : ClientCall) (call : CCall) : Prop :=
  match c, call with
  | Receive_rpc method req_resp peer data, C_receive_rpc f method' req_resp' peer' data' =>
    receive_rpc_ptr st = Some f /\ c_read method' = Some (as_bytes method) /\ req_resp' = req_resp /\
    c_read peer' = Some (as_bytes peer) /\ c_read data' = Some (u8_bytes data)
  | _, _ => False
  end.

(** ** Properties *)

(** C15: what the application is given of a gossip message: the topic and the
    data arrive whole, but the message id and the peer id are passed with the
    length of the topic, so that the application reads a prefix of them, or
    past their end when the topic is longer. A message whose topic or data has
    more than 32767 bytes, which gossipsub accepts up to a megabyte, panics in
    the task of the network service: the message is not delivered, and no
    event that comes later is. *)
Theorem gossip_delivery (st : Statics) (ctx : Context) (m : Mothra) (f : ReceiveGossipType) (id : MessageId)
    (seq : N) (agent : string) (source : PeerId) (t : TopicHash) (topics : list TopicHash) (data : list byte) :
  task ctx = Some m -> receive_gossip_ptr st = Some f ->
  let event := LE_Behaviour (PubsubMessage id seq agent source (t :: topics) data) in
  let topic := as_bytes (topic_to_string t) in
  let cut s := if decide (length topic <= length s)%nat then Some (take (length topic) s) else None in
  (32767 < GOSSIP_MAX_SIZE)%N /\
  if decide (fits_i16 (length topic) /\ fits_i16 (length data)) then
    exists m' message_id peer_id topic' data',
      task (task_event st event ctx) = Some m' /\
      c_calls (task_event st event ctx) = c_calls ctx ++ [C_receive_gossip f message_id peer_id topic' data'] /\
      c_read topic' = Some topic /\ c_read data' = Some data /\
      c_read message_id = cut (as_bytes (message_id_to_string id)) /\
      c_read peer_id = cut (as_bytes (peer_to_string source))
  else
    forall events, let ctx' := task_events st (event :: events) ctx in
      task ctx' = None /\ c_calls ctx' = c_calls ctx.
Proof.
  intros Ht Hf event topic cut. split; [done|].
  assert (Hlen : String.length (topic_to_string t) = length topic) by (unfold topic; by rewrite length_as_bytes).
  assert (He : task_event st event ctx =
    let '(told, ok) := callbacks st [Receive_gossip (message_id_to_string id) seq agent (peer_to_string source)
      (topic_to_string t) data] in
    mkContext (if ok then Some (tell_client (Receive_gossip (message_id_to_string id) seq agent
      (peer_to_string source) (topic_to_string t) data) m) else None) (channel ctx) (c_calls ctx ++ told) (level ctx)).
  { unfold task_event. rewrite Ht. cbn [event on_libp2p_event head unwrap mbind Outcome_bind mret Outcome_ret].
    cbn [tell_client set_client_calls client_calls]. by rewrite drop_app_length. }
  case_decide as Hsize.
  - destruct Hsize as [Htopic Hdata]. rewrite He. cbn [callbacks callback]. unfold receive_gossip.
    rewrite Hlen, !i16_unwrap_ok, Hf by done. cbn.
    eexists _, _, _, _, _. split; [done|]. split; [done|].
    rewrite !c_read_whole, !c_read_prefix. by split_and!.
  - assert (Hpanic : task_event st event ctx = mkContext None (channel ctx) (c_calls ctx) (level ctx)).
    { rewrite He. cbn [callbacks callback]. unfold receive_gossip. rewrite Hlen, !i16_unwrap_cases.
      destruct (decide (fits_i16 (length topic))); [|cbn; by rewrite app_nil_r].
      rewrite decide_False by tauto. cbn. by rewrite app_nil_r. }
    intros events. unfold task_events. cbn [foldl]. rewrite Hpanic.
    change (foldl _ ?c events) with (task_events st events c). by rewrite task_gone.
Qed.

(** The texts of peer ids are short, as base58 of at most 42 bytes is. *)
Definition short_peers : Prop := forall p, fits_i16 (String.length (peer_to_string p)).

(** The event is handled, and C is told what the client is. *)
Definition delivered (st : Statics) (event : Libp2pEvent) (m : Mothra) (ctx : Context) : Prop :=
  exists m' cs calls,
    on_libp2p_event event m = Ret m' /\ client_calls m' = client_calls m ++ cs /\
    task (task_event st event ctx) = Some m' /\ c_calls (task_event st event ctx) = c_calls ctx ++ calls /\
    Forall2 (told st) cs calls.

Lemma delivered_rpc st event m ctx f rr p data m' :
  task ctx = Some m -> receive_rpc_ptr st = Some f -> short_peers -> fits_i16 (length data) ->
  on_libp2p_event event m = Ret (tell_client (Receive_rpc "Status" rr (peer_to_string p) data) m') ->
  client_calls m' = client_calls m -> delivered st event m ctx.
Proof.
  intros Ht Hf Hshort Hd Hr Hc. unfold delivered, task_event. rewrite Ht, Hr.
  cbn [tell_client set_client_calls client_calls].
  rewrite Hc, drop_app_length. cbn [callbacks callback]. unfold receive_rpc.
  rewrite (i16_unwrap_ok (String.length "Status")), (i16_unwrap_ok _ (Hshort p)), (i16_unwrap_ok _ Hd), Hf by done.
  eexists _, [_], [_]. split; [done|]. split; [cbn; by rewrite Hc|]. split; [done|]. split; [done|].
  constructor; [|done]. cbn [told]. split_and!; try done.
  - by rewrite <-length_as_bytes, c_read_whole.
  - replace (length data) with (length (u8_bytes data)) by (unfold u8_bytes; by rewrite length_fmap).
    by rewrite c_read_whole.
Qed.

Lemma delivered_nothing st event m ctx m' :
  task ctx = Some m -> on_libp2p_event event m = Ret m' -> client_calls m' = client_calls m ->
  delivered st event m ctx.
Proof.
  intros Ht Hr Hc. exists m', [], []. unfold task_event. rewrite Ht, Hr, Hc, drop_ge by done. cbn.
  by rewrite !app_nil_r.
Qed.

(** Every event but a gossip message keeps the network service alive under
    the C client: if the handlers are registered, the event is handled, and C is
    told exactly what the service tells its client, in order, each text and
    each byte with its own length. *)
Theorem rpc_delivery (st : Statics) (ctx : Context) (m : Mothra) (f : ReceiveRpcType) (event : Libp2pEvent) :
  task ctx = Some m -> table_wf m -> receive_rpc_ptr st = Some f -> short_peers ->
  (forall id seq agent source topics data, event <> LE_Behaviour (PubsubMessage id seq agent source topics data)) ->
  delivered st event m ctx.
Proof.
  intros Ht Hwf Hf Hshort Hev.
  destruct event as [[id p err|p id request|p id response|id seq agent source topics data|p topic|p]|addr|p endpoint|p endpoint];
    try (by eapply delivered_nothing); try (by destruct (Hev id seq agent source topics data)).
  - destruct (slot_ok (num_requests m) m Hwf) as (sl & Hslot & _); [apply Hwf|].
    eapply (delivered_rpc _ _ _ _ f 1%Z p [num_requests m]); [done..| |].
    { cbn [on_libp2p_event]. rewrite Hslot. reflexivity. }
    done.
  - by apply (delivered_rpc _ _ _ _ f 0%Z p [] m).
  - by apply (delivered_rpc _ _ _ _ f 0%Z p [] m).
Qed.

(** ** Starting more than once *)

Definition started (e : StartEnd) : bool := match e with Started => true | _ => false end.

(** A sequence of calls, each with its end. *)
Fixpoint run_starts (calls : list StartCall) (st : Statics) (disk : Disk) : list StartEnd * Statics * Disk :=
  match calls with
  | [] => ([], st, disk)
  | call :: calls =>
    let '(e, st, disk) := network_start call st disk in
    let '(ends, st, disk) := run_starts calls st disk in
    (e :: ends, st, disk)
  end.

Context `{!KeyTotal} `{!KeyLaws} `{!EnrLaws} `{!RecordLaws} `{!CLibsLaws}.

(** Nothing starts once the logger is set, and a start sets it. *)
Lemma start_network_ok call config st disk e st' disk' :
  start_network call config st disk = (e, st', disk') ->
  e <> Diverged /\ logger_initialized (logger st') = true /\
  (logger_initialized (logger st) = true -> e <> Started) /\
  (e = Started -> exists m level, contexts st' = contexts st ++ [mkContext (Some m) [] [] level] /\ idle m) /\
  (e <> Started -> contexts st' = contexts st).
Proof.
  unfold start_network. pose proof (env_logger_init_spec (logger st)) as Hl.
  destruct (logger_initialized (logger st)) eqn:El.
  - destruct Hl as [msg ->]. intros [= <- <- <-]. by split_and!.
  - destruct Hl as (l & -> & Hinit). destruct (runtime_new call) as [[]|err]; [|intros [= <- <- <-]; by split_and!].
    destruct (node_starts_ok (start_env call) config (replicate 32 x00) (replicate 32 x00) (replicate 32 x00) disk)
      as (r & disk1 & -> & Hr).
    destruct r as [m|[calls err]]; intros [= <- <- <-]; split_and!; try done.
    intros _. eexists _, _. split; [done|]. apply Hr.
Qed.

Lemma network_start_ok call st disk e st' disk' :
  network_start call st disk = (e, st', disk') ->
  (logger_initialized (logger st) = true -> e <> Started /\ logger_initialized (logger st') = true) /\
  (e = Started -> logger_initialized (logger st') = true /\
    exists m level, contexts st' = contexts st ++ [mkContext (Some m) [] [] level] /\ idle m) /\
  (e <> Started -> contexts st' = contexts st).
Proof.
  unfold network_start. repeat case_match; intros Hr; try (injection Hr as <- <- <-; by split_and!).
  apply start_network_ok in Hr as (_ & Hl & Hn & Hs & Hc). split_and!; try done; [by split; [apply Hn|]|].
  intros He. split; [done|]. by apply Hs.
Qed.

Lemma run_starts_none calls st disk ends st' disk' :
  run_starts calls st disk = (ends, st', disk') -> logger_initialized (logger st) = true ->
  contexts st' = contexts st /\ Forall (fun e => started e = false) ends.
Proof.
  revert st disk ends. induction calls as [|call calls IH]; intros st disk ends; cbn [run_starts].
  { intros [= <- <- <-]. by split. }
  destruct (network_start call st disk) as [[e st1] disk1] eqn:E1.
  destruct (run_starts calls st1 disk1) as [[ends1 st2] disk2] eqn:E2. intros [= <- <- <-] Hl.
  apply network_start_ok in E1 as (Hn & _ & Hc). destruct (Hn Hl) as [He Hl1].
  destruct (IH _ _ _ E2 Hl1) as [Hc2 Hends]. rewrite Hc2, (Hc He). split; [done|]. constructor; [|done].
  by destruct e.
Qed.

Lemma none_started ends :
  Forall (fun e => started e = false) ends -> filter (fun e => started e = true) ends = [].
Proof.
  induction 1 as [|e ends He Hends IH]; [done|]. rewrite filter_cons, decide_False by congruence. done.
Qed.

(** No context, or the one of the only start. *)
Lemma run_starts_ok calls st disk ends st' disk' :
  run_starts calls st disk = (ends, st', disk') -> contexts st = [] ->
  (contexts st' = [] /\ filter (fun e => started e = true) ends = []) \/
  exists m level, contexts st' = [mkContext (Some m) [] [] level] /\ idle m /\
    filter (fun e => started e = true) ends = [Started].
Proof.
  revert st disk ends. induction calls as [|call calls IH]; intros st disk ends; cbn [run_starts].
  { intros [= <- <- <-] Hempty. by left. }
  destruct (network_start call st disk) as [[e st1] disk1] eqn:E1.
  destruct (run_starts calls st1 disk1) as [[ends1 st2] disk2] eqn:E2. intros [= <- <- <-] Hempty.
  apply network_start_ok in E1 as (_ & Hs & Hc). rewrite filter_cons. destruct (started e) eqn:He.
  - right. destruct e; try done. destruct Hs as (Hl & m & level & Hctx & Hidle); [done|].
    destruct (run_starts_none _ _ _ _ _ _ E2 Hl) as [Hc2 Hends]. exists m, level.
    rewrite Hc2, Hctx, Hempty, decide_True by done. split; [done|]. split; [done|]. f_equal.
    by apply none_started.
  - rewrite decide_False by done. apply (IH _ _ _ E2). rewrite Hc; [done|]. by intros ->.
Qed.

(** C34: a process starts at most one network: whatever the calls of
    [network_start], at most one of them starts, and the vector of contexts
    never holds more than that one, ready to be used; every later call ends in
    an exit or a panic. Even a start that fails after the configuration was
    read, for instance because the port is taken, leaves the process unable to
    start: a call panics when env_logger is already set. *)
Theorem one_network (calls : list StartCall) (st : Statics) (disk : Disk) :
  contexts st = [] ->
  let '(ends, st', disk') := run_starts calls st disk in
  length (contexts st') = length (filter (fun e => started e = true) ends) /\
  (length (contexts st') <= 1)%nat /\
  Forall (fun ctx => exists m, task ctx = Some m /\ idle m /\ channel ctx = []) (contexts st') /\
  forall call config, let '(e, st1, disk1) := start_network call config st' disk' in
    forall calls', let '(ends', st2, _) := run_starts calls' st1 disk1 in
      Forall (fun e => started e = false) ends' /\ contexts st2 = contexts st1.
Proof.
  intros Hempty. destruct (run_starts calls st disk) as [[ends st'] disk'] eqn:E.
  split; [|split; [|split]].
  1-3: by destruct (run_starts_ok _ _ _ _ _ _ E Hempty) as [[-> Hs]|(m & level & -> & Hidle & Hs)];
    rewrite ?Hs; cbn; try lia; repeat constructor; eauto.
  intros call config. destruct (start_network call config st' disk') as [[e st1] disk1] eqn:E1. intros calls'.
  destruct (run_starts calls' st1 disk1) as [[ends' st2] disk2] eqn:E2.
  apply start_network_ok in E1 as (_ & Hl & _). by destruct (run_starts_none _ _ _ _ _ _ E2 Hl).
Qed.

(** ** Sending *)

Definition push_message (message : NetworkMessage) (ctx : Context) : Context :=
  mkContext (task ctx) (channel ctx ++ [message]) (c_calls ctx) (level ctx).

Lemma from_raw_parts_app bs extra : from_raw_parts (bs ++ extra) (length bs) = Some bs.
Proof. unfold from_raw_parts. rewrite decide_True by (rewrite length_app; lia). by rewrite take_app_length. Qed.

Lemma str_from_raw_parts_app bs extra :
  from_utf8 bs = true -> str_from_raw_parts (bs ++ extra) (length bs) = Some (of_bytes bs).
Proof. intros Hb. unfold str_from_raw_parts. by rewrite from_raw_parts_app, Hb. Qed.

Lemma send_message_first message ctx rest m st :
  contexts st = ctx :: rest -> task ctx = Some m ->
  send_message (Ret message) st = (Sent, set_contexts (push_message message ctx :: rest) st).
Proof. intros Hc Ht. unfold send_message, push_message. by rewrite Hc, Ht. Qed.

(** What an application sends from C reaches its network: from the memory
    it passes exactly the bytes of the lengths are taken, the topic keeps its
    bytes, and one message is queued for the first network; a peer that is not
    the text of a peer id panics and sends nothing. Without a network every
    call panics. *)
Theorem send_reaches_network (st : Statics) (topic peer method data x y z : list byte) :
  from_utf8 topic = true -> from_utf8 peer = true -> from_utf8 method = true ->
  match contexts st with
  | [] => forall f, f ∈ [send_gossip (topic ++ x) (length topic) (data ++ z) (length data);
      send_rpc_request (method ++ x) (length method) (peer ++ y) (length peer) (data ++ z) (length data);
      send_rpc_response (method ++ x) (length method) (peer ++ y) (length peer) (data ++ z) (length data)] ->
      f st = (Send_panicked "index out of bounds", st)
  | ctx :: rest => is_Some (task ctx) ->
    let sent message := (Sent, set_contexts (push_message message ctx :: rest) st) in
    (exists t, as_bytes (Globals.topic t) = topic /\
      send_gossip (topic ++ x) (length topic) (data ++ z) (length data) st = sent (Msg_Publish t data)) /\
    match peer_from_string (of_bytes peer) with
    | Some p =>
      send_rpc_request (method ++ x) (length method) (peer ++ y) (length peer) (data ++ z) (length data) st =
        sent (Msg_SendRequest p (Request_Status data) RequestId_Behaviour) /\
      send_rpc_response (method ++ x) (length method) (peer ++ y) (length peer) (data ++ z) (length data) st =
        sent (Msg_SendResponse p (Response_Status data) 0)
    | None => exists msg,
      send_rpc_request (method ++ x) (length method) (peer ++ y) (length peer) (data ++ z) (length data) st =
        (Send_panicked msg, st) /\
      send_rpc_response (method ++ x) (length method) (peer ++ y) (length peer) (data ++ z) (length data) st =
        (Send_panicked msg, st)
    end
  end.
Proof.
  intros Ht Hp Hm. destruct (contexts st) as [|ctx rest] eqn:Hc.
  { intros f Hf. rewrite !elem_of_cons in Hf.
    destruct Hf as [->|[->|[->|Hf]]]; [..|by apply not_elem_of_nil in Hf];
      unfold send_gossip, send_rpc_request, send_rpc_response; by rewrite Hc. }
  intros [m Htask] sent.
  unfold send_gossip, send_rpc_request, send_rpc_response.
  rewrite !str_from_raw_parts_app, !from_raw_parts_app, Hc by done. split.
  - exists (mkGossipTopic (of_bytes topic)). split; [apply as_bytes_of_bytes|].
    by apply (send_message_first _ _ _ m).
  - unfold rpc_request, rpc_response. destruct (peer_from_string (of_bytes peer)) as [p|].
    + split; by apply (send_message_first _ _ _ m).
    + eexists. cbn. unfold send_message. rewrite Hc. by split.
Qed.
End Ffi.

(** ** A concrete instance: the C functions have no address of their own, the
    parser accepts everything but "--bad", and the logger is a flag. *)
Section Witnesses.
#[local] Existing Instance demo_libp2p.
#[local] Existing Instance demo_enrs.
#[local] Existing Instance demo_enr_laws.
#[local] Existing Instance demo_keys.
#[local] Existing Instance demo_peer_ids.
#[local] Existing Instance demo_key_total.
#[local] Existing Instance demo_key_laws.
#[local] Existing Instance demo_discv5.
#[local] Existing Instance map_to_list_order.
#[local] Existing Instance table_queue.
#[local] Existing Instance demo_interval.
#[local] Existing Instance demo_connections.
#[local] Existing Instance demo_gossip_types.
#[local] Existing Instance demo_protocols.
#[local] Existing Instance demo_config_libs.
#[local] Existing Instance demo_platform.
#[local] Existing Instance demo_clap.
#[local] Existing Instance start_swarm_lib.
#[local] Existing Instance demo_start_lib.
#[local] Existing Instance demo_record_laws.
#[local] Existing Instance demo_texts.
#[local] Existing Instance PeerManager.demo_profile.

Definition demo_c_libs : CLibs := {|
  DiscoveredPeerType := unit;
  ReceiveGossipType := unit;
  ReceiveRpcType := unit;
  get_matches_from_safe := fun _ args => if decide ("--bad"%string ∈ args) then Err "unknown"%string else Ok demo_args;
  LoggerState := bool;
  logger_initialized := fun l => l;
  env_logger_init := fun l => if l then Panic "already initialized" else Ret true;
|}.
#[local] Existing Instance demo_c_libs.

Lemma demo_c_libs_laws : CLibsLaws.
Proof. split. intros []; by eexists. Qed.
#[local] Existing Instance demo_c_libs_laws.

Definition demo_node_mothra : Mothra := Mothra.new [] [] (Service.new (([], []) : @Swarm _ start_swarm_lib) demo_behaviour).
Definition demo_context : Context := mkContext (Some demo_node_mothra) [] [] Level_Info.
Definition demo_statics : Statics :=
  register_handlers (tt : @DiscoveredPeerType _ demo_c_libs) (tt : @ReceiveGossipType _ demo_c_libs)
    (tt : @ReceiveRpcType _ demo_c_libs) (mkStatics [demo_context] None None None (true : @LoggerState _ demo_c_libs)).

Definition demo_message (data : list byte) : Libp2pEvent :=
  LE_Behaviour (PubsubMessage (1%N : @MessageId demo_gossip_types) 5%N "agent" (1%N : @PeerId demo_libp2p)
    ["blocks"%string : @TopicHash demo_gossip_types] data).

(** The id "id" is passed as 6 bytes; and 32768 bytes of data end the task. *)
Lemma gossip_delivery_witness :
  (exists mid pid t d, c_calls (task_event demo_statics (demo_message [x01]) demo_context) =
      [C_receive_gossip (tt : @ReceiveGossipType _ demo_c_libs) mid pid t d] /\
    c_read d = Some [x01] /\ c_read mid = None) /\
  task (task_events demo_statics [demo_message (replicate (Z.to_nat 32768) x00)] demo_context) = None.
Proof.
  split.
  - pose proof (gossip_delivery demo_statics demo_context demo_node_mothra (tt : @ReceiveGossipType _ demo_c_libs)
      (1%N : @MessageId demo_gossip_types) 5%N "agent" (1%N : @PeerId demo_libp2p)
      ("blocks"%string : @TopicHash demo_gossip_types) [] [x01] eq_refl eq_refl) as [_ Hd].
    cbv zeta in Hd. rewrite decide_True in Hd by (split; vm_compute; discriminate).
    destruct Hd as (m' & mid & pid & t & d & _ & Hc & _ & Hdata & Hmid & _).
    exists mid, pid, t, d. split; [exact Hc|]. split; [exact Hdata|]. rewrite Hmid. reflexivity.
  - pose proof (gossip_delivery demo_statics demo_context demo_node_mothra (tt : @ReceiveGossipType _ demo_c_libs)
      (1%N : @MessageId demo_gossip_types) 5%N "agent" (1%N : @PeerId demo_libp2p)
      ("blocks"%string : @TopicHash demo_gossip_types) [] (replicate (Z.to_nat 32768) x00) eq_refl eq_refl) as [_ Hd].
    cbv zeta in Hd. rewrite decide_False in Hd by (unfold fits_i16; rewrite length_replicate; lia).
    exact (proj1 (Hd [])).
Defined.

Lemma rpc_delivery_witness :
  delivered demo_statics (LE_PeerConnected (1%N : @PeerId demo_libp2p) (Dialer ([] : @Multiaddr demo_libp2p)))
    demo_node_mothra demo_context.
Proof.
  apply (rpc_delivery demo_statics demo_context demo_node_mothra (tt : @ReceiveRpcType _ demo_c_libs));
    [reflexivity|split; [reflexivity|vm_compute; split; [discriminate|reflexivity]]|reflexivity| |discriminate].
  intros p. unfold peer_to_string, demo_texts, fits_i16. case_decide; vm_compute; discriminate.
Defined.

(** A refused command line, a start, and a second one. *)
Definition demo_call (args : list (list byte)) : StartCall :=
  mkStartCall [[]; []; []] 3 args (Z.of_nat (length args)) (Ok tt) (demo_env x07).
Definition demo_calls : list StartCall := [demo_call [as_bytes "--bad"]; demo_call [as_bytes "node"]; demo_call []].
Definition fresh_statics : Statics := mkStatics [] None None None (false : @LoggerState _ demo_c_libs).

Lemma one_network_witness :
  (run_starts demo_calls fresh_statics demo_disk).1.1 = [Exited; Started; Panicked "already initialized"] /\
  length (contexts (run_starts demo_calls fresh_statics demo_disk).1.2) = 1%nat.
Proof.
  pose proof (one_network demo_calls fresh_statics demo_disk eq_refl) as Hn.
  assert (Hends : (run_starts demo_calls fresh_statics demo_disk).1.1 =
    [Exited; Started; Panicked "already initialized"]) by (vm_compute; reflexivity).
  split; [exact Hends|].
  destruct (run_starts demo_calls fresh_statics demo_disk) as [[ends st'] disk']. cbn [fst snd] in *.
  destruct Hn as (Hl & _). rewrite Hl, Hends. reflexivity.
Defined.

Lemma send_reaches_network_witness :
  exists t, as_bytes (Globals.topic t) = [x61] /\
    send_gossip ([x61] ++ [xff]) 1 ([x01; x02] ++ []) 2 demo_statics =
      (Sent, set_contexts [push_message (Msg_Publish t [x01; x02]) demo_context] demo_statics).
Proof.
  pose proof (send_reaches_network demo_statics [x61] [x61] [] [x01; x02] [xff] [] [] eq_refl eq_refl eq_refl) as Hs.
  cbv zeta in Hs. destruct Hs as [Hs _]; [by eexists|]. exact Hs.
Defined.
End Witnesses.
